(* ===== verification/_CoqProject ===== *)
-Q . S2P
Prelude.v
JsText.v
Json.v
JsCollections.v
Jsonb.v
Crypto.v
Base64.v
Ids.v
JobQueue.v
Database.v
WellTyped.v
Records.v
Runtime.v
Host.v
Field.v
StellarUtils.v
Assets.v
Proving.v
Compliance.v
MpcProving.v
NoteVault.v
Store.v
Privy.v
Schemas.v
ApiAuth.v
Cctp.v
Rfq.v
Evm.v
CctpInbound.v
Worker.v
Prover.v
Solver.v
NoteCrypto.v
RoutesAccount.v
RoutesVault.v
StellarActions.v
RoutesTrade.v
RoutesSettle.v
ShadeView.v
RoutesReport.v
RoutesProxy.v
ApiTypes.v
Api.v
Shamir.v
Committee.v
Matching.v
CommitteeKeys.v
Settler.v
CommitteeState.v
Round.v
CommitteeServer.v
Leaves.v
Relayer.v
Auditor.v
SdkMpc.v
Sdk.v
WebClient.v
VaultRestore.v
ApiVault.v
Moves.v
DepositFlow.v
DepositRun.v
DepositPage.v
Checkout.v
