(* ===== verification/Prelude.v ===== *)
(** * Shade protocol: verification library

    Shade moves USDC from Arbitrum into a shielded pool on Stellar and lets its
    owner spend private notes there: withdrawals, request-for-quote swaps with
    a solver, and matches by a multi-party committee.  This library models the
    TypeScript side of the protocol: the committee, the API and its database,
    the queue and its workers, the solver, the auditor, the client SDK and the
    vault of the browser.  Paths below are under src/.

    ** The program and its parts

    A browser keeps a vault of notes, encrypted under a key that only recovery
    methods of the user open (packages/note-vault, apps/web, frontend); it
    talks to the API (apps/api) with a Privy token.  The API keeps everything
    in Postgres, through apps/api/src/db.ts, and hands slow work to workers
    through a durable queue, two tables of the same database (packages/queue).
    The prover (apps/prover) builds proofs with external binaries; the relayer
    (apps/relayer) validates burns, completes deposits, broadcasts spends and
    settles matches on Stellar.  The solver (apps/solver) signs quotes.  The
    committee (apps/mpc-committee) receives shares of intents, runs matching
    rounds, signs batches by threshold, stores them and queues their
    settlement.  The root auditor (apps/root-auditor) recomputes the pool's
    root from events and, on a mismatch, leaves a finding that stops the API
    from accepting spends.

    ** Files and sources

    - Runtime: Prelude (results, the state-and-error monad [M], tables as
      lists of rows, tactics), JsText (strings, BigInt, number parsing), Json
      (values, JSON.stringify and JSON.parse, their round trip),
      JsCollections (Map, Set, array methods, stable sort), Crypto (bytes,
      hex, interfaces of SHA-256 and tweetnacl), Base64, Runtime (AES, random
      draws, dates, HTTP requests, fetch), Host (files, processes, paths,
      environment files), Field (field elements as text).
    - packages/shared-types: Ids.  packages/queue: JobQueue, and Worker for
      the loop the workers share.
    - db/migrations: Database (schemas, insert, update, conflict clauses),
      WellTyped (the type invariant of its rows), Records (what no statement
      takes away: identifiers and amounts of deposits, queued jobs) and Jsonb
      (documents, whose members Postgres keeps in an order of its own).
    - packages/mpc-crypto: Shamir and Committee.  apps/mpc-committee: Matching
      and Round (coordinator.ts, remote-coordinator.ts), CommitteeState,
      CommitteeKeys, Settler (persist.ts, settler.ts), CommitteeServer (the
      three servers).
    - packages/note-vault: NoteVault.  packages/auth-privy: Privy.
      packages/note-crypto: NoteCrypto.  packages/cctp-utils: Cctp.
      packages/stellar-actions: StellarActions.  packages/rfq: Rfq.
      packages/evm-utils: Evm.  packages/cctp: CctpInbound.  packages/assets:
      Assets.  packages/stellar-utils and packages/proof-utils: StellarUtils.
      packages/proving: Proving, Compliance, MpcProving.
    - apps/api: Schemas, Store (db.ts), ApiAuth (auth.ts and the guards of
      server.ts), RoutesAccount, RoutesVault, RoutesTrade, RoutesSettle,
      RoutesReport with ShadeView, RoutesProxy (the groups of routes.ts in
      order), and Api, the route table, with ApiTypes for the invariants.
    - apps/prover: Prover.  apps/relayer: Relayer (worker.ts) with Leaves (the
      pool's leaves read from the database).  apps/root-auditor: Auditor.
      apps/solver: Solver.
    - packages/sdk: SdkMpc (mpc.ts) and Sdk (cctp.ts, notes.ts, intents.ts,
      wallets.ts).  apps/web and frontend: WebClient (vault, restore and
      deposit pages), VaultRestore for what it needs of the API and what
      follows, ApiVault for the API's part of it, Moves (the move page) and
      DepositPage (the deposit page of frontend).
    - Across processes: DepositFlow and DepositRun (a deposit from the API's
      prepare route through the queue to the relayer, over any history of
      requests and worker operations), and Checkout (the same from the click
      on the deposit page of apps/web).

    A component is a Module named as its file.  A record is the TypeScript
    type or class of the same name, a definition the function, method or
    handler of the same name; a route is named by its verb and path, such as
    [post_deposits_prepare].

    ** Conventions

    - Strings are the bytes of their UTF-8 text.  BigInt is [Z].  A number is
      [Z] too: the program's numbers are integers, and [NaN] of a failed parse
      is [None] (or the value the code then uses).
    - JSON objects are association lists, so that key order, which hashes
      depend on, is kept.  [undefined] and [null] are [JNull] in JSON; an
      optional field of a record is an [option].
    - A throw is [Throw], with the [statusCode] the error carries.  [M S] is a
      function of the state that keeps the state of a failed run: no
      transaction surrounds a handler, and rows written before a throw stay.
    - A clock, a random draw, a uuid, a network answer and a child process are
      functions of the number of the call ([tick]), so a theorem that
      quantifies over them covers every order and value of these answers.
      Dates are milliseconds.
    - Each statement on the database is atomic, and a component's theorem on
      concurrent use is about any interleaving of whole operations
      (JobQueue, Worker, CommitteeServer, Api).

    ** Code that is not in the repository

    It is a class of functions, with its laws in a class of their own that the
    theorems which need them assume; each has an instance that satisfies the
    laws, used by the witnesses.  [Sha256] has no law: a theorem that binds a
    hash ends with "or a collision", two texts that are different and have one
    hash.  [Nacl] and [NaclLaws] (box opens, signatures verify), [Aes] and
    [AesLaws], [Kdf], [Keypair], [KeyGen], [Random] (lengths only), [WebKeys]
    (ES256), [Zod] (object schemas strip what they do not name),
    [LocaleCompare], [Wallets] (ethers and Stellar signatures), [StrKey],
    [Poseidon], [SorobanRpc], [Os] (processes, clock), [Evm] (the chain),
    [Fetch] (network errors and bodies that are not JSON are both errors),
    [Tables] and [PoolEvents] (queries and events of the workers),
    [Authenticator] and [Freighter] (the browser's), [Fastify] (routing and
    body parsing: [FastifyLaws], [FastifyShape], and [CheckoutRoutes] for the
    routes of a checkout).  [ZodTexts] is the law of [Zod] on members declared
    as strings.  [Server] is the API as the browser sees it, asked with a verb,
    a path, an optional idempotency key and a body, and [VaultKeeper] its
    promise about envelopes, which the modelled routes discharge (ApiVault);
    [PrivyDb] is the database as packages/auth-privy sees it.
    [DbInvariant] and [RowInvariant] are properties of the database and of the
    queue that its statements keep: the routes are proved once to keep any such
    property (ApiTypes, Api), and types, kept records and queues are instances.

    ** What the theorems show

    - Matching.  A round on honestly split intents gives what the plaintext
      algorithm gives, signed by the threshold [Round.round_refines_matching];
      shares reconstruct [Shamir.split_reconstruct] and fewer hide the secret
      [Shamir.split_secrecy]; the matchings are sound and maximal, each intent
      used once [Matching]; a batch is accepted exactly with enough distinct
      members' signatures, and two accepted batches share a signer
      [Committee]; a signed session is final [CommitteeServer.signed_final].
    - Settlement.  The settler queues each match once [Settler]; the relayer
      settles only for a batch that the chain's committee signed, with a proof
      [Relayer.mpc_settle_gate], so that the settler's own jobs, which carry no
      proof inputs, are refused [Relayer.settler_jobs_refused]; the API takes
      a settlement exactly when its request is settleable
      [RoutesSettle.settle_verified].
    - Deposits.  The gate of the API [RoutesVault.deposit_gate], the exact
      check of a user's burn and what a completed deposit registers
      [CctpInbound], its agreement with the routes the SDK builds
      [Sdk.SdkCctp.deposit_route_accepted], and the end of the attestation's
      polling [Cctp.attestation_poll].  Over any history of requests and worker
      operations, each user-burn job carries its deposit's terms and the
      relayer accepts exactly the burns that meet them
      [DepositFlow.user_burns_answered]; a deposit burned as the API asks is
      accepted [DepositRun.asked_burn_accepted]; and a checkout in the browser
      that goes through has the wallet make that burn
      [Checkout.checkout_validated].
    - The vault.  Every recovery method opens it [NoteVault.vault_recovery],
      no plaintext passes the gate [NoteVault.plaintext_gate_exact], and a
      vault created in a browser comes back on another device
      [VaultRestore.backup_restores], also from the tables of the API
      [ApiVault.api_backup_restores]: what comes back is the stored document,
      whose members are in another order, and it opens because the bytes that
      authenticate it list their members in the stored order already.
    - The API.  No history of requests breaks the types, keys or required
      columns of the database [Api.database_stays_typed]; nonces are good
      once, tokens are checked, spends stop at a root mismatch, and a report
      discloses only its owner's rows and is bound by its signature.
    - Workers.  A job has one holder and at most three attempts [JobQueue]; a
      turn of the prover never throws and finishes the claimed job
      [Prover.prover_turn]; a Soroban call returns only a hash the network
      printed, free of the secret [StellarUtils.invoke_sound]; the audit's
      verdict is exact and its finding closes the API [Auditor.audit_gate].
    - Quotes.  Hashes and signatures bind every term [Rfq.rfq_terms_bound],
      and a quote is covered by the inventory [Solver.quote_backed].
    - The client.  A private intent opens to its amount for any two nodes and
      to nothing else [Sdk.SdkIntents.private_intent_opens].

    ** Fuel and bounds

    Recursion that is not structural takes fuel, and a theorem or an example
    shows the fuel is enough: the attestation poll and the SDK's polls
    (timeout / interval + 2 rounds, [Cctp.attestation_poll] and
    [SdkIntents.polling_ends]); the extended Euclid of Shamir (509 steps,
    twice the bits of the modulus, [Shamir.egcd_total]).  Loops that the code bounds have its bounds:
    4 tries of a Soroban call, 30 polls of a transaction, 50 pages of events,
    40 polls of a deposit job, 3 attempts of a job.  JSON parsing takes
    twice the length of its text, which [parse_stringify] shows to be enough.

    ** Not modelled

    - contracts/ (Soroban contracts in Rust), circuits/ (circom) and the
      binaries built from them: other languages; the TypeScript only calls
      them, and they are parameters here.
    - scripts/ and apps/cli: deployment and end-to-end runs against live
      networks, sequences of calls into the packages modelled here; tests.
    - React rendering, navigation and styling (frontend/components,
      frontend/app, apps/web/src/app): no protocol logic, apart from the
      vault, restore, deposit (apps/web and frontend) and move pages and the
      wallet list, which are modelled.  frontend/lib/note-vault.ts is the same
      text as packages/note-vault/src/index.ts.
    - Horizon and funding helpers of packages/stellar-utils, connection
      handling of the database clients, logging, and the wiring of servers to
      ports and timers: input and output only.
    - Floating-point amounts typed in the pages: the models take the integers
      the pages compute from them. *)
From stdpp Require Export base list strings gmap fin_maps option pretty.
From Stdlib Require Export ZArith Lia.
#[export] Set Default Goal Selector "!".

Declare Scope shade_scope.
Delimit Scope shade_scope with shade.
Open Scope Z_scope.
Open Scope shade_scope.

(** ** Errors and the state monad

    A JavaScript [throw] carries a message and, for the HTTP errors of the
    API, a [statusCode].  Database writes made before a throw stay: there is
    no transaction around a handler, so [M] keeps the state of a failed run. *)
Record error := Error { statusCode : option Z; message : string }.

Inductive result (A : Type) :=
| Ok (a : A)
| Throw (e : error).
Arguments Ok {A} a.
Arguments Throw {A} e.

#[export] Instance error_eq_dec : EqDecision error.
Proof. solve_decision. Defined.
#[export] Instance result_eq_dec `{EqDecision A} : EqDecision (result A).
Proof. solve_decision. Defined.

#[export] Instance result_ret : MRet result := fun A a => Ok a.
#[export] Instance result_bind : MBind result := fun A B f m =>
  match m with Ok a => f a | Throw e => Throw e end.

Definition M (S A : Type) : Type := S -> result A * S.

#[export] Instance M_ret {S} : MRet (M S) := fun A a s => (Ok a, s).
#[export] Instance M_bind {S} : MBind (M S) := fun A B f m s =>
  match m s with
  | (Ok a, s') => f a s'
  | (Throw e, s') => (Throw e, s')
  end.

Section Monad.
Context {S : Type}.

Definition getM : M S S := fun s => (Ok s, s).
Definition putM (s' : S) : M S unit := fun _ => (Ok tt, s').
Definition modifyM (f : S -> S) : M S unit := fun s => (Ok tt, f s).
Definition throwM {A} (e : error) : M S A := fun s => (Throw e, s).
(** [throw new Error(msg)]: no status code. *)
Definition failM {A} (msg : string) : M S A := throwM (Error None msg).
(** [Object.assign(new Error(msg), { statusCode })]. *)
Definition httpM {A} (code : Z) (msg : string) : M S A := throwM (Error (Some code) msg).
Definition liftR {A} (r : result A) : M S A := fun s => (r, s).
(** [try { m } catch (e) { h e }]. *)
Definition catchM {A} (m : M S A) (h : error -> M S A) : M S A := fun s =>
  match m s with
  | (Ok a, s') => (Ok a, s')
  | (Throw e, s') => h e s'
  end.
Definition guardM (b : bool) (e : error) : M S unit :=
  if b then mret tt else throwM e.

Fixpoint foreachM {A} (f : A -> M S unit) (l : list A) : M S unit :=
  match l with
  | [] => mret tt
  | x :: l' => f x ≫= fun _ => foreachM f l'
  end.

(** A predicate on the state kept by every run of a program, also one that
    throws half way. *)
Definition preserves {A} (I : S -> Prop) (m : M S A) : Prop :=
  forall s, I s -> I (m s).2.

Lemma preserves_ret {A} I (a : A) : preserves I (mret a).
Proof. by intros s Hs. Qed.
Lemma preserves_throw {A} I e : preserves I (throwM e : M S A).
Proof. by intros s Hs. Qed.
Lemma preserves_get I : preserves I getM.
Proof. by intros s Hs. Qed.
Lemma preserves_lift {A} I (r : result A) : preserves I (liftR r).
Proof. by intros s Hs. Qed.
Lemma preserves_modify (I : S -> Prop) f :
  (forall s, I s -> I (f s)) -> preserves I (modifyM f).
Proof. intros H s Hs. by apply H. Qed.
Lemma preserves_bind {A B} I (m : M S A) (f : A -> M S B) :
  preserves I m -> (forall a, preserves I (f a)) -> preserves I (m ≫= f).
Proof.
  intros Hm Hf s Hs. specialize (Hm s Hs). unfold mbind, M_bind.
  destruct (m s) as [[a|e] s']; simpl in *; [by apply Hf | done].
Qed.
Lemma bind_state {A B} (I : S -> Prop) (m : M S A) (f : A -> M S B) s :
  I (m s).2 -> (forall a, preserves I (f a)) -> I ((m ≫= f) s).2.
Proof.
  intros Hm Hf. unfold mbind, M_bind. destruct (m s) as [[a|e] s']; [by apply Hf|done].
Qed.
Lemma bind_run {A B} (m : M S A) (f : A -> M S B) s :
  (m ≫= f) s = match m s with (Ok a, s') => f a s' | (Throw e, s') => (Throw e, s') end.
Proof. done. Qed.
Lemma bind_getM {B} (f : S -> M S B) s : (getM ≫= f) s = f s s.
Proof. done. Qed.
Lemma bind_modifyM {B} (g : S -> S) (f : unit -> M S B) s : (modifyM g ≫= f) s = f tt (g s).
Proof. done. Qed.
Lemma preserves_catch {A} I (m : M S A) h :
  preserves I m -> (forall e, preserves I (h e)) -> preserves I (catchM m h).
Proof.
  intros Hm Hh s Hs. specialize (Hm s Hs). unfold catchM.
  destruct (m s) as [[a|e] s']; simpl in *; [done | by apply Hh].
Qed.
Lemma preserves_if {A} I (b : bool) (m1 m2 : M S A) :
  preserves I m1 -> preserves I m2 -> preserves I (if b then m1 else m2).
Proof. by destruct b. Qed.
Lemma preserves_guard I b e : preserves I (guardM b e).
Proof. unfold guardM. by destruct b; intros s Hs. Qed.
Lemma preserves_foreach {A} I (f : A -> M S unit) l :
  (forall a, preserves I (f a)) -> preserves I (foreachM f l).
Proof.
  intros Hf. induction l as [|x l IH]; simpl; [apply preserves_ret|].
  apply preserves_bind; auto.
Qed.
End Monad.

Create HintDb preserve.
#[export] Hint Resolve preserves_ret preserves_throw preserves_get preserves_lift
  preserves_bind preserves_catch preserves_if preserves_guard preserves_foreach : preserve.

(** The monad laws, with equality of programs at every state. *)
Definition equivM {S A} (m1 m2 : M S A) : Prop := forall s, m1 s = m2 s.
#[export] Instance equivM_equivalence {S A} : Equivalence (@equivM S A).
Proof. split; [by intros m s | by intros m1 m2 H s | intros m1 m2 m3 H1 H2 s; by rewrite H1]. Qed.
#[export] Instance bind_proper {S A B} :
  Proper (pointwise_relation A equivM ==> equivM ==> equivM) (@mbind (M S) _ A B).
Proof.
  intros f g Hfg m n Hmn s. unfold mbind, M_bind. rewrite Hmn.
  destruct (n s) as [[a|e] s']; [apply Hfg | done].
Qed.
#[export] Instance preserves_proper {S A} (I : S -> Prop) :
  Proper (@equivM S A ==> iff) (preserves I).
Proof. intros m n H. split; intros Hp s Hs; specialize (Hp s Hs); [by rewrite <-H | by rewrite H]. Qed.

Lemma bind_ret_l {S A B} (a : A) (f : A -> M S B) : equivM (mret a ≫= f) (f a).
Proof. done. Qed.
Lemma bind_assoc {S A B C} (m : M S A) (f : A -> M S B) (g : B -> M S C) :
  equivM ((m ≫= f) ≫= g) (m ≫= fun a => f a ≫= g).
Proof. intros s. unfold mbind, M_bind. by destruct (m s) as [[a|e] s']. Qed.

(** ** Tactics *)

(** Split every [match] and [if] of the goal and the hypotheses. *)
Ltac split_matches :=
  repeat (case_match; simplify_eq/=).

(** Run one program: unfold the monad and split the cases. *)
Ltac run_program :=
  unfold mbind, M_bind, mret, M_ret, getM, putM, modifyM, throwM, failM, httpM,
    liftR, catchM, guardM in *; simpl in *; split_matches.

(** A successful run of a sequence, taken apart. *)
Lemma bind_Ok {S A B} (m : M S A) (f : A -> M S B) s b s' :
  (m ≫= f) s = (Ok b, s') -> exists a s1, m s = (Ok a, s1) /\ f a s1 = (Ok b, s').
Proof. unfold mbind, M_bind. destruct (m s) as [[a|e] s1]; [eauto|done]. Qed.
Lemma liftR_Ok {S A} (r : result A) (s s' : S) a : liftR r s = (Ok a, s') -> r = Ok a /\ s' = s.
Proof. unfold liftR. by intros [= -> ->]. Qed.
Lemma ret_Ok {S A} (a b : A) (s s' : S) : (mret a : M S A) s = (Ok b, s') -> b = a /\ s' = s.
Proof. by intros [= -> ->]. Qed.
Lemma guardM_Ok {S} b e (s s' : S) u : guardM b e s = (Ok u, s') -> b = true /\ s' = s.
Proof. unfold guardM. destruct b; [by intros [= _ ->]|done]. Qed.
Lemma catchM_Ok {S A} (m : M S A) h s a s' :
  catchM m h s = (Ok a, s') -> m s = (Ok a, s') \/ exists e s1, m s = (Throw e, s1) /\ h e s1 = (Ok a, s').
Proof. unfold catchM. destruct (m s) as [[x|e] s1]; [by left|right; eauto]. Qed.

(** Take the first call off the run [H : (m ≫= f) s = (Ok b, s')], naming its
    result, the state after it, and its equation. *)
Tactic Notation "bind_ok" hyp(H) "as" ident(a) ident(s1) ident(E) :=
  apply bind_Ok in H as (a & s1 & E & H).
Tactic Notation "lift_ok" hyp(H) "as" ident(a) ident(E) :=
  let s1 := fresh "s" in let Es := fresh in
  apply bind_Ok in H as (a & s1 & E & H); apply liftR_Ok in E as [E Es]; subst s1.

(** ** Tables

    A database table is the list of its rows in insertion order. *)
Section Table.
Context {R : Type}.
Definition updateWhere (p : R -> bool) (f : R -> R) (t : list R) : list R :=
  map (fun r => if p r then f r else r) t.
Definition selectWhere (p : R -> bool) (t : list R) : list R := filter (fun r => Is_true (p r)) t.
Definition rowCount (p : R -> bool) (t : list R) : Z := Z.of_nat (length (selectWhere p t)).
Definition deleteWhere (p : R -> bool) (t : list R) : list R := selectWhere (fun r => negb (p r)) t.

Lemma length_updateWhere p f t : length (updateWhere p f t) = length t.
Proof. apply length_map. Qed.
Lemma elem_of_updateWhere p f t x :
  x ∈ updateWhere p f t <-> exists r, r ∈ t /\ x = if p r then f r else r.
Proof.
  unfold updateWhere. rewrite list_elem_of_fmap.
  split; intros [r [? ?]]; exists r; split; congruence || done.
Qed.
Lemma elem_of_selectWhere p t x : x ∈ selectWhere p t <-> x ∈ t /\ p x = true.
Proof. unfold selectWhere. rewrite list_elem_of_filter, Is_true_true. tauto. Qed.
Lemma elem_of_deleteWhere p t x : x ∈ deleteWhere p t <-> x ∈ t /\ p x = false.
Proof. unfold deleteWhere. rewrite elem_of_selectWhere, negb_true_iff. tauto. Qed.
Lemma rowCount_pos p t : 0 < rowCount p t <-> exists r, r ∈ t /\ p r = true.
Proof.
  unfold rowCount. split.
  - destruct (selectWhere p t) as [|r l] eqn:E; simpl; [lia|]. intros _. exists r.
    rewrite <- elem_of_selectWhere, E. apply list_elem_of_here.
  - intros [r Hr%elem_of_selectWhere]. destruct (selectWhere p t); [set_solver | simpl; lia].
Qed.
Lemma Forall_updateWhere (P : R -> Prop) p f t :
  Forall P t -> (forall r, r ∈ t -> P r -> p r = true -> P (f r)) -> Forall P (updateWhere p f t).
Proof.
  intros HP Hf. rewrite Forall_forall in HP |- *. intros x [r [Hr ->]]%elem_of_updateWhere.
  destruct (p r) eqn:E; eauto.
Qed.
(** An update that keeps a column keeps the list of that column. *)
Lemma updateWhere_column {K} (c : R -> K) p f t :
  (forall r, p r = true -> c (f r) = c r) -> c <$> updateWhere p f t = c <$> t.
Proof.
  intros Hc. unfold updateWhere. induction t as [|r t IH]; [done|].
  cbn [map]. rewrite !fmap_cons. f_equal; [|done]. destruct (p r) eqn:E; auto.
Qed.
Lemma NoDup_deleteWhere {K} (c : R -> K) p t :
  NoDup (c <$> t) -> NoDup (c <$> deleteWhere p t).
Proof.
  unfold deleteWhere, selectWhere. induction t as [|r t IH]; [done|].
  rewrite filter_cons. intros [Hr Ht]%NoDup_cons. case_decide; [|auto].
  rewrite fmap_cons. apply NoDup_cons. split; [|auto].
  intros [y [Hc Hy]]%list_elem_of_fmap. apply Hr. rewrite Hc. apply list_elem_of_fmap_2.
  by apply list_elem_of_filter in Hy as [_ ?].
Qed.
End Table.

(** String truthiness: the empty string is falsy. *)
Definition truthy (s : string) : bool := negb (bool_decide (s = "")).
(** [x ?? null] kept only when the string is non-empty: [if (x)]. *)
Definition truthyOpt (o : option string) : option string :=
  match o with Some s => if truthy s then Some s else None | None => None end.
Definition orElse {A} (o : option A) (d : A) : A := match o with Some a => a | None => d end.

(** [===] on values with decidable equality. *)
Notation "a ==? b" := (bool_decide (a = b)) (at level 70, no associativity) : shade_scope.
