(* ===== verification/JsText.v ===== *)
(** * Strings and numbers of the JavaScript runtime

    The string operations the sources use ([split], [trim], [slice],
    [padStart], [toLowerCase], [join]), the printing and parsing of [BigInt],
    and their round trips.  A string is the list of the bytes of its UTF-8
    form; [toLowerCase] and [trim] act on the ASCII range, which is all the
    sources apply them to (hex, base32 and decimal text). *)
From S2P Require Import Prelude.
From Stdlib Require Import Ascii.

Module JsText.

(** ** Characters *)
Definition code (c : ascii) : Z := Z.of_N (N_of_ascii c).
Definition chr (n : N) : ascii := ascii_of_N n.
Definition dquote : ascii := chr 34.

Definition isSpace (c : ascii) : bool :=
  let n := code c in (n =? 32) || ((9 <=? n) && (n <=? 13)).

Definition lowerChar (c : ascii) : ascii :=
  let n := code c in if (65 <=? n) && (n <=? 90) then chr (Z.to_N (n + 32)) else c.

(** ** String operations *)
Fixpoint mapString (f : ascii -> ascii) (s : string) : string :=
  match s with EmptyString => EmptyString | String c s' => String (f c) (mapString f s') end.
Definition toLowerCase : string -> string := mapString lowerChar.

Fixpoint trimStart (s : string) : string :=
  match s with
  | EmptyString => EmptyString
  | String c s' => if isSpace c then trimStart s' else s
  end.
Fixpoint trimEnd (s : string) : string :=
  match s with
  | EmptyString => EmptyString
  | String c s' =>
      match trimEnd s' with
      | EmptyString => if isSpace c then EmptyString else String c EmptyString
      | t => String c t
      end
  end.
Definition trim (s : string) : string := trimEnd (trimStart s).

Definition startsWith (s p : string) : bool := String.prefix p s.
(** [s.slice(n)] and [s.slice(0, n)] for [n >= 0]. *)
Fixpoint sliceFrom (n : nat) (s : string) : string :=
  match n, s with
  | O, _ => s
  | S n', String _ s' => sliceFrom n' s'
  | S _, EmptyString => EmptyString
  end.
Fixpoint sliceTo (n : nat) (s : string) : string :=
  match n, s with
  | S n', String c s' => String c (sliceTo n' s')
  | _, _ => EmptyString
  end.

(** [s.split(sep)] for a one-character separator. *)
Fixpoint splitOn (sep : ascii) (s : string) : list string :=
  match s with
  | EmptyString => [EmptyString]
  | String c s' =>
      if c ==? sep then EmptyString :: splitOn sep s'
      else match splitOn sep s' with
           | w :: ws => String c w :: ws
           | [] => [String c EmptyString]
           end
  end.

Fixpoint join (sep : string) (l : list string) : string :=
  match l with
  | [] => ""
  | [x] => x
  | x :: l' => x +:+ sep +:+ join sep l'
  end.

Fixpoint repeatString (n : nat) (c : ascii) : string :=
  match n with O => EmptyString | S n' => String c (repeatString n' c) end.
(** [s.padStart(n, c)]. *)
Definition padStart (n : nat) (c : ascii) (s : string) : string :=
  repeatString (n - String.length s) c +:+ s.

(** [strip0x] of the sources: [s.startsWith("0x") ? s.slice(2) : s]. *)
Definition strip0x (s : string) : string :=
  if startsWith s "0x" then sliceFrom 2 s else s.

(** ** BigInt *)

Definition digitVal (c : ascii) : option Z :=
  let n := code c in
  if (48 <=? n) && (n <=? 57) then Some (n - 48)
  else if (97 <=? n) && (n <=? 102) then Some (n - 87)
  else if (65 <=? n) && (n <=? 70) then Some (n - 55)
  else None.

Fixpoint parseDigits (base acc : Z) (s : string) : option Z :=
  match s with
  | EmptyString => Some acc
  | String c s' =>
      match digitVal c with
      | Some d => if d <? base then parseDigits base (acc * base + d) s' else None
      | None => None
      end
  end.
Definition parseRadix (base : Z) (s : string) : option Z :=
  if s ==? "" then None else parseDigits base 0 s.

Definition parseSigned (s : string) : option Z :=
  match s with
  | String c s' =>
      if c ==? chr 45 then Z.opp <$> parseRadix 10 s'
      else if c ==? chr 43 then parseRadix 10 s'
      else parseRadix 10 s
  | EmptyString => Some 0
  end.

(** [BigInt(s)] on a string: surrounding white space is dropped, the empty
    string is 0, [0x], [0o] and [0b] select a radix; anything else that is not
    a decimal integer is a [SyntaxError]. *)
Definition parseBigInt (s : string) : option Z :=
  let t := trim s in
  match sliceTo 2 t with
  | "0x" | "0X" => parseRadix 16 (sliceFrom 2 t)
  | "0o" | "0O" => parseRadix 8 (sliceFrom 2 t)
  | "0b" | "0B" => parseRadix 2 (sliceFrom 2 t)
  | _ => parseSigned t
  end.
Definition BigInt (s : string) : result Z :=
  match parseBigInt s with
  | Some z => Ok z
  | None => Throw (Error None ("Cannot convert " +:+ s +:+ " to a BigInt"))
  end.

(** ** Number

    [Number(s)] on a string: [NaN], an infinity or [m * 10^e], before the
    rounding to 53 bits that [numberInt] does. *)
Inductive number := NaN | Infinite (negative : bool) | Decimal (m e : Z).
(** The decimal digits at the front, what they are worth after [acc], how many
    they are, and the rest. *)
Fixpoint readDigits (acc n : Z) (s : string) : Z * Z * string :=
  match s with
  | EmptyString => (acc, n, s)
  | String c s' =>
      let d := code c - 48 in
      if (0 <=? d) && (d <=? 9) then readDigits (acc * 10 + d) (n + 1) s' else (acc, n, s)
  end.
Definition readSign (s : string) : bool * string :=
  match s with
  | String c s' => if c ==? chr 45 then (true, s') else if c ==? chr 43 then (false, s') else (false, s)
  | EmptyString => (false, s)
  end.
(** [e], a sign and digits, or nothing. *)
Definition readExponent (s : string) : option Z :=
  match s with
  | EmptyString => Some 0
  | String c s' =>
      if (c ==? chr 101) || (c ==? chr 69) then
        let '(negative, s') := readSign s' in
        let '(v, n, rest) := readDigits 0 0 s' in
        if (0 <? n) && (rest ==? "") then Some (if negative : bool then - v else v) else None
      else None
  end.
Definition decimalNumber (s : string) : number :=
  let '(negative, s) := readSign s in
  if s ==? "Infinity" then Infinite negative
  else
    let '(whole, n, rest) := readDigits 0 0 s in
    let '(m, k, rest) :=
      match rest with
      | String c rest' => if c ==? chr 46 then readDigits whole 0 rest' else (whole, 0, rest)
      | EmptyString => (whole, 0, rest)
      end in
    match readExponent rest with
    | Some e => if 0 <? n + k then Decimal (if negative : bool then - m else m) (e - k) else NaN
    | None => NaN
    end.
Definition radixNumber (base : Z) (s : string) : number :=
  match parseRadix base s with Some v => Decimal v 0 | None => NaN end.
Definition Number (s : string) : number :=
  let t := trim s in
  match sliceTo 2 t with
  | "" => Decimal 0 0
  | "0x" | "0X" => radixNumber 16 (sliceFrom 2 t)
  | "0o" | "0O" => radixNumber 8 (sliceFrom 2 t)
  | "0b" | "0B" => radixNumber 2 (sliceFrom 2 t)
  | _ => decimalNumber t
  end.
(** The integer rounded to 53 bits, ties to even; [None] from 2^1024 on. *)
Definition roundInt (z : Z) : option Z :=
  let a := Z.abs z in
  let s := Z.log2 a - 52 in
  if s <=? 0 then Some z
  else
    let q := Z.shiftr a s in
    let r := a - Z.shiftl q s in
    let h := Z.shiftl 1 (s - 1) in
    let q := if (h <? r) || ((h =? r) && Z.odd q) then q + 1 else q in
    let v := Z.shiftl q s in
    if v <? 2 ^ 1024 then Some (if z <? 0 then - v else v) else None.
(** The value when it is an integer; [None] is [NaN], an infinity or a
    fraction (a fraction is not rounded, so one closer to an integer than the
    rounding resolves counts as a fraction). *)
Definition numberInt (x : number) : option Z :=
  match x with
  | Decimal m e =>
      if m =? 0 then Some 0
      else if 0 <=? e then (if e <? 400 then roundInt (m * 10 ^ e) else None)
      else
        let d := 10 ^ (- e) in
        if m mod d =? 0 then roundInt (m / d) else None
  | _ => None
  end.
Example Number_forms : (numberInt ∘ Number) <$> ["1000"; " 1e3 "; "1000.0"; "100.5e1"; "0x3E8"; ""; "1000.5"; "1,000"; "Infinity"; "."; "-0"] =
  [Some 1000; Some 1000; Some 1000; Some 1005; Some 1000; Some 0; None; None; None; None; Some 0].
Proof. reflexivity. Qed.
Example Number_rounds : numberInt (Number "9007199254740993") = Some 9007199254740992.
Proof. reflexivity. Qed.
(** [BigInt(x)] of a number: a [RangeError] unless it is an integer. *)
Definition BigIntOfNumber (x : number) : result Z :=
  match numberInt x with
  | Some z => Ok z
  | None => Throw (Error None "The number cannot be converted to a BigInt because it is not an integer")
  end.
(** [n < x] for an integer [n]. *)
Definition below (n : Z) (x : number) : bool :=
  match x with
  | NaN => false
  | Infinite negative => negb negative
  | Decimal m e => if 0 <=? e then n <? m * 10 ^ e else n * 10 ^ (- e) <? m
  end.

(** [z.toString()]. *)
Definition toString (z : Z) : string := pretty z.

Definition hexDigit (d : Z) : ascii :=
  chr (Z.to_N (if d <? 10 then 48 + d else 87 + d)).
Fixpoint hexGo (fuel : nat) (n : Z) (acc : string) : string :=
  match fuel with
  | O => acc
  | S f => if n =? 0 then acc else hexGo f (n / 16) (String (hexDigit (n mod 16)) acc)
  end.
(** [z.toString(16)] of a non-negative [z]. *)
Definition toHexString (n : Z) : string :=
  if n =? 0 then "0" else hexGo (S (Z.to_nat (Z.log2 n))) n "".

(** ** Facts *)

Lemma append_cons c (a b : string) : String c a +:+ b = String c (a +:+ b).
Proof. done. Qed.
Lemma append_nil_l (a : string) : "" +:+ a = a.
Proof. done. Qed.
Lemma append_assoc (a b c : string) : (a +:+ b) +:+ c = a +:+ (b +:+ c).
Proof. induction a as [|x a IH]; [done|]. by rewrite !append_cons, IH. Qed.
Lemma append_nil_r (a : string) : a +:+ "" = a.
Proof. induction a as [|x a IH]; [done|]. by rewrite append_cons, IH. Qed.
Lemma length_append (a b : string) :
  String.length (a +:+ b) = (String.length a + String.length b)%nat.
Proof. induction a as [|x a IH]; [done|]. rewrite append_cons. simpl. by rewrite IH. Qed.
Lemma length_sliceFrom n s : String.length (sliceFrom n s) = (String.length s - n)%nat.
Proof. revert s. induction n as [|n IH]; intros [|c s]; try done. simpl. apply IH. Qed.
Lemma append_inj_length (a1 a2 b1 b2 : string) :
  String.length a1 = String.length a2 -> a1 +:+ b1 = a2 +:+ b2 -> a1 = a2 /\ b1 = b2.
Proof.
  revert a2. induction a1 as [|c a1 IH]; intros [|c2 a2]; simpl; try done.
  rewrite !append_cons. intros [= Hl] [= -> H]. destruct (IH a2 Hl H) as [-> ->]. done.
Qed.

Lemma digit_pretty x : (x < 10)%N -> digitVal (pretty_N_char x) = Some (Z.of_N x).
Proof.
  intros Hx.
  assert (x = 0 \/ x = 1 \/ x = 2 \/ x = 3 \/ x = 4 \/ x = 5 \/ x = 6 \/ x = 7 \/ x = 8 \/ x = 9)%N
    as H by lia.
  naive_solver.
Qed.

Lemma parseDigits_pretty_go x s :
  parseDigits 10 0 (pretty_N_go x s) = parseDigits 10 (Z.of_N x) s.
Proof.
  revert s. induction (N.lt_wf_0 x) as [x _ IH]; intros s.
  destruct (decide (x = 0)%N) as [->|Hx]; [by rewrite pretty_N_go_0|].
  rewrite pretty_N_go_step by lia. rewrite IH by (apply N.div_lt; lia).
  cbn [parseDigits]. rewrite digit_pretty by (apply N.mod_lt; lia).
  rewrite (proj2 (Z.ltb_lt _ _)) by (pose proof (N.mod_lt x 10); lia).
  f_equal. rewrite N2Z.inj_div, N2Z.inj_mod. pose proof (Z.div_mod (Z.of_N x) 10). lia.
Qed.

Lemma pretty_N_nonempty (n : N) : pretty n ≠ "".
Proof.
  intros H. assert (parseDigits 10 0 (pretty n) = Some 0) as H0 by (by rewrite H).
  unfold pretty, pretty_N in *. destruct (decide _) as [->|Hn]; [done|].
  rewrite parseDigits_pretty_go in H0. simpl in H0. simplify_eq. lia.
Qed.

Lemma parseRadix_pretty (n : N) : parseRadix 10 (pretty n) = Some (Z.of_N n).
Proof.
  unfold parseRadix. rewrite bool_decide_false by apply pretty_N_nonempty.
  unfold pretty, pretty_N. destruct (decide _) as [->|Hn]; [done|].
  by rewrite parseDigits_pretty_go.
Qed.

(** Every character of a string satisfies a predicate. *)
Fixpoint allChars (p : ascii -> bool) (s : string) : bool :=
  match s with EmptyString => true | String c s' => p c && allChars p s' end.
Lemma allChars_append p a b : allChars p (a +:+ b) = allChars p a && allChars p b.
Proof. induction a as [|c a IH]; [done|]. rewrite append_cons. simpl. by rewrite IH, andb_assoc. Qed.
Lemma allChars_impl (p q : ascii -> bool) s :
  (forall c, p c = true -> q c = true) -> allChars p s = true -> allChars q s = true.
Proof.
  intros H. induction s as [|c s IH]; [done|]. simpl. rewrite !andb_true_iff. intros [? ?]; auto.
Qed.

Definition isDigit (c : ascii) : bool := (48 <=? code c) && (code c <=? 57).
Definition isNumeric (c : ascii) : bool := isDigit c || (c ==? chr 45).

Lemma isDigit_pretty x : (x < 10)%N -> isDigit (pretty_N_char x) = true.
Proof.
  intros Hx.
  assert (x = 0 \/ x = 1 \/ x = 2 \/ x = 3 \/ x = 4 \/ x = 5 \/ x = 6 \/ x = 7 \/ x = 8 \/ x = 9)%N
    as H by lia.
  naive_solver.
Qed.
Lemma isDigit_pretty_go x s :
  allChars isDigit s = true -> allChars isDigit (pretty_N_go x s) = true.
Proof.
  revert s. induction (N.lt_wf_0 x) as [x _ IH]; intros s Hs.
  destruct (decide (x = 0)%N) as [->|Hx]; [by rewrite pretty_N_go_0|].
  rewrite pretty_N_go_step by lia. apply IH; [apply N.div_lt; lia|].
  simpl. rewrite isDigit_pretty by (apply N.mod_lt; lia). done.
Qed.
Lemma isDigit_pretty_N (n : N) : allChars isDigit (pretty n) = true.
Proof.
  unfold pretty, pretty_N. destruct (decide _); [done|]. by apply isDigit_pretty_go.
Qed.
Lemma isNumeric_toString z : allChars isNumeric (toString z) = true.
Proof.
  assert (forall n : N, allChars isNumeric (pretty n) = true) as H.
  { intros n. eapply allChars_impl; [|apply isDigit_pretty_N].
    intros c Hc. unfold isNumeric. by rewrite Hc. }
  destruct z as [|p|p]; [done|apply (H (N.pos p))|]. apply (H (N.pos p)).
Qed.

Lemma isNumeric_not_space c : isNumeric c = true -> isSpace c = false.
Proof.
  unfold isNumeric, isDigit, isSpace. destruct (bool_decide_reflect (c = chr 45)) as [->|].
  - done.
  - rewrite orb_false_r, andb_true_iff, !Z.leb_le. intros [? ?].
    rewrite orb_false_iff, andb_false_iff, Z.eqb_neq, !Z.leb_gt. lia.
Qed.
Lemma trimStart_id s : allChars (fun c => negb (isSpace c)) s = true -> trimStart s = s.
Proof. destruct s as [|c s]; [done|]. simpl. rewrite andb_true_iff, negb_true_iff. by intros [-> _]. Qed.
Lemma trimEnd_id s : allChars (fun c => negb (isSpace c)) s = true -> trimEnd s = s.
Proof.
  induction s as [|c s IH]; [done|]. simpl. rewrite andb_true_iff, negb_true_iff. intros [Hc Hs].
  rewrite IH by done. rewrite Hc. by destruct s.
Qed.
Lemma trim_id s : allChars (fun c => negb (isSpace c)) s = true -> trim s = s.
Proof. intros H. unfold trim. rewrite trimStart_id by done. by apply trimEnd_id. Qed.
Lemma trim_toString z : trim (toString z) = toString z.
Proof.
  apply trim_id. eapply allChars_impl; [|apply isNumeric_toString].
  intros c Hc. by rewrite isNumeric_not_space.
Qed.

Lemma parseBigInt_numeric s :
  allChars isNumeric s = true -> parseBigInt s = parseSigned s.
Proof.
  intros H. unfold parseBigInt. rewrite trim_id.
  2:{ eapply allChars_impl; [|exact H]. intros c Hc. by rewrite isNumeric_not_space. }
  destruct s as [|c [|d s]]; [done| |].
  - destruct c as [[] [] [] [] [] [] [] []]; done.
  - simpl in H. rewrite !andb_true_iff in H. destruct H as (_ & Hd & _).
    destruct c as [[] [] [] [] [] [] [] []]; try done.
    destruct d as [[] [] [] [] [] [] [] []]; done.
Qed.

(** [BigInt(z.toString()) = z]: the decimal transport encoding loses nothing. *)
Lemma parseBigInt_toString z : parseBigInt (toString z) = Some z.
Proof.
  rewrite parseBigInt_numeric by apply isNumeric_toString.
  destruct z as [|p|p]; [done| |].
  - change (toString (Z.pos p)) with (pretty (N.pos p)).
    pose proof (isDigit_pretty_N (N.pos p)) as Hd. pose proof (parseRadix_pretty (N.pos p)) as Hp.
    destruct (pretty (N.pos p)) as [|c s]; [done|]. simpl in Hd. rewrite andb_true_iff in Hd.
    destruct Hd as [Hd _]. unfold parseSigned.
    assert (c ≠ chr 45 /\ c ≠ chr 43) as [H1 H2] by (split; intros ->; discriminate Hd).
    by rewrite !bool_decide_false.
  - change (toString (Z.neg p)) with (String (chr 45) (pretty (N.pos p))). unfold parseSigned.
    rewrite bool_decide_true by done. by rewrite parseRadix_pretty.
Qed.
Lemma BigInt_toString z : BigInt (toString z) = Ok z.
Proof. unfold BigInt. by rewrite parseBigInt_toString. Qed.
#[export] Instance toString_inj : Inj (=) (=) toString.
Proof. intros x y H. apply (f_equal parseBigInt) in H. rewrite !parseBigInt_toString in H. congruence. Qed.
Lemma lowerChar_numeric c : isNumeric c = true -> lowerChar c = c.
Proof.
  unfold isNumeric, isDigit, lowerChar. intros [[H1%Z.leb_le H2%Z.leb_le]%andb_true_iff|Hc%bool_decide_eq_true]%orb_true_iff; [|by subst].
  cbv zeta. destruct (Z.leb_spec 65 (code c)); [lia|done].
Qed.
(** [Number(z.toString())] is [z], before rounding. *)
Lemma readDigits_all acc n s : allChars isDigit s = true ->
  exists v, parseDigits 10 acc s = Some v /\ readDigits acc n s = (v, n + Z.of_nat (String.length s), "").
Proof.
  revert acc n. induction s as [|c s IH]; intros acc n; cbn [allChars parseDigits readDigits]; [by exists acc; rewrite Z.add_0_r|].
  intros [Hc Hs]%andb_true_iff. pose proof Hc as [H1%Z.leb_le H2%Z.leb_le]%andb_true_iff.
  assert (digitVal c = Some (code c - 48)) as -> by (unfold digitVal; unfold isDigit in Hc; by rewrite Hc).
  rewrite (proj2 (Z.ltb_lt _ _)) by lia. cbv zeta. rewrite (proj2 (Z.leb_le 0 _)), (proj2 (Z.leb_le _ 9)) by lia. cbn [andb].
  destruct (IH (acc * 10 + (code c - 48)) (n + 1) Hs) as (v & Hv & ->). exists v. split; [done|]. f_equal. f_equal. simpl. lia.
Qed.
Lemma readDigits_pretty (n : N) :
  (let '(whole, k, rest) := readDigits 0 0 (pretty n) in (whole, 0 <? k, rest)) = (Z.of_N n, true, "").
Proof.
  destruct (readDigits_all 0 0 (pretty n) (isDigit_pretty_N n)) as (v & Hv & ->).
  pose proof (parseRadix_pretty n) as Hp. unfold parseRadix in Hp. rewrite bool_decide_false in Hp by apply pretty_N_nonempty.
  rewrite Hv in Hp. injection Hp as ->. destruct (pretty n) eqn:E; [by apply pretty_N_nonempty in E|]. done.
Qed.
Lemma decimalNumber_toString z : decimalNumber (toString z) = Decimal z 0.
Proof.
  assert (forall n : N, pretty n ≠ "Infinity") as Hinf.
  { intros n E. pose proof (isDigit_pretty_N n) as Hd. by rewrite E in Hd. }
  assert (forall n : N, readSign (pretty n) = (false, pretty n)) as Hsign.
  { intros n. pose proof (isDigit_pretty_N n) as Hd. destruct (pretty n) as [|c s]; [done|]. cbn [allChars] in Hd.
    apply andb_true_iff in Hd as [Hd _]. cbn [readSign]. rewrite !bool_decide_false; [done|intros ->; discriminate Hd..]. }
  assert (forall z, toString z = if z <? 0 then String (chr 45) (pretty (Z.to_N (- z))) else pretty (Z.to_N z)) as -> by (by intros [|p|p]).
  unfold decimalNumber. destruct (Z.ltb_spec z 0) as [Hz|Hz].
  - cbn [readSign]. rewrite bool_decide_true by done. rewrite bool_decide_false by apply Hinf.
    pose proof (readDigits_pretty (Z.to_N (- z))) as E. destruct (readDigits 0 0 _) as [[whole k] rest]. injection E as -> Hk ->.
    cbn [readExponent]. rewrite Z.add_0_r, Hk. f_equal; lia.
  - rewrite Hsign, bool_decide_false by apply Hinf.
    pose proof (readDigits_pretty (Z.to_N z)) as E. destruct (readDigits 0 0 _) as [[whole k] rest]. injection E as -> Hk ->.
    cbn [readExponent]. rewrite Z.add_0_r, Hk. f_equal; lia.
Qed.

(** ** The order of strings: [a < b] *)
Definition compareStr (a b : string) : Z :=
  match String.compare a b with Lt => -1 | Eq => 0 | Gt => 1 end.
Lemma compareStr_refl a : compareStr a a = 0.
Proof.
  unfold compareStr. pose proof (String.compare_antisym a a) as H.
  destruct (String.compare a a); done.
Qed.
Lemma compareStr_0 a b : compareStr a b = 0 -> a = b.
Proof.
  unfold compareStr. destruct (String.compare a b) eqn:E; try done.
  intros _. by apply String.compare_eq_iff.
Qed.
Lemma compareStr_antisym a b : compareStr a b = - compareStr b a.
Proof. unfold compareStr. rewrite String.compare_antisym. by destruct (String.compare b a). Qed.
Lemma compareStr_cons c d a b :
  compareStr (String c a) (String d b) =
    match N.compare (N_of_ascii c) (N_of_ascii d) with
    | Lt => -1 | Eq => compareStr a b | Gt => 1
    end.
Proof. unfold compareStr. simpl. unfold Ascii.compare. by destruct (N.compare _ _). Qed.
Lemma compareStr_trans a b c : compareStr a b <= 0 -> compareStr b c <= 0 -> compareStr a c <= 0.
Proof.
  revert b c. induction a as [|x a IH]; intros [|y b] [|z c]; try (by unfold compareStr; simpl; lia).
  rewrite !compareStr_cons.
  destruct (N.compare_spec (N_of_ascii x) (N_of_ascii y)), (N.compare_spec (N_of_ascii y) (N_of_ascii z)),
    (N.compare_spec (N_of_ascii x) (N_of_ascii z)); try lia; eauto.
Qed.

(** ** [split] undoes [join] *)
Definition noChar (c : ascii) (s : string) : bool := allChars (fun d => negb (d ==? c)) s.
Lemma splitOn_noChar c s : noChar c s = true -> splitOn c s = [s].
Proof.
  induction s as [|d s IH]; [done|]. unfold noChar. simpl. rewrite andb_true_iff, negb_true_iff.
  intros [Hd Hs]. rewrite Hd. by rewrite IH.
Qed.
Lemma splitOn_append c s t :
  noChar c s = true -> splitOn c (s +:+ String c t) = s :: splitOn c t.
Proof.
  induction s as [|d s IH].
  - intros _. rewrite append_nil_l. simpl. by rewrite bool_decide_true.
  - unfold noChar. simpl. rewrite andb_true_iff, negb_true_iff. intros [Hd Hs].
    change (String d s +:+ String c t) with (String d (s +:+ String c t)). cbn [splitOn]. by rewrite Hd, IH.
Qed.
Lemma join_cons2 sep s t l : join sep (s :: t :: l) = s +:+ sep +:+ join sep (t :: l).
Proof. done. Qed.
Lemma splitOn_join c l :
  l ≠ [] -> forallb (noChar c) l = true -> splitOn c (join (String c "") l) = l.
Proof.
  induction l as [|s l IH]; [done|]. intros _ H. cbn [forallb] in H. apply andb_true_iff in H as [Hs Hl].
  destruct l as [|t l]; [by apply splitOn_noChar|].
  rewrite join_cons2, append_cons, append_nil_l, splitOn_append by done. f_equal. by apply IH.
Qed.
End JsText.
