(* ===== verification/Json.v ===== *)
(** * JSON values and their canonical text

    The values the services exchange, [JSON.stringify], the sorted
    [stableStringify] of packages/shared-types/src/ids.ts, and the fact every
    "the hash binds every field" claim rests on: two values with the same text
    are the same value.  Numbers are integers (ledger numbers, counts,
    timestamps); the amounts of the protocol travel as strings. *)
From S2P Require Import Prelude JsText.
From Stdlib Require Import Ascii.
Import JsText.

Module Json.

#[local] Unset Elimination Schemes.
Inductive json :=
| JNull
| JBool (b : bool)
| JNum (z : Z)
| JStr (s : string)
| JArr (l : list json)
| JObj (kvs : list (string * json)).
#[local] Set Elimination Schemes.

Section Induction.
Context (P : json -> Prop).
Hypothesis Hnull : P JNull.
Hypothesis Hbool : forall b, P (JBool b).
Hypothesis Hnum : forall z, P (JNum z).
Hypothesis Hstr : forall s, P (JStr s).
Hypothesis Harr : forall l, Forall P l -> P (JArr l).
Hypothesis Hobj : forall kvs, Forall (fun kv => P kv.2) kvs -> P (JObj kvs).
Fixpoint json_ind (j : json) : P j :=
  match j with
  | JNull => Hnull
  | JBool b => Hbool b
  | JNum z => Hnum z
  | JStr s => Hstr s
  | JArr l => Harr l ((fix go l : Forall P l :=
      match l with [] => Forall_nil_2 _ | x :: l' => Forall_cons_2 _ _ _ (json_ind x) (go l') end) l)
  | JObj kvs => Hobj kvs ((fix go kvs : Forall (fun kv => P kv.2) kvs :=
      match kvs with
      | [] => Forall_nil_2 _
      | x :: l' => Forall_cons_2 _ _ _ (json_ind x.2) (go l')
      end) kvs)
  end.
End Induction.

(** ** JSON.stringify *)

Definition hex4 (n : Z) : string := padStart 4 "0"%char (toHexString n).
(** The escape of one character inside a JSON string literal. *)
Definition escapeChar (c : ascii) : string :=
  let n := code c in
  if n =? 34 then String (chr 92) (String (chr 34) "")
  else if n =? 92 then String (chr 92) (String (chr 92) "")
  else if n =? 8 then String (chr 92) "b"
  else if n =? 9 then String (chr 92) "t"
  else if n =? 10 then String (chr 92) "n"
  else if n =? 12 then String (chr 92) "f"
  else if n =? 13 then String (chr 92) "r"
  else if n <? 32 then String (chr 92) (String "u"%char (hex4 n))
  else String c "".
Fixpoint escapeString (s : string) : string :=
  match s with EmptyString => "" | String c s' => escapeChar c +:+ escapeString s' end.
Definition quote (s : string) : string := String dquote (escapeString s +:+ String dquote "").

Fixpoint stringify (j : json) : string :=
  match j with
  | JNull => "null"
  | JBool true => "true"
  | JBool false => "false"
  | JNum z => toString z
  | JStr s => quote s
  | JArr l => "[" +:+ join "," (map stringify l) +:+ "]"
  | JObj kvs => "{" +:+ join "," (map (fun kv => quote kv.1 +:+ ":" +:+ stringify kv.2) kvs) +:+ "}"
  end.

(** ** Property access *)
Fixpoint lookupKey (k : string) (kvs : list (string * json)) : option json :=
  match kvs with
  | [] => None
  | (k', v) :: kvs' => if k ==? k' then Some v else lookupKey k kvs'
  end.
Definition field (k : string) (j : json) : option json :=
  match j with JObj kvs => lookupKey k kvs | _ => None end.
Definition asString (j : json) : option string :=
  match j with JStr s => Some s | _ => None end.
Definition fieldString (k : string) (j : json) : option string := field k j ≫= asString.
(** A JavaScript value used as a condition. *)
Definition truthyJson (j : json) : bool :=
  match j with JNull => false | JBool b => b | JNum z => negb (z =? 0) | JStr s => truthy s | _ => true end.

(** ** The text determines the value *)

(** Read one escaped character back. *)
Definition simpleEscape (c : ascii) : option ascii :=
  let n := code c in
  if n =? 98 then Some (chr 8) else if n =? 116 then Some (chr 9)
  else if n =? 110 then Some (chr 10) else if n =? 102 then Some (chr 12)
  else if n =? 114 then Some (chr 13)
  else if (n =? 34) || (n =? 92) || (n =? 47) then Some c else None.
Definition unescape (s : string) : option (ascii * string) :=
  match s with
  | String c s' =>
      if (c ==? dquote) || (code c <? 32) then None
      else if c ==? chr 92 then
        match s' with
        | String "u" (String "0" (String "0" (String h (String l t)))) =>
            match digitVal h, digitVal l with
            | Some dh, Some dl => Some (chr (Z.to_N (16 * dh + dl)), t)
            | _, _ => None
            end
        | String d t => d' ← simpleEscape d; Some (d', t)
        | EmptyString => None
        end
      else Some (c, s')
  | EmptyString => None
  end.

Lemma unescape_escapeChar c t : unescape (escapeChar c +:+ t) = Some (c, t).
Proof. destruct c as [[] [] [] [] [] [] [] []]; reflexivity. Qed.

Lemma escapeString_inj s1 s2 t1 t2 :
  escapeString s1 +:+ String dquote t1 = escapeString s2 +:+ String dquote t2 ->
  s1 = s2 /\ t1 = t2.
Proof.
  revert s2. induction s1 as [|c1 s1 IH]; intros [|c2 s2]; simpl; rewrite ?append_assoc.
  - rewrite !append_nil_l. by intros [= ->].
  - intros H. apply (f_equal unescape) in H. by rewrite unescape_escapeChar in H.
  - intros H. apply (f_equal unescape) in H. by rewrite unescape_escapeChar in H.
  - intros H. apply (f_equal unescape) in H. rewrite !unescape_escapeChar in H.
    injection H as -> H. by destruct (IH s2 H) as [-> ->].
Qed.

Lemma quote_inj s1 s2 t1 t2 : quote s1 +:+ t1 = quote s2 +:+ t2 -> s1 = s2 /\ t1 = t2.
Proof.
  unfold quote. rewrite !append_cons, !append_assoc, !append_cons, !append_nil_l.
  intros [= H]. by apply escapeString_inj.
Qed.

(** What can follow a value: the end, a comma or a closing bracket. *)
Definition closing (c : ascii) : bool := (c ==? ","%char) || (c ==? "]"%char) || (c ==? "}"%char).
Definition delimited (t : string) : Prop :=
  match t with EmptyString => True | String c _ => closing c = true end.

Lemma numeric_prefix a1 a2 t1 t2 :
  allChars isNumeric a1 = true -> allChars isNumeric a2 = true ->
  delimited t1 -> delimited t2 -> a1 +:+ t1 = a2 +:+ t2 -> a1 = a2 /\ t1 = t2.
Proof.
  assert (forall c, isNumeric c = true -> closing c = true -> False) as Hc.
  { intros c. destruct c as [[] [] [] [] [] [] [] []]; done. }
  revert a2. induction a1 as [|c1 a1 IH]; intros [|c2 a2]; simpl;
    rewrite ?append_nil_l, ?append_cons, ?andb_true_iff.
  - done.
  - intros _ [? _] Hd _ ->. exfalso. by eapply Hc.
  - intros [? _] _ _ Hd <-. exfalso. by eapply Hc.
  - intros [_ Ha1] [_ Ha2] Ht1 Ht2 [= -> E]. by destruct (IH a2 Ha1 Ha2 Ht1 Ht2 E) as [-> ->].
Qed.

(** The first character tells the constructor. *)
Definition tag (s : string) : nat :=
  match s with
  | EmptyString => 0
  | String c _ =>
      if isNumeric c then 3 else if c ==? dquote then 4 else if c ==? "["%char then 5
      else if c ==? "{"%char then 6 else if c ==? "n"%char then 1
      else if c ==? "t"%char then 2 else if c ==? "f"%char then 7 else 8
  end.
Definition ctag (j : json) : nat :=
  match j with
  | JNull => 1 | JBool true => 2 | JBool false => 7 | JNum _ => 3 | JStr _ => 4
  | JArr _ => 5 | JObj _ => 6
  end.
Lemma toString_nonempty z : toString z ≠ "".
Proof.
  intros H. pose proof (f_equal parseBigInt H) as H'. rewrite parseBigInt_toString in H'.
  injection H' as ->. discriminate H.
Qed.
Lemma tag_stringify j t : tag (stringify j +:+ t) = ctag j.
Proof.
  destruct j as [|[]|z|s|l|kvs]; try done. simpl.
  pose proof (isNumeric_toString z) as Hn. pose proof (toString_nonempty z) as He.
  destruct (toString z) as [|c s]; [done|]. rewrite append_cons. simpl in *.
  rewrite andb_true_iff in Hn. by destruct Hn as [-> _].
Qed.

Definition inj_at (j : json) : Prop := forall j' t t',
  delimited t -> delimited t' -> stringify j +:+ t = stringify j' +:+ t' -> j = j' /\ t = t'.

Lemma stringify_nonempty j : stringify j ≠ "".
Proof. intros H. pose proof (tag_stringify j "") as Ht. rewrite H in Ht. by destruct j as [|[]| | | |]. Qed.

(** Comma-separated items that are themselves uniquely readable. *)
Lemma join_inj {A} (f : A -> string) (c : ascii) (l l' : list A) t t' :
  closing c = true -> c ≠ ","%char ->
  (forall x s, x ∈ l' -> f x +:+ s ≠ String c t) ->
  (forall x s, x ∈ l -> f x +:+ s ≠ String c t') ->
  Forall (fun x => forall y s s', y ∈ l' -> delimited s -> delimited s' ->
    f x +:+ s = f y +:+ s' -> x = y /\ s = s') l ->
  join "," (map f l) +:+ String c t = join "," (map f l') +:+ String c t' -> l = l' /\ t = t'.
Proof.
  intros Hc Hcomma H1 H2 Hf. revert l' H1 Hf. induction l as [|x l IH]; intros [|y l'] H1 Hf.
  - simpl. rewrite !append_nil_l. by intros [= ->].
  - cbn [map join]. destruct (map f l'); rewrite ?append_assoc, append_nil_l; intros H;
      by destruct (H1 y _ (list_elem_of_here _ _) (eq_sym H)).
  - cbn [map join]. destruct (map f l); rewrite ?append_assoc, append_nil_l; intros H;
      by destruct (H2 x _ (list_elem_of_here _ _) H).
  - apply Forall_cons in Hf as [Hx Hf]. intros H.
    assert (exists r r', delimited r /\ delimited r' /\ f x +:+ r = f y +:+ r' /\
      (r = r' -> l = l' /\ t = t')) as (r & r' & Hr & Hr' & Heq & Hk).
    { assert (l = [] /\ l' = [] \/ l = [] /\ l' ≠ [] \/ l ≠ [] /\ l' = [] \/ l ≠ [] /\ l' ≠ [])
        as Hcase by (destruct l, l'; naive_solver).
      destruct Hcase as [[-> ->]|[[-> Hl]|[[Hl ->]|[Hl Hl']]]].
      - exists (String c t), (String c t'). split; [done|]. split; [done|]. split; [done|].
        by intros [= ->].
      - destruct l' as [|y2 l2]; [done|]. cbn [map join] in H. rewrite !append_assoc in H.
        eexists _, _. split; [|split; [|split; [exact H|]]]; [done..|]. intros [= Hcc _]. done.
      - destruct l as [|x2 l2]; [done|]. cbn [map join] in H. rewrite !append_assoc in H.
        eexists _, _. split; [|split; [|split; [exact H|]]]; [done..|].
        rewrite append_cons. intros [= Hcc _]. done.
      - destruct l as [|x2 l2], l' as [|y2 l2']; [done..|]. cbn [map join] in H.
        rewrite !append_assoc in H. eexists _, _. split; [|split; [|split; [exact H|]]]; [done..|].
        rewrite !append_cons, !append_nil_l. intros [= H']. apply IH; [| | |exact H'].
        + intros z s Hz. apply H2. by right.
        + intros z s Hz. apply H1. by right.
        + eapply Forall_impl; [exact Hf|]. intros z Hz w s s' Hw. apply Hz. by right. }
    destruct (Hx y r r' (list_elem_of_here _ _) Hr Hr' Heq) as [-> Hrr]. by destruct (Hk Hrr) as [-> ->].
Qed.

Lemma stringify_inj_at j : inj_at j.
Proof.
  induction j as [|b|z|s|l IH|kvs IH]; intros j' t t' Ht Ht' H;
    pose proof (f_equal tag H) as Htag; rewrite !tag_stringify in Htag.
  - destruct j' as [|[]| | | |]; try done. by injection H.
  - destruct b, j' as [|[]| | | |]; try done; by injection H.
  - destruct j' as [|[]|z'| | |]; try done. simpl in H.
    apply numeric_prefix in H as [H ->]; auto using isNumeric_toString. apply (inj toString) in H as ->. done.
  - destruct j' as [|[]| |s'| |]; try done. cbn [stringify] in H. by apply quote_inj in H as [-> ->].
  - destruct j' as [|[]| | |l'|]; try done. cbn [stringify] in H.
    rewrite !append_cons, !append_nil_l, !append_assoc in H. injection H as H. apply join_inj in H as [-> ->]; auto.
    + intros x s _ E. apply (f_equal tag) in E. rewrite tag_stringify in E. by destruct x as [|[]| | | |].
    + intros x s _ E. apply (f_equal tag) in E. rewrite tag_stringify in E. by destruct x as [|[]| | | |].
    + eapply Forall_impl; [exact IH|]. intros x Hx y s s' _. apply Hx.
  - destruct j' as [|[]| | | |kvs']; try done. cbn [stringify] in H.
    rewrite !append_cons, !append_nil_l, !append_assoc in H. injection H as H. apply join_inj in H as [-> ->]; auto.
    eapply Forall_impl; [exact IH|]. intros [k v] Hv [k' v'] s s' _ Hs Hs'. simpl in *.
    rewrite !append_assoc. intros E. apply quote_inj in E as [-> E].
    rewrite !append_cons, !append_nil_l in E. injection E as E.
    by destruct (Hv v' s s' Hs Hs' E) as [-> ->].
Qed.

(** [JSON.stringify] is injective on the modelled values. *)
#[export] Instance json_eq_dec : EqDecision json.
Proof.
  refine (fix go (x y : json) := let _ : EqDecision json := @go in
    match x, y with
    | JNull, JNull => left eq_refl
    | JBool a, JBool b => cast_if (decide (a = b))
    | JNum a, JNum b => cast_if (decide (a = b))
    | JStr a, JStr b => cast_if (decide (a = b))
    | JArr a, JArr b => cast_if (decide (a = b))
    | JObj a, JObj b => cast_if (decide (a = b))
    | _, _ => right _
    end); congruence.
Defined.
#[export] Instance stringify_inj : Inj (=) (=) stringify.
Proof.
  intros j j' H. destruct (stringify_inj_at j j' "" "" I I) as [-> _]; [|done]. by rewrite H.
Qed.

(** ** JSON.parse

    Numbers are the integers of the model; an escape above [\u00ff] is outside
    it.  The fuel is the length of the text: every level of nesting consumes a
    character. *)
Fixpoint parseChars (fuel : nat) (s : string) : option (string * string) :=
  match fuel with
  | O => None
  | S fuel =>
      match s with
      | EmptyString => None
      | String c t =>
          if c ==? dquote then Some ("", t)
          else '(d, u) ← unescape s; '(r, v) ← parseChars fuel u; Some (String d r, v)
      end
  end.
Fixpoint takeWhile (p : ascii -> bool) (s : string) : string * string :=
  match s with
  | EmptyString => ("", "")
  | String c t => if p c then let '(a, b) := takeWhile p t in (String c a, b) else ("", s)
  end.
(** No leading zero, a digit after the sign. *)
Definition wellFormedNumber (s : string) : bool :=
  let d := match s with String c t => if c ==? chr 45 then t else s | EmptyString => s end in
  match d with
  | EmptyString => false
  | String c t => allChars isDigit d && (negb (c ==? chr 48) || (t ==? ""))
  end.
Definition parseNumber (s : string) : option (json * string) :=
  let '(d, t) := takeWhile isNumeric s in
  if wellFormedNumber d then z ← parseBigInt d; Some (JNum z, t) else None.
Definition jsonSpace (c : ascii) : bool :=
  (code c =? 32) || (code c =? 9) || (code c =? 10) || (code c =? 13).
Definition skipSpace (s : string) : string := (takeWhile jsonSpace s).2.

Definition firstIs (c : ascii) (s : string) : bool :=
  match s with String d _ => d ==? c | EmptyString => false end.

Fixpoint parseValue (fuel : nat) (s : string) {struct fuel} : option (json * string) :=
  match fuel with
  | O => None
  | S fuel =>
      let s := skipSpace s in
      match s with
      | EmptyString => None
      | String c t =>
          if c ==? dquote then '(r, u) ← parseChars (String.length s) t; Some (JStr r, u)
          else if c ==? "["%char then
            let u := skipSpace t in
            if firstIs "]" u then Some (JArr [], sliceFrom 1 u)
            else '(l, v) ← parseItems fuel u; Some (JArr l, v)
          else if c ==? "{"%char then
            let u := skipSpace t in
            if firstIs "}" u then Some (JObj [], sliceFrom 1 u)
            else '(l, v) ← parseMembers fuel u; Some (JObj l, v)
          else if startsWith s "null" then Some (JNull, sliceFrom 4 s)
          else if startsWith s "true" then Some (JBool true, sliceFrom 4 s)
          else if startsWith s "false" then Some (JBool false, sliceFrom 5 s)
          else parseNumber s
      end
  end
with parseItems (fuel : nat) (s : string) {struct fuel} : option (list json * string) :=
  match fuel with
  | O => None
  | S fuel =>
      '(x, t) ← parseValue fuel s;
      match skipSpace t with
      | String "," u => '(l, v) ← parseItems fuel u; Some (x :: l, v)
      | String "]" u => Some ([x], u)
      | _ => None
      end
  end
with parseMembers (fuel : nat) (s : string) {struct fuel} : option (list (string * json) * string) :=
  match fuel with
  | O => None
  | S fuel =>
      match skipSpace s with
      | String c t =>
          if c ==? dquote then
            '(k, u) ← parseChars (String.length s) t;
            match skipSpace u with
            | String ":" u =>
                '(x, t) ← parseValue fuel u;
                match skipSpace t with
                | String "," u => '(l, v) ← parseMembers fuel u; Some ((k, x) :: l, v)
                | String "}" u => Some ([(k, x)], u)
                | _ => None
                end
            | _ => None
            end
          else None
      | EmptyString => None
      end
  end.

(** The whole text must be one value. *)
Definition parse (s : string) : option json :=
  '(j, t) ← parseValue (2 * String.length s + 2) s;
  if skipSpace t ==? "" then Some j else None.

(** *** [JSON.parse (JSON.stringify j) = j] *)

Lemma parseChars_escape f c t :
  parseChars (S f) (escapeChar c +:+ t) = '(r, v) ← parseChars f t; Some (String c r, v).
Proof. destruct c as [[] [] [] [] [] [] [] []]; reflexivity. Qed.
Lemma parseChars_string s f t :
  (String.length s < f)%nat -> parseChars f (escapeString s +:+ String dquote t) = Some (s, t).
Proof.
  revert f. induction s as [|c s IH]; intros [|f] Hf; simpl in Hf; try lia; [done|].
  cbn [escapeString]. rewrite append_assoc, parseChars_escape, IH by lia. done.
Qed.
Lemma escapeString_length s : (String.length s <= String.length (escapeString s))%nat.
Proof.
  induction s as [|c s IH]; [done|]. simpl. rewrite length_append.
  assert (1 <= String.length (escapeChar c))%nat by (destruct c as [[] [] [] [] [] [] [] []]; simpl; lia).
  lia.
Qed.
Lemma takeWhile_all p a t :
  allChars p a = true -> match t with String c _ => p c = false | _ => True end ->
  takeWhile p (a +:+ t) = (a, t).
Proof.
  induction a as [|c a IH]; intros Ha Ht.
  - destruct t as [|c t]; [done|]. rewrite append_nil_l. simpl. by rewrite Ht.
  - simpl in Ha. apply andb_true_iff in Ha as [Hc Ha]. rewrite append_cons. simpl.
    by rewrite Hc, (IH Ha Ht).
Qed.
Lemma delimited_not_numeric t :
  delimited t -> match t with String c _ => isNumeric c = false | _ => True end.
Proof. destruct t as [|[[] [] [] [] [] [] [] []] t]; done. Qed.

Lemma wellFormed_digit c s :
  isDigit c = true -> c ≠ chr 48 -> allChars isDigit s = true ->
  wellFormedNumber (String c s) = true /\ wellFormedNumber (String (chr 45) (String c s)) = true.
Proof.
  intros Hc Hz Hs. unfold wellFormedNumber. assert (c ≠ chr 45) as Hm by (intros ->; done).
  assert ((c ==? chr 45) = false) as -> by by apply bool_decide_false.
  assert ((c ==? chr 48) = false) as E by by apply bool_decide_false.
  change (chr 45 ==? chr 45) with true. cbv iota. cbn [allChars]. by rewrite Hc, Hs, E.
Qed.
Lemma wellFormed_go x s :
  (x ≠ 0)%N -> allChars isDigit s = true -> wellFormedNumber (pretty_N_go x s) = true /\
    wellFormedNumber (String (chr 45) (pretty_N_go x s)) = true.
Proof.
  revert s. induction (N.lt_wf_0 x) as [x _ IH]; intros s Hx Hs.
  rewrite pretty_N_go_step by lia.
  assert (isDigit (pretty_N_char (x mod 10)) = true) as Hd by (apply isDigit_pretty, N.mod_lt; lia).
  destruct (decide (x / 10 = 0)%N) as [E|E].
  - rewrite E, pretty_N_go_0. apply N.div_small_iff in E; [|lia]. rewrite N.mod_small in * by done.
    assert (x = 1 \/ x = 2 \/ x = 3 \/ x = 4 \/ x = 5 \/ x = 6 \/ x = 7 \/ x = 8 \/ x = 9)%N as H by lia.
    apply wellFormed_digit; [done|naive_solver|done].
  - apply IH; [apply N.div_lt; lia|done|]. cbn [allChars]. by rewrite Hd, Hs.
Qed.
Lemma wellFormed_toString z : wellFormedNumber (toString z) = true.
Proof.
  assert (forall p, pretty (N.pos p) = pretty_N_go (N.pos p) "") as E by done.
  destruct z as [|p|p]; [done| |].
  - change (toString (Z.pos p)) with (pretty (N.pos p)). rewrite E. by apply wellFormed_go.
  - change (toString (Z.neg p)) with (String (chr 45) (pretty (N.pos p))). rewrite E. by apply wellFormed_go.
Qed.
Lemma parseNumber_toString z t : delimited t -> parseNumber (toString z +:+ t) = Some (JNum z, t).
Proof.
  intros Ht. unfold parseNumber.
  rewrite (takeWhile_all _ _ t (isNumeric_toString z) (delimited_not_numeric t Ht)).
  by rewrite wellFormed_toString, parseBigInt_toString.
Qed.

(** The nesting depth, as the fuel counts it. *)
Fixpoint need (j : json) : nat :=
  match j with
  | JArr l => S (foldr (fun x n => S (Nat.max (need x) n)) 0%nat l)
  | JObj kvs => S (foldr (fun kv n => S (Nat.max (need kv.2) n)) 0%nat kvs)
  | _ => 1
  end.

Lemma skipSpace_nonspace c s : jsonSpace c = false -> skipSpace (String c s) = String c s.
Proof. intros H. unfold skipSpace. simpl. by rewrite H. Qed.
Lemma jsonSpace_tag c s : jsonSpace c = true -> tag (String c s) = 8%nat.
Proof. destruct c as [[] [] [] [] [] [] [] []]; done. Qed.
Lemma skipSpace_stringify j t : skipSpace (stringify j +:+ t) = stringify j +:+ t.
Proof.
  pose proof (tag_stringify j t) as H. destruct (stringify j +:+ t) as [|c s]; [done|].
  apply skipSpace_nonspace. destruct (jsonSpace c) eqn:E; [|done].
  rewrite (jsonSpace_tag _ _ E) in H. by destruct j as [|[]| | | |].
Qed.

Definition parses (j : json) : Prop := forall f t,
  (need j <= f)%nat -> delimited t -> parseValue f (stringify j +:+ t) = Some (j, t).

Lemma parse_quote_key k f t :
  (String.length k < f)%nat -> parseChars f (escapeString k +:+ String dquote "" +:+ t) = Some (k, t).
Proof. apply parseChars_string. Qed.

Lemma parseItems_spec l f t :
  Forall parses l -> l ≠ [] -> (foldr (fun x n => S (Nat.max (need x) n)) 0 l <= f)%nat ->
  parseItems f (join "," (map stringify l) +:+ String "]" t) = Some (l, t).
Proof.
  intros Hl. revert f. induction Hl as [|x l Hx Hl IH]; intros f Hne Hf; [done|].
  simpl in Hf. destruct f as [|f]; [lia|]. cbn [parseItems]. destruct l as [|y l].
  - cbn [map join]. rewrite Hx; [|lia|done]. done.
  - cbn [map join] in *. rewrite !append_assoc, Hx; [|simpl in Hf; lia|done].
    cbn [mbind option_bind]. rewrite !append_cons, !append_nil_l, skipSpace_nonspace by done.
    rewrite IH; [done|done|simpl in *; lia].
Qed.
Lemma parseMembers_spec l f t :
  Forall (fun kv => parses kv.2) l -> l ≠ [] ->
  (foldr (fun kv n => S (Nat.max (need kv.2) n)) 0 l <= f)%nat ->
  parseMembers f (join "," (map (fun kv => quote kv.1 +:+ ":" +:+ stringify kv.2) l) +:+ String "}" t)
    = Some (l, t).
Proof.
  intros Hl. revert f. induction Hl as [|[k x] l Hx Hl IH]; intros f Hne Hf; [done|].
  simpl in Hf, Hx. destruct f as [|f]; [lia|].
  assert (forall u, parseMembers (S f) ((quote k +:+ ":" +:+ stringify x) +:+ u) =
    '(x, t) ← parseValue f (stringify x +:+ u);
    match skipSpace t with
    | String "," u => '(l, v) ← parseMembers f u; Some ((k, x) :: l, v)
    | String "}" u => Some ([(k, x)], u)
    | _ => None
    end) as Hstep.
  { intros u. unfold quote. rewrite !append_cons, !append_assoc, !append_cons, !append_nil_l.
    cbn [parseMembers]. rewrite skipSpace_nonspace by done. rewrite bool_decide_true by done.
    rewrite parseChars_string; [|simpl; rewrite !length_append; pose proof (escapeString_length k); lia].
    cbn [mbind option_bind]. by rewrite skipSpace_nonspace. }
  destruct l as [|y l].
  - cbn [map join fst snd]. rewrite Hstep, Hx; [|lia|done]. done.
  - cbn [map join fst snd] in *. rewrite append_assoc. rewrite Hstep, Hx; [|simpl in Hf; lia|done].
    cbn [mbind option_bind]. rewrite !append_cons, !append_nil_l, skipSpace_nonspace by done.
    rewrite IH; [done|done|simpl in *; lia].
Qed.

(** The first character after an opening bracket of a non-empty list. *)
Lemma items_first x l t :
  exists u, join "," (map stringify (x :: l)) +:+ t = stringify x +:+ u.
Proof. destruct l; cbn [map join]; rewrite ?append_assoc; eauto. Qed.
Lemma skipSpace_items x l t :
  skipSpace (join "," (map stringify (x :: l)) +:+ t) = join "," (map stringify (x :: l)) +:+ t.
Proof. destruct (items_first x l t) as [u ->]. apply skipSpace_stringify. Qed.
Lemma first_item x l t : firstIs "]" (join "," (map stringify (x :: l)) +:+ t) = false.
Proof.
  destruct (items_first x l t) as [u ->]. pose proof (tag_stringify x u) as H.
  destruct (stringify x +:+ u) as [|c s]; [done|].
  apply bool_decide_false. intros ->. by destruct x as [|[]| | | |].
Qed.
Definition member (kv : string * json) : string := quote kv.1 +:+ ":" +:+ stringify kv.2.
Lemma members_first kv l t :
  exists u, join "," (map member (kv :: l)) +:+ t = String dquote u.
Proof. destruct l; cbn [map join]; unfold member at 1, quote; rewrite ?append_cons; eauto. Qed.
Lemma skipSpace_members kv l t :
  skipSpace (join "," (map member (kv :: l)) +:+ t) = join "," (map member (kv :: l)) +:+ t.
Proof. destruct (members_first kv l t) as [u ->]. by apply skipSpace_nonspace. Qed.
Lemma first_member kv l t : firstIs "}" (join "," (map member (kv :: l)) +:+ t) = false.
Proof. by destruct (members_first kv l t) as [u ->]. Qed.

Lemma parses_all j : parses j.
Proof.
  induction j as [|b|z|s|l IH|kvs IH]; intros [|f] t Hf Ht; try (simpl in Hf; lia).
  - by destruct t.
  - by destruct b, t.
  - cbn [parseValue stringify]. rewrite (skipSpace_stringify (JNum z)). cbn [stringify].
    pose proof (parseNumber_toString z t Ht) as Hp. pose proof (tag_stringify (JNum z) t) as Htag.
    cbn [stringify] in Htag. destruct (toString z +:+ t) as [|c u]; [done|].
    unfold tag in Htag. destruct (isNumeric c) eqn:Ec; [|by repeat case_match].
    rewrite <- Hp. by destruct c as [[] [] [] [] [] [] [] []].
  - cbn [parseValue]. rewrite skipSpace_stringify. cbn [stringify]. unfold quote.
    rewrite !append_cons, !append_assoc, !append_cons, !append_nil_l. cbn [dquote].
    rewrite bool_decide_true by done.
    rewrite parseChars_string; [done|]. simpl. rewrite length_append.
    pose proof (escapeString_length s). lia.
  - cbn [parseValue]. rewrite skipSpace_stringify. cbn [stringify need] in *.
    rewrite !append_cons, !append_nil_l, !append_assoc, !append_cons, !append_nil_l.
    change ("[" ==? dquote)%char with false. change ("[" ==? "[")%char with true. cbv iota.
    destruct l as [|x l]; [done|]. rewrite skipSpace_items, first_item.
    rewrite parseItems_spec; [done|done|done|lia].
  - cbn [parseValue]. rewrite skipSpace_stringify. cbn [stringify need] in *.
    rewrite !append_cons, !append_nil_l, !append_assoc, !append_cons, !append_nil_l.
    change ("{" ==? dquote)%char with false. change ("{" ==? "[")%char with false.
    change ("{" ==? "{")%char with true. cbv iota.
    destruct kvs as [|x l]; [done|]. fold member. rewrite skipSpace_members, first_member.
    rewrite parseMembers_spec; [done|done|done|lia].
Qed.

Lemma join_length {A} (f : A -> string) l :
  (foldr (fun x n => S (String.length (f x)) + n) 0 l <= S (String.length (join "," (map f l))))%nat.
Proof.
  induction l as [|x l IH]; [simpl; lia|]. destruct l as [|y l]; [simpl; lia|].
  cbn [map join] in *. rewrite !length_append. cbn [foldr] in *. change (String.length ",") with 1%nat. lia.
Qed.
Lemma foldr_need {A} (f : A -> string) (n : A -> nat) l :
  Forall (fun x => (n x <= 2 * String.length (f x))%nat) l ->
  (foldr (fun x m => S (Nat.max (n x) m)) 0 l <= 2 * foldr (fun x m => S (String.length (f x)) + m) 0 l)%nat.
Proof. induction 1 as [|x l Hx Hl IH]; cbn [foldr]; lia. Qed.
Lemma need_length j : (need j <= 2 * String.length (stringify j))%nat.
Proof.
  induction j as [|b|z|s|l IH|kvs IH]; cbn [need stringify].
  - simpl; lia.
  - destruct b; simpl; lia.
  - pose proof (toString_nonempty z). destruct (toString z); [done|simpl; lia].
  - unfold quote. simpl. lia.
  - rewrite !length_append. pose proof (join_length stringify l). pose proof (foldr_need _ _ l IH).
    change (String.length "[") with 1%nat. change (String.length "]") with 1%nat. lia.
  - fold member. rewrite !length_append. pose proof (join_length member kvs).
    assert (Forall (fun kv => (need kv.2 <= 2 * String.length (member kv))%nat) kvs) as IH'.
    { eapply Forall_impl; [exact IH|]. intros kv Hkv. unfold member. rewrite !length_append. simpl in Hkv. lia. }
    pose proof (foldr_need member (fun kv => need kv.2) kvs IH').
    change (String.length "{") with 1%nat. change (String.length "}") with 1%nat. lia.
Qed.

(** [JSON.parse] reads every [JSON.stringify] back. *)
Lemma parse_stringify j : parse (stringify j) = Some j.
Proof.
  unfold parse. pose proof (parses_all j (2 * String.length (stringify j) + 2)%nat "") as H.
  rewrite append_nil_r in H. rewrite H; [done| |done]. pose proof (need_length j). lia.
Qed.
End Json.
