(* ===== verification/JsCollections.v ===== *)
(** * Arrays, maps and sets of the JavaScript runtime

    [Array.prototype.sort] as a stable sort that only asks whether a
    comparison is negative, and [Map] as an association list in insertion
    order ([set] on a present key keeps its position), because the sources
    iterate over maps and the order is observable. *)
From S2P Require Import Prelude.
From Stdlib Require Import Permutation Sorted.

(** ** Array.prototype.sort *)
Module JsArray.
Section Sort.
Context {A : Type}.

Fixpoint insertBy (cmp : A -> A -> Z) (x : A) (l : list A) : list A :=
  match l with
  | [] => [x]
  | y :: l' => if cmp x y <? 0 then x :: l else y :: insertBy cmp x l'
  end.
Definition sortBy (cmp : A -> A -> Z) (l : list A) : list A :=
  fold_left (fun acc x => insertBy cmp x acc) l [].

Lemma insertBy_perm cmp x l : insertBy cmp x l ≡ₚ x :: l.
Proof.
  induction l as [|y l IH]; simpl; [done|]. case_match; [done|].
  rewrite IH. apply Permutation_swap.
Qed.
Lemma fold_insertBy_perm cmp l acc :
  fold_left (fun acc x => insertBy cmp x acc) l acc ≡ₚ l ++ acc.
Proof.
  revert acc. induction l as [|x l IH]; intros acc; simpl; [done|].
  rewrite IH, insertBy_perm. by rewrite <- Permutation_middle.
Qed.
Lemma sortBy_perm cmp l : sortBy cmp l ≡ₚ l.
Proof. unfold sortBy. rewrite fold_insertBy_perm. by rewrite app_nil_r. Qed.

(** A comparison that is a total preorder. *)
Class TotalCmp (cmp : A -> A -> Z) : Prop := {
  cmp_trans x y z : 0 <= cmp y x -> 0 <= cmp z y -> 0 <= cmp z x;
  cmp_total x y : cmp x y < 0 -> 0 <= cmp y x
}.
(** [leq x y]: [x] may stand before [y]. *)
Definition leq (cmp : A -> A -> Z) (x y : A) : Prop := 0 <= cmp y x.

Context (cmp : A -> A -> Z) `{!TotalCmp cmp}.

Lemma insertBy_sorted x l :
  StronglySorted (leq cmp) l -> StronglySorted (leq cmp) (insertBy cmp x l).
Proof using Type*.
  induction 1 as [|y l Hs IH Hy]; simpl; [repeat constructor|]. case_match eqn:E.
  - apply Z.ltb_lt in E. constructor; [by constructor|]. constructor; [by apply cmp_total|].
    eapply Forall_impl; [exact Hy|]. intros z Hz. eapply cmp_trans; [|exact Hz]. by apply cmp_total.
  - apply Z.ltb_ge in E. constructor; [done|].
    rewrite insertBy_perm. constructor; [exact E|done].
Qed.
Lemma sortBy_sorted l : StronglySorted (leq cmp) (sortBy cmp l).
Proof using Type*.
  unfold sortBy. assert (StronglySorted (leq cmp) []) as H by constructor. revert H.
  generalize (@nil A). induction l as [|x l IH]; intros acc H; simpl; [done|].
  apply IH. by apply insertBy_sorted.
Qed.

(** Two sorted permutations of each other agree when distinct elements
    never compare as equal. *)
Lemma sorted_unique l1 l2 :
  (forall x y, x ∈ l1 -> y ∈ l1 -> leq cmp x y -> leq cmp y x -> x = y) ->
  StronglySorted (leq cmp) l1 -> StronglySorted (leq cmp) l2 -> l1 ≡ₚ l2 -> l1 = l2.
Proof using Type.
  intros Hanti H1. revert l2 Hanti. induction H1 as [|x l1 Hs IH Hx]; intros l2 Hanti H2 Hp.
  - by apply Permutation_nil_l in Hp as ->.
  - destruct H2 as [|y l2 Hs2 Hy]; [by apply Permutation_nil_r in Hp|].
    assert (x = y) as ->.
    { assert (y ∈ x :: l1) as Hyin by (rewrite Hp; apply list_elem_of_here).
      assert (x ∈ y :: l2) as Hxin by (rewrite <- Hp; apply list_elem_of_here).
      rewrite Forall_forall in Hx, Hy.
      apply elem_of_cons in Hyin as [->|Hyin]; [done|].
      apply elem_of_cons in Hxin as [->|Hxin]; [done|].
      apply Hanti; [by left|by right|by apply Hx|by apply Hy]. }
    f_equal. apply IH; [|done|by eapply Permutation_cons_inv].
    intros a b Ha Hb. apply Hanti; by right.
Qed.
Lemma sortBy_perm_eq l1 l2 :
  (forall x y, x ∈ l1 -> y ∈ l1 -> leq cmp x y -> leq cmp y x -> x = y) ->
  l1 ≡ₚ l2 -> sortBy cmp l1 = sortBy cmp l2.
Proof using Type*.
  intros Hanti Hp. apply sorted_unique; auto using sortBy_sorted.
  - intros x y. rewrite !sortBy_perm. apply Hanti.
  - by rewrite !sortBy_perm.
Qed.
End Sort.
End JsArray.

(** ** Map *)
Module JsMap.
Section Map.
Context {K V : Type} `{!EqDecision K}.
Definition t : Type := list (K * V).

Fixpoint get (m : t) (k : K) : option V :=
  match m with
  | [] => None
  | (k', v) :: m' => if k ==? k' then Some v else get m' k
  end.
Definition has (m : t) (k : K) : bool := match get m k with Some _ => true | None => false end.
Fixpoint set (m : t) (k : K) (v : V) : t :=
  match m with
  | [] => [(k, v)]
  | (k', v') :: m' => if k ==? k' then (k, v) :: m' else (k', v') :: set m' k v
  end.
Definition keys (m : t) : list K := m.*1.
Definition values (m : t) : list V := m.*2.
Definition size (m : t) : Z := Z.of_nat (length m).

Lemma get_set_eq m k v : get (set m k v) k = Some v.
Proof.
  induction m as [|[k' v'] m IH]; simpl; [by rewrite bool_decide_true|].
  case_bool_decide; simpl; [by rewrite bool_decide_true|by rewrite bool_decide_false].
Qed.
Lemma get_set_ne m k k' v : k ≠ k' -> get (set m k v) k' = get m k'.
Proof.
  intros Hne. induction m as [|[k2 v2] m IH]; simpl; [by rewrite bool_decide_false|].
  case_bool_decide; simpl; [subst; by rewrite !bool_decide_false by done|by rewrite IH].
Qed.
Lemma get_set m k k' v : get (set m k v) k' = if k ==? k' then Some v else get m k'.
Proof. case_bool_decide; [subst; apply get_set_eq|by apply get_set_ne]. Qed.
Lemma get_elem m k v : get m k = Some v -> (k, v) ∈ m.
Proof.
  induction m as [|[k' v'] m IH]; simpl; [done|].
  case_bool_decide; [intros [= ->]; subst; left|right; auto].
Qed.
Lemma elem_get m k v : NoDup (keys m) -> (k, v) ∈ m -> get m k = Some v.
Proof.
  induction m as [|[k' v'] m IH]; simpl; [by intros _ ?%elem_of_nil|].
  intros [Hk' Hm]%NoDup_cons [[= -> ->]|Hin]%elem_of_cons; [by rewrite bool_decide_true|].
  rewrite bool_decide_false; [auto|]. intros ->. apply Hk'.
  by apply (list_elem_of_fmap_2 fst) in Hin.
Qed.
Lemma get_None m k : get m k = None <-> k ∉ keys m.
Proof.
  induction m as [|[k' v'] m IH]; simpl; [set_solver|].
  case_bool_decide; subst; [split; [done|set_solver]|]. rewrite IH. set_solver.
Qed.
Lemma keys_set m k v : keys (set m k v) = if has m k then keys m else keys m ++ [k].
Proof.
  unfold has. induction m as [|[k' v'] m IH]; simpl; [done|].
  case_bool_decide; subst; simpl; [done|]. rewrite IH. by case_match.
Qed.
Lemma NoDup_set m k v : NoDup (keys m) -> NoDup (keys (set m k v)).
Proof.
  intros H. rewrite keys_set. unfold has. destruct (get m k) eqn:E; [done|].
  apply get_None in E. apply NoDup_app. split; [done|]. split; [set_solver|].
  apply NoDup_singleton.
Qed.
End Map.
Arguments t : clear implicits.
End JsMap.

(** The set of a [new Set()], as the list of its elements. *)
Module JsSet.
Section Set_.
Context {K : Type} `{!EqDecision K}.
Definition has (s : list K) (k : K) : bool := bool_decide (k ∈ s).
Definition add (s : list K) (k : K) : list K := if has s k then s else s ++ [k].
Lemma elem_of_add s k x : x ∈ add s k <-> x ∈ s \/ x = k.
Proof. unfold add, has. case_bool_decide; set_solver. Qed.
Lemma NoDup_add s k : NoDup s -> NoDup (add s k).
Proof.
  intros H. unfold add, has. case_bool_decide; [done|].
  apply NoDup_app. split; [done|]. split; [set_solver|]. apply NoDup_singleton.
Qed.
End Set_.
End JsSet.
