(* ===== verification/Jsonb.v ===== *)
(** * Documents of type [jsonb]

    Postgres keeps a document as its value: the members of every object are
    stored by the length of their names, then bytewise, so what comes back has
    the same members in another order.  [same] is equality up to that order;
    reading a member respects it, printing does not. *)
From S2P Require Import Prelude JsText JsCollections Json.
From Stdlib Require Import Sorted.
Import JsText Json.

Module Jsonb.

(** ** The order of the members *)
Definition before (a b : string) : Prop :=
  (String.length a < String.length b)%nat \/ (String.length a = String.length b /\ String.le a b /\ a ≠ b).
#[export] Instance before_dec a b : Decision (before a b).
Proof. unfold before. apply _. Defined.
#[export] Instance before_trans : Transitive before.
Proof.
  intros a b c [Hab|(Hab & Lab & Nab)] [Hbc|(Hbc & Lbc & Nbc)]; [left; lia..|]. right. split; [lia|].
  split; [by transitivity b|]. intros ->. apply Nab. by apply (anti_symm String.le).
Qed.
Lemma before_irrefl a : ~ before a a.
Proof. intros [?|(_ & _ & ?)]; [lia|done]. Qed.
Lemma before_total a b : a ≠ b -> ~ before a b -> before b a.
Proof.
  intros Hne Hn. unfold before in *. destruct (lt_eq_lt_dec (String.length a) (String.length b)) as [[?|E]|?]; [naive_solver| |by left].
  right. split; [done|]. destruct (total String.le a b); naive_solver.
Qed.

(** ** Storing *)
Fixpoint place {A} (k : string) (v : A) (l : list (string * A)) : list (string * A) :=
  match l with
  | [] => [(k, v)]
  | (k', v') :: l' =>
      if k ==? k' then (k, v) :: l' else if bool_decide (before k k') then (k, v) :: l else (k', v') :: place k v l'
  end.
Fixpoint store (j : json) : json :=
  match j with
  | JArr l => JArr (map store l)
  | JObj kvs => JObj (foldr (fun kv l => place kv.1 (store kv.2) l) [] kvs)
  | _ => j
  end.
Definition storeMembers (kvs : list (string * json)) : list (string * json) :=
  foldr (fun kv l => place kv.1 (store kv.2) l) [] kvs.
Example store_orders :
  store (JObj [("origin", JNum 1); ("b", JObj [("z", JNull); ("y", JNull)]); ("app", JNum 2)])
    = JObj [("b", JObj [("y", JNull); ("z", JNull)]); ("app", JNum 2); ("origin", JNum 1)].
Proof. vm_compute. reflexivity. Qed.

Lemma get_place {A} k (v : A) l q : JsMap.get (place k v l) q = if q ==? k then Some v else JsMap.get l q.
Proof.
  induction l as [|[k' v'] l IH]; simpl; [reflexivity|]. destruct (bool_decide_reflect (k = k')) as [->|Hk]; simpl.
  - by destruct (q ==? k').
  - destruct (bool_decide (before k k')); simpl; [done|]. rewrite IH.
    case_bool_decide as E; [|done]. rewrite bool_decide_false; [done|congruence].
Qed.
Lemma get_store kvs k : JsMap.get (storeMembers kvs) k = store <$> JsMap.get kvs k.
Proof.
  induction kvs as [|[k' v] kvs IH]; [done|]. simpl. rewrite get_place, IH. by case_bool_decide.
Qed.

(** ** What is stored comes back as it is *)
Definition sorted {A} : list (string * A) -> Prop := StronglySorted (fun a b => before a.1 b.1).
Lemma place_bound {A} k (v : A) l q : before q k -> Forall (fun b => before q b.1) l -> Forall (fun b => before q b.1) (place k v l).
Proof.
  intros Hq. induction 1 as [|[k' v'] l Hk Hl IH]; simpl; [by constructor|].
  repeat case_bool_decide; rewrite !Forall_cons; auto.
Qed.
Lemma place_sorted {A} k (v : A) l : sorted l -> sorted (place k v l).
Proof.
  induction 1 as [|[k' v'] l Hs IH Hl]; simpl; [by repeat constructor|].
  case_bool_decide as E; [subst; by constructor|]. case_bool_decide as B.
  - constructor; [by constructor|]. constructor; [done|]. eapply Forall_impl; [exact Hl|]. intros b Hb. simpl in *. by transitivity k'.
  - constructor; [done|]. apply place_bound; [by apply before_total|done].
Qed.
Lemma storeMembers_sorted kvs : sorted (storeMembers kvs).
Proof. induction kvs as [|kv kvs IH]; [constructor|]. by apply place_sorted. Qed.
Lemma place_first {A} k (v : A) l : Forall (fun b => before k b.1) l -> place k v l = (k, v) :: l.
Proof.
  destruct 1 as [|[k' v'] l Hk Hl]; [done|]. simpl in *. rewrite bool_decide_false by (intros ->; by eapply before_irrefl).
  by rewrite bool_decide_true.
Qed.
Lemma storeMembers_id kvs : sorted kvs -> Forall (fun kv => store kv.2 = kv.2) kvs -> storeMembers kvs = kvs.
Proof.
  induction 1 as [|[k v] kvs Hs IH Hk]; intros Hv; [done|]. apply Forall_cons in Hv as [Hv Hvs]. simpl in *.
  change (place k (store v) (storeMembers kvs) = (k, v) :: kvs). rewrite IH, Hv by done. by apply place_first.
Qed.
Lemma place_Forall {A} (P : string * A -> Prop) k v l : P (k, v) -> Forall P l -> Forall P (place k v l).
Proof.
  intros Hp. induction 1 as [|[k' v'] l Hk Hl IH]; simpl; [by constructor|].
  repeat case_bool_decide; rewrite ?Forall_cons; auto.
Qed.
Lemma store_store j : store (store j) = store j.
Proof.
  induction j as [| | | |l IH|kvs IH]; try done; simpl; f_equal.
  - rewrite map_map. apply map_ext_in. intros x Hx%list_elem_of_In. rewrite Forall_forall in IH. by apply IH.
  - apply (storeMembers_id (storeMembers kvs)); [apply storeMembers_sorted|].
    induction IH as [|[k v] kvs Hv _ IH]; [constructor|]. by apply place_Forall.
Qed.

(** ** Documents with the same members *)
Definition same (a b : json) : Prop := store a = store b.
#[export] Instance same_equiv : Equivalence same.
Proof. split; unfold same; [by intros a|by intros a b|by intros a b c -> ]. Qed.
#[export] Instance store_proper : Proper (same ==> eq) store.
Proof. by intros a b. Qed.
Lemma store_same j : same (store j) j.
Proof. apply store_store. Qed.
Lemma same_text a s : same a (JStr s) <-> a = JStr s.
Proof. unfold same. by destruct a. Qed.
End Jsonb.
