(* ===== verification/Crypto.v ===== *)
(** * The runtime's bytes and the cryptographic interfaces

    Strings are kept as their UTF-8 bytes, so [Buffer.from(s)] and
    [buf.toString()] are the identity; [Buffer.from(s, "hex")] and
    [toString("hex")] are the functions below.  tweetnacl and SHA-256 are not
    code of the repository: they are class parameters, with the documented
    round-trip laws as a separate class. *)
From S2P Require Import Prelude JsText.
From Stdlib Require Import Ascii.
Import JsText.

Module Crypto.

Definition bytes := string.

Definition hexOfByte (c : ascii) : string :=
  String (hexDigit (code c / 16)) (String (hexDigit (code c mod 16)) "").
Fixpoint hexEncode (b : bytes) : string :=
  match b with EmptyString => "" | String c b' => hexOfByte c +:+ hexEncode b' end.
(** [Buffer.from(s, "hex")] stops at the first pair that is not hexadecimal. *)
Fixpoint hexDecode (s : string) : bytes :=
  match s with
  | String h (String l s') =>
      match digitVal h, digitVal l with
      | Some a, Some b => String (chr (Z.to_N (16 * a + b))) (hexDecode s')
      | _, _ => ""
      end
  | _ => ""
  end.
Lemma hexDecode_byte c s : hexDecode (hexOfByte c +:+ s) = String c (hexDecode s).
Proof. destruct c as [[] [] [] [] [] [] [] []]; reflexivity. Qed.
Lemma hexDecode_encode b : hexDecode (hexEncode b) = b.
Proof. induction b as [|c b IH]; [done|]. cbn [hexEncode]. by rewrite hexDecode_byte, IH. Qed.
#[export] Instance hexEncode_inj : Inj (=) (=) hexEncode.
Proof. intros a b H. by rewrite <- (hexDecode_encode a), H, hexDecode_encode. Qed.

(** [createHash("sha256").update(s).digest("hex")]. *)
Class Sha256 := sha256 : string -> string.
Definition Collision `{Sha256} : Prop := exists s t, s ≠ t /\ sha256 s = sha256 t.
Lemma sha256_binds `{Sha256} s t : sha256 s = sha256 t -> s = t \/ Collision.
Proof. intros E. destruct (decide (s = t)); [by left|right]. by exists s, t. Qed.

(** tweetnacl: [nacl.box], [nacl.box.open], [nacl.sign.detached] and, on a
    signature and a key of the right sizes, its [verify];
    [box m nonce theirPk mySk]. *)
Class Nacl := {
  box : bytes -> bytes -> bytes -> bytes -> bytes;
  boxOpen : bytes -> bytes -> bytes -> bytes -> option bytes;
  signDetached : bytes -> bytes -> bytes;
  signVerify : bytes -> bytes -> bytes -> bool;
  boxKeyPair : bytes -> bytes -> Prop;
  signKeyPair : bytes -> bytes -> Prop
}.
(** What the package documents for keys its generators return. *)
Class NaclLaws `{Nacl} : Prop := {
  box_open m n pa sa pb sb :
    boxKeyPair pa sa -> boxKeyPair pb sb -> boxOpen (box m n pb sa) n pa sb = Some m;
  sign_verify m pk sk : signKeyPair pk sk -> signVerify m (signDetached m sk) pk = true;
  sign_sizes m pk sk : signKeyPair pk sk -> String.length (signDetached m sk) = 64%nat /\ String.length pk = 32%nat
}.
(** [nacl.sign.detached.verify(msg, sig, pk)] throws on other sizes. *)
Definition verifyDetached `{Nacl} (msg sig pk : bytes) : result bool :=
  if negb (String.length sig =? 64)%nat then Throw (Error None "bad signature size")
  else if negb (String.length pk =? 32)%nat then Throw (Error None "bad public key size")
  else Ok (signVerify msg sig pk).
Lemma verifyDetached_signed `{NaclLaws} m pk sk : signKeyPair pk sk -> verifyDetached m (signDetached m sk) pk = Ok true.
Proof. intros Hk. unfold verifyDetached. destruct (sign_sizes m pk sk Hk) as [-> ->]. cbn [Nat.eqb negb]. by rewrite sign_verify. Qed.

(** A concrete instance for the witnesses: the "ciphertext" carries the
    plaintext and the two public keys, the "signature" the start of the message
    and the key. *)
Module Toy.
(** A text as 32 bytes. *)
Definition fit (s : string) : bytes := sliceTo 32 (s +:+ repeatString 32 "0"%char).
Lemma length_fit s : String.length (fit s) = 32%nat.
Proof.
  unfold fit. assert (forall n a, (n <= String.length a)%nat -> String.length (sliceTo n a) = n) as Hs.
  { induction n as [|n IH]; intros [|c a] Hn; simpl in *; try done; [lia|]. f_equal. apply IH. lia. }
  apply Hs. rewrite length_append. simpl. lia.
Qed.
#[export] Instance toy_nacl : Nacl := {|
  box m n pk sk := m;
  boxOpen c n pk sk := Some c;
  signDetached m sk := fit m +:+ sk;
  signVerify m s pk := s ==? fit m +:+ pk;
  boxKeyPair pk sk := pk = sk;
  signKeyPair pk sk := pk = sk /\ String.length pk = 32%nat
|}.
#[export] Instance toy_laws : NaclLaws.
Proof.
  split; [done|..]; intros m pk sk [<- Hl].
  - by apply bool_decide_eq_true.
  - cbn [signDetached toy_nacl]. by rewrite length_append, length_fit, Hl.
Qed.
#[export] Instance toy_sha : Sha256 := fun s => s.
End Toy.
End Crypto.
