(* ===== verification/Base64.v ===== *)
(** * Base64 ([btoa] and [atob] of the runtime)

    Six-bit groups of the bytes, their alphabet, and the round trip
    [atob(btoa(s)) = s]. *)
From S2P Require Import Prelude JsText Crypto.
From Stdlib Require Import Ascii.
Import JsText Crypto.

Module Base64.

Definition alphabet : string := "ABCDEFGHIJKLMNOPQRSTUVWXYZabcdefghijklmnopqrstuvwxyz0123456789+/".
Definition pad : ascii := "="%char.

(** Six bits, the most significant first. *)
Inductive sextet := Six (b5 b4 b3 b2 b1 b0 : bool).
Definition bit (b : bool) : nat := if b then 1%nat else 0%nat.
Definition sextetVal (s : sextet) : nat :=
  let '(Six b5 b4 b3 b2 b1 b0) := s in
  (32 * bit b5 + 16 * bit b4 + 8 * bit b3 + 4 * bit b2 + 2 * bit b1 + bit b0)%nat.
Definition enc6 (s : sextet) : ascii := orElse (String.get (sextetVal s) alphabet) pad.
Fixpoint indexOf (c : ascii) (s : string) (i : nat) : option nat :=
  match s with
  | EmptyString => None
  | String d s' => if c ==? d then Some i else indexOf c s' (S i)
  end.
Definition sextetOf (n : nat) : sextet :=
  Six (Nat.testbit n 5) (Nat.testbit n 4) (Nat.testbit n 3) (Nat.testbit n 2) (Nat.testbit n 1) (Nat.testbit n 0).
Definition dec6 (c : ascii) : option sextet := sextetOf <$> indexOf c alphabet 0.

Lemma dec6_enc6 s : dec6 (enc6 s) = Some s.
Proof. destruct s as [[] [] [] [] [] []]; reflexivity. Qed.
Lemma enc6_plain s : isSpace (enc6 s) = false /\ (enc6 s ==? pad) = false.
Proof. destruct s as [[] [] [] [] [] []]; split; reflexivity. Qed.

(** The groups without padding. *)
Fixpoint groups (b : bytes) : list sextet :=
  match b with
  | String (Ascii a0 a1 a2 a3 a4 a5 a6 a7) (String (Ascii b0 b1 b2 b3 b4 b5 b6 b7)
      (String (Ascii c0 c1 c2 c3 c4 c5 c6 c7) b')) =>
      Six a7 a6 a5 a4 a3 a2 :: Six a1 a0 b7 b6 b5 b4 :: Six b3 b2 b1 b0 c7 c6 :: Six c5 c4 c3 c2 c1 c0 :: groups b'
  | String (Ascii a0 a1 a2 a3 a4 a5 a6 a7) (String (Ascii b0 b1 b2 b3 b4 b5 b6 b7) EmptyString) =>
      [Six a7 a6 a5 a4 a3 a2; Six a1 a0 b7 b6 b5 b4; Six b3 b2 b1 b0 false false]
  | String (Ascii a0 a1 a2 a3 a4 a5 a6 a7) EmptyString =>
      [Six a7 a6 a5 a4 a3 a2; Six a1 a0 false false false false]
  | EmptyString => []
  end.
(** Bits left over at the end are dropped; a single group is an error. *)
Fixpoint ungroup (l : list sextet) : option bytes :=
  match l with
  | Six a7 a6 a5 a4 a3 a2 :: Six a1 a0 b7 b6 b5 b4 :: Six b3 b2 b1 b0 c7 c6 :: Six c5 c4 c3 c2 c1 c0 :: l' =>
      (fun s => String (Ascii a0 a1 a2 a3 a4 a5 a6 a7) (String (Ascii b0 b1 b2 b3 b4 b5 b6 b7)
                  (String (Ascii c0 c1 c2 c3 c4 c5 c6 c7) s))) <$> ungroup l'
  | [Six a7 a6 a5 a4 a3 a2; Six a1 a0 b7 b6 b5 b4; Six b3 b2 b1 b0 _ _] =>
      Some (String (Ascii a0 a1 a2 a3 a4 a5 a6 a7) (String (Ascii b0 b1 b2 b3 b4 b5 b6 b7) ""))
  | [Six a7 a6 a5 a4 a3 a2; Six a1 a0 _ _ _ _] => Some (String (Ascii a0 a1 a2 a3 a4 a5 a6 a7) "")
  | [_] => None
  | [] => Some ""
  end.

Fixpoint encodeGroups (l : list sextet) : string :=
  match l with [] => "" | s :: l' => String (enc6 s) (encodeGroups l') end.
Fixpoint decodeGroups (s : string) : option (list sextet) :=
  match s with
  | EmptyString => Some []
  | String c s' =>
      match dec6 c, decodeGroups s' with Some x, Some l => Some (x :: l) | _, _ => None end
  end.

Definition padding (n : nat) : string :=
  match (n mod 3)%nat with 1%nat => "==" | 2%nat => "=" | _ => "" end.
Definition btoa (b : bytes) : string := encodeGroups (groups b) +:+ padding (String.length b).

Fixpoint filterString (p : ascii -> bool) (s : string) : string :=
  match s with EmptyString => "" | String c s' => if p c then String c (filterString p s') else filterString p s' end.
(** Drop one trailing padding character. *)
Fixpoint dropPad1 (s : string) : string :=
  match s with
  | EmptyString => ""
  | String c EmptyString => if c ==? pad then "" else s
  | String c s' => String c (dropPad1 s')
  end.
Definition atob (t : string) : result bytes :=
  let s := filterString (fun c => negb (isSpace c)) t in
  let s := if (String.length s mod 4 =? 0)%nat then dropPad1 (dropPad1 s) else s in
  match decodeGroups s with
  | Some l => match ungroup l with Some b => Ok b | None => Throw (Error None "InvalidCharacterError") end
  | None => Throw (Error None "InvalidCharacterError")
  end.

Lemma ungroup_groups b : ungroup (groups b) = Some b.
Proof.
  assert (forall n b, (String.length b <= n)%nat -> ungroup (groups b) = Some b) as Hx; [|by eapply Hx].
  induction n as [|n IH]; intros b' Hb.
  - destruct b'; [done|simpl in Hb; lia].
  - destruct b' as [|[] [|[] [|[] b'']]]; try done. cbn [groups ungroup]. rewrite IH; [done|]. simpl in Hb. lia.
Qed.
Lemma decode_encodeGroups l : decodeGroups (encodeGroups l) = Some l.
Proof. induction l as [|s l IH]; [done|]. cbn [encodeGroups decodeGroups]. by rewrite dec6_enc6, IH. Qed.
Lemma encodeGroups_length l : String.length (encodeGroups l) = length l.
Proof. induction l as [|s l IH]; [done|]. simpl. by rewrite IH. Qed.

Lemma groups_length b n :
  (String.length b <= n)%nat -> (length (groups b) + String.length (padding (String.length b)) = 4 * ((String.length b + 2) / 3))%nat.
Proof.
  revert b. induction n as [|n IH]; intros b Hb; [destruct b; [done|simpl in Hb; lia]|].
  destruct b as [|[] [|[] [|[] b]]]; try done. simpl in Hb. specialize (IH b ltac:(lia)).
  cbn [groups length String.length]. set (k := String.length b) in *.
  replace (S (S (S k))) with (k + 1 * 3)%nat by lia. unfold padding in *. rewrite Nat.Div0.mod_add.
  replace (k + 1 * 3 + 2)%nat with (k + 2 + 1 * 3)%nat by lia. rewrite Nat.div_add by lia. lia.
Qed.
Lemma filterString_all p s : allChars p s = true -> filterString p s = s.
Proof. induction s as [|c s IH]; [done|]. simpl. rewrite andb_true_iff. intros [-> Hs]. by rewrite IH. Qed.
Lemma encodeGroups_plain l : allChars (fun c => negb (isSpace c)) (encodeGroups l) = true.
Proof. induction l as [|s l IH]; [done|]. simpl. by rewrite (proj1 (enc6_plain s)), IH. Qed.
Lemma dropPad1_groups l : dropPad1 (encodeGroups l) = encodeGroups l.
Proof.
  induction l as [|s l IH]; [done|]. cbn [encodeGroups dropPad1]. destruct (encodeGroups l) eqn:E.
  - by rewrite (proj2 (enc6_plain s)).
  - by rewrite IH.
Qed.
Lemma dropPad1_pad s : dropPad1 (s +:+ "=") = s.
Proof.
  induction s as [|c s IH]; [done|]. rewrite append_cons. cbn [dropPad1]. rewrite IH.
  destruct (s +:+ "=") eqn:E; [|done]. by destruct s.
Qed.
Lemma dropPads_btoa b : dropPad1 (dropPad1 (btoa b)) = encodeGroups (groups b).
Proof.
  unfold btoa, padding. destruct (String.length b mod 3)%nat as [|[|[|n]]].
  - by rewrite append_nil_r, !dropPad1_groups.
  - change "==" with ("=" +:+ "="). by rewrite <- append_assoc, !dropPad1_pad.
  - by rewrite dropPad1_pad, dropPad1_groups.
  - by rewrite append_nil_r, !dropPad1_groups.
Qed.

(** [atob(btoa(b)) = b] on every byte string. *)
Lemma atob_btoa b : atob (btoa b) = Ok b.
Proof.
  unfold atob. rewrite filterString_all.
  - replace (String.length (btoa b) mod 4 =? 0)%nat with true.
    + by rewrite dropPads_btoa, decode_encodeGroups, ungroup_groups.
    + symmetry. apply Nat.eqb_eq. unfold btoa. rewrite length_append, encodeGroups_length.
      rewrite (groups_length b (String.length b)) by lia. rewrite Nat.mul_comm. apply Nat.Div0.mod_mul.
  - unfold btoa. rewrite allChars_append, encodeGroups_plain. unfold padding. by case_match; [|case_match; [|case_match]].
Qed.
End Base64.
