(* ===== verification/Ids.v ===== *)
(** * Identifiers and content hashes (packages/shared-types/src)

    The protocol's state lists ([index.ts]) and the hashing of [ids.ts]: the
    deterministic identifiers and [stableStringify], which is shown to be
    [JSON.stringify] of the value with every object's keys sorted.
    [localeCompare] belongs to the runtime's locale data and is a parameter. *)
From S2P Require Import Prelude JsText Json JsCollections Crypto.
From Stdlib Require Import Ascii Permutation Sorted.
Import JsText Json JsArray Crypto.

Module Ids.

(** ** The state lists of index.ts *)
Definition RFQ_STATES : list string := [
  "INTENT_CREATED"; "INTENT_ENCRYPTED"; "INTENT_PUBLISHED_TO_ALLOWED_SOLVERS"; "QUOTE_RECEIVED";
  "QUOTE_VALIDATED"; "QUOTE_ACCEPTED"; "SOLVER_INVENTORY_LOCKED"; "FILL_CREATED";
  "FILL_EXECUTED_IF_REQUIRED"; "PROOF_REQUESTED"; "PROOF_GENERATED"; "PROOF_VERIFIED_LOCALLY";
  "SETTLEMENT_SUBMITTED"; "SETTLED"; "FAILED_RECOVERABLE"; "EXPIRED"; "CANCELLED"].
Definition PROOF_JOB_STATES : list string :=
  ["queued"; "generating_witness"; "proving"; "verifying_locally"; "submitting_onchain"; "verified"; "failed"].
Definition DEPOSIT_STATES : list string :=
  ["prepared"; "burn_submitted"; "attestation_ready"; "mint_forwarded"; "note_registered"; "failed_recoverable"].

Record StateTransition := mkTransition {
  entityType : string; entityId : string; fromState : option string; toState : string;
  reason : option string; txHash : option string; metadata : option json }.

(** ** ids.ts *)
Record DeterministicIdInput := mkIdInput { namespace : string; parts : list string }.
Definition nul : ascii := chr 0.

Class LocaleCompare := localeCompare : string -> string -> Z.

Section Hashing.
Context `{Sha256} `{LocaleCompare}.

(** The three [update]s hash their concatenation. *)
Definition idPreimage (i : DeterministicIdInput) : string :=
  namespace i +:+ String nul "" +:+ join (String nul "") (parts i).
Definition deterministicId (i : DeterministicIdInput) : string :=
  namespace i +:+ "_" +:+ sliceTo 32 (sha256 (idPreimage i)).

Definition entryCmp {A} (a b : string * A) : Z := localeCompare a.1 b.1.

(** [Object.entries(value).sort(...)] sorts the entries by key; the values are
    rendered after the sort, which does not look at them. *)
Fixpoint stableStringify (j : json) : string :=
  match j with
  | JArr l => "[" +:+ join "," (map stableStringify l) +:+ "]"
  | JObj kvs =>
      let entries := sortBy entryCmp (map (fun kv => (kv.1, stableStringify kv.2)) kvs) in
      "{" +:+ join "," (map (fun kv => quote kv.1 +:+ ":" +:+ kv.2) entries) +:+ "}"
  | _ => stringify j
  end.
Definition hashJson (j : json) : string := "0x" +:+ sha256 (stableStringify j).

(** ** The canonical value *)
Fixpoint canon (j : json) : json :=
  match j with
  | JArr l => JArr (map canon l)
  | JObj kvs => JObj (sortBy entryCmp (map (fun kv => (kv.1, canon kv.2)) kvs))
  | _ => j
  end.

(** Sorting by key commutes with a change of the values. *)
Lemma insertBy_map {A B} (f : A -> B) x (l : list (string * A)) :
  insertBy entryCmp (x.1, f x.2) (map (fun kv => (kv.1, f kv.2)) l) =
  map (fun kv => (kv.1, f kv.2)) (insertBy entryCmp x l).
Proof.
  induction l as [|y l IH]; [done|]. simpl. unfold entryCmp at 1 3. simpl.
  case_match; simpl; [done|]. by rewrite IH.
Qed.
Lemma sortBy_map {A B} (f : A -> B) (l : list (string * A)) :
  sortBy entryCmp (map (fun kv => (kv.1, f kv.2)) l) =
  map (fun kv => (kv.1, f kv.2)) (sortBy entryCmp l).
Proof.
  unfold sortBy. change (@nil (string * B)) with (map (fun kv => (kv.1, f kv.2)) (@nil (string * A))).
  generalize (@nil (string * A)) as acc. induction l as [|x l IH]; intros acc; [done|].
  simpl. by rewrite insertBy_map, IH.
Qed.

Lemma stableStringify_stringify j : stableStringify j = stringify (canon j).
Proof.
  induction j as [|b|z|s|l IH|kvs IH]; try done; cbn [stableStringify canon stringify].
  - do 3 f_equal. rewrite map_map. induction IH as [|x l Hx Hl IH]; [done|]. simpl. by rewrite Hx, IH.
  - do 3 f_equal.
    assert (map (fun kv => (kv.1, stableStringify kv.2)) kvs =
      map (fun kv => (kv.1, stringify kv.2)) (map (fun kv => (kv.1, canon kv.2)) kvs)) as ->.
    { rewrite map_map. induction IH as [|x l Hx Hl IH]; [done|]. simpl. by rewrite Hx, IH. }
    by rewrite sortBy_map, map_map.
Qed.

(** Two values that differ in the order of object keys only, at any depth. *)
Inductive sameJson : json -> json -> Prop :=
| same_refl j : sameJson j j
| same_arr l l' : Forall2 sameJson l l' -> sameJson (JArr l) (JArr l')
| same_obj kvs kvs' kvs'' :
    Forall2 (fun a b => a.1 = b.1 /\ sameJson a.2 b.2) kvs kvs' -> kvs' ≡ₚ kvs'' ->
    sameJson (JObj kvs) (JObj kvs'').
(** No object repeats a key: what a JavaScript object gives. *)
Inductive wfJson : json -> Prop :=
| wf_null : wfJson JNull
| wf_bool b : wfJson (JBool b)
| wf_num z : wfJson (JNum z)
| wf_str s : wfJson (JStr s)
| wf_arr l : Forall wfJson l -> wfJson (JArr l)
| wf_obj kvs : NoDup kvs.*1 -> Forall (fun kv => wfJson kv.2) kvs -> wfJson (JObj kvs).
End Hashing.

(** What the theorems on [stableStringify] ask of [localeCompare]: a total
    order that separates distinct keys. *)
Class LocaleOrder `{LocaleCompare} : Prop := {
  locale_trans a b c : 0 <= localeCompare b a -> 0 <= localeCompare c b -> 0 <= localeCompare c a;
  locale_total a b : localeCompare a b < 0 -> 0 <= localeCompare b a;
  locale_antisym a b : 0 <= localeCompare a b -> 0 <= localeCompare b a -> a = b
}.
#[export] Instance entryCmp_total `{LocaleOrder} {A} : TotalCmp (entryCmp (A := A)).
Proof.
  split; unfold entryCmp.
  - intros x y z. apply locale_trans.
  - intros x y. apply locale_total.
Qed.
(** The order of code points, for the witnesses. *)
#[export] Instance codePointCompare : LocaleCompare := compareStr.
#[export] Instance codePointOrder : LocaleOrder.
Proof.
  split; unfold localeCompare, codePointCompare.
  - intros a b c H1 H2. rewrite compareStr_antisym in H1, H2 |- *.
    pose proof (compareStr_trans a b c). lia.
  - intros a b H. rewrite compareStr_antisym. lia.
  - intros a b H1 H2. rewrite compareStr_antisym in H2. apply compareStr_0. lia.
Qed.

Section Theorems.
Context `{Sha256} `{LocaleOrder}.

Lemma map_perm_keys kvs kvs' :
  NoDup (kvs.*1) -> kvs ≡ₚ kvs' ->
  sortBy (entryCmp (A := json)) kvs = sortBy entryCmp kvs'.
Proof.
  intros Hnd Hp. apply sortBy_perm_eq; [apply _| |done].
  intros [k v] [k' v'] Hx Hy H1' H2'. unfold leq, entryCmp in *. simpl in *.
  assert (k = k') as -> by by apply locale_antisym.
  apply list_elem_of_lookup in Hx as [i Hi], Hy as [j Hj].
  assert (i = j) as ->; [|congruence].
  eapply (NoDup_lookup _ i j k'); [exact Hnd|..]; rewrite list_lookup_fmap; [by rewrite Hi|by rewrite Hj].
Qed.

Lemma sameJson_canon j : forall j', wfJson j -> sameJson j j' -> canon j = canon j'.
Proof.
  induction j as [|b|z|s|l IH|kvs IH]; intros j' Hwf Hs; inversion Hs as [|? l' Hl|? kvs' kvs'' Hl Hp];
    subst; try done; cbn [canon].
  - inversion Hwf as [| | | |? Hw|]; subst. f_equal. clear Hs Hwf. revert Hw.
    induction Hl as [|x y l l' Hxy Hl IHl]; intros Hw; [done|]. apply Forall_cons in IH as [Hx IH], Hw as [Hwx Hw].
    simpl. f_equal; [by apply Hx|by apply IHl].
  - inversion Hwf as [| | | | |? Hnd Hw]; subst. f_equal.
    assert (map (fun kv => (kv.1, canon kv.2)) kvs = map (fun kv => (kv.1, canon kv.2)) kvs') as ->.
    { clear Hs Hwf Hp Hnd. revert Hw. induction Hl as [|x y l l' [Hk Hxy] Hl IHl]; intros Hw; [done|].
      apply Forall_cons in IH as [Hx IH], Hw as [Hwx Hw]. simpl. f_equal; [|by apply IHl].
      by rewrite Hk, (Hx y.2). }
    apply map_perm_keys; [|by rewrite Hp].
    assert (kvs'.*1 = kvs.*1) as E.
    { clear -Hl. induction Hl as [|x y l l' [Hk _] Hl IHl]; [done|]. rewrite !fmap_cons. by rewrite Hk, IHl. }
    change (NoDup (fst <$> ((fun kv => (kv.1, canon kv.2)) <$> kvs'))).
    rewrite <- list_fmap_compose. change (NoDup (kvs'.*1)). by rewrite E.
Qed.

(** [hashJson] does not depend on the order in which the keys of an
    object were added, at any depth, and apart from that order it binds the
    whole value: equal hashes mean equal canonical values or an explicit
    SHA-256 collision. *)
Theorem hashJson_canonical j j' :
  (wfJson j -> sameJson j j' -> hashJson j = hashJson j') /\
  (hashJson j = hashJson j' -> canon j = canon j' \/ Collision).
Proof.
  unfold hashJson. split.
  - intros Hwf Hs. by rewrite !stableStringify_stringify, (sameJson_canon j j').
  - intros E. rewrite !append_cons, !append_nil_l in E. injection E as E.
    apply sha256_binds in E as [E|Hc]; [left|by right].
    rewrite !stableStringify_stringify in E. by apply (inj stringify).
Qed.

(** Two identifiers that coincide although their inputs differ need two
    preimages whose SHA-256 digests share their first 32 hex digits. *)
Definition PrefixCollision : Prop :=
  exists s t, s ≠ t /\ sliceTo 32 (sha256 s) = sliceTo 32 (sha256 t).

(** Within a namespace, [deterministicId] separates lists of parts that
    contain no NUL byte (the separator), up to a collision on the 128 bits of
    the digest it keeps. *)
Theorem deterministicId_inj ns ps qs :
  ps ≠ [] -> qs ≠ [] -> forallb (noChar nul) ps = true -> forallb (noChar nul) qs = true ->
  deterministicId (mkIdInput ns ps) = deterministicId (mkIdInput ns qs) -> ps = qs \/ PrefixCollision.
Proof.
  intros Hp Hq Np Nq E. unfold deterministicId in E. simpl in E.
  apply append_inj_length in E as [_ E]; [|done]. apply append_inj_length in E as [_ E]; [|done].
  destruct (decide (idPreimage (mkIdInput ns ps) = idPreimage (mkIdInput ns qs))) as [Ei|Ei].
  - left. unfold idPreimage in Ei. simpl in Ei.
    apply append_inj_length in Ei as [_ Ei]; [|done]. apply append_inj_length in Ei as [_ Ei]; [|done].
    rewrite <- (splitOn_join nul ps), <- (splitOn_join nul qs) by done. by rewrite Ei.
  - right. eexists _, _. split; [exact Ei|exact E].
Qed.
End Theorems.

Lemma hashJson_canonical_witness :
  @hashJson Toy.toy_sha _ (JObj [("b", JNum 1); ("a", JArr [JObj [("y", JNull); ("x", JNull)]])]) =
  @hashJson Toy.toy_sha _ (JObj [("a", JArr [JObj [("x", JNull); ("y", JNull)]]); ("b", JNum 1)]).
Proof.
  apply (@hashJson_canonical Toy.toy_sha codePointCompare codePointOrder).
  - repeat first [apply wf_obj; [apply (bool_decide_unpack _); vm_compute; exact I|] | constructor].
  - eapply same_obj; [|apply Permutation_swap]. repeat constructor; simpl; try done.
    eapply same_obj; [|apply Permutation_swap]. repeat constructor.
Defined.
Lemma deterministicId_inj_witness :
  @deterministicId Toy.toy_sha (mkIdInput "note" ["a"; "b"]) = @deterministicId Toy.toy_sha (mkIdInput "note" ["a"; "b"])
  /\ (["a"; "b"] = ["a"; "b"] \/ @PrefixCollision Toy.toy_sha).
Proof. split; [reflexivity|]. apply (@deterministicId_inj Toy.toy_sha "note"); done. Defined.
End Ids.
