(* ===== verification/JobQueue.v ===== *)
(** * The durable job queue (packages/queue/src/index.ts)

    The [service_jobs] and [service_events] tables, the statements the class
    [JobQueue] runs on them (each statement is one atomic step of the
    database), and the life cycle they give a job: claimed by one worker at a
    time, oldest first, retried after a backoff, and terminally failed when
    its attempts are used up. *)
From S2P Require Import Prelude JsText Json.
Import JsText Json.

Module JobQueue.

Inductive QueueName := prover | relayer.
#[export] Instance QueueName_eq_dec : EqDecision QueueName.
Proof. solve_decision. Defined.

(** A row of [service_jobs]; [job_id] is the primary key and
    [idempotency_key] has a unique index. *)
Record ServiceJob := mkServiceJob {
  job_id : string;
  job_type : string;
  queue : QueueName;
  idempotency_key : option string;
  payload : json;
  status : string;
  attempts : Z;
  max_attempts : Z;
  job_result : option json;
  job_error : option string;
  claimed_at : option Z;
  available_at : Z;
  created_at : Z;
  updated_at : Z
}.

(** A row of [service_events]; [ev_job_id] references [service_jobs]. *)
Record ServiceEvent := mkServiceEvent {
  ev_job_id : string;
  ev_status : string;
  ev_detail : option string;
  ev_created_at : Z
}.

(** The database as the queue sees it; [now] is the clock, in milliseconds. *)
Record DB := mkDB { jobs : list ServiceJob; events : list ServiceEvent; now : Z }.

Definition hasId (id : string) (j : ServiceJob) : bool := job_id j ==? id.
Definition hasKey (k : string) (j : ServiceJob) : bool := idempotency_key j ==? Some k.

Definition withJobs (db : DB) (js : list ServiceJob) : DB := mkDB js (events db) (now db).

Definition uniqueViolation : error := Error None "duplicate key value violates unique constraint".
Definition foreignKeyViolation : error := Error None "insert or update violates foreign key constraint".

Definition event (jobId st : string) (detail : option string) : M DB unit := fun db =>
  if existsb (hasId jobId) (jobs db)
  then (Ok tt, mkDB (jobs db) (events db ++ [mkServiceEvent jobId st detail (now db)]) (now db))
  else (Throw foreignKeyViolation, db).

Definition selectByKey (k : string) : M DB (option ServiceJob) := fun db =>
  (Ok (head (selectWhere (hasKey k) (jobs db))), db).

(** The [insert ... returning *] of [enqueue]; [uuid] is the identifier the
    database generates.  The columns not listed take their defaults from
    db/migrations: no attempt, three at most, available at once. *)
Definition insertJob (uuid : string) (q : QueueName) (jobType : string)
    (key : option string) (pl : json) : M DB ServiceJob := fun db =>
  let clash := match key with Some k => existsb (hasKey k) (jobs db) | None => false end in
  if existsb (hasId uuid) (jobs db) || clash then (Throw uniqueViolation, db)
  else
    let row := mkServiceJob uuid jobType q key pl "queued" 0 3 None None None
                 (now db) (now db) (now db) in
    (Ok row, withJobs db (jobs db ++ [row])).

Definition enqueue (uuid : string) (q : QueueName) (jobType : string) (pl : json)
    (idempotencyKey : option string) : M DB ServiceJob :=
  existing ← match truthyOpt idempotencyKey with
             | Some k => selectByKey k
             | None => mret None
             end;
  match existing with
  | Some row => mret row
  | None =>
      row ← insertJob uuid q jobType idempotencyKey pl;
      event (job_id row) "queued" (Some ("enqueued " +:+ jobType)) ;;
      mret row
  end.

(** The [where] clause of [claimNext]. *)
Definition claimable (q : QueueName) (jobTypes : list string) (t : Z) (j : ServiceJob) : bool :=
  (queue j ==? q) && ((status j ==? "queued") || (status j ==? "failed_retry"))
  && (available_at j <=? t)
  && match jobTypes with [] => true | _ => bool_decide (job_type j ∈ jobTypes) end.

(** [order by created_at asc limit 1]. *)
Fixpoint oldest (l : list ServiceJob) : option ServiceJob :=
  match l with
  | [] => None
  | j :: l' =>
      match oldest l' with
      | Some k => if created_at k <? created_at j then Some k else Some j
      | None => Some j
      end
  end.

Definition claimRow (t : Z) (j : ServiceJob) : ServiceJob :=
  mkServiceJob (job_id j) (job_type j) (queue j) (idempotency_key j) (payload j) "claimed"
    (attempts j + 1) (max_attempts j) (job_result j) (job_error j) (Some t)
    (available_at j) (created_at j) t.

Definition claimNext (q : QueueName) (jobTypes : list string) : M DB (option ServiceJob) := fun db =>
  match oldest (selectWhere (claimable q jobTypes (now db)) (jobs db)) with
  | None => (Ok None, db)
  | Some j =>
      (Ok (Some (claimRow (now db) j)),
       withJobs db (updateWhere (hasId (job_id j)) (claimRow (now db)) (jobs db)))
  end.

Definition statusRow (st : string) (t : Z) (j : ServiceJob) : ServiceJob :=
  mkServiceJob (job_id j) (job_type j) (queue j) (idempotency_key j) (payload j) st
    (attempts j) (max_attempts j) (job_result j) (job_error j) (claimed_at j)
    (available_at j) (created_at j) t.

Definition updateJob (jobId : string) (f : ServiceJob -> ServiceJob) : M DB unit :=
  modifyM (fun db => withJobs db (updateWhere (hasId jobId) f (jobs db))).

Definition setStatus (jobId st : string) (detail : option string) : M DB unit :=
  db ← getM;
  updateJob jobId (statusRow st (now db)) ;;
  event jobId st detail.

Definition completeRow (st : string) (res : json) (t : Z) (j : ServiceJob) : ServiceJob :=
  mkServiceJob (job_id j) (job_type j) (queue j) (idempotency_key j) (payload j) st
    (attempts j) (max_attempts j) (Some res) None (claimed_at j)
    (available_at j) (created_at j) t.

Definition complete (jobId : string) (res : json) (st : string) : M DB unit :=
  db ← getM;
  updateJob jobId (completeRow st res (now db)) ;;
  event jobId st (Some "completed").

Definition failRow (st err : string) (avail : option Z) (t : Z) (j : ServiceJob) : ServiceJob :=
  mkServiceJob (job_id j) (job_type j) (queue j) (idempotency_key j) (payload j) st
    (attempts j) (max_attempts j) (job_result j) (Some err) (claimed_at j)
    (orElse avail (available_at j)) (created_at j) t.

Definition fail (jobId err : string) (backoffSeconds : Z) : M DB unit :=
  db ← getM;
  let j := head (selectWhere (hasId jobId) (jobs db)) in
  let terminal := match j with
                  | None => true
                  | Some j => max_attempts j <=? attempts j
                  end in
  if terminal then
    updateJob jobId (failRow "failed" (sliceTo 2000 err) None (now db)) ;;
    event jobId "failed" (Some (sliceTo 500 err))
  else
    updateJob jobId (failRow "failed_retry" (sliceTo 2000 err) (Some (now db + 1000 * backoffSeconds)) (now db)) ;;
    event jobId "failed_retry" (Some (sliceTo 500 err)).

Definition getJob (jobId : string) : M DB (option ServiceJob) := fun db =>
  (Ok (head (selectWhere (hasId jobId) (jobs db))), db).

(** Events are appended with the current clock, so insertion order is
    [order by created_at asc]. *)
Definition getEvents (jobId : string) : M DB (list (string * option string * Z)) := fun db =>
  (Ok (map (fun e => (ev_status e, ev_detail e, ev_created_at e))
         (selectWhere (fun e => ev_job_id e ==? jobId) (events db))), db).

(** ** The invariant of the tables *)

(** A status a worker can claim. *)
Definition waiting (st : string) : bool := (st ==? "queued") || (st ==? "failed_retry").

Record job_ok (j : ServiceJob) : Prop := {
  ok_attempts : 0 <= attempts j <= max_attempts j;
  ok_waiting : waiting (status j) = true -> attempts j < max_attempts j
}.

Definition keyOf (js : list ServiceJob) : list string := omap idempotency_key js.

Record wf (db : DB) : Prop := {
  wf_ids : NoDup (job_id <$> jobs db);
  wf_keys : NoDup (keyOf (jobs db));
  wf_jobs : Forall job_ok (jobs db);
  wf_events : Forall (fun e => ev_job_id e ∈ job_id <$> jobs db) (events db)
}.

(** ** Lemmas on the rows *)

Lemma hasId_true id j : hasId id j = true <-> job_id j = id.
Proof. unfold hasId. apply bool_decide_eq_true. Qed.
Lemma hasKey_true k j : hasKey k j = true <-> idempotency_key j = Some k.
Proof. unfold hasKey. apply bool_decide_eq_true. Qed.
Lemma existsb_hasId id js : existsb (hasId id) js = true <-> id ∈ job_id <$> js.
Proof.
  rewrite existsb_exists, list_elem_of_fmap. split.
  - intros (j & Hj & <-%hasId_true). exists j. by rewrite list_elem_of_In.
  - intros (j & -> & Hj). exists j. rewrite <- list_elem_of_In, hasId_true. done.
Qed.
Lemma elem_of_keyOf k js : k ∈ keyOf js <-> exists j, j ∈ js /\ idempotency_key j = Some k.
Proof. unfold keyOf. apply list_elem_of_omap. Qed.
Lemma existsb_hasKey k js : existsb (hasKey k) js = true <-> k ∈ keyOf js.
Proof.
  rewrite existsb_exists, elem_of_keyOf.
  split; intros (j & Hj & Hk); exists j; rewrite ?hasKey_true, ?list_elem_of_In in *; done.
Qed.

Lemma row_unique js j1 j2 :
  NoDup (job_id <$> js) -> j1 ∈ js -> j2 ∈ js -> job_id j1 = job_id j2 -> j1 = j2.
Proof.
  induction js as [|j js IH]; [by intros _ ?%elem_of_nil|].
  rewrite fmap_cons. intros [Hj Hnd]%NoDup_cons H1 H2 E.
  apply elem_of_cons in H1 as [->|H1], H2 as [->|H2]; auto.
  - exfalso. apply Hj. rewrite E. by apply list_elem_of_fmap_2.
  - exfalso. apply Hj. rewrite <- E. by apply list_elem_of_fmap_2.
Qed.
Lemma selectById js j :
  NoDup (job_id <$> js) -> j ∈ js -> head (selectWhere (hasId (job_id j)) js) = Some j.
Proof.
  intros Hnd Hj. destruct (selectWhere (hasId (job_id j)) js) as [|k l] eqn:E.
  - exfalso. assert (j ∈ selectWhere (hasId (job_id j)) js) as H; [|rewrite E in H; set_solver].
    by rewrite elem_of_selectWhere, hasId_true.
  - assert (k ∈ selectWhere (hasId (job_id j)) js) as Hk by (rewrite E; left).
    rewrite elem_of_selectWhere, hasId_true in Hk. destruct Hk as [Hk Hid].
    simpl. f_equal. by eapply row_unique.
Qed.
Lemma oldest_elem l j : oldest l = Some j -> j ∈ l.
Proof.
  revert j. induction l as [|k l IH]; simpl; [done|]. intros j.
  destruct (oldest l) as [m|]; [|intros [= ->]; left].
  case_match; intros [= <-]; [right; auto|left].
Qed.
Lemma oldest_min l j : oldest l = Some j -> forall k, k ∈ l -> created_at j <= created_at k.
Proof.
  revert j. induction l as [|k l IH]; simpl; [done|]. intros j.
  destruct (oldest l) as [m|] eqn:E.
  - specialize (IH m eq_refl). case_match eqn:Hc; intros [= <-] x [->|Hx]%elem_of_cons;
      rewrite ?Z.ltb_lt, ?Z.ltb_ge in Hc; try specialize (IH x Hx); lia.
  - destruct l as [|x l]; [|simpl in E; destruct (oldest l); [case_match|]; discriminate E].
    intros [= ->] x [->|Hx%elem_of_nil]%elem_of_cons; done || lia.
Qed.
Lemma oldest_None l : oldest l = None -> l = [].
Proof. destruct l; [done|]. simpl. destruct (oldest l); [case_match|]; done. Qed.

(** A statement that rewrites rows in place and keeps the key columns. *)
Lemma wf_updateJob db id f :
  (forall j, job_id (f j) = job_id j) ->
  (forall j, idempotency_key (f j) = idempotency_key j) ->
  (forall j, j ∈ jobs db -> job_id j = id -> job_ok j -> job_ok (f j)) ->
  wf db -> wf (withJobs db (updateWhere (hasId id) f (jobs db))).
Proof.
  intros Hid Hkey Hok [H1 H2 H3 H4].
  assert (job_id <$> updateWhere (hasId id) f (jobs db) = job_id <$> jobs db) as Eid
    by (apply updateWhere_column; auto).
  split; simpl; rewrite ?Eid; auto.
  - replace (keyOf (updateWhere (hasId id) f (jobs db))) with (keyOf (jobs db)); [done|].
    unfold keyOf, updateWhere. clear -Hkey. induction (jobs db) as [|j js IH]; [done|].
    cbn. rewrite IH. destruct (hasId id j); [by rewrite Hkey|done].
  - apply Forall_updateWhere; [done|]. intros j Hj Hokj E%hasId_true. by apply Hok.
Qed.
Lemma preserves_event id st d : preserves wf (event id st d).
Proof.
  intros db H. unfold event. destruct (existsb _ _) eqn:E; [|done].
  destruct H as [H1 H2 H3 H4]. split; auto. apply Forall_app. split; [done|].
  constructor; [|done]. by apply existsb_hasId.
Qed.
#[export] Hint Resolve preserves_event : preserve.

Lemma preserves_updateJob id f :
  (forall j, job_id (f j) = job_id j) ->
  (forall j, idempotency_key (f j) = idempotency_key j) ->
  (forall j, job_ok j -> job_ok (f j)) -> preserves wf (updateJob id f).
Proof. intros H1 H2 H3. apply preserves_modify. intros db H. apply wf_updateJob; auto. Qed.

Lemma statusRow_ok st t j : waiting st = false -> job_ok j -> job_ok (statusRow st t j).
Proof. intros Hw [H1 H2]. split; [done|]. simpl. congruence. Qed.
Lemma completeRow_ok st r t j : waiting st = false -> job_ok j -> job_ok (completeRow st r t j).
Proof. intros Hw [H1 H2]. split; [done|]. simpl. congruence. Qed.
Lemma failRow_ok st e a t j : waiting st = false -> job_ok j -> job_ok (failRow st e a t j).
Proof. intros Hw [H1 H2]. split; [done|]. simpl. congruence. Qed.
#[export] Hint Resolve statusRow_ok completeRow_ok failRow_ok preserves_updateJob : preserve.

Lemma preserves_insertJob uuid q jt key pl : preserves wf (insertJob uuid q jt key pl).
Proof.
  intros db H. unfold insertJob. destruct (_ || _) eqn:E; [done|].
  apply orb_false_iff in E as [E1 E2]. destruct H as [H1 H2 H3 H4]. simpl.
  assert (uuid ∉ job_id <$> jobs db) as Hu by (rewrite <- existsb_hasId; congruence).
  split; simpl.
  - rewrite fmap_app. apply NoDup_app. split; [done|]. split; [|apply NoDup_singleton].
    intros x Hx ->%list_elem_of_singleton. done.
  - unfold keyOf. rewrite omap_app. apply NoDup_app. split; [done|].
    destruct key as [k|]; simpl; [|split; [set_solver|constructor]].
    split; [|apply NoDup_singleton]. intros x Hx ->%list_elem_of_singleton.
    apply existsb_hasKey in Hx. congruence.
  - apply Forall_app. split; [done|]. repeat constructor; simpl; lia.
  - eapply Forall_impl; [exact H4|]. intros e He. rewrite fmap_app, elem_of_app. by left.
Qed.
#[export] Hint Resolve preserves_insertJob : preserve.

Lemma preserves_enqueue uuid q jt pl key : preserves wf (enqueue uuid q jt pl key).
Proof.
  unfold enqueue. apply preserves_bind.
  - destruct (truthyOpt key); [by intros db H|auto with preserve].
  - intros [row|]; auto with preserve.
Qed.
Lemma preserves_setStatus id st d : waiting st = false -> preserves wf (setStatus id st d).
Proof. intros Hw. unfold setStatus. auto 10 with preserve. Qed.
Lemma preserves_complete id r st : waiting st = false -> preserves wf (complete id r st).
Proof. intros Hw. unfold complete. auto 10 with preserve. Qed.

Lemma preserves_claimNext q ts : preserves wf (claimNext q ts).
Proof.
  intros db H. unfold claimNext. destruct (oldest _) as [j|] eqn:E; [|done]. simpl.
  pose proof (oldest_elem _ _ E) as Hj. rewrite elem_of_selectWhere in Hj. destruct Hj as [Hj Hc].
  apply wf_updateJob; auto. intros k Hk Eid [Ha Hw].
  assert (k = j) as -> by (by apply (row_unique (jobs db)); [apply H|..]).
  assert (waiting (status j) = true) as Hwt.
  { unfold claimable in Hc. rewrite !andb_true_iff in Hc. by destruct Hc as [[[_ Hc] _] _]. }
  specialize (Hw Hwt). split; simpl; [lia|done].
Qed.

Lemma preserves_fail id err b : preserves wf (fail id err b).
Proof.
  intros db H. unfold fail. rewrite bind_getM.
  set (job := head (selectWhere (hasId id) (jobs db))).
  assert (forall st a, waiting st = false \/ (exists j, job = Some j /\ attempts j < max_attempts j) ->
    wf (updateJob id (failRow st (sliceTo 2000 err) a (now db)) db).2) as Hup.
  { intros st a Hst. apply wf_updateJob; auto. intros j Hj Eid Hok. destruct Hok as [Ha Hw].
    split; [done|]. intros Hwt. simpl in *. destruct Hst as [Hst|(j' & Ej & Hlt)]; [congruence|].
    unfold job in Ej. rewrite <- Eid, (selectById (jobs db) j) in Ej; [|apply H|done].
    by injection Ej as <-. }
  case_match eqn:Ht; (apply bind_state; [apply Hup|auto with preserve]).
  - by left.
  - right. destruct job as [j|]; [|done]. apply Z.leb_gt in Ht. eauto.
Qed.
#[export] Hint Resolve preserves_enqueue preserves_setStatus preserves_complete
  preserves_claimNext preserves_fail : preserve.

(** ** Executions *)

(** What a step did to a job, for the theorems on executions: [claimNext]
    handed it out, or [fail] was called on it. *)
Inductive label := Claimed (id : string) | Failed (id : string) | Quiet.
#[export] Instance label_eq_dec : EqDecision label.
Proof. solve_decision. Defined.
Definition claimLabel (r : option ServiceJob) : label :=
  match r with Some j => Claimed (job_id j) | None => Quiet end.

Lemma claimed_or_not l : (exists id, l = Claimed id) \/ (forall id, l ≠ Claimed id).
Proof. destruct l; [left; eauto|by right..]. Qed.

(** One statement group of a client of the queue.  Workers only set
    in-progress and final statuses ([waiting st = false]); the clock only
    moves forward. *)
Inductive step : DB -> label -> DB -> Prop :=
| step_enqueue db uuid q jt pl key : step db Quiet (enqueue uuid q jt pl key db).2
| step_claim db q ts r db' :
    claimNext q ts db = (Ok r, db') -> step db (claimLabel r) db'
| step_setStatus db id st d : waiting st = false -> step db Quiet (setStatus id st d db).2
| step_complete db id r st : waiting st = false -> step db Quiet (complete id r st db).2
| step_fail db id e b : step db (Failed id) (fail id e b db).2
| step_tick db d : 0 <= d -> step db Quiet (mkDB (jobs db) (events db) (now db + d)).

Inductive run : DB -> list label -> DB -> Prop :=
| run_nil db : run db [] db
| run_snoc db ls db1 l db2 : run db ls db1 -> step db1 l db2 -> run db (ls ++ [l]) db2.

Definition emptyDB (t : Z) : DB := mkDB [] [] t.

Lemma wf_empty t : wf (emptyDB t).
Proof. split; simpl; constructor. Qed.
Lemma step_wf db l db' : step db l db' -> wf db -> wf db'.
Proof.
  intros Hs. destruct Hs as [| db q ts r db' E | db id st d Hw | db id r st Hw | | db d Hd]; intros Hwf.
  - by apply preserves_enqueue.
  - pose proof (preserves_claimNext q ts db Hwf) as Hp. by rewrite E in Hp.
  - by apply preserves_setStatus.
  - by apply preserves_complete.
  - by apply preserves_fail.
  - destruct Hwf. by split.
Qed.
Lemma run_wf db ls db' : run db ls db' -> wf db -> wf db'.
Proof. induction 1; eauto using step_wf. Qed.

(** How often an execution handed out a job. *)
Definition claims (id : string) (ls : list label) : Z :=
  Z.of_nat (length (filter (fun l => l = Claimed id) ls)).

Lemma claims_snoc id ls l : claims id (ls ++ [l]) = claims id ls + (if l ==? Claimed id then 1 else 0).
Proof.
  unfold claims. rewrite filter_app, length_app, Nat2Z.inj_add. f_equal.
  rewrite filter_cons, filter_nil. case_bool_decide; by case_decide.
Qed.

(** The rows of [db'] are those of [db], possibly with other columns changed,
    and new rows without attempts. *)
Definition keepsAttempts (db db' : DB) : Prop :=
  forall j', j' ∈ jobs db' ->
    (exists j, j ∈ jobs db /\ job_id j = job_id j' /\ attempts j = attempts j' /\
       max_attempts j = max_attempts j')
    \/ (job_id j' ∉ job_id <$> jobs db /\ attempts j' = 0 /\ max_attempts j' = 3).
(** No row is ever deleted, and a row keeps its two keys. *)
Definition keepsRows (db db' : DB) : Prop :=
  forall j, j ∈ jobs db -> exists j', j' ∈ jobs db' /\ job_id j' = job_id j /\
    idempotency_key j' = idempotency_key j.
Definition extends (db db' : DB) : Prop := keepsAttempts db db' /\ keepsRows db db'.
Lemma keepsRows_refl db : keepsRows db db.
Proof. intros j Hj. eauto. Qed.
Lemma keepsRows_trans a b c : keepsRows a b -> keepsRows b c -> keepsRows a c.
Proof.
  intros H1 H2 j Hj. destruct (H1 j Hj) as (k & Hk & E1 & E2).
  destruct (H2 k Hk) as (m & Hm & F1 & F2). exists m. split_and!; congruence.
Qed.
Lemma keepsRows_ids db db' : keepsRows db db' -> job_id <$> jobs db ⊆ job_id <$> jobs db'.
Proof.
  intros H x. rewrite !list_elem_of_fmap. intros (j & -> & Hj).
  destruct (H j Hj) as (k & Hk & E & _). eauto.
Qed.
Lemma keepsRows_updateWhere db p f :
  (forall j, job_id (f j) = job_id j /\ idempotency_key (f j) = idempotency_key j) ->
  keepsRows db (withJobs db (updateWhere p f (jobs db))).
Proof.
  intros Hf j Hj. exists (if p j then f j else j). split.
  - simpl. rewrite elem_of_updateWhere. eauto.
  - destruct (p j); [apply Hf|done].
Qed.
#[export] Instance extends_preorder : PreOrder extends.
Proof.
  split; [intros db; split; [intros j Hj; left; eauto|apply keepsRows_refl]|].
  intros a b c [H1 S1] [H2 S2]. split; [|by eapply keepsRows_trans]. intros j Hj.
  destruct (H2 j Hj) as [(k & Hk & E1 & E2 & E3)|(Hn & E2 & E3)].
  - destruct (H1 k Hk) as [(m & Hm & F1 & F2 & F3)|(Hn & F2 & F3)].
    + left. exists m. split; [done|]. split_and!; congruence.
    + right. rewrite <- E1. split; [done|]. split; congruence.
  - right. split; [|done]. intros Hx. apply Hn. by apply (keepsRows_ids _ _ S1).
Qed.

Definition harmless {A} (m : M DB A) : Prop := forall db, extends db (m db).2.
Lemma harmless_bind {A B} (m : M DB A) (f : A -> M DB B) :
  harmless m -> (forall a, harmless (f a)) -> harmless (m ≫= f).
Proof.
  intros Hm Hf db. specialize (Hm db). unfold mbind, M_bind.
  destruct (m db) as [[a|e] db1]; [|done]. simpl in Hm. etransitivity; [exact Hm|apply Hf].
Qed.
Lemma harmless_id {A} (r : DB -> result A) : harmless (fun db => (r db, db)).
Proof. intros db. reflexivity. Qed.
Lemma harmless_event id st d : harmless (event id st d).
Proof.
  intros db. unfold event. destruct (existsb _ _); [|reflexivity]. simpl.
  split; intros j Hj; [left|]; simpl in *; eauto.
Qed.
Lemma harmless_updateJob id f :
  (forall j, job_id (f j) = job_id j /\ attempts (f j) = attempts j /\ max_attempts (f j) = max_attempts j
    /\ idempotency_key (f j) = idempotency_key j) ->
  harmless (updateJob id f).
Proof.
  intros Hf db. split; simpl.
  - intros j' [j [Hj ->]]%elem_of_updateWhere. left. exists j. split; [done|].
    destruct (hasId id j); [|done]. destruct (Hf j) as (-> & -> & -> & _). done.
  - apply keepsRows_updateWhere. intros j. destruct (Hf j) as (? & _ & _ & ?). done.
Qed.
Lemma harmless_insertJob uuid q jt key pl : harmless (insertJob uuid q jt key pl).
Proof.
  intros db. unfold insertJob. destruct (_ || _) eqn:E; [reflexivity|]. split.
  - intros j [Hj| ->%list_elem_of_singleton]%elem_of_app; [left; eauto|right]. simpl.
    rewrite <- existsb_hasId. apply orb_false_iff in E as [-> _]. split; [congruence|done].
  - intros j Hj. exists j. simpl. rewrite elem_of_app. auto.
Qed.
#[export] Hint Resolve harmless_bind harmless_id harmless_event harmless_updateJob
  harmless_insertJob : harmless.

Lemma step_harmless db l db' : step db l db' -> (forall id, l ≠ Claimed id) -> extends db db'.
Proof.
  intros Hs. destruct Hs as [db uuid q jt pl key | db q ts r db' E | db id st d Hw | db id r st Hw | db id e b |];
    intros Hl.
  - apply harmless_bind; [destruct (truthyOpt key); apply harmless_id|].
    intros [row|]; [apply harmless_id|]. apply harmless_bind; [apply harmless_insertJob|].
    intros row. apply harmless_bind; [apply harmless_event|]. intros u. apply harmless_id.
  - destruct r; [by destruct (Hl (job_id s))|]. unfold claimNext in E. destruct (oldest _); [done|].
    injection E as <-. reflexivity.
  - apply harmless_bind; [apply harmless_id|]. intros d'.
    apply harmless_bind; auto with harmless.
  - apply harmless_bind; [apply harmless_id|]. intros d'.
    apply harmless_bind; auto with harmless.
  - unfold fail. apply harmless_bind; [apply harmless_id|]. intros d'.
    destruct (match _ with Some _ => _ | None => _ end);
      (apply harmless_bind; auto with harmless).
  - split; intros j Hj; [left|]; simpl in *; eauto.
Qed.

Lemma claimNext_spec q ts db j db' :
  claimNext q ts db = (Ok (Some j), db') ->
  exists j0, j0 ∈ jobs db /\ claimable q ts (now db) j0 = true /\ j = claimRow (now db) j0 /\
    (forall k, k ∈ jobs db -> claimable q ts (now db) k = true -> created_at j0 <= created_at k) /\
    db' = withJobs db (updateWhere (hasId (job_id j0)) (claimRow (now db)) (jobs db)).
Proof.
  unfold claimNext. destruct (oldest _) as [j0|] eqn:E; [|done]. intros [= <- <-].
  exists j0. pose proof (oldest_elem _ _ E) as Hj. rewrite elem_of_selectWhere in Hj.
  destruct Hj as [Hj Hc]. split_and!; auto. intros k Hk Hck.
  eapply oldest_min; [exact E|]. by rewrite elem_of_selectWhere.
Qed.

(** [attempts] counts the times a job was handed out. *)
Definition counted (ls : list label) (db : DB) : Prop :=
  (forall j, j ∈ jobs db -> attempts j = claims (job_id j) ls /\ max_attempts j = 3) /\
  (forall id, id ∉ job_id <$> jobs db -> claims id ls = 0).

Lemma step_counted ls db l db' :
  wf db -> counted ls db -> step db l db' -> counted (ls ++ [l]) db'.
Proof.
  intros Hwf [Hin Hout] Hs. destruct (claimed_or_not l) as [[id ->]|Hl].
  - inversion Hs as [| ? q ts r ? E | | | |]; subst. destruct r as [j|]; [|done].
    simpl in *. simplify_eq. destruct (claimNext_spec _ _ _ _ _ E) as (j0 & Hj0 & _ & -> & _ & ->).
    simpl in *. split.
    + intros j' [k [Hk ->]]%elem_of_updateWhere. rewrite claims_snoc.
      destruct (Hin k Hk) as [Ha Hm]. destruct (hasId (job_id j0) k) eqn:Ek; simpl.
      * apply hasId_true in Ek. rewrite bool_decide_true by congruence. lia.
      * rewrite bool_decide_false; [lia|]. intros [= E']. symmetry in E'.
        apply hasId_true in E'. congruence.
    + intros id' Hid. rewrite claims_snoc. simpl in Hid.
      rewrite updateWhere_column in Hid by done. rewrite Hout by done.
      rewrite bool_decide_false; [done|]. intros [= E'].
      apply Hid. rewrite <- E'. by apply list_elem_of_fmap_2.
  - destruct (step_harmless _ _ _ Hs Hl) as [Hk Hsub%keepsRows_ids]. split.
    + intros j' Hj'. rewrite claims_snoc, bool_decide_false by apply Hl. rewrite Z.add_0_r.
      destruct (Hk j' Hj') as [(j & Hj & E1 & E2 & E3)|(Hn & E2 & E3)].
      * destruct (Hin j Hj). rewrite <- E1. split; congruence.
      * by rewrite Hout.
    + intros id Hid. rewrite claims_snoc, bool_decide_false by apply Hl. rewrite Z.add_0_r.
      apply Hout. intros Hx. apply Hid. by apply Hsub.
Qed.
Lemma run_counted t ls db : run (emptyDB t) ls db -> wf db /\ counted ls db.
Proof.
  intros H. remember (emptyDB t) as db0 eqn:E0. induction H as [db|db ls db1 l db2 H IH Hs]; subst.
  - split; [apply wf_empty|]. split; [intros j Hj; by apply elem_of_nil in Hj|done].
  - destruct (IH eq_refl) as [Hwf Hc]. split; [by eapply step_wf|by eapply step_counted].
Qed.

Lemma step_keepsRows db l db' : step db l db' -> keepsRows db db'.
Proof.
  intros Hs. destruct (claimed_or_not l) as [[id ->]|Hl]; [|by apply (step_harmless _ _ _ Hs)].
  inversion Hs as [| ? q ts r ? E | | | |]; subst. destruct r as [j|]; [|done].
  destruct (claimNext_spec _ _ _ _ _ E) as (j0 & _ & _ & _ & _ & ->).
  by apply keepsRows_updateWhere.
Qed.
Lemma run_keepsRows db ls db' : run db ls db' -> keepsRows db db'.
Proof. induction 1; eauto using keepsRows_refl, keepsRows_trans, step_keepsRows. Qed.

Lemma selectByKey_row db j k :
  wf db -> j ∈ jobs db -> idempotency_key j = Some k ->
  head (selectWhere (hasKey k) (jobs db)) = Some j.
Proof.
  intros [_ Hnd _ _] Hj Hk. revert Hnd Hj. unfold keyOf, selectWhere.
  induction (jobs db) as [|x js IH]; [by intros _ ?%elem_of_nil|].
  rewrite filter_cons. cbn [omap list_omap]. intros Hnd [<-|Hj]%elem_of_cons.
  - rewrite decide_True; [done|]. by apply Is_true_true, hasKey_true.
  - destruct (idempotency_key x) as [kx|] eqn:Ex.
    + apply NoDup_cons in Hnd as [Hx Hnd]. rewrite decide_False; [by apply IH|].
      rewrite Is_true_true, hasKey_true, Ex. intros [= ->]. apply Hx.
      apply list_elem_of_omap. eauto.
    + rewrite decide_False; [by apply IH|]. rewrite Is_true_true, hasKey_true. congruence.
Qed.
Lemma enqueue_existing db j k uuid q jt pl :
  wf db -> j ∈ jobs db -> idempotency_key j = Some k -> truthy k = true ->
  enqueue uuid q jt pl (Some k) db = (Ok j, db).
Proof.
  intros Hwf Hj Hk Ht. unfold enqueue, truthyOpt. rewrite Ht.
  unfold mbind, M_bind, selectByKey. by rewrite (selectByKey_row db j k).
Qed.
Lemma enqueue_row db uuid q jt pl k row db1 :
  truthy k = true -> enqueue uuid q jt pl (Some k) db = (Ok row, db1) ->
  row ∈ jobs db1 /\ idempotency_key row = Some k.
Proof.
  intros Ht. unfold enqueue, truthyOpt. rewrite Ht. unfold mbind at 1, M_bind at 1, selectByKey.
  destruct (head _) as [r|] eqn:E.
  - intros [= <- <-]. assert (r ∈ selectWhere (hasKey k) (jobs db)) as Hr.
    { destruct (selectWhere _ _); [done|]. injection E as ->. left. }
    by rewrite elem_of_selectWhere, hasKey_true in Hr.
  - unfold mbind, M_bind, insertJob. destruct (_ || _); [done|]. unfold event. simpl.
    destruct (existsb _ _); [|done]. intros [= <- <-]. simpl. rewrite elem_of_app. set_solver.
Qed.

(** A job that no worker can claim: its status is not a waiting one. *)
Definition parked (id : string) (db : DB) : Prop :=
  exists j, j ∈ jobs db /\ job_id j = id /\ waiting (status j) = false.

(** The row a fresh [enqueue] writes. *)
Definition newJob (uuid : string) (q : QueueName) (jt : string) (pl : json) (key : option string) (t : Z) : ServiceJob :=
  mkServiceJob uuid jt q key pl "queued" 0 3 None None None t t t.
Lemma enqueue_cases db uuid q jt pl k :
  truthy k = true -> uuid ∉ job_id <$> jobs db ->
  (k ∈ keyOf (jobs db) /\ exists row, enqueue uuid q jt pl (Some k) db = (Ok row, db)) \/
  (k ∉ keyOf (jobs db) /\
   enqueue uuid q jt pl (Some k) db =
     (Ok (newJob uuid q jt pl (Some k) (now db)),
      mkDB (jobs db ++ [newJob uuid q jt pl (Some k) (now db)])
        (events db ++ [mkServiceEvent uuid "queued" (Some ("enqueued " +:+ jt)) (now db)]) (now db))).
Proof.
  intros Ht Hu. unfold enqueue, truthyOpt. rewrite Ht. unfold mbind, M_bind, selectByKey, mret, M_ret.
  destruct (selectWhere (hasKey k) (jobs db)) as [|row l] eqn:E.
  - right. assert (k ∉ keyOf (jobs db)) as Hk.
    { rewrite elem_of_keyOf. intros (j & Hj & Hkj).
      assert (j ∈ selectWhere (hasKey k) (jobs db)) as Hs by by rewrite elem_of_selectWhere, hasKey_true.
      rewrite E in Hs. by apply elem_of_nil in Hs. }
    split; [done|]. simpl. unfold insertJob.
    destruct (existsb (hasId uuid) (jobs db)) eqn:E1; [by apply existsb_hasId in E1|].
    destruct (existsb (hasKey k) (jobs db)) eqn:E2; [by apply existsb_hasKey in E2|]. simpl.
    unfold event. simpl. rewrite existsb_app. simpl. unfold hasId at 2. simpl.
    rewrite bool_decide_true by done. by rewrite orb_true_r.
  - left. split; [|by exists row]. apply elem_of_keyOf. exists row.
    assert (row ∈ selectWhere (hasKey k) (jobs db)) as Hs by (rewrite E; left).
    by rewrite elem_of_selectWhere, hasKey_true in Hs.
Qed.

Lemma parked_updateJob id id' f db :
  (forall j, job_id (f j) = job_id j) ->
  (id' = id -> forall j, waiting (status (f j)) = false) ->
  parked id db -> parked id (withJobs db (updateWhere (hasId id') f (jobs db))).
Proof.
  intros Hid Hw (j & Hj & Ej & Hs). exists (if hasId id' j then f j else j). split_and!.
  - simpl. rewrite elem_of_updateWhere. eauto.
  - destruct (hasId id' j); congruence.
  - destruct (hasId id' j) eqn:E; [|done]. apply hasId_true in E. apply Hw. congruence.
Qed.
Lemma parked_event id id' st d : preserves (parked id) (event id' st d).
Proof.
  intros db (j & Hj & H). unfold event. destruct (existsb _ _); exists j; done.
Qed.
#[export] Hint Resolve parked_event : preserve.
Lemma parked_modify id id' f :
  (forall j, job_id (f j) = job_id j) ->
  (id' = id -> forall j, waiting (status (f j)) = false) -> preserves (parked id) (updateJob id' f).
Proof. intros H1 H2. apply preserves_modify. intros db. by apply parked_updateJob. Qed.
Lemma parked_statusUpdate id id' f st d db :
  (forall j, job_id (f j) = job_id j) ->
  (id' = id -> forall j, waiting (status (f j)) = false) -> parked id db ->
  parked id ((updateJob id' f ;; event id' st d) db).2.
Proof.
  intros H1 H2 Hp. apply bind_state; [by apply parked_modify|]. intros u. apply parked_event.
Qed.
Lemma parked_enqueue id uuid q jt pl key : preserves (parked id) (enqueue uuid q jt pl key).
Proof.
  unfold enqueue. apply preserves_bind; [destruct (truthyOpt key); by intros db ?|].
  intros [row|]; [auto with preserve|]. apply preserves_bind; [|intros; auto with preserve].
  intros db (j & Hj & H). unfold insertJob. destruct (_ || _); [by exists j|].
  exists j. simpl. rewrite elem_of_app. auto.
Qed.
Lemma claimNext_not_parked q ts db j db' :
  wf db -> claimNext q ts db = (Ok (Some j), db') -> ~ parked (job_id j) db.
Proof.
  intros Hwf H (k & Hk & Ek & Hs).
  destruct (claimNext_spec _ _ _ _ _ H) as (j0 & Hj0 & Hc & -> & _).
  assert (k = j0) as -> by (by apply (row_unique (jobs db)); [apply Hwf|..]).
  unfold claimable in Hc. unfold waiting in Hs. rewrite Hs, andb_false_r in Hc. done.
Qed.
Lemma claimNext_parked id q ts db r db' :
  claimNext q ts db = (Ok r, db') -> parked id db -> parked id db'.
Proof.
  intros E Hp. destruct r as [j|].
  - destruct (claimNext_spec _ _ _ _ _ E) as (j0 & _ & _ & _ & _ & ->). by apply parked_updateJob.
  - unfold claimNext in E. destruct (oldest _); [done|]. by injection E as <-.
Qed.
Lemma step_parked id db l db' :
  wf db -> step db l db' -> parked id db -> l ≠ Failed id -> parked id db' /\ l ≠ Claimed id.
Proof.
  intros Hwf Hs Hp Hl.
  destruct Hs as [db uuid q jt pl key | db q ts r db' E | db id' st d Hw | db id' r st Hw | db id' e b | db d];
    (split; [|try done]).
  - by apply parked_enqueue.
  - by apply (claimNext_parked id q ts db r).
  - destruct r as [j|]; [|done]. intros [= <-]. by apply claimNext_not_parked in E.
  - apply parked_statusUpdate; done.
  - apply parked_statusUpdate; done.
  - assert (id' ≠ id) as Hne by congruence. unfold fail. rewrite bind_getM.
    case_match; by apply parked_statusUpdate.
  - done.
Qed.
Lemma run_parked id db ls db' :
  run db ls db' -> wf db -> parked id db -> Failed id ∉ ls -> Claimed id ∉ ls.
Proof.
  intros Hr Hwf Hp. assert (Failed id ∉ ls -> parked id db' /\ Claimed id ∉ ls); [|naive_solver].
  induction Hr as [db|db ls db1 l db2 Hr IH Hs]; [set_solver|]. intros Hn.
  destruct IH as [Hp1 Hc]; [done..|set_solver|].
  destruct (step_parked id _ _ _ (run_wf _ _ _ Hr Hwf) Hs Hp1); set_solver.
Qed.

(** [updateJob] then [event] on a known job. *)
Lemma update_event_known db j f st d :
  wf db -> j ∈ jobs db -> (forall j, job_id (f j) = job_id j) ->
  exists db', (updateJob (job_id j) f ;; event (job_id j) st d) db = (Ok tt, db') /\
    head (selectWhere (hasId (job_id j)) (jobs db')) = Some (f j).
Proof.
  intros Hwf Hj Hf.
  assert (job_id <$> updateWhere (hasId (job_id j)) f (jobs db) = job_id <$> jobs db) as Eid
    by by apply updateWhere_column.
  assert (f j ∈ updateWhere (hasId (job_id j)) f (jobs db)) as Hfj.
  { apply elem_of_updateWhere. exists j. by rewrite (proj2 (hasId_true (job_id j) j)). }
  unfold updateJob, mbind, M_bind, modifyM, event. simpl. rewrite (proj2 (existsb_hasId (job_id j) _)).
  - eexists. split; [done|]. simpl.
    pose proof (fun H => selectById _ (f j) H Hfj) as Hs. rewrite Hf in Hs. apply Hs.
    rewrite Eid. apply Hwf.
  - rewrite Eid. by apply list_elem_of_fmap_2.
Qed.
(** The same on an unknown job: the update matches no row and the foreign key
    of the event fails. *)
Lemma updateWhere_unknown id f js : id ∉ job_id <$> js -> updateWhere (hasId id) f js = js.
Proof.
  intros Hn. unfold updateWhere. induction js as [|r rs IH]; [done|]. simpl.
  rewrite fmap_cons, not_elem_of_cons in Hn. destruct Hn as [Hr Hn]. rewrite (IH Hn).
  destruct (hasId id r) eqn:E; [apply hasId_true in E; congruence|done].
Qed.
Lemma selectById_unknown id js : id ∉ job_id <$> js -> selectWhere (hasId id) js = [].
Proof.
  intros Hn. destruct (selectWhere (hasId id) js) as [|r l] eqn:E; [done|].
  exfalso. assert (r ∈ selectWhere (hasId id) js) as Hr by (rewrite E; left).
  rewrite elem_of_selectWhere, hasId_true in Hr. destruct Hr as [Hr <-].
  apply Hn. by apply list_elem_of_fmap_2.
Qed.
Lemma update_event_unknown db id f st d :
  id ∉ job_id <$> jobs db -> (updateJob id f ;; event id st d) db = (Throw foreignKeyViolation, db).
Proof.
  intros Hn. unfold updateJob, mbind, M_bind, modifyM, withJobs. rewrite updateWhere_unknown by done.
  unfold event. simpl. destruct (existsb (hasId id) (jobs db)) eqn:E; [|by destruct db].
  by apply existsb_hasId in E.
Qed.

(** ** Properties *)

(** C38. In every execution of the queue, no job is handed to a worker more
    than three times (the default [max_attempts]), and the [attempts] column
    of each row is exactly the number of times it was handed out. *)
Theorem attempts_bounded t ls db id :
  run (emptyDB t) ls db ->
  claims id ls <= 3 /\ (forall j, j ∈ jobs db -> job_id j = id -> attempts j = claims id ls).
Proof.
  intros [Hwf [Hin Hout]]%run_counted. split.
  - destruct (decide (id ∈ job_id <$> jobs db)) as [Hid|Hid]; [|rewrite Hout; [lia|done]].
    apply list_elem_of_fmap in Hid as (j & -> & Hj). destruct (Hin j Hj) as [<- Hm].
    pose proof (wf_jobs db Hwf) as Hok. rewrite Forall_forall in Hok.
    destruct (Hok j Hj) as [Ha _]. lia.
  - intros j Hj <-. by apply Hin.
Qed.

(** C37. [claimNext] hands out the oldest job of the queue that is waiting
    and available; and in every execution that follows, no [claimNext], by
    any worker with any filter, hands that job out again unless [fail] was
    called on it in between: two workers never hold one job. *)
Theorem claim_exclusive q ts db j db1 ls db2 :
  wf db -> claimNext q ts db = (Ok (Some j), db1) -> run db1 ls db2 ->
  (exists j0, j0 ∈ jobs db /\ job_id j0 = job_id j /\ claimable q ts (now db) j0 = true /\
     forall k, k ∈ jobs db -> claimable q ts (now db) k = true -> created_at j0 <= created_at k) /\
  (Failed (job_id j) ∉ ls -> Claimed (job_id j) ∉ ls).
Proof.
  intros Hwf H Hr. destruct (claimNext_spec _ _ _ _ _ H) as (j0 & Hj0 & Hc & -> & Hold & E1).
  split; [exists j0; done|]. intros Hf. eapply run_parked; [exact Hr| | |exact Hf].
  - pose proof (preserves_claimNext q ts db Hwf) as Hp. by rewrite H in Hp.
  - exists (claimRow (now db) j0). split_and!; try done. subst db1. simpl.
    apply elem_of_updateWhere. exists j0. split; [done|].
    by rewrite (proj2 (hasId_true (job_id j0) j0)).
Qed.

(** Once [enqueue] has answered for a (non-empty) idempotency key, every
    later [enqueue] with that key, whatever else it asks for and whatever
    happened to the queue in between, returns the same job and writes
    nothing. *)
Theorem enqueue_idempotent db uuid q jt pl k row db1 ls db2 uuid' q' jt' pl' :
  wf db -> truthy k = true ->
  enqueue uuid q jt pl (Some k) db = (Ok row, db1) -> run db1 ls db2 ->
  exists row', enqueue uuid' q' jt' pl' (Some k) db2 = (Ok row', db2) /\ job_id row' = job_id row.
Proof.
  intros Hwf Ht He Hr. destruct (enqueue_row _ _ _ _ _ _ _ _ Ht He) as [Hrow Hk].
  assert (wf db1) as Hwf1 by (pose proof (preserves_enqueue uuid q jt pl (Some k) db Hwf) as Hp;
    by rewrite He in Hp).
  destruct (run_keepsRows _ _ _ Hr row Hrow) as (row' & Hrow' & Hid & Hk').
  exists row'. split; [|done]. apply enqueue_existing; [by eapply run_wf|done|congruence|done].
Qed.

(** [fail] on a known job. *)
Lemma fail_known db j err b :
  wf db -> 0 < b -> j ∈ jobs db ->
  exists db', fail (job_id j) err b db = (Ok tt, db') /\
     exists j', head (selectWhere (hasId (job_id j)) (jobs db')) = Some j' /\
       job_error j' = Some (sliceTo 2000 err) /\ attempts j' = attempts j /\
       (if max_attempts j <=? attempts j then status j' = "failed"
        else status j' = "failed_retry" /\ available_at j' = now db + 1000 * b) /\
       (forall q ts, claimable q ts (now db) j' = false).
Proof.
  intros Hwf Hb Hj. unfold fail. rewrite bind_getM, (selectById _ j); [|apply Hwf|done].
  destruct (max_attempts j <=? attempts j) eqn:E.
  - destruct (update_event_known db j (failRow "failed" (sliceTo 2000 err) None (now db)) "failed"
      (Some (sliceTo 500 err))) as (db' & E1 & E2); [done..|]. exists db'. split; [done|].
    eexists. split; [exact E2|]. split_and!; try done.
    intros q ts. unfold claimable. simpl. by rewrite andb_false_r.
  - destruct (update_event_known db j (failRow "failed_retry" (sliceTo 2000 err) (Some (now db + 1000 * b)) (now db))
      "failed_retry" (Some (sliceTo 500 err))) as (db' & E1 & E2); [done..|].
    exists db'. split; [done|]. eexists. split; [exact E2|]. split_and!; try done.
    intros q ts. unfold claimable. simpl. rewrite (proj2 (Z.leb_gt _ _)) by lia.
    by rewrite !andb_false_r.
Qed.

(** [fail] on a known job retries it after the backoff while attempts
    remain and otherwise ends it in the terminal status [failed]; the error is
    cut to 2000 characters and the job is not claimable before the backoff has
    passed.  On an unknown job it throws and changes nothing. *)
Theorem fail_spec db j err b :
  wf db -> 0 < b ->
  (j ∈ jobs db -> exists db', fail (job_id j) err b db = (Ok tt, db') /\
     exists j', head (selectWhere (hasId (job_id j)) (jobs db')) = Some j' /\
       job_error j' = Some (sliceTo 2000 err) /\ attempts j' = attempts j /\
       (if max_attempts j <=? attempts j then status j' = "failed"
        else status j' = "failed_retry" /\ available_at j' = now db + 1000 * b) /\
       (forall q ts, claimable q ts (now db) j' = false)) /\
  (job_id j ∉ job_id <$> jobs db -> fail (job_id j) err b db = (Throw foreignKeyViolation, db)).
Proof.
  intros Hwf Hb. split; [by apply fail_known|].
  intros Hn. unfold fail. rewrite bind_getM, selectById_unknown by done. simpl.
  by apply update_event_unknown.
Qed.

(** ** Witnesses *)

Definition row1 : ServiceJob :=
  mkServiceJob "job-1" "withdraw" prover (Some "k1") JNull "queued" 0 3 None None None 0 0 0.
Definition t0 : DB := emptyDB 0.
Definition t1 : DB := (enqueue "job-1" prover "withdraw" JNull (Some "k1") t0).2.
Definition t2 : DB := (claimNext prover [] t1).2.
Lemma run_t2 : run t0 [Quiet; Claimed "job-1"] t2.
Proof.
  apply (run_snoc _ [Quiet] t1).
  - apply (run_snoc _ [] t0); [apply run_nil|apply step_enqueue].
  - apply (step_claim t1 prover [] (Some (claimRow 0 row1)) t2). vm_compute; reflexivity.
Qed.

Lemma wf_t1 : wf t1.
Proof. apply preserves_enqueue, wf_empty. Qed.
Lemma attempts_bounded_witness :
  claims "job-1" [Quiet; Claimed "job-1"] = 1 /\ claims "job-1" [Quiet; Claimed "job-1"] <= 3.
Proof.
  split; [vm_compute; reflexivity|].
  exact (proj1 (attempts_bounded 0 [Quiet; Claimed "job-1"] t2 "job-1" run_t2)).
Defined.
Lemma claim_exclusive_witness :
  exists j, claimNext prover [] t1 = (Ok (Some j), t2) /\ Claimed (job_id j) ∉ [Quiet].
Proof.
  exists (claimRow 0 row1).
  split; [vm_compute; reflexivity|].
  eapply (claim_exclusive prover [] t1 _ t2 [Quiet] (mkDB (jobs t2) (events t2) (now t2 + 60))).
  - apply wf_t1.
  - vm_compute; reflexivity.
  - apply (run_snoc _ [] t2); [apply run_nil|apply (step_tick t2 60); lia].
  - rewrite list_elem_of_singleton; done.
Defined.
Lemma enqueue_idempotent_witness :
  exists row', enqueue "job-2" relayer "mpc" JNull (Some "k1") t1 = (Ok row', t1) /\ job_id row' = "job-1".
Proof.
  destruct (enqueue_idempotent t0 "job-1" prover "withdraw" JNull "k1" row1 t1 [] t1 "job-2" relayer "mpc" JNull) as (row' & E1 & E2).
  - apply wf_empty.
  - reflexivity.
  - vm_compute; reflexivity.
  - apply run_nil.
  - exists row'. split; [exact E1|exact E2].
Defined.
Lemma fail_spec_witness : exists db', fail "job-1" "boom" 10 t2 = (Ok tt, db').
Proof.
  destruct (fail_spec t2 (claimRow 0 row1) "boom" 10) as [H _].
  - exact (preserves_claimNext prover [] t1 wf_t1).
  - lia.
  - destruct H as (db' & E & _); [vm_compute; left|]. exists db'. exact E.
Defined.
End JobQueue.
