(* ===== verification/Database.v ===== *)
(** * The Postgres database (db/migrations)

    The statements of the services run on the tables of db/migrations: a row
    is the list of its columns, a table the list of its rows, and each
    statement is one atomic step.  [insert] fills defaults, converts
    parameters to the column's type, and enforces NOT NULL, UNIQUE, FOREIGN
    KEY and ON CONFLICT as the schema declares them; [update] converts and
    checks what it assigns.  Values are what node-postgres returns: [bigint]
    and [numeric] come back as decimal strings, timestamps are milliseconds. *)
From S2P Require Import Prelude JsText JsCollections Json Jsonb Ids JobQueue.
Import JsText Json JsArray.

Module Database.

Definition Row := list (string * json).
Definition get (r : Row) (c : string) : json := orElse (JsMap.get r c) JNull.
Definition isNull (j : json) : bool := match j with JNull => true | _ => false end.

(** ** Schemas *)
(** [text]; [integer], [bigint] and [numeric(40,0)]; [jsonb]; [boolean];
    [timestamptz]. *)
Inductive colType := CText | CInt | CBig | CNum | CJson | CBool | CTime.
Inductive colDefault := NoDefault | DNow | DUuid | DVal (j : json).
Record column := mkColumn { col : string; ctype : colType; required : bool; default : colDefault }.
Record fkey := mkFkey { fk_col : string; fk_table : string; fk_ref : string }.
Record schema := mkSchema { columns : list column; uniques : list (list string); fkeys : list fkey }.

Inductive onConflict :=
| OnError
| DoNothing (target : option (list string))
| DoUpdate (target : list string) (assign : Row -> Row).

(** [tables], the queue's two tables with the clock, and the number of the
    next random draw of the database or the runtime. *)
Record DB := mkDB { tables : gmap string (list Row); queueDB : JobQueue.DB; ticks : Z }.
Definition clock (db : DB) : Z := JobQueue.now (queueDB db).
Definition table (db : DB) (t : string) : list Row := orElse (tables db !! t) [].
Definition setTable (t : string) (rows : list Row) (db : DB) : DB :=
  mkDB (<[t := rows]> (tables db)) (queueDB db) (ticks db).

(** [uuid_generate_v4()], [randomUUID()]: the [n]-th identifier drawn. *)
Class Uuid := uuidOf : Z -> string.
(** For the witnesses. *)
Definition toyUuid : Uuid := fun n => "uuid-" +:+ toString n.

Definition tick : M DB Z := fun db => (Ok (ticks db), mkDB (tables db) (queueDB db) (ticks db + 1)).
Definition randomUUID `{Uuid} : M DB string := n ← tick; mret (uuidOf n).
Definition dateNow : M DB Z := fun db => (Ok (clock db), db).

(** A call on the queue's connection. *)
Definition onQueue {A} (m : M JobQueue.DB A) : M DB A := fun db =>
  let '(r, q) := m (queueDB db) in (r, mkDB (tables db) q (ticks db)).

(** ** Parameters

    What the column stores for a JavaScript value; [None] is a type error.
    Objects travel as JSON text; a non-empty array travels as a Postgres array
    literal, which is not JSON (its use for a text column does not occur).
    The columns for documents are all [jsonb], see [Jsonb].
    Timestamps given as text are kept as the text.  An [integer] and a [bigint]
    take a decimal text within 32 and 64 bits; [numeric(40,0)] takes a decimal
    text, rounded half away from zero to an integer of at most 40 digits, or
    [NaN]; the pool reads the last two back as text. *)
Definition parseDecimal (s : string) : option Z := if trim s ==? "" then None else parseSigned (trim s).
Lemma parseDecimal_toString z : parseDecimal (toString z) = Some z.
Proof.
  unfold parseDecimal. rewrite trim_toString, bool_decide_false by apply toString_nonempty.
  rewrite <- parseBigInt_numeric by apply isNumeric_toString. apply parseBigInt_toString.
Qed.
Definition int4 (z : Z) : bool := (- 2 ^ 31 <=? z) && (z <? 2 ^ 31).
Definition int8 (z : Z) : bool := (- 2 ^ 63 <=? z) && (z <? 2 ^ 63).
Definition digits40 (z : Z) : bool := Z.abs z <? 10 ^ 40.
Definition checked (p : Z -> bool) (z : option Z) : option Z := z ≫= fun z => if p z then Some z else None.
(** [m * 10^e], rounded. *)
Definition roundHalfAway (m e : Z) : Z :=
  if 0 <=? e then m * 10 ^ e
  else let d := 10 ^ (- e) in let q := (2 * Z.abs m + d) / (2 * d) in if m <? 0 then - q else q.
Definition numericText (s : string) : option json :=
  let t := trim s in
  if toLowerCase t ==? "nan" then Some (JStr "NaN")
  else if t ==? "" then None
  else match decimalNumber t with
       | Decimal m e => (fun z => JStr (toString z)) <$> checked digits40 (Some (roundHalfAway m e))
       | _ => None
       end.
Definition coerce (t : colType) (j : json) : option json :=
  match t, j with
  | _, JNull => Some JNull
  | CText, JStr s => Some (JStr s)
  | CText, JNum z => Some (JStr (toString z))
  | CText, JBool b => Some (JStr (if b then "true" else "false"))
  | CText, JObj kvs => Some (JStr (stringify (JObj kvs)))
  | CInt, JNum z => JNum <$> checked int4 (Some z)
  | CInt, JStr s => JNum <$> checked int4 (parseDecimal s)
  | CBig, JNum z => (fun z => JStr (toString z)) <$> checked int8 (Some z)
  | CBig, JStr s => (fun z => JStr (toString z)) <$> checked int8 (parseDecimal s)
  | CNum, JNum z => (fun z => JStr (toString z)) <$> checked digits40 (Some z)
  | CNum, JStr s => numericText s
  | CJson, JStr s => Jsonb.store <$> Json.parse s
  | CJson, JArr (_ :: _) => None
  | CJson, JArr [] => Some (JObj [])
  | CJson, _ => Some (Jsonb.store j)
  | CBool, JBool b => Some (JBool b)
  | CTime, JNum z => Some (JNum z)
  | CTime, JStr s => Some (JStr s)
  | _, _ => None
  end.

Definition sqlError {A} (msg : string) : M DB A := failM msg.

Section Statements.
Context (schemaOf : string -> option schema) `{Uuid}.

Definition defaultValue (now n : Z) (d : colDefault) : json :=
  match d with NoDefault => JNull | DNow => JNum now | DUuid => JStr (uuidOf n) | DVal j => j end.
Definition checkNull (c : column) (v : option json) : option json :=
  match v with
  | Some JNull => if required c then None else Some JNull
  | _ => v
  end.
Definition columnValue (now n : Z) (given : Row) (c : column) : option json :=
  checkNull c match JsMap.get given (col c) with
              | Some v => coerce (ctype c) v
              | None => Some (defaultValue now n (default c))
              end.
Fixpoint buildRow (now n : Z) (given : Row) (cs : list column) : option Row :=
  match cs with
  | [] => Some []
  | c :: cs =>
      match columnValue now n given c, buildRow now n given cs with
      | Some v, Some r => Some ((col c, v) :: r)
      | _, _ => None
      end
  end.
Definition hasColumn (s : schema) (c : string) : bool := existsb (fun k => col k ==? c) (columns s).

(** Two rows agree on the columns of a unique group and hold no NULL there. *)
Definition agree (cs : list string) (a b : Row) : bool :=
  forallb (fun c => negb (isNull (get a c)) && (get a c ==? get b c)) cs.
Definition clashes (groups : list (list string)) (new old : Row) : bool :=
  existsb (fun g => agree g new old) groups.
Definition fkOk (db : DB) (r : Row) (k : fkey) : bool :=
  isNull (get r (fk_col k)) || existsb (fun o => get o (fk_ref k) ==? get r (fk_col k)) (table db (fk_table k)).

(** The row with the assigned columns replaced. *)
Definition assignRow (sets : Row) (r : Row) : Row :=
  map (fun kv => (kv.1, orElse (JsMap.get sets kv.1) kv.2)) r.
Fixpoint coerceSets (s : schema) (sets : Row) : option Row :=
  match sets with
  | [] => Some []
  | (c, v) :: sets =>
      match find (fun k => col k ==? c) (columns s) with
      | None => None
      | Some k =>
          match checkNull k (coerce (ctype k) v), coerceSets s sets with
          | Some v', Some r => Some ((c, v') :: r)
          | _, _ => None
          end
      end
  end.
Definition fksOf (s : schema) (sets : Row) : list fkey :=
  selectWhere (fun k => bool_decide (fk_col k ∈ sets.*1)) (fkeys s).

(** [update t set ... where p returning *]; no statement of the sources
    assigns a column of a unique group. *)
Definition update (t : string) (p : Row -> bool) (sets : Row) : M DB (list Row) := fun db =>
  match schemaOf t with
  | None => sqlError ("relation does not exist: " +:+ t) db
  | Some s =>
      match coerceSets s sets with
      | None => sqlError ("bad assignment to " +:+ t) db
      | Some sets' =>
          let hit := selectWhere p (table db t) in
          if forallb (fun r => forallb (fkOk db (assignRow sets' r)) (fksOf s sets')) hit
          then (Ok (map (assignRow sets') hit), setTable t (updateWhere p (assignRow sets') (table db t)) db)
          else sqlError ("violates foreign key constraint of " +:+ t) db
      end
  end.

Definition addRow (s : schema) (t : string) (r : Row) : M DB (list Row) := fun db =>
  if existsb (clashes (uniques s) r) (table db t) then sqlError ("duplicate key value in " +:+ t) db
  else if forallb (fkOk db r) (fkeys s) then (Ok [r], setTable t (table db t ++ [r]) db)
  else sqlError ("violates foreign key constraint of " +:+ t) db.

(** [insert into t(...) values (...) on conflict ... returning *]. *)
Definition insert (t : string) (given : Row) (oc : onConflict) : M DB (list Row) := fun db =>
  match schemaOf t with
  | None => sqlError ("relation does not exist: " +:+ t) db
  | Some s =>
      if negb (forallb (fun kv => hasColumn s kv.1) given) then sqlError ("no such column in " +:+ t) db
      else match buildRow (clock db) (ticks db) given (columns s) with
      | None => sqlError ("null or ill-typed value in " +:+ t) db
      | Some r =>
          let db := mkDB (tables db) (queueDB db) (ticks db + 1) in
          match oc with
          | OnError => addRow s t r db
          | DoNothing target =>
              let groups := match target with None => uniques s | Some g => [g] end in
              if existsb (clashes groups r) (table db t) then (Ok [], db) else addRow s t r db
          | DoUpdate g assign =>
              if existsb (agree g r) (table db t) then update t (agree g r) (assign r) db
              else addRow s t r db
          end
      end
  end.

Definition select (t : string) (p : Row -> bool) : M DB (list Row) := fun db =>
  match schemaOf t with
  | None => sqlError ("relation does not exist: " +:+ t) db
  | Some _ => (Ok (selectWhere p (table db t)), db)
  end.
Definition selectFirst (t : string) (p : Row -> bool) : M DB (option Row) :=
  rows ← select t p; mret (head rows).
Definition delete (t : string) (p : Row -> bool) : M DB Z := fun db =>
  match schemaOf t with
  | None => sqlError ("relation does not exist: " +:+ t) db
  | Some _ => (Ok (rowCount p (table db t)), setTable t (deleteWhere p (table db t)) db)
  end.

(** ** Facts about the statements *)
Lemma get_assignRow sets r c :
  JsMap.get (assignRow sets r) c =
    match JsMap.get r c with Some v => Some (orElse (JsMap.get sets c) v) | None => None end.
Proof.
  induction r as [|[k v] r IH]; [done|]. simpl. case_bool_decide as E; [by subst|done].
Qed.
Definition ticked (db : DB) : DB := mkDB (tables db) (queueDB db) (ticks db + 1).
Definition targetOf (s : schema) (oc : onConflict) : list (list string) :=
  match oc with OnError => [] | DoNothing None => uniques s | DoNothing (Some g) => [g] | DoUpdate g _ => [g] end.

Lemma table_setTable t t' rows db : table (setTable t rows db) t' = if t ==? t' then rows else table db t'.
Proof.
  unfold table, setTable. simpl. case_bool_decide as E; [subst; by rewrite lookup_insert_eq|].
  by rewrite lookup_insert_ne.
Qed.
Lemma table_same t rows db : table (setTable t rows db) t = rows.
Proof. rewrite table_setTable. by rewrite bool_decide_true. Qed.
Lemma table_other t t' rows db : t ≠ t' -> table (setTable t rows db) t' = table db t'.
Proof. intros. rewrite table_setTable. by rewrite bool_decide_false. Qed.
(** An update of columns without foreign keys always succeeds. *)
Lemma update_ok t p s sets sets' db :
  schemaOf t = Some s -> coerceSets s sets = Some sets' -> fksOf s sets' = [] ->
  update t p sets db =
    (Ok (map (assignRow sets') (selectWhere p (table db t))),
     setTable t (updateWhere p (assignRow sets') (table db t)) db).
Proof.
  intros Hs Hc Hf. unfold update. rewrite Hs, Hc, Hf.
  assert (forall l : list Row, forallb (fun r => forallb (fkOk db (assignRow sets' r)) []) l = true) as ->
    by (by induction l). done.
Qed.
Lemma clashes_one g r o : clashes [g] r o = agree g r o.
Proof. unfold clashes. simpl. apply orb_false_r. Qed.
Lemma existsb_clashes_one g r rows : existsb (clashes [g] r) rows = existsb (agree g r) rows.
Proof. induction rows as [|o rows IH]; [done|]. cbn [existsb]. by rewrite IH, clashes_one. Qed.

(** A row that clashes with none is appended. *)
Lemma insert_appends t s given oc r db :
  schemaOf t = Some s -> forallb (fun kv => hasColumn s kv.1) given = true ->
  buildRow (clock db) (ticks db) given (columns s) = Some r ->
  (forall o, o ∈ table db t -> clashes (targetOf s oc ++ uniques s) r o = false) ->
  forallb (fkOk db r) (fkeys s) = true ->
  insert t given oc db = (Ok [r], setTable t (table db t ++ [r]) (ticked db)).
Proof.
  intros Hs Hc Hb Hu Hf.
  assert (forall groups, groups ⊆ targetOf s oc ++ uniques s ->
    existsb (clashes groups r) (table db t) = false) as Hex.
  { intros groups Hsub. apply not_true_iff_false. intros (o & Ho%list_elem_of_In & E)%existsb_exists.
    specialize (Hu o Ho). apply not_true_iff_false in Hu as []. unfold clashes in *.
    apply existsb_exists in E as (g & Hg%list_elem_of_In & E). apply existsb_exists. exists g.
    split; [apply list_elem_of_In; by apply Hsub|done]. }
  unfold insert. rewrite Hs, Hc, Hb. simpl.
  assert (addRow s t r (ticked db) = (Ok [r], setTable t (table db t ++ [r]) (ticked db))) as Ha.
  { unfold addRow. change (table (ticked db) t) with (table db t).
    rewrite (Hex (uniques s)) by set_solver. change (forallb (fkOk (ticked db) r) (fkeys s)) with (forallb (fkOk db r) (fkeys s)).
    by rewrite Hf. }
  destruct oc as [|[g|]|g f]; [done| | |].
  - change (table (mkDB (tables db) (queueDB db) (ticks db + 1)) t) with (table db t). rewrite Hex; [done|].
    simpl. set_solver.
  - change (table (mkDB (tables db) (queueDB db) (ticks db + 1)) t) with (table db t). rewrite Hex; [done|].
    simpl. set_solver.
  - change (table (mkDB (tables db) (queueDB db) (ticks db + 1)) t) with (table db t).
    rewrite <- existsb_clashes_one. rewrite Hex; [done|]. simpl. set_solver.
Qed.

(** What a successful insert wrote. *)
Lemma addRow_Ok s t r db rows db' :
  addRow s t r db = (Ok rows, db') -> rows = [r] /\ db' = setTable t (table db t ++ [r]) db.
Proof. unfold addRow. repeat case_match; try done. by intros [= <- <-]. Qed.
Lemma insert_OnError_Ok t given db rows db' :
  insert t given OnError db = (Ok rows, db') ->
  exists s r, schemaOf t = Some s /\ buildRow (clock db) (ticks db) given (columns s) = Some r /\ rows = [r] /\
    db' = setTable t (table db t ++ [r]) (ticked db).
Proof.
  unfold insert. destruct (schemaOf t) as [s|]; [|done]. case_match; [done|].
  destruct (buildRow _ _ _ _) as [r|] eqn:E; [|done]. intros [-> ->]%addRow_Ok. eauto 10.
Qed.
(** [on conflict do nothing]: skipped without a trace, or appended. *)
Lemma insert_DoNothing_Ok t given target db rows db' :
  insert t given (DoNothing target) db = (Ok rows, db') ->
  exists s r, schemaOf t = Some s /\ buildRow (clock db) (ticks db) given (columns s) = Some r /\
    ((rows = [] /\ db' = ticked db /\
      exists o, o ∈ table db t /\ clashes (match target with None => uniques s | Some g => [g] end) r o = true) \/
     (rows = [r] /\ db' = setTable t (table db t ++ [r]) (ticked db))).
Proof.
  unfold insert. destruct (schemaOf t) as [s|]; [|done]. case_match; [done|].
  destruct (buildRow _ _ _ _) as [r|] eqn:E; [|done]. cbv zeta. intros Hr. exists s, r. split; [done|]. split; [done|]. revert Hr. case_match eqn:Ex.
  - intros [= <- <-]. left. split; [done|]. split; [done|]. apply existsb_exists in Ex as (o & Ho%list_elem_of_In & Hc). by exists o.
  - intros [-> ->]%addRow_Ok. by right.
Qed.
Lemma buildRow_get now n given cs r c k v :
  buildRow now n given cs = Some r -> find (fun d => col d ==? c) cs = Some k -> columnValue now n given k = Some v ->
  JsMap.get r c = Some v.
Proof.
  revert r. induction cs as [|d cs IH]; intros r; cbn [buildRow find]; [done|].
  destruct (columnValue now n given d) as [u|] eqn:Eu; [|done]. destruct (buildRow now n given cs) as [r'|]; [|done].
  intros [= <-] Hf Hk. simpl. revert Hf. case_bool_decide as Ec.
  - intros [= ->]. rewrite bool_decide_true by done. congruence.
  - intros Hf. rewrite bool_decide_false by done. by apply IH.
Qed.
Lemma coerce_num z v : coerce CNum (JStr (toString z)) = Some v -> v = JStr (toString z).
Proof.
  cbn [coerce]. unfold numericText. rewrite trim_toString. case_bool_decide as E.
  { exfalso. pose proof (isNumeric_toString z) as Hn. destruct (toString z) as [|c s]; [discriminate E|]. cbn in E. injection E as E _.
    cbn [allChars] in Hn. apply andb_true_iff in Hn as [Hn _]. rewrite lowerChar_numeric in E by done. by rewrite E in Hn. }
  rewrite bool_decide_false by apply toString_nonempty. rewrite decimalNumber_toString. change (roundHalfAway z 0) with (z * 1). rewrite Z.mul_1_r. cbn.
  by destruct (digits40 z); intros [= <-].
Qed.
(** The row of a statement holds what its columns make of the values. *)
Lemma buildRow_value now n given cs r c k :
  buildRow now n given cs = Some r -> find (fun d => col d ==? c) cs = Some k ->
  exists v, columnValue now n given k = Some v /\ get r c = v.
Proof.
  intros Hb Hf. assert (exists v, columnValue now n given k = Some v) as [v Hv].
  { revert r Hb Hf. induction cs as [|d cs IH]; intros r; cbn [buildRow find]; [done|].
    destruct (columnValue now n given d) as [u|] eqn:Eu; [|done]. destruct (buildRow now n given cs) as [r'|]; [|done]. intros _.
    case_bool_decide; [|by apply (IH r')]. intros [= <-]. by exists u. }
  exists v. split; [done|]. unfold get. by rewrite (buildRow_get _ _ _ _ _ _ _ _ Hb Hf Hv).
Qed.
(** After [on conflict do nothing] the table holds the row or one it clashes
    with. *)
Lemma insert_DoNothing_found t given db rows db' :
  insert t given (DoNothing None) db = (Ok rows, db') ->
  exists s r o, schemaOf t = Some s /\ buildRow (clock db) (ticks db) given (columns s) = Some r /\ o ∈ table db' t /\
    (o = r \/ clashes (uniques s) r o = true).
Proof.
  unfold insert. destruct (schemaOf t) as [s|]; [|done]. case_match; [done|].
  destruct (buildRow _ _ _ _) as [r|] eqn:E; [|done]. cbv zeta. destruct (existsb _ _) eqn:Ex.
  - intros [= <- <-]. apply existsb_exists in Ex as (o & Ho & Hc). exists s, r, o.
    split_and!; [done|done|by apply list_elem_of_In|by right].
  - intros [-> ->]%addRow_Ok. exists s, r, r. split_and!; [done|done| |by left]. rewrite table_same. apply elem_of_app. right. left.
Qed.
Lemma update_Ok t p sets db rows db' :
  update t p sets db = (Ok rows, db') ->
  exists s sets', schemaOf t = Some s /\ coerceSets s sets = Some sets' /\
    rows = map (assignRow sets') (selectWhere p (table db t)) /\
    db' = setTable t (updateWhere p (assignRow sets') (table db t)) db.
Proof.
  unfold update. destruct (schemaOf t) as [s|]; [|done]. destruct (coerceSets s sets) as [sets'|] eqn:Ec; [|done].
  case_match; [|done]. intros [= <- <-]. by exists s, sets'.
Qed.
Lemma select_Ok t p db rows db' :
  select t p db = (Ok rows, db') -> rows = selectWhere p (table db t) /\ db' = db.
Proof. unfold select. case_match; [|done]. by intros [= <- <-]. Qed.
Lemma selectFirst_Ok t p db r db' :
  selectFirst t p db = (Ok r, db') -> db' = db /\ r = head (selectWhere p (table db t)).
Proof.
  unfold selectFirst. intros H'. bind_ok H' as rows db1 E. apply select_Ok in E as [-> ->].
  by apply ret_Ok in H' as [-> ->].
Qed.

(** Statements on one table leave the others alone. *)
Lemma keeps_update t t' rows p sets :
  t' ≠ t -> preserves (fun db => table db t = rows) (update t' p sets).
Proof.
  intros Hne db Hdb. unfold update. repeat (case_match; try done). simpl. by rewrite table_other.
Qed.
Lemma keeps_addRow t t' rows s r : t' ≠ t -> preserves (fun db => table db t = rows) (addRow s t' r).
Proof. intros Hne db Hdb. unfold addRow. repeat (case_match; try done). simpl. by rewrite table_other. Qed.
Lemma keeps_insert t t' rows given oc :
  t' ≠ t -> preserves (fun db => table db t = rows) (insert t' given oc).
Proof.
  intros Hne db Hdb. unfold insert. case_match; [|done]. case_match; [done|]. case_match; [|done].
  assert (table (mkDB (tables db) (queueDB db) (ticks db + 1)) t = rows) as Hdb' by done.
  destruct oc; repeat case_match; try done; solve [by apply keeps_addRow|by apply keeps_update].
Qed.
Lemma keeps_delete t t' rows p : t' ≠ t -> preserves (fun db => table db t = rows) (delete t' p).
Proof. intros Hne db Hdb. unfold delete. case_match; [|done]. simpl. by rewrite table_other. Qed.
Lemma preserves_select I t p : preserves I (select t p).
Proof. intros db Hdb. unfold select. by case_match. Qed.
End Statements.
Lemma preserves_dateNow I : preserves I dateNow.
Proof. by intros db Hdb. Qed.
Lemma preserves_tick (I : DB -> Prop) : (forall db, I db -> I (mkDB (tables db) (queueDB db) (ticks db + 1))) -> preserves I tick.
Proof. intros Hi db Hdb. by apply Hi. Qed.
#[export] Hint Resolve preserves_select preserves_dateNow : preserve.
#[export] Hint Extern 3 (preserves _ (update _ _ _ _)) => apply keeps_update; discriminate : preserve.
#[export] Hint Extern 3 (preserves _ (insert _ _ _ _)) => apply keeps_insert; discriminate : preserve.
#[export] Hint Extern 3 (preserves _ (delete _ _ _)) => apply keeps_delete; discriminate : preserve.
(** Walk through a program whose statements leave a table alone. *)
Ltac keeps_table :=
  repeat first
    [ apply preserves_bind; [|intros ?] | apply preserves_ret | apply preserves_throw | apply preserves_lift
    | apply preserves_select | apply preserves_dateNow | apply preserves_guard
    | apply preserves_tick; by intros
    | apply preserves_catch; [|intros ?] | apply preserves_foreach; intros ?
    | apply keeps_insert; first [discriminate|assumption] | apply keeps_update; first [discriminate|assumption]
    | apply keeps_delete; first [discriminate|assumption]
    | progress case_match ].

(** No statement moves the clock. *)
Section Clock.
Context (schemaOf : string -> option schema) `{Uuid}.
Lemma clock_update t p sets db : clock (update schemaOf t p sets db).2 = clock db.
Proof. unfold update. by repeat case_match. Qed.
Lemma clock_insert t row oc db : clock (insert schemaOf t row oc db).2 = clock db.
Proof.
  unfold insert, addRow. repeat case_match; try done. by rewrite clock_update.
Qed.
Lemma same_clock_insert c t row oc : preserves (fun db => clock db = c) (insert schemaOf t row oc).
Proof. intros db <-. apply clock_insert. Qed.
Lemma same_clock_update c t p sets : preserves (fun db => clock db = c) (update schemaOf t p sets).
Proof. intros db <-. apply clock_update. Qed.
End Clock.
#[export] Hint Resolve same_clock_insert same_clock_update : preserve.

(** [where c = $n]: SQL equality, never true on NULL. *)
Definition eqCol (c : string) (v : json) (r : Row) : bool := negb (isNull v) && (get r c ==? v).
Definition eqText (c s : string) : Row -> bool := eqCol c (JStr s).
(** [c = ANY($n)] for an array of texts. *)
Definition anyText (c : string) (l : list string) (r : Row) : bool :=
  existsb (fun s => eqText c s r) l.
Definition project (cs : list string) (r : Row) : Row := map (fun c => (c, get r c)) cs.

Lemma eqCol_true c v r : eqCol c v r = true <-> get r c = v /\ v ≠ JNull.
Proof.
  unfold eqCol. rewrite andb_true_iff, negb_true_iff, bool_decide_eq_true. split; intros [? ?]; split; try done.
  - by intros ->.
  - by destruct v.
Qed.
Lemma eqText_true c s r : eqText c s r = true <-> get r c = JStr s.
Proof. unfold eqText. rewrite eqCol_true. split; [by intros [? _]|done]. Qed.
Lemma head_selectWhere {A} (p : A -> bool) l x : head (selectWhere p l) = Some x -> x ∈ l /\ p x = true.
Proof.
  intros E. destruct (selectWhere p l) as [|y k] eqn:Es; [done|]. injection E as ->.
  rewrite <- elem_of_selectWhere, Es. by left.
Qed.

Lemma get_project cs r c : c ∈ cs -> get (project cs r) c = get r c.
Proof.
  unfold get, project. induction cs as [|d cs IH]; [by intros ?%elem_of_nil|]. rewrite elem_of_cons. simpl.
  destruct (bool_decide_reflect (c = d)) as [->|Hne]; [done|]. intros [?|?]; [done|by apply IH].
Qed.
Lemma anyText_true c l r : anyText c l r = true <-> exists s, s ∈ l /\ get r c = JStr s.
Proof.
  unfold anyText. rewrite existsb_exists. setoid_rewrite eqText_true. by setoid_rewrite list_elem_of_In.
Qed.

Definition numOf (j : json) : Z := match j with JNum z => z | _ => 0 end.
Definition textOf (j : json) : string := match j with JStr s => s | _ => "" end.
(** [order by c asc], [order by c desc] on a column of numbers or times. *)
Definition orderAsc (c : string) : list Row -> list Row :=
  sortBy (fun a b => numOf (get a c) - numOf (get b c)).
Definition orderDesc (c : string) : list Row -> list Row :=
  sortBy (fun a b => numOf (get b c) - numOf (get a c)).
Lemma elem_of_orderDesc c l (x : Row) : x ∈ orderDesc c l <-> x ∈ l.
Proof. unfold orderDesc. by rewrite (sortBy_perm _ l). Qed.
Lemma elem_of_orderAsc c l (x : Row) : x ∈ orderAsc c l <-> x ∈ l.
Proof. unfold orderAsc. by rewrite (sortBy_perm _ l). Qed.

(** ** The tables of db/migrations *)
Definition text c := mkColumn c CText true NoDefault.
Definition textN c := mkColumn c CText false NoDefault.
Definition textD c d := mkColumn c CText true (DVal (JStr d)).
Definition intC c := mkColumn c CInt true NoDefault.
Definition intD c d := mkColumn c CInt true (DVal (JNum d)).
Definition big c := mkColumn c CBig true NoDefault.
Definition num c := mkColumn c CNum true NoDefault.
Definition bigN c := mkColumn c CBig false NoDefault.
Definition jsonb c := mkColumn c CJson true NoDefault.
Definition jsonbN c := mkColumn c CJson false NoDefault.
Definition jsonbD c := mkColumn c CJson true (DVal (JObj [])).
Definition boolD c d := mkColumn c CBool true (DVal (JBool d)).
Definition time c := mkColumn c CTime true NoDefault.
Definition timeN c := mkColumn c CTime false NoDefault.
Definition timeD c := mkColumn c CTime true DNow.
Definition uuidD c := mkColumn c CText true DUuid.
Definition ref c t k := mkFkey c t k.

Definition cctp_deposits : schema := mkSchema
  [text "deposit_id"; text "idempotency_key"; intC "source_domain"; intC "destination_domain";
   textN "source_tx_hash"; textN "cctp_nonce"; textN "message_hash"; textN "attestation_status";
   textN "stellar_mint_tx_hash"; textN "vault_deposit_tx_hash"; text "asset_id"; num "amount_usdc_6dp";
   num "amount_usdc_7dp"; text "commitment"; text "encrypted_note_payload_hash"; text "policy_id";
   text "state"; timeD "created_at"; timeD "updated_at"; textN "user_id"; textN "source_wallet_address";
   textN "vault_id"; textN "source_chain"; textN "coin_path"]
  [["deposit_id"]; ["idempotency_key"]] [ref "user_id" "users" "id"].
Definition note_commitments : schema := mkSchema
  [text "commitment"; textN "deposit_id"; bigN "leaf_index"; textN "root"; text "asset_id";
   num "amount_usdc_7dp"; text "policy_id"; text "status"; timeD "created_at"; textN "user_id"]
  [["commitment"]] [ref "deposit_id" "cctp_deposits" "deposit_id"; ref "user_id" "users" "id"].
Definition nullifier_spends : schema := mkSchema
  [text "nullifier"; textN "settlement_id"; textN "spent_tx_hash"; timeD "created_at"] [["nullifier"]] [].
Definition proof_jobs : schema := mkSchema
  [text "proof_job_id"; text "idempotency_key"; text "proof_type"; text "public_inputs_hash";
   textN "artifact_path"; text "status"; textN "error"; timeD "created_at"; timeD "updated_at"; textN "user_id"]
  [["proof_job_id"]; ["idempotency_key"]] [ref "user_id" "users" "id"].
Definition withdrawals : schema := mkSchema
  [text "withdrawal_id"; text "idempotency_key"; text "nullifier"; num "amount_usdc_7dp"; text "recipient";
   num "relayer_fee"; big "deadline_ledger"; textN "proof_job_id"; textN "tx_hash"; text "state";
   timeD "created_at"; textN "user_id"]
  [["withdrawal_id"]; ["idempotency_key"]]
  [ref "proof_job_id" "proof_jobs" "proof_job_id"; ref "user_id" "users" "id"].
Definition intents : schema := mkSchema
  [text "intent_hash"; text "idempotency_key"; text "encrypted_payload"; jsonb "public_commitment";
   big "expiry_ledger"; text "policy_id"; text "user_signature"; text "state"; timeD "created_at";
   textN "user_id"; textN "mpc_session_id"]
  [["intent_hash"]; ["idempotency_key"]]
  [ref "user_id" "users" "id"; ref "mpc_session_id" "mpc_sessions" "session_id"].
Definition quotes : schema := mkSchema
  [text "quote_id"; text "intent_hash"; text "quote_hash"; text "solver_id"; jsonb "payload";
   text "quote_signature"; big "valid_until_ledger"; text "state"; timeD "created_at"]
  [["quote_id"]; ["quote_hash"]] [ref "intent_hash" "intents" "intent_hash"].
Definition quote_acceptances : schema := mkSchema
  [text "acceptance_id"; text "quote_id"; text "intent_hash"; text "user_signature_hash";
   timeD "accepted_at"; textN "user_id"]
  [["acceptance_id"]; ["quote_id"]]
  [ref "quote_id" "quotes" "quote_id"; ref "intent_hash" "intents" "intent_hash"; ref "user_id" "users" "id"].
Definition solver_inventory_locks : schema := mkSchema
  [text "lock_id"; text "quote_id"; text "solver_id"; text "lock_hash"; text "amount"; text "asset";
   big "expires_at_ledger"; text "state"; timeD "created_at"]
  [["lock_id"]] [ref "quote_id" "quotes" "quote_id"].
Definition fills : schema := mkSchema
  [text "fill_id"; text "quote_id"; text "fill_receipt_hash"; textN "destination_tx_hash"; text "amount";
   text "recipient"; text "state"; timeD "created_at"]
  [["fill_id"]] [ref "quote_id" "quotes" "quote_id"].
Definition settlements : schema := mkSchema
  [text "settlement_id"; text "intent_hash"; text "quote_id"; textN "fill_id"; textN "proof_job_id";
   text "nullifier"; textN "stellar_tx_hash"; text "state"; timeD "created_at"; textN "user_id"]
  [["settlement_id"]]
  [ref "intent_hash" "intents" "intent_hash"; ref "quote_id" "quotes" "quote_id"; ref "fill_id" "fills" "fill_id";
   ref "proof_job_id" "proof_jobs" "proof_job_id"; ref "user_id" "users" "id"].
Definition cctp_exits : schema := mkSchema
  [text "exit_id"; text "idempotency_key"; text "nullifier"; intC "destination_domain";
   text "destination_recipient"; num "amount_usdc_7dp"; num "relayer_fee"; textN "proof_job_id";
   textN "burn_tx_hash"; textN "mint_tx_hash"; text "state"; timeD "created_at"; textN "user_id"]
  [["exit_id"]; ["idempotency_key"]]
  [ref "proof_job_id" "proof_jobs" "proof_job_id"; ref "user_id" "users" "id"].
Definition state_transitions : schema := mkSchema
  [uuidD "transition_id"; text "entity_type"; text "entity_id"; textN "from_state"; text "to_state";
   textN "reason"; textN "tx_hash"; jsonbD "metadata"; timeD "created_at"] [["transition_id"]] [].
Definition root_audit_runs : schema := mkSchema
  [uuidD "run_id"; text "pool_contract"; big "leaf_count"; text "recomputed_root"; text "onchain_root";
   text "source"; text "status"; textN "git_commit"; timeD "created_at"] [["run_id"]] [].
Definition root_audit_findings : schema := mkSchema
  [uuidD "id"; text "run_id"; text "severity"; text "code"; text "detail"; textN "recomputed_root";
   textN "onchain_root"; timeD "created_at"] [["id"]] [ref "run_id" "root_audit_runs" "run_id"].
Definition users : schema := mkSchema
  [uuidD "id"; textN "display_name"; textN "email"; textN "avatar_url"; boolD "testnet_only" true;
   timeD "created_at"; timeD "updated_at"; timeN "last_login_at"; textN "privy_user_id"; textN "primary_auth_method"]
  [["id"]; ["privy_user_id"]] [].
Definition user_profiles : schema := mkSchema
  [text "user_id"; jsonbD "preferences"; jsonbD "risk_flags"; timeD "created_at"; timeD "updated_at"]
  [["user_id"]] [ref "user_id" "users" "id"].
Definition auth_nonces : schema := mkSchema
  [uuidD "id"; text "wallet_type"; text "address"; text "nonce"; text "message"; timeN "consumed_at";
   time "expires_at"; timeD "created_at"] [["id"]] [].
Definition user_wallets : schema := mkSchema
  [uuidD "id"; text "user_id"; text "wallet_type"; text "chain"; text "address"; boolD "is_primary" false;
   timeN "verified_at"; timeD "created_at"; textN "privy_user_id"; textN "wallet_source"; textN "privy_wallet_id"]
  [["id"]; ["wallet_type"; "address"]] [ref "user_id" "users" "id"].
Definition user_sessions : schema := mkSchema
  [uuidD "id"; text "user_id"; text "session_hash"; time "expires_at"; timeD "created_at"; timeN "revoked_at"]
  [["id"]; ["session_hash"]] [ref "user_id" "users" "id"].
Definition encrypted_note_backups : schema := mkSchema
  [uuidD "id"; text "user_id"; text "commitment"; text "encrypted_payload"; textD "encryption_version" "v1";
   timeD "created_at"] [["id"]; ["user_id"; "commitment"]] [ref "user_id" "users" "id"].
Definition user_activity : schema := mkSchema
  [uuidD "id"; textN "user_id"; text "event_type"; textN "entity_type"; textN "entity_id"; textN "tx_hash";
   jsonbD "metadata"; timeD "created_at"] [["id"]] [ref "user_id" "users" "id"].
Definition note_vaults : schema := mkSchema
  [uuidD "id"; text "user_id"; text "privy_user_id"; text "vault_id"; jsonb "envelope"; text "ciphertext";
   jsonb "aad"; textD "backup_status" "created"; textD "recovery_policy_status" "insufficient";
   timeN "last_backup_verified_at"; timeN "last_restored_at"; timeD "created_at"; timeD "updated_at";
   jsonbN "last_backup_verification"] [["id"]; ["vault_id"]] [ref "user_id" "users" "id"].
Definition note_vault_wrappers : schema := mkSchema
  [uuidD "id"; text "vault_id"; text "user_id"; text "wrapper_type"; textD "wrapper_status" "active";
   jsonbD "metadata"; timeD "created_at"; timeN "last_used_at"]
  [["id"]] [ref "vault_id" "note_vaults" "vault_id"; ref "user_id" "users" "id"].
Definition mpc_sessions : schema := mkSchema
  [text "session_id"; textD "status" "open"; timeD "started_at"; timeN "closed_at"; intD "intent_count" 0;
   intD "match_count" 0; timeD "created_at"; timeD "updated_at"] [["session_id"]] [].
Definition mpc_intents : schema := mkSchema
  [text "intent_id"; text "session_id"; textN "user_id"; text "input_asset"; text "output_asset";
   big "expiry_ledger"; text "policy_id"; text "note_nullifier"; text "note_commitment";
   text "recipient_commitment"; textD "status" "pending"; textN "matched_with"; textN "matched_amount_7dp";
   timeD "submitted_at"; timeD "updated_at"]
  [["intent_id"]] [ref "session_id" "mpc_sessions" "session_id"; ref "matched_with" "mpc_intents" "intent_id"].
Definition mpc_intent_shares : schema := mkSchema
  [uuidD "id"; text "intent_id"; text "node_id"; text "ciphertext"; text "nonce"; text "sender_pubkey";
   boolD "delivered" false; timeD "created_at"]
  [["id"]; ["intent_id"; "node_id"]] [ref "intent_id" "mpc_intents" "intent_id"].
Definition mpc_batches : schema := mkSchema
  [text "batch_id"; text "session_id"; text "batch_hash"; intC "match_count"; jsonb "matches_json";
   jsonb "signatures_json"; textD "settlement_status" "pending"; timeN "settled_at"; timeD "created_at";
   timeD "updated_at"] [["batch_id"]] [ref "session_id" "mpc_sessions" "session_id"].
Definition mpc_batch_signatures : schema := mkSchema
  [uuidD "id"; text "batch_id"; text "node_id"; text "signing_pubkey"; text "signature"; timeD "created_at"]
  [["id"]; ["batch_id"; "node_id"]] [ref "batch_id" "mpc_batches" "batch_id"].
Definition mpc_committee_keys : schema := mkSchema
  [text "node_id"; text "encryption_pubkey"; text "encryption_secret"; text "signing_pubkey";
   text "signing_secret"; timeD "created_at"] [["node_id"]] [].
Definition anchor_quotes : schema := mkSchema
  [uuidD "quote_id"; text "user_id"; text "asset"; text "amount_7dp"; text "destination_currency";
   text "destination_country"; textN "anchor_quote_id"; textD "status" "quoted"; jsonbN "raw";
   timeD "created_at"; timeD "updated_at"] [["quote_id"]] [].
Definition anchor_payouts : schema := mkSchema
  [uuidD "payout_id"; text "user_id"; text "quote_id"; text "settlement_id"; textN "anchor_transaction_id";
   textD "status" "pending"; jsonbN "raw"; timeD "created_at"; timeD "updated_at"] [["payout_id"]] [].
Definition view_key_reports : schema := mkSchema
  [uuidD "report_id"; text "user_id"; timeN "time_range_from"; timeN "time_range_to";
   mkColumn "note_commitments" CJson true (DVal (JArr [])); mkColumn "disclosed_nullifiers" CJson true (DVal (JArr []));
   textN "quote_id"; textN "policy_id"; textN "anchor_id"; boolD "amount_disclosed" false;
   mkColumn "proof_links" CJson true (DVal (JArr [])); text "service_pubkey"; text "service_signature";
   jsonbN "encrypted_attachment"; timeD "created_at"] [["report_id"]] [ref "user_id" "users" "id"].

Definition migrations : list (string * schema) := [
  ("cctp_deposits", cctp_deposits); ("note_commitments", note_commitments);
  ("nullifier_spends", nullifier_spends); ("proof_jobs", proof_jobs); ("withdrawals", withdrawals);
  ("intents", intents); ("quotes", quotes); ("quote_acceptances", quote_acceptances);
  ("solver_inventory_locks", solver_inventory_locks); ("fills", fills); ("settlements", settlements);
  ("cctp_exits", cctp_exits); ("state_transitions", state_transitions); ("root_audit_runs", root_audit_runs);
  ("root_audit_findings", root_audit_findings); ("users", users); ("user_profiles", user_profiles);
  ("auth_nonces", auth_nonces); ("user_wallets", user_wallets); ("user_sessions", user_sessions);
  ("encrypted_note_backups", encrypted_note_backups); ("user_activity", user_activity);
  ("note_vaults", note_vaults); ("note_vault_wrappers", note_vault_wrappers); ("mpc_sessions", mpc_sessions);
  ("mpc_intents", mpc_intents); ("mpc_intent_shares", mpc_intent_shares); ("mpc_batches", mpc_batches);
  ("mpc_batch_signatures", mpc_batch_signatures); ("mpc_committee_keys", mpc_committee_keys);
  ("anchor_quotes", anchor_quotes); ("anchor_payouts", anchor_payouts); ("view_key_reports", view_key_reports)].
Definition schemaOf (t : string) : option schema := JsMap.get migrations t.

Definition emptyDB (now : Z) : DB := mkDB ∅ (JobQueue.mkDB [] [] now) 0.
End Database.
