(* ===== verification/WellTyped.v ===== *)
(** * The type invariant of the database

    Every row has the columns of its table, every value the type of its
    column, required columns are not NULL, and no two rows agree on a unique
    group.  Each statement keeps the invariant; [keeps_types] carries it
    through a program. *)
From S2P Require Import Prelude JsText JsCollections Json JobQueue Database.
Import JsText Json Database.

Module WellTyped.

(** The values a column can hold: an [integer] of 32 bits, the text of a
    [bigint] of 64 bits, the text of an integer of at most 40 digits or [NaN]. *)
Definition integerText (p : Z -> bool) (s : string) : bool :=
  match parseDecimal s with Some z => p z && (s ==? toString z) | None => false end.
Definition hasType (t : colType) (v : json) : bool :=
  match t, v with
  | _, JNull | CText, JStr _ | CBool, JBool _ | CTime, JNum _ | CTime, JStr _ | CJson, _ => true
  | CInt, JNum z => int4 z
  | CBig, JStr s => integerText int8 s
  | CNum, JStr s => (s ==? "NaN") || integerText digits40 s
  | _, _ => false
  end.
Definition cellOk (c : column) (v : json) : bool := hasType (ctype c) v && negb (required c && isNull v).
Fixpoint rowOk (cs : list column) (r : Row) : bool :=
  match cs, r with
  | [], [] => true
  | c :: cs, (k, v) :: r => (k ==? col c) && cellOk c v && rowOk cs r
  | _, _ => false
  end.
(** Two rows agree on no unique group. *)
Definition apart (s : schema) (a b : Row) : Prop := forall g, g ∈ uniques s -> agree g a b = false.
Fixpoint pairwise (s : schema) (rows : list Row) : Prop :=
  match rows with
  | [] => True
  | r :: rows => (forall o, o ∈ rows -> apart s r o) /\ pairwise s rows
  end.
Definition tableOk (s : schema) (rows : list Row) : Prop := Forall (fun r => rowOk (columns s) r = true) rows /\ pairwise s rows.
Definition wellTyped (db : DB) : Prop := forall t s, schemaOf t = Some s -> tableOk s (table db t).

(** ** The schemas *)
Definition defaultOk (c : column) : bool :=
  match default c with
  | NoDefault => true
  | DNow => match ctype c with CTime => true | _ => false end
  | DUuid => match ctype c with CText => true | _ => false end
  | DVal j => hasType (ctype c) j
  end.
Definition lookupColumn (cs : list column) (k : string) : option column := find (fun c => col c ==? k) cs.
Definition schemaOk (s : schema) : bool := bool_decide (NoDup (map col (columns s))) && forallb defaultOk (columns s).
Lemma schemas_ok t s : schemaOf t = Some s -> schemaOk s = true.
Proof.
  intros Hs. apply (JsMap.get_elem migrations t s) in Hs.
  assert (forallb (fun kv => schemaOk kv.2) migrations = true) as Hall by (vm_compute; reflexivity).
  rewrite forallb_forall in Hall. apply (Hall (t, s)). by apply list_elem_of_In.
Qed.

Lemma integerText_toString p z : p z = true -> integerText p (toString z) = true.
Proof. intros Hp. unfold integerText. rewrite parseDecimal_toString, Hp. by apply bool_decide_eq_true. Qed.
Lemma checked_Some p o z : checked p o = Some z -> p z = true.
Proof. destruct o as [y|]; cbn; [|done]. destruct (p y) eqn:E; [|done]. by intros [= <-]. Qed.
Lemma coerce_hasType t j v : coerce t j = Some v -> hasType t v = true.
Proof.
  assert (forall p o (w : json), (fun z => JStr (toString z)) <$> checked p o = Some w -> exists z, w = JStr (toString z) /\ p z = true) as Ht.
  { intros p o w Hw. destruct (checked p o) as [z|] eqn:E; [|done]. injection Hw as <-. exists z. split; [done|by eapply checked_Some]. }
  assert (forall o (w : json), JNum <$> checked int4 o = Some w -> hasType CInt w = true) as Hi.
  { intros o w Hw. destruct (checked int4 o) as [z|] eqn:E; [|done]. injection Hw as <-. by eapply checked_Some. }
  destruct t, j as [| | | |[|x l]|]; cbn [coerce]; try discriminate; try (by intros [= <-]); try apply Hi;
    try (by destruct v); try (by destruct (Json.parse s); [intros [= <-]|]);
    try (intros (y & -> & Hy)%Ht; cbn [hasType]; rewrite integerText_toString by done; by rewrite ?orb_true_r).
  unfold numericText. case_bool_decide; [by intros [= <-]|]. case_bool_decide; [done|]. destruct (decimalNumber _); [done..|].
  intros (y & -> & Hy)%Ht. cbn [hasType]. by rewrite integerText_toString, orb_true_r.
Qed.
Lemma checkNull_ok c o v : (forall u, o = Some u -> hasType (ctype c) u = true) -> checkNull c o = Some v -> cellOk c v = true.
Proof.
  intros Ht. unfold checkNull, cellOk. destruct o as [[]|]; try done; try (intros [= <-]; rewrite Ht by done; by destruct (required c)).
  destruct (required c); [done|]. intros [= <-]. by destruct (ctype c).
Qed.
Lemma buildRow_ok `{Uuid} now n given cs r :
  forallb defaultOk cs = true -> buildRow now n given cs = Some r -> rowOk cs r = true.
Proof.
  revert r. induction cs as [|c cs IH]; intros r; cbn [forallb buildRow]; [by intros _ [= <-]|].
  rewrite andb_true_iff. intros [Hc Hcs]. destruct (columnValue now n given c) as [v|] eqn:Ev; [|done].
  destruct (buildRow now n given cs) as [r'|] eqn:Er; [|done]. intros [= <-]. cbn [rowOk].
  rewrite bool_decide_true, (IH r') by done. rewrite andb_true_r. simpl. unfold columnValue in Ev.
  eapply checkNull_ok; [|exact Ev]. destruct (JsMap.get given (col c)) as [j|]; [by intros u ?; eapply coerce_hasType|].
  intros u [= <-]. unfold defaultOk in Hc. unfold defaultValue. destruct (default c), (ctype c); done.
Qed.

(** ** Assignments *)
Lemma coerceSets_get s sets sets' k v :
  coerceSets s sets = Some sets' -> JsMap.get sets' k = Some v ->
  exists c, lookupColumn (columns s) k = Some c /\ cellOk c v = true.
Proof.
  revert sets'. induction sets as [|[k0 v0] sets IH]; intros sets'; cbn [coerceSets]; [by intros [= <-]|].
  destruct (find _ _) as [c|] eqn:Ef; [|done]. destruct (checkNull c _) as [v'|] eqn:Ev; [|done].
  destruct (coerceSets s sets) as [r|]; [|done]. intros [= <-]. simpl. case_bool_decide as Ek; [|by apply IH].
  subst. intros [= <-]. exists c. split; [done|]. eapply checkNull_ok; [|exact Ev]. intros u. apply coerce_hasType.
Qed.
Lemma coerceSets_keys s sets sets' : coerceSets s sets = Some sets' -> sets'.*1 = sets.*1.
Proof.
  revert sets'. induction sets as [|[k0 v0] sets IH]; intros sets'; cbn [coerceSets]; [by intros [= <-]|].
  repeat (case_match; try done). intros [= <-]. rewrite !fmap_cons. simpl. f_equal. by apply IH.
Qed.
Lemma lookupColumn_nodup cs c : NoDup (map col cs) -> c ∈ cs -> lookupColumn cs (col c) = Some c.
Proof.
  unfold lookupColumn. induction cs as [|d cs IH]; [by rewrite elem_of_nil|]. cbn [map find]. intros [Hd Hn]%NoDup_cons.
  rewrite elem_of_cons. intros [->|Hc]; [by rewrite bool_decide_true|].
  rewrite bool_decide_false; [by apply IH|]. intros E. apply Hd. rewrite E. by apply list_elem_of_fmap_2.
Qed.
Lemma rowOk_assign s sets sets' r :
  schemaOk s = true -> coerceSets s sets = Some sets' -> rowOk (columns s) r = true -> rowOk (columns s) (assignRow sets' r) = true.
Proof.
  intros [Hn _]%andb_true_iff Hc. apply bool_decide_eq_true in Hn.
  assert (forall cs r, (forall c, c ∈ cs -> c ∈ columns s) -> rowOk cs r = true -> rowOk cs (assignRow sets' r) = true) as Hgen;
    [|by apply Hgen].
  clear r. induction cs as [|c cs IH]; intros [|[k v] r] Hin; cbn [rowOk assignRow map]; try done.
  rewrite !andb_true_iff, !bool_decide_eq_true. intros [[-> Hv] Hr].
  split; [split; [done|]|apply IH; [intros; apply Hin; by right|done]].
  simpl. destruct (JsMap.get sets' (col c)) as [v'|] eqn:Eg; [|done]. simpl.
  destruct (coerceSets_get s sets sets' (col c) v' Hc Eg) as (c' & Hl & Hv').
  rewrite lookupColumn_nodup in Hl by (done || (apply Hin; left)). by injection Hl as ->.
Qed.
(** Assignments that name no unique column. *)
Definition freeSets (s : schema) (sets : Row) : bool :=
  forallb (fun k => negb (existsb (fun g => bool_decide (k ∈ g)) (uniques s))) sets.*1.
Lemma freeSets_get s sets g c : freeSets s sets = true -> g ∈ uniques s -> c ∈ g -> JsMap.get sets c = None.
Proof.
  intros Hf Hg Hc. apply JsMap.get_None. intros Hin. unfold freeSets in Hf. rewrite forallb_forall in Hf.
  specialize (Hf c (proj1 (list_elem_of_In _ _) Hin)). rewrite negb_true_iff in Hf. apply not_true_iff_false in Hf as [].
  apply existsb_exists. exists g. split; [by apply list_elem_of_In|by apply bool_decide_eq_true].
Qed.
Lemma get_assign_other sets r c : JsMap.get sets c = None -> get (assignRow sets r) c = get r c.
Proof. intros E. unfold get. rewrite get_assignRow, E. by destruct (JsMap.get r c). Qed.
Lemma agree_assign s sets g a b : freeSets s sets = true -> g ∈ uniques s ->
  agree g (assignRow sets a) b = agree g a b /\ agree g a (assignRow sets b) = agree g a b.
Proof.
  intros Hf Hg. unfold agree. assert (forall c, c ∈ g -> JsMap.get sets c = None) as Hc by (intros; by eapply freeSets_get).
  clear Hg. induction g as [|c g IH]; [done|]. cbn [forallb]. rewrite !get_assign_other by (apply Hc; left).
  destruct IH as [-> ->]; [intros; apply Hc; by right|done].
Qed.
Lemma pairwise_update s p sets rows :
  freeSets s sets = true -> pairwise s rows -> pairwise s (updateWhere p (assignRow sets) rows).
Proof.
  intros Hf. induction rows as [|r rows IH]; [done|]. intros [Hr Hrows]. split; [|by apply IH].
  intros o (x & Hx & ->)%elem_of_updateWhere g Hg. specialize (Hr x Hx g Hg).
  destruct (p r), (p x); rewrite ?(proj1 (agree_assign s sets g r _ Hf Hg)), ?(proj2 (agree_assign s sets g r x Hf Hg)); done.
Qed.
Lemma pairwise_select s p rows : pairwise s rows -> pairwise s (selectWhere p rows).
Proof.
  unfold selectWhere. induction rows as [|r rows IH]; [done|]. intros [Hr Hrows]. rewrite filter_cons. case_decide; [|by apply IH].
  split; [|by apply IH]. intros o [_ Ho]%list_elem_of_filter. by apply Hr.
Qed.
Lemma agree_sym g a b : agree g a b = true -> agree g b a = true.
Proof.
  unfold agree. rewrite !forallb_forall. intros Hab c Hc. specialize (Hab c Hc).
  rewrite andb_true_iff, bool_decide_eq_true in *. destruct Hab as [Hn E]. by rewrite <- E.
Qed.
Lemma pairwise_snoc s rows r :
  pairwise s rows -> (forall o, o ∈ rows -> apart s o r) -> pairwise s (rows ++ [r]).
Proof.
  induction rows as [|x rows IH]; intros Hp Hr; [split; [by intros ? ?%elem_of_nil|done]|]. destruct Hp as [Hx Hp].
  split; [|apply IH; [done|intros; apply Hr; by right]].
  intros o [Ho|Ho%list_elem_of_singleton]%elem_of_app; [by apply Hx|]. subst. apply Hr. left.
Qed.

(** ** The statements *)
Lemma wf_setTable t rows db :
  wellTyped db -> (forall s, schemaOf t = Some s -> tableOk s rows) -> wellTyped (setTable t rows db).
Proof. intros Hdb Hrows t' s Hs. rewrite table_setTable. case_bool_decide; [subst; by apply Hrows|by apply Hdb]. Qed.
Lemma wf_update t s p sets :
  schemaOf t = Some s -> freeSets s sets = true -> preserves wellTyped (update schemaOf t p sets).
Proof.
  intros Hs Hf db Hdb. unfold update. rewrite Hs. destruct (coerceSets s sets) as [sets'|] eqn:Ec; [|done].
  cbv zeta. case_match; [|done]. apply wf_setTable; [done|]. intros s' Hs'. rewrite Hs in Hs'. injection Hs' as <-.
  destruct (Hdb t s Hs) as [Hrows Hp]. split.
  - apply Forall_updateWhere; [done|]. intros r _ Hr _. eapply rowOk_assign; [by eapply schemas_ok|done|done].
  - apply pairwise_update; [|done]. unfold freeSets. by rewrite (coerceSets_keys s sets sets' Ec).
Qed.
Lemma wf_addRow s t r : schemaOf t = Some s -> rowOk (columns s) r = true -> preserves wellTyped (addRow s t r).
Proof.
  intros Hs Hr db Hdb. unfold addRow. destruct (existsb _ _) eqn:Ex; [done|]. case_match; [|done].
  apply wf_setTable; [done|]. intros s' Hs'. rewrite Hs in Hs'. injection Hs' as <-. destruct (Hdb t s Hs) as [Hrows Hp]. split.
  - apply Forall_app. split; [done|]. by constructor.
  - apply pairwise_snoc; [done|]. intros o Ho g Hg. apply not_true_iff_false. intros Ha%agree_sym.
    apply not_true_iff_false in Ex as []. apply existsb_exists. exists o. split; [by apply list_elem_of_In|].
    apply existsb_exists. exists g. split; [by apply list_elem_of_In|done].
Qed.
Definition freeConflict (s : schema) (oc : onConflict) : Prop :=
  match oc with DoUpdate _ assign => forall r, freeSets s (assign r) = true | _ => True end.
Lemma wf_insert `{Uuid} t s given oc :
  schemaOf t = Some s -> freeConflict s oc -> preserves wellTyped (insert schemaOf t given oc).
Proof.
  intros Hs Hoc db Hdb. unfold insert. rewrite Hs. case_match; [done|]. destruct (buildRow _ _ _ _) as [r|] eqn:Eb; [|done].
  apply buildRow_ok in Eb; [|apply schemas_ok in Hs; by apply andb_true_iff in Hs as [_ ?]].
  assert (wellTyped (mkDB (tables db) (queueDB db) (ticks db + 1))) as Hdb' by exact Hdb.
  cbv zeta. destruct oc as [|target|g assign]; [by apply wf_addRow| |].
  - case_match; [done|]. by apply wf_addRow.
  - case_match; [|by apply wf_addRow]. eapply wf_update; [done|apply Hoc|done].
Qed.
Lemma wf_delete t p : preserves wellTyped (delete schemaOf t p).
Proof.
  intros db Hdb. unfold delete. case_match; [|done]. apply wf_setTable; [done|]. intros s1 Hs. destruct (Hdb t s1 Hs) as [Hrows Hp].
  split; [|by apply pairwise_select]. rewrite Forall_forall in *. intros x [Hx _]%elem_of_deleteWhere. by apply Hrows.
Qed.
Lemma wellTyped_empty now : wellTyped (emptyDB now).
Proof. intros t s _. by split; [constructor|]. Qed.

(** Carry the invariant through a program: its statements name their table
    and assign no unique column. *)
Ltac keeps_types :=
  repeat first
    [ apply preserves_bind; [|intros ?] | apply preserves_ret | apply preserves_throw | apply preserves_lift
    | apply preserves_select | apply preserves_dateNow | apply preserves_guard
    | apply preserves_tick; by intros
    | apply preserves_catch; [|intros ?] | apply preserves_foreach; intros ?
    | eapply wf_insert; [reflexivity|first [exact I | intros ?; reflexivity]]
    | eapply wf_update; [reflexivity|reflexivity] | apply wf_delete
    | progress case_match ].
End WellTyped.
