(* ===== verification/Records.v ===== *)
(** * What a statement may do to the records

    The columns the API assigns after a row is inserted, and the tables it
    deletes from; everything else, once written, stays: rows keep their place
    and their other columns, and new rows come after them.  [RowInvariant], and
    with the queue [DbInvariant], are what a property of the database has to
    show of single statements for every program made of them to keep it; the
    types of [WellTyped] and the records kept since an earlier state are such
    properties. *)
From S2P Require Import Prelude JsText JsCollections Json JobQueue Database WellTyped.
Import JsText Json Database WellTyped.

Module Records.

(** ** The columns that are assigned *)
Definition rewritable : list (string * list string) := [
  ("cctp_deposits", ["source_tx_hash"; "state"; "updated_at"]);
  ("settlements", ["user_id"]);
  ("intents", ["mpc_session_id"]);
  ("fills", ["destination_tx_hash"; "state"]);
  ("mpc_intents", ["session_id"; "updated_at"]);
  ("users", ["display_name"; "email"; "avatar_url"; "last_login_at"; "updated_at"]);
  ("user_profiles", ["preferences"; "updated_at"]);
  ("auth_nonces", ["consumed_at"]);
  ("user_sessions", ["revoked_at"]);
  ("encrypted_note_backups", ["encrypted_payload"]);
  ("note_vaults", ["envelope"; "ciphertext"; "aad"; "backup_status"; "recovery_policy_status"; "last_backup_verified_at";
                   "last_backup_verification"; "last_restored_at"; "updated_at"])].
Definition erasable : list string := ["user_wallets"; "note_vault_wrappers"].
Definition rewritten (t : string) : list string := orElse (JsMap.get rewritable t) [].
Definition within (t : string) (sets : Row) : bool :=
  bool_decide (t ∈ erasable) || forallb (fun k => bool_decide (k ∈ rewritten t)) sets.*1.
Definition withinConflict (t : string) (oc : onConflict) : Prop :=
  match oc with DoUpdate _ assign => forall r, within t (assign r) = true | _ => True end.
(** A job that is not a user's burn for the relayer. *)
Definition userBurn : string := "CCTP_INBOUND_AFTER_USER_BURN".
Definition otherJob (q : JobQueue.QueueName) (jobType : string) : bool :=
  match q with JobQueue.relayer => negb (jobType ==? userBurn) | JobQueue.prover => true end.

(** ** Properties that statements keep *)
Class RowInvariant `{Uuid} (I : DB -> Prop) : Prop := {
  inv_update t s p sets : schemaOf t = Some s -> freeSets s sets = true -> within t sets = true ->
    preserves I (update schemaOf t p sets);
  inv_insert t s given oc : schemaOf t = Some s -> freeConflict s oc -> withinConflict t oc ->
    preserves I (insert schemaOf t given oc);
  inv_delete t p : bool_decide (t ∈ erasable) = true -> preserves I (delete schemaOf t p);
  inv_ticks d n : I d -> I (mkDB (tables d) (queueDB d) n) }.
(** And what enqueueing may, but for a user's burn. *)
Class DbInvariant `{Uuid} (I : DB -> Prop) : Prop := {
  inv_rows :: RowInvariant I;
  inv_enqueue uuid q jt pl key : otherJob q jt = true -> preserves I (onQueue (JobQueue.enqueue uuid q jt pl key)) }.

Section Programs.
Context `{Uuid} {I : DB -> Prop} {inv : RowInvariant I}.
Lemma inv_tick : preserves I tick.
Proof. intros d Hd. by apply inv_ticks. Qed.
Lemma inv_read {A} (m : M JobQueue.DB A) : (forall q, (m q).2 = q) -> preserves I (onQueue m).
Proof.
  intros Hm d Hd. unfold onQueue. specialize (Hm (queueDB d)). destruct (m (queueDB d)) as [r q]. simpl in *. subst q.
  by apply inv_ticks.
Qed.
End Programs.
(** Carry a property through a program: its statements name their table and
    assign columns that may be. *)
Ltac keeps_inv :=
  repeat first
    [ apply preserves_bind; [|intros ?] | apply preserves_ret | apply preserves_throw | apply preserves_lift
    | apply preserves_select | apply preserves_dateNow | apply preserves_guard | apply inv_tick
    | apply preserves_catch; [|intros ?] | apply preserves_foreach; intros ?
    | eapply inv_insert; [reflexivity|first [exact Logic.I | intros ?; reflexivity]|first [exact Logic.I | intros ?; reflexivity]]
    | eapply inv_update; [reflexivity|reflexivity|reflexivity] | eapply inv_delete; reflexivity
    | progress case_match ].

#[export] Instance and_invariant `{Uuid} (I J : DB -> Prop) {invI : DbInvariant I} {invJ : DbInvariant J} : DbInvariant (fun d => I d /\ J d).
Proof.
  assert (forall A (m : M DB A), preserves I m -> preserves J m -> preserves (fun d => I d /\ J d) m) as Hand
    by (intros A m Hi Hj d [Hd1 Hd2]; by split; [apply Hi|apply Hj]).
  split; [split|].
  - intros t s p sets Hs Hf Hw. by apply Hand; eapply inv_update.
  - intros t s given oc Hs Hf Hw. by apply Hand; eapply inv_insert.
  - intros t p Ht. by apply Hand; apply inv_delete.
  - intros d n [Hd1 Hd2]. by split; apply inv_ticks.
  - intros uuid q jt pl key Ho. by apply Hand; apply inv_enqueue.
Qed.

(** ** The types *)
#[export] Instance typed_invariant `{Uuid} : DbInvariant wellTyped.
Proof.
  split; [split|].
  - intros t s p sets Hs Hf _. by eapply wf_update.
  - intros t s given oc Hs Hf _. by eapply wf_insert.
  - intros t p _. apply wf_delete.
  - intros d n Hd. exact Hd.
  - intros uuid q jt pl key _ d Hd. unfold onQueue. by destruct (JobQueue.enqueue uuid q jt pl key (queueDB d)).
Qed.

(** ** The records *)
Definition sameBut (cols : list string) (r r' : Row) : Prop := forall c, c ∉ cols -> get r' c = get r c.
Definition continues (t : string) (rows rows' : list Row) : Prop :=
  exists l new, rows' = l ++ new /\ Forall2 (sameBut (rewritten t)) rows l.
Definition kept (d0 d : DB) : Prop := forall t, t ∉ erasable -> continues t (table d0 t) (table d t).

#[export] Instance sameBut_preorder cols : PreOrder (sameBut cols).
Proof. split; [by intros r c|intros a b c Hab Hbc k Hk; by rewrite (Hbc k Hk), (Hab k Hk)]. Qed.
Lemma continues_refl t rows : continues t rows rows.
Proof. exists rows, []. rewrite app_nil_r. by split. Qed.
Lemma continues_trans t a b c : continues t a b -> continues t b c -> continues t a c.
Proof.
  intros (l1 & n1 & -> & H1') (l2 & n2 & -> & H2'). apply Forall2_app_inv_l in H2' as (k1 & k2 & Hk1 & Hk2 & ->).
  exists k1, (k2 ++ n2). rewrite (assoc_L (++)). split; [done|]. by etrans.
Qed.
Lemma continues_snoc t rows r : continues t rows (rows ++ [r]).
Proof. exists rows, [r]. by split. Qed.
Lemma continues_assign t p sets rows : forallb (fun k => bool_decide (k ∈ rewritten t)) sets.*1 = true ->
  continues t rows (updateWhere p (assignRow sets) rows).
Proof.
  intros Hs. exists (updateWhere p (assignRow sets) rows), []. rewrite app_nil_r. split; [done|].
  unfold updateWhere. induction rows as [|r rows IH]; constructor; [|exact IH]. destruct (p r); [|done].
  intros c Hc. apply get_assign_other, JsMap.get_None. intros Hin. rewrite forallb_forall in Hs.
  by apply Hc, (bool_decide_eq_true_1 _ (Hs c (proj1 (list_elem_of_In _ _) Hin))).
Qed.
#[export] Instance kept_preorder : PreOrder kept.
Proof.
  split; [intros d t _; apply continues_refl|]. intros a b c Hab Hbc t Ht. eapply continues_trans; [by apply Hab|by apply Hbc].
Qed.
(** A row of an earlier state, as it is now. *)
Lemma kept_row d0 d t r : kept d0 d -> t ∉ erasable -> r ∈ table d0 t -> exists r', r' ∈ table d t /\ sameBut (rewritten t) r r'.
Proof.
  intros Hk Ht Hr. destruct (Hk t Ht) as (l & new & E & Hl). apply list_elem_of_lookup in Hr as [i Hi].
  destruct (Forall2_lookup_l _ _ _ _ _ Hl Hi) as (r' & Hr' & Hs). exists r'. split; [|done]. rewrite E. apply elem_of_app. left.
  by eapply list_elem_of_lookup_2.
Qed.
(** The first row that a predicate on unwritten columns selects is the same
    row later. *)
Lemma head_continues t (p : Row -> bool) rows rows' r :
  continues t rows rows' -> (forall a b, sameBut (rewritten t) a b -> p b = p a) -> head (selectWhere p rows) = Some r ->
  exists r', head (selectWhere p rows') = Some r' /\ sameBut (rewritten t) r r' /\ r' ∈ rows'.
Proof.
  intros (l & new & -> & Hl) Hp. induction Hl as [|a b rows l Hab Hl IH]; [done|]. unfold selectWhere in *. cbn [app]. rewrite !filter_cons, (Hp a b Hab).
  destruct (decide (Is_true (p a))).
  - intros [= ->]. exists b. split; [done|]. split; [done|left].
  - intros (r' & Hh & Hs & Hin)%IH. exists r'. split; [done|]. split; [done|by right].
Qed.
(** A statement that replaces one table, and keeps what is in it. *)
Lemma kept_setTable d0 d t rows : kept d0 d -> (t ∉ erasable -> continues t (table d t) rows) -> kept d0 (setTable t rows d).
Proof.
  intros Hk Hc t' Ht'. rewrite table_setTable. case_bool_decide as E; [|by apply Hk]. subst t'.
  eapply continues_trans; [by apply Hk|by apply Hc].
Qed.
Lemma kept_addRow d0 s t r : preserves (kept d0) (addRow s t r).
Proof.
  intros d Hd. unfold addRow. destruct (existsb _ _); [done|]. case_match; [|done]. apply kept_setTable; [done|].
  intros _. apply continues_snoc.
Qed.
Lemma kept_update d0 t s p sets : schemaOf t = Some s -> within t sets = true -> preserves (kept d0) (update schemaOf t p sets).
Proof.
  intros Hs Hw d Hd. unfold update. rewrite Hs. destruct (coerceSets s sets) as [sets'|] eqn:Ec; [|done]. cbv zeta. case_match; [|done].
  apply kept_setTable; [done|]. intros Ht. apply continues_assign. rewrite (coerceSets_keys s sets sets' Ec).
  unfold within in Hw. by rewrite bool_decide_false in Hw.
Qed.
#[export] Instance kept_invariant `{Uuid} d0 : DbInvariant (kept d0).
Proof.
  split; [split|].
  - intros t s p sets Hs _ Hw. by eapply kept_update.
  - intros t s given oc Hs _ Hw d Hd. unfold insert. rewrite Hs. case_match; [done|]. destruct (buildRow _ _ _ _) as [r|]; [|done].
    assert (kept d0 (mkDB (tables d) (queueDB d) (ticks d + 1))) as Hd' by exact Hd.
    cbv zeta. destruct oc as [|target|g assign]; [by apply kept_addRow|case_match; [done|by apply kept_addRow]|].
    case_match; [eapply kept_update; [done|apply Hw|done]|by apply kept_addRow].
  - intros t p Ht d Hd. unfold delete. case_match; [|done]. apply kept_setTable; [done|]. intros Hn.
    by apply bool_decide_eq_true in Ht.
  - intros d n Hd. exact Hd.
  - intros uuid q jt pl key _ d Hd. unfold onQueue. by destruct (JobQueue.enqueue uuid q jt pl key (queueDB d)).
Qed.

(** ** Properties of the records and the queue

    A property that survives any continuation of the records, with the queue
    as it was, is kept by the statements; what is left to show of it is what a
    new job does. *)
Lemma queue_update t p sets q : preserves (fun d => queueDB d = q) (update schemaOf t p sets).
Proof. intros d Hd. unfold update. by repeat (case_match; try done). Qed.
Lemma queue_addRow s t r q : preserves (fun d => queueDB d = q) (addRow s t r).
Proof. intros d Hd. unfold addRow. by repeat (case_match; try done). Qed.
Lemma queue_insert `{Uuid} t given oc q : preserves (fun d => queueDB d = q) (insert schemaOf t given oc).
Proof.
  intros d Hd. unfold insert. case_match; [|done]. case_match; [done|]. case_match; [|done].
  assert (queueDB (mkDB (tables d) (queueDB d) (ticks d + 1)) = q) as Hd' by done.
  destruct oc; repeat case_match; try done; first [by apply queue_addRow|by apply queue_update].
Qed.
Lemma queue_delete t p q : preserves (fun d => queueDB d = q) (delete schemaOf t p).
Proof. intros d Hd. unfold delete. by case_match. Qed.
Lemma monotone_invariant `{Uuid} (J : DB -> Prop) :
  (forall d d', kept d d' -> queueDB d' = queueDB d -> J d -> J d') ->
  (forall uuid q jt pl key, otherJob q jt = true -> preserves J (onQueue (JobQueue.enqueue uuid q jt pl key))) -> DbInvariant J.
Proof.
  intros Hj He. split; [split|exact He].
  - intros t s p sets Hs Hf Hw d Hd. eapply Hj; [|by apply queue_update|exact Hd]. by eapply (inv_update (I := kept d)).
  - intros t s given oc Hs Hf Hw d Hd. eapply Hj; [|by apply queue_insert|exact Hd]. by eapply (inv_insert (I := kept d)).
  - intros t p Ht d Hd. eapply Hj; [|by apply queue_delete|exact Hd]. by eapply (inv_delete (I := kept d)).
  - intros d n Hd. apply (Hj d); [by intros t _; apply continues_refl|done|exact Hd].
Qed.
#[export] Instance queue_invariant `{Uuid} q : RowInvariant (fun d => queueDB d = q).
Proof. split; intros; [apply queue_update|apply queue_insert|apply queue_delete|done]. Qed.
End Records.
