(* ===== verification/Runtime.v ===== *)
(** * The services' surroundings

    What the services read from outside their code, as class parameters: the
    environment variables, random bytes, AES-256-GCM and HTTP calls to other
    services; and the requests and replies of a Fastify handler. *)
From S2P Require Import Prelude JsText JsCollections Json Jsonb Crypto Database.
From Stdlib Require Import Ascii.
Import JsText Json Crypto Database.

Module Runtime.

(** [process.env.NAME]. *)
Class Env := env : string -> option string.
(** [randomBytes(n)], the [k]-th draw. *)
Class Random := randomBytes : Z -> nat -> bytes.
Class RandomLaws `{Random} : Prop := randomBytes_length k n : String.length (randomBytes k n) = n.

(** AES-256-GCM under a 32-byte key: the ciphertext and the 16-byte tag of a
    plaintext, and its checked inverse; [aad] is the additional data. *)
Class Aes := {
  aesSeal : bytes -> bytes -> bytes -> bytes -> bytes * bytes;
  aesOpen : bytes -> bytes -> bytes -> bytes -> bytes -> option bytes
}.
Class AesLaws `{Aes} : Prop := {
  aes_open key iv aad m : aesOpen key iv aad (aesSeal key iv aad m).1 (aesSeal key iv aad m).2 = Some m;
  aes_tag key iv aad m : String.length (aesSeal key iv aad m).2 = 16%nat
}.

(** Key pairs of [nacl.box.keyPair()] and [nacl.sign.keyPair()]: public and
    secret key of the [k]-th draw. *)
Class KeyGen := { genBox : Z -> bytes * bytes; genSign : Z -> bytes * bytes }.

(** The Stellar SDK's [Keypair]: the raw ed25519 public key of a secret seed
    ([Keypair.fromSecret], which throws on a malformed seed), [sign], and
    [Keypair.fromPublicKey(StrKey.encodeEd25519PublicKey(pk)).verify]. *)
Class Keypair := {
  fromSecret : string -> result bytes;
  keySign : string -> bytes -> bytes;
  keyVerify : bytes -> bytes -> bytes -> result bool }.
Class KeypairLaws `{Keypair} : Prop :=
  key_verify secret pk m : fromSecret secret = Ok pk -> keyVerify pk m (keySign secret m) = Ok true.

(** [fetch(url, { method, body })], the [k]-th call: an answer with its status
    and JSON body, or a network error. *)
Class Fetch := fetch : Z -> string -> string -> json -> result (Z * json).
Definition respOk (status : Z) : bool := (200 <=? status) && (status <? 300).

(** ** Concrete instances for the witnesses *)
Module ToyRuntime.
Definition toy_random : Random := fun k n => repeatString n (chr (Z.to_N (k mod 256))).
Lemma repeatString_length n c : String.length (repeatString n c) = n.
Proof. induction n as [|n IH]; [done|]. simpl. by rewrite IH. Qed.
Lemma toy_random_laws : @RandomLaws toy_random.
Proof. intros k n. apply repeatString_length. Qed.
(** The "ciphertext" is the key followed by the plaintext. *)
Fixpoint dropPrefix (p s : string) : option string :=
  match p, s with
  | EmptyString, _ => Some s
  | String a p', String b s' => if a ==? b then dropPrefix p' s' else None
  | _, _ => None
  end.
Lemma dropPrefix_append p s : dropPrefix p (p +:+ s) = Some s.
Proof. induction p as [|c p IH]; [done|]. rewrite append_cons. simpl. by rewrite bool_decide_true. Qed.
Definition toy_aes : Aes := {|
  aesSeal key iv aad m := (key +:+ aad +:+ m, repeatString 16 "t"%char);
  aesOpen key iv aad ct tag :=
    if tag ==? repeatString 16 "t"%char then dropPrefix (key +:+ aad) ct else None |}.
Lemma toy_aes_laws : @AesLaws toy_aes.
Proof.
  split; [|done]. intros key iv aad m. simpl. rewrite <- append_assoc. apply dropPrefix_append.
Qed.
Definition toy_keygen : KeyGen := {|
  genBox k := ("pk" +:+ toString k, "sk" +:+ toString k);
  genSign k := ("spk" +:+ toString k, "ssk" +:+ toString k) |}.
Definition toy_keypair : Keypair := {|
  fromSecret s := Ok s; keySign s m := m +:+ s; keyVerify pk m sig := Ok (sig ==? m +:+ pk) |}.
Lemma toy_keypair_laws : @KeypairLaws toy_keypair.
Proof. intros s pk m [= <-]. simpl. by rewrite bool_decide_true. Qed.
End ToyRuntime.

(** ** Dates
    [new Date(ms).toISOString()] for the years 0 to 9999: the day number is
    split into eras of 400 years that start on a 1 March. *)
Definition pad0 (n : nat) (z : Z) : string := padStart n "0"%char (toString z).
Definition dayOfEra (days : Z) : Z := (days + 719468) mod 146097.
Definition yearOfEra (doe : Z) : Z := (doe - doe / 1460 + doe / 36524 - doe / 146096) / 365.
Definition dayOfYear (doe : Z) : Z := doe - (365 * yearOfEra doe + yearOfEra doe / 4 - yearOfEra doe / 100).
Definition dateText (days : Z) : string :=
  let doe := dayOfEra days in
  let mp := (5 * dayOfYear doe + 2) / 153 in
  let d := dayOfYear doe - (153 * mp + 2) / 5 + 1 in
  let m := if mp <? 10 then mp + 3 else mp - 9 in
  let y := yearOfEra doe + (days + 719468) / 146097 * 400 + (if m <=? 2 then 1 else 0) in
  pad0 4 y +:+ "-" +:+ pad0 2 m +:+ "-" +:+ pad0 2 d.
Definition toISOString (ms : Z) : string :=
  let s := ms / 1000 in
  dateText (s / 86400) +:+ "T" +:+ pad0 2 (s mod 86400 / 3600) +:+ ":" +:+ pad0 2 (s mod 3600 / 60) +:+ ":"
  +:+ pad0 2 (s mod 60) +:+ "." +:+ pad0 3 (ms mod 1000) +:+ "Z".
Example toISOString_leap : toISOString 951782400123 = "2000-02-29T00:00:00.123Z".
Proof. reflexivity. Qed.
Example toISOString_2026 : toISOString 1767225599000 = "2025-12-31T23:59:59.000Z".
Proof. reflexivity. Qed.

(** ** HTTP *)
Record Request := mkRequest {
  headers : list (string * string); (* names in lower case *)
  params : list (string * string);
  query : list (string * string);
  body : json }.
Record Response := mkResponse { code : Z; cookie : option string; content : json }.
Definition reply (j : json) : Response := mkResponse 200 None j.
Definition replyCode (c : Z) (j : json) : Response := mkResponse c None j.
Definition header (r : Request) (h : string) : option string := JsMap.get (headers r) h.
Definition param (r : Request) (p : string) : string := orElse (JsMap.get (params r) p) "".

(** [x.f] on a JSON value: [undefined] and [null] both read as [JNull]. *)
Definition field (j : json) (f : string) : json :=
  match j with JObj kvs => orElse (JsMap.get kvs f) JNull | _ => JNull end.
Lemma field_store j f : field (Jsonb.store j) f = Jsonb.store (field j f).
Proof.
  destruct j as [| | | | |kvs]; try done. simpl. pose proof (Jsonb.get_store kvs f) as E. unfold Jsonb.storeMembers in E.
  rewrite E. by destruct (JsMap.get kvs f).
Qed.
Definition strField (j : json) (f : string) : string := textOf (field j f).
Lemma strField_store j f : strField (Jsonb.store j) f = strField j f.
Proof. unfold strField. rewrite field_store. by destruct (field j f). Qed.
Definition err (msg : string) : json := JObj [("error", JStr msg)].
Definition strOrNull (o : option string) : json := match o with Some s => JStr s | None => JNull end.
(** [x ?? d]. *)
Definition nullish (j d : json) : json := match j with JNull => d | _ => j end.
End Runtime.
