(* ===== verification/Host.v ===== *)
(** * The machine the workers run on

    Files, child processes and paths, as the workers and the proof builders
    use them: [readFileSync] and friends on a store of files, [execFileSync]
    and [spawnSync] as a class parameter (the [k]-th process may rewrite the
    files), and [path.resolve] on POSIX paths. *)
From S2P Require Import Prelude JsText JsCollections Json Crypto Runtime.
From Stdlib Require Import Ascii.
Import JsText Json Crypto Runtime.

Module Host.

(** [tick] counts the calls out of the process: child processes, random draws
    and network requests are indexed by it. *)
Record Host := mkHost { files : gmap string string; tick : Z }.
Record Exit := mkExit { exit_status : option Z; exit_stdout : string; exit_stderr : string }.

(** [process.cwd()]; [execFileSync(cmd, args)], which throws unless the child
    exits with 0; [spawnSync(cmd, args, { env: { PATH } })]; [Date.now()]. *)
Class Os := {
  cwd : string;
  execFile : Z -> string -> list string -> gmap string string -> result string * gmap string string;
  spawn : Z -> string -> list string -> string -> Exit;
  clock : Z -> Z }.

(** ** Paths *)
Fixpoint normalizeGo (acc : list string) (parts : list string) : list string :=
  match parts with
  | [] => rev acc
  | p :: ps =>
      if (p ==? "") || (p ==? ".") then normalizeGo acc ps
      else if p ==? ".." then normalizeGo (tail acc) ps
      else normalizeGo (p :: acc) ps
  end.
Definition normalize (p : string) : string := "/" +:+ join "/" (normalizeGo [] (splitOn "/"%char p)).
(** [resolve(a, b)]. *)
Definition resolve `{Os} (a b : string) : string :=
  if startsWith b "/" then normalize b
  else if startsWith a "/" then normalize (a +:+ "/" +:+ b)
  else normalize (cwd +:+ "/" +:+ a +:+ "/" +:+ b).
Definition toyOs : Os := {| cwd := "/srv/shade/apps/relayer"; execFile k c a fs := (Ok "", fs); spawn k c a p := mkExit (Some 0) "" "";
  clock k := k |}.
Example resolve_up : @resolve toyOs "/srv/shade/apps/relayer" "../.." = "/srv/shade".
Proof. reflexivity. Qed.
Example resolve_relative : @resolve toyOs ".scratch" "a.json" = "/srv/shade/apps/relayer/.scratch/a.json".
Proof. reflexivity. Qed.

(** [value || default] on an environment variable, and [value ?? default]. *)
Definition envOr `{Env} (name default : string) : string := orElse (truthyOpt (env name)) default.
Definition envNullish `{Env} (name default : string) : string := orElse (env name) default.

(** ** Files and processes *)
Definition nextTick : M Host Z := fun h => (Ok (tick h), mkHost (files h) (tick h + 1)).
(** [calls n]: the next [n] calls out of the process. *)
Definition calls (n : Z) : M Host Z := fun h => (Ok (tick h), mkHost (files h) (tick h + n)).
Definition readFileSync (path : string) : M Host string := fun h =>
  match files h !! path with
  | Some s => (Ok s, h)
  | None => (Throw (Error None ("ENOENT: no such file or directory, open '" +:+ path +:+ "'")), h)
  end.
Definition writeFileSync (path content : string) : M Host unit := fun h =>
  (Ok tt, mkHost (<[path := content]> (files h)) (tick h)).
(** [rmSync(path, { force: true })]. *)
Definition rmSync (path : string) : M Host unit := fun h => (Ok tt, mkHost (delete path (files h)) (tick h)).
Definition existsSync (path : string) : M Host bool := fun h => (Ok (bool_decide (is_Some (files h !! path))), h).
Definition parseJson (s : string) : result json :=
  match parse s with Some j => Ok j | None => Throw (Error None "SyntaxError: Unexpected token in JSON") end.
Definition readJson (path : string) : M Host json := s ← readFileSync path; liftR (parseJson s).
Definition execFileSync `{Os} (cmd : string) (args : list string) : M Host string := fun h =>
  let r := execFile (tick h) cmd args (files h) in (r.1, mkHost r.2 (tick h + 1)).
Definition spawnSync `{Os} (cmd : string) (args : list string) (path : string) : M Host Exit := fun h =>
  (Ok (spawn (tick h) cmd args path), mkHost (files h) (tick h + 1)).
Definition draw `{Random} (n : nat) : M Host bytes := k ← nextTick; mret (randomBytes k n).
Definition dateNow `{Os} : M Host Z := fun h => (Ok (clock (tick h)), mkHost (files h) (tick h + 1)).

(** The count of the calls only grows. *)
Definition since (k : Z) (h : Host) : Prop := k <= tick h.
Lemma since_readFile k p : preserves (since k) (readFileSync p).
Proof. intros h Hh. unfold readFileSync. by destruct (files h !! p). Qed.
Lemma since_writeFile k p c : preserves (since k) (writeFileSync p c).
Proof. by intros h Hh. Qed.
Lemma since_execFile `{Os} k cmd args : preserves (since k) (execFileSync cmd args).
Proof. intros h Hh. unfold since in *. cbn. lia. Qed.
Lemma since_spawn `{Os} k cmd args path : preserves (since k) (spawnSync cmd args path).
Proof. intros h Hh. unfold since in *. cbn. lia. Qed.
Lemma since_nextTick k : preserves (since k) nextTick.
Proof. intros h Hh. unfold since in *. cbn. lia. Qed.
Create HintDb ticks.
#[export] Hint Resolve since_readFile since_writeFile since_execFile since_spawn since_nextTick : ticks.
Lemma since_readJson k p : preserves (since k) (readJson p).
Proof. unfold readJson. auto with preserve ticks. Qed.
#[export] Hint Resolve since_readJson : ticks.

(** ** Time that passes while the program waits

    [call] numbers the calls out of the process, as [tick] does, and [paused]
    is the time spent in [setTimeout]: [Date.now()] is the machine's clock at
    the call plus that time. *)
Record Timed := mkTimed { call : Z; paused : Z }.
Definition monotone `{Os} : Prop := forall i j, i <= j -> clock i <= clock j.
(** [Date.now()]. *)
Definition now `{Os} : M Timed Z := fun t => (Ok (clock (call t) + paused t), mkTimed (call t + 1) (paused t)).
(** [await new Promise((r) => setTimeout(r, ms))]. *)
Definition sleep (ms : Z) : M Timed unit := fun t => (Ok tt, mkTimed (call t) (paused t + ms)).
(** A request: the number of the call decides its answer. *)
Definition requested {A} (f : Z -> result A) : M Timed A := fun t => (f (call t), mkTimed (call t + 1) (paused t)).

(** ** Environment files

    The [KEY=value] lines of [.env] and [.env.generated]. *)
Definition EnvMap := JsMap.t string string.
Definition dropCR (line : string) : string :=
  match String.get (String.length line - 1) line with
  | Some c => if c ==? chr 13 then sliceTo (String.length line - 1) line else line
  | None => line
  end.
(** The text before and after the first [=]. *)
Fixpoint cutEquals (s : string) : option (string * string) :=
  match s with
  | EmptyString => None
  | String c s' =>
      if c ==? "="%char then Some ("", s')
      else match cutEquals s' with Some (k, v) => Some (String c k, v) | None => None end
  end.
Definition envLine (raw : string) : option (string * string) :=
  let line := dropCR raw in
  if startsWith (trimStart line) "#" then None else cutEquals line.
Definition parseEnvText (override : bool) (e : EnvMap) (text : string) : EnvMap :=
  fold_left (fun e raw =>
    match envLine raw with
    | Some (k, v) => if override || negb (JsMap.has e k) then JsMap.set e k v else e
    | None => e
    end) (splitOn (chr 10) text) e.
Example parseEnv_example :
  parseEnvText true [("A", "1")] ("# c=d" +:+ String (chr 10) ("A=2=3" +:+ String (chr 13) (String (chr 10) "B="))) =
  [("A", "2=3"); ("B", "")].
Proof. reflexivity. Qed.

(** The environment map seen as [process.env]. *)
Definition envOf (e : EnvMap) : Env := fun k => JsMap.get e k.
(** The keys whose value is missing or empty. *)
Definition requireKeys (e : EnvMap) (keys : list string) : list string :=
  filter (fun k => Is_true (negb (match truthyOpt (JsMap.get e k) with Some _ => true | None => false end))) keys.
End Host.
