(* ===== verification/Field.v ===== *)
(** * Field elements as text

    The conversions between decimal field elements and 32-byte hexadecimal
    values that the proof builders, the relayer, the auditor and the asset
    registry share. *)
From S2P Require Import Prelude JsText Json Crypto Runtime Host.
From Stdlib Require Import Ascii.
Import JsText Json Crypto Runtime Host.

Module Field.

(** ** [0x] and 64 hexadecimal digits *)
Definition signedHex (n : Z) : string := if n <? 0 then "-" +:+ toHexString (- n) else toHexString n.
Definition hex32 (n : Z) : string := padStart 64 "0"%char (signedHex n).
(** [BigInt(v)] on a JSON value. *)
Definition bigIntOf (j : json) : result Z :=
  match j with
  | JStr s => BigInt s
  | JNum z => Ok z
  | JBool b => Ok (if b then 1 else 0)
  | _ => Throw (Error None "Cannot convert to a BigInt")
  end.
Definition hexRoot (decimal : json) : result string := n ← bigIntOf decimal; mret ("0x" +:+ hex32 n).
(** [Number(x)] when it is an integer; [None] is [NaN] or a fraction. *)
Definition numberOf (j : json) : option Z :=
  match j with
  | JNum z => Some z
  | JStr s => numberInt (Number s)
  | JBool b => Some (if b then 1 else 0)
  | JNull => Some 0
  | _ => None
  end.
(** The first 31 bytes of a 32-byte hash as a decimal field element. *)
Definition hashToField (hex : string) : result string :=
  n ← BigInt ("0x" +:+ sliceTo 62 (strip0x hex)); mret (toString n).
(** The integer value of some bytes, most significant first. *)
Fixpoint valueBE (acc : Z) (b : bytes) : Z :=
  match b with EmptyString => acc | String c b' => valueBE (acc * 256 + JsText.code c) b' end.

(** ** Hexadecimal digits *)
Lemma digitVal_hexDigit d : 0 <= d < 16 -> digitVal (hexDigit d) = Some d.
Proof.
  intros Hd. assert (d = 0 \/ d = 1 \/ d = 2 \/ d = 3 \/ d = 4 \/ d = 5 \/ d = 6 \/ d = 7 \/ d = 8 \/ d = 9 \/ d = 10 \/ d = 11 \/
    d = 12 \/ d = 13 \/ d = 14 \/ d = 15) as Hc by lia. naive_solver.
Qed.
Lemma code_range c : 0 <= JsText.code c < 256.
Proof. unfold JsText.code. pose proof (N_ascii_bounded c). lia. Qed.
Lemma nibbles c : 0 <= JsText.code c / 16 < 16 /\ 0 <= JsText.code c mod 16 < 16 /\
  JsText.code c = 16 * (JsText.code c / 16) + JsText.code c mod 16.
Proof.
  pose proof (code_range c). pose proof (Z.mod_pos_bound (JsText.code c) 16). pose proof (Z.div_mod (JsText.code c) 16).
  split; [split; [apply Z.div_pos; lia|apply Z.div_lt_upper_bound; lia]|lia].
Qed.
Lemma parse_hexEncode acc b : parseDigits 16 acc (hexEncode b) = Some (valueBE acc b).
Proof.
  revert acc. induction b as [|c b IH]; intros acc; [done|]. cbn [hexEncode valueBE]. unfold hexOfByte. rewrite !append_cons, append_nil_l.
  cbn [parseDigits]. pose proof (nibbles c). rewrite !digitVal_hexDigit by lia.
  rewrite !(proj2 (Z.ltb_lt _ _)) by lia. rewrite IH. f_equal. f_equal. lia.
Qed.
Lemma valueBE_range acc b : 0 <= acc -> 0 <= valueBE acc b < (acc + 1) * 256 ^ Z.of_nat (String.length b).
Proof.
  revert acc. induction b as [|c b IH]; intros acc Ha; cbn [valueBE String.length]; [lia|]. pose proof (code_range c).
  specialize (IH (acc * 256 + JsText.code c)). rewrite Nat2Z.inj_succ, Z.pow_succ_r by lia.
  assert (0 <= 256 ^ Z.of_nat (String.length b)) by (apply Z.pow_nonneg; lia). nia.
Qed.

Lemma isSpace_hexDigit d : 0 <= d < 16 -> isSpace (hexDigit d) = false.
Proof.
  intros Hd. assert (d = 0 \/ d = 1 \/ d = 2 \/ d = 3 \/ d = 4 \/ d = 5 \/ d = 6 \/ d = 7 \/ d = 8 \/ d = 9 \/ d = 10 \/ d = 11 \/
    d = 12 \/ d = 13 \/ d = 14 \/ d = 15) as Hc by lia. naive_solver.
Qed.
Lemma hexEncode_plain b : allChars (fun c => negb (isSpace c)) (hexEncode b) = true.
Proof.
  induction b as [|c b IH]; [done|]. cbn [hexEncode]. unfold hexOfByte. rewrite !append_cons, append_nil_l. cbn [allChars].
  pose proof (nibbles c). rewrite !isSpace_hexDigit by lia. exact IH.
Qed.
(** [BigInt("0x" + hex)]. *)
Lemma BigInt_hex s v : allChars (fun c => negb (isSpace c)) s = true -> parseRadix 16 s = Some v -> BigInt ("0x" +:+ s) = Ok v.
Proof.
  intros Hs Hv. unfold BigInt, parseBigInt. rewrite trim_id by (rewrite allChars_append; by rewrite Hs).
  change ("0x" +:+ s) with (String "0" (String "x" s)). cbn [sliceTo sliceFrom]. by rewrite Hv.
Qed.
Lemma parseRadix_hexEncode b : b ≠ "" -> parseRadix 16 (hexEncode b) = Some (valueBE 0 b).
Proof.
  intros Hb. unfold parseRadix. rewrite bool_decide_false; [apply parse_hexEncode|]. destruct b; [done|]. by cbn.
Qed.
Lemma BigInt_hexEncode b : b ≠ "" -> BigInt ("0x" +:+ hexEncode b) = Ok (valueBE 0 b).
Proof. intros Hb. apply BigInt_hex; [apply hexEncode_plain|by apply parseRadix_hexEncode]. Qed.
Lemma valueBE_inj a b x y : String.length x = String.length y -> valueBE a x = valueBE b y -> 0 <= a -> 0 <= b -> a = b /\ x = y.
Proof.
  revert a b y. induction x as [|c x IH]; intros a b [|d y] Hl Hv Ha Hb; try done. injection Hl as Hl. cbn [valueBE] in Hv.
  pose proof (code_range c). pose proof (code_range d). apply IH in Hv as [Hv ->]; [|done|lia..].
  assert (JsText.code c = JsText.code d /\ a = b) as [Hc ->] by lia. split; [done|]. f_equal. unfold JsText.code in Hc.
  rewrite <- (ascii_N_embedding c), <- (ascii_N_embedding d). f_equal. lia.
Qed.

(** [n.toString(16)] reads back. *)
Lemma parse_hexGo fuel n acc :
  0 <= n < 16 ^ Z.of_nat fuel -> parseDigits 16 0 (hexGo fuel n acc) = parseDigits 16 n acc.
Proof.
  revert n acc. induction fuel as [|fuel IH]; intros n acc Hn; cbn [hexGo]; [by replace n with 0 by lia|].
  destruct (Z.eqb_spec n 0) as [->|Hne]; [done|]. rewrite Nat2Z.inj_succ, Z.pow_succ_r in Hn by lia.
  pose proof (Z.mod_pos_bound n 16). pose proof (Z.div_mod n 16).
  rewrite IH by (split; [apply Z.div_pos; lia|apply Z.div_lt_upper_bound; lia]).
  cbn [parseDigits]. rewrite digitVal_hexDigit by lia. rewrite (proj2 (Z.ltb_lt _ _)) by lia. f_equal. lia.
Qed.
Lemma toHexString_fuel n : 0 < n -> n < 16 ^ Z.of_nat (S (Z.to_nat (Z.log2 n))).
Proof.
  intros Hn. pose proof (Z.log2_nonneg n). rewrite Nat2Z.inj_succ, Z2Nat.id by lia. pose proof (Z.log2_spec n Hn) as [_ H'].
  eapply Z.lt_le_trans; [exact H'|]. apply Z.pow_le_mono_l. lia.
Qed.
Lemma hexGo_nonempty fuel n acc : 0 < n -> (0 < fuel)%nat -> hexGo fuel n acc ≠ "".
Proof.
  revert n acc. assert (forall fuel n acc, acc ≠ "" -> hexGo fuel n acc ≠ "") as Ha.
  { clear. induction fuel as [|fuel IH]; intros n acc H; cbn [hexGo]; [done|]. destruct (n =? 0); [done|]. by apply IH. }
  intros n acc Hn Hf. destruct fuel as [|fuel]; [lia|]. cbn [hexGo]. rewrite (proj2 (Z.eqb_neq n 0)) by lia. by apply Ha.
Qed.
Lemma parse_toHexString n : 0 <= n -> toHexString n ≠ "" /\ parseDigits 16 0 (toHexString n) = Some n.
Proof.
  intros Hn. unfold toHexString. destruct (Z.eqb_spec n 0) as [->|]; [done|].
  split; [apply hexGo_nonempty; lia|]. rewrite parse_hexGo by (split; [lia|apply toHexString_fuel; lia]). done.
Qed.
Lemma parseDigits_pad base n s : 0 < base -> parseDigits base 0 (repeatString n "0"%char +:+ s) = parseDigits base 0 s.
Proof.
  intros Hb. induction n as [|n IH]; [done|]. cbn [repeatString]. rewrite append_cons. cbn [parseDigits digitVal].
  change (digitVal "0") with (Some 0). cbn. rewrite (proj2 (Z.ltb_lt 0 base)) by lia. exact IH.
Qed.
Lemma hex32_value n : 0 <= n -> parseRadix 16 (hex32 n) = Some n.
Proof.
  intros Hn. unfold hex32, signedHex, padStart, parseRadix. rewrite (proj2 (Z.ltb_ge n 0)) by lia.
  destruct (parse_toHexString n Hn) as [Hne Hp]. rewrite bool_decide_false.
  - by rewrite parseDigits_pad.
  - destruct (repeatString _ _); [done|]. by rewrite append_cons.
Qed.
Lemma hex32_inj n m : 0 <= n -> 0 <= m -> hex32 n = hex32 m -> n = m.
Proof. intros Hn Hm E. pose proof (hex32_value n Hn) as H1. rewrite E, hex32_value in H1 by done. by injection H1. Qed.
Lemma hexGo_length fuel n acc k :
  0 <= n < 16 ^ Z.of_nat k -> (String.length (hexGo fuel n acc) <= k + String.length acc)%nat.
Proof.
  revert n acc k. induction fuel as [|fuel IH]; intros n acc k Hn; cbn [hexGo]; [lia|].
  destruct (Z.eqb_spec n 0); [lia|]. destruct k as [|k]; [simpl in Hn; lia|]. rewrite Nat2Z.inj_succ, Z.pow_succ_r in Hn by lia.
  pose proof (IH (n / 16) (String (hexDigit (n mod 16)) acc) k) as H'. simpl in H'.
  assert (0 <= n / 16 < 16 ^ Z.of_nat k) by (split; [apply Z.div_pos; lia|apply Z.div_lt_upper_bound; lia]). specialize (H' ltac:(done)). lia.
Qed.
Lemma hex32_length n : 0 <= n < 2 ^ 256 -> String.length (hex32 n) = 64%nat.
Proof.
  intros Hn. unfold hex32, signedHex, padStart. rewrite (proj2 (Z.ltb_ge n 0)) by lia.
  rewrite length_append, ToyRuntime.repeatString_length.
  assert (String.length (toHexString n) <= 64)%nat; [|lia]. unfold toHexString. destruct (n =? 0); [simpl; lia|].
  etransitivity; [apply (hexGo_length _ _ _ 64)|simpl; lia]. change (16 ^ Z.of_nat 64) with (2 ^ 256). lia.
Qed.
(** [hexRoot] on what [hexRoot]'s callers read, a decimal string. *)
Lemma hexRoot_decimal n : hexRoot (JStr (toString n)) = Ok ("0x" +:+ hex32 n).
Proof. unfold hexRoot. cbn [bigIntOf]. by rewrite BigInt_toString. Qed.
End Field.
