(* ===== verification/StellarUtils.v ===== *)
(** * Soroban calls through the Stellar CLI
      (packages/stellar-utils/src/index.ts, packages/proof-utils/src/index.ts)

    [sorobanInvoke] runs the [stellar] command with bounded retries, takes the
    transaction hash from what it prints, and blanks the secret in everything
    it reports.  Theorem: the secret is in no error and in no [raw] output, and
    a call that must be a transaction returns a hash the command printed. *)
From S2P Require Import Prelude JsText JsCollections Json Crypto Runtime Host.
From Stdlib Require Import Ascii.
Import JsText Json Crypto Runtime Host.

Module StellarUtils.

Definition rpcUrl : string := "https://soroban-testnet.stellar.org".
Definition horizonUrl : string := "https://horizon-testnet.stellar.org".
Definition networkPassphrase : string := "Test SDF Network ; September 2015".
Definition friendbotUrl : string := "https://friendbot.stellar.org".

Record SorobanInvokeResult := mkInvoked { txHash : string; returnValue : string; raw : string }.
Record InvokeOpts := mkOpts {
  contractId : string; secret : string; method : string; args : list string;
  opt_rpcUrl : option string; opt_passphrase : option string; retries : nat; readOnly : bool }.

(** ** Text *)
Fixpoint replaceGo (p r : string) (skip : nat) (s : string) : string :=
  match s with
  | EmptyString => ""
  | String c s' =>
      match skip with
      | S k => replaceGo p r k s'
      | O => if startsWith s p then r +:+ replaceGo p r (String.length p - 1) s' else String c (replaceGo p r 0 s')
      end
  end.
(** [s.replaceAll(p, r)] for a non-empty [p]. *)
Definition replaceAll (p r s : string) : string := replaceGo p r 0 s.
Fixpoint includes (s p : string) : bool :=
  startsWith s p || match s with EmptyString => false | String _ s' => includes s' p end.
Definition redacted : string := "[REDACTED_STELLAR_SECRET]".
Definition redact (text secret : string) : string :=
  if truthy secret then replaceAll secret redacted text else text.
Definition bytesToCliHex (hex : string) : string := strip0x hex.

Definition isHexChar (c : ascii) : bool := match digitVal c with Some d => d <? 16 | None => false end.
Fixpoint takeHex (n : nat) (s : string) : option string :=
  match n, s with
  | O, _ => Some ""
  | S n', String c s' => if isHexChar c then String c <$> takeHex n' s' else None
  | S _, EmptyString => None
  end.
Definition after (p s : string) : option string :=
  if startsWith s p then Some (sliceFrom (String.length p) s) else None.
(** The three regular expressions, matched at the start of [s].  No choice of
    theirs needs backtracking: what follows an optional part never starts like
    it. *)
Definition hashLine (s : string) : option string :=
  match s with
  | String c s' =>
      if (c ==? "T"%char) || (c ==? "t"%char) then
        match after "ransaction hash" s' with
        | Some r =>
            let r := match r with
                     | String w r' => if isSpace w then orElse (after "is" (trimStart r')) r else r
                     | EmptyString => r
                     end in
            takeHex 64 (trimStart (orElse (after ":" r) r))
        | None => None
        end
      else None
  | EmptyString => None
  end.
Definition explorerLink (s : string) : option string := after "tx/" s ≫= takeHex 64.
Definition transactionLine (s : string) : option string := after "transaction:" s ≫= fun r => takeHex 64 (trimStart r).
(** [output.match(p)]: the leftmost match. *)
Fixpoint search (p : string -> option string) (s : string) : option string :=
  match p s with
  | Some m => Some m
  | None => match s with EmptyString => None | String _ s' => search p s' end
  end.
Definition parseSorobanTx (output : string) : option string :=
  match search hashLine output with
  | Some h => Some h
  | None => match search explorerLink output with
            | Some h => Some h
            | None => search transactionLine output
            end
  end.

(** ** The call *)
Definition cargoPath `{Os} `{Env} : string :=
  let home := orElse (env "HOME") (orElse (env "USERPROFILE") "") in
  let cargo := if truthy home then normalize (home +:+ "/.cargo/bin") else "" in
  join ":" (filter (fun s => Is_true (truthy s)) [cargo; orElse (env "PATH") ""]).
Definition cliArgs (o : InvokeOpts) : list string :=
  ["contract"; "invoke"; "--id"; contractId o; "--source-account"; secret o; "--rpc-url"; orElse (opt_rpcUrl o) rpcUrl;
   "--network-passphrase"; orElse (opt_passphrase o) networkPassphrase; "--"; method o] ++ args o.
Definition output (r : Exit) : string := exit_stderr r +:+ String (chr 10) (exit_stdout r).
Definition retryable (last : string) : bool :=
  includes last "TxBadSeq" || includes last "timeout" || includes last "429" || includes last "temporarily".
Definition invokeFailed (o : InvokeOpts) (last : string) : error :=
  Error None ("stellar contract invoke " +:+ method o +:+ " failed: " +:+ last).
Definition noHash (o : InvokeOpts) (r : Exit) : error :=
  Error None ("Soroban " +:+ method o +:+ " succeeded but no tx hash found in output:" +:+ String (chr 10) (redact (output r) (secret o))).
Fixpoint invokeLoop `{Os} `{Env} (attempts : nat) (o : InvokeOpts) (last : string) : M Host SorobanInvokeResult :=
  match attempts with
  | O => throwM (invokeFailed o last)
  | S n =>
      r ← spawnSync "stellar" (cliArgs o) cargoPath;
      if exit_status r ==? Some 0 then
        match parseSorobanTx (output r) with
        | None => if readOnly o then mret (mkInvoked "" (trim (exit_stdout r)) (redact (output r) (secret o))) else throwM (noHash o r)
        | Some h => mret (mkInvoked h (trim (exit_stdout r)) (redact (output r) (secret o)))
        end
      else
        let last := redact (output r) (secret o) in
        if retryable last then invokeLoop n o last else throwM (invokeFailed o last)
  end.
Definition sorobanInvoke `{Os} `{Env} (o : InvokeOpts) : M Host SorobanInvokeResult := invokeLoop (retries o) o "".

(** ** packages/proof-utils *)
Definition isBase32 (c : ascii) : bool := let n := JsText.code c in ((65 <=? n) && (n <=? 90)) || ((50 <=? n) && (n <=? 55)).
(** [s.replace(re, r)] for a global pattern of fixed width [w]. *)
Fixpoint replaceMatches (matches : string -> bool) (w : nat) (r : string) (skip : nat) (s : string) : string :=
  match s with
  | EmptyString => ""
  | String c s' =>
      match skip with
      | S k => replaceMatches matches w r k s'
      | O => if matches s then r +:+ replaceMatches matches w r (w - 1) s' else String c (replaceMatches matches w r 0 s')
      end
  end.
Definition isHash32 (s : string) : bool := bool_decide (is_Some (after "0x" s ≫= takeHex 64)).
Definition isSeed (s : string) : bool :=
  startsWith s "S" && (String.length (sliceTo 56 s) =? 56)%nat && allChars isBase32 (sliceTo 56 s).
Definition redactSecrets (input : string) : string :=
  replaceMatches isSeed 56 "S[REDACTED_STELLAR_SECRET]" 0 (replaceMatches isHash32 66 "0x[REDACTED_32_BYTES]" 0 input).
Definition requireProofStack `{Env} : M Host unit :=
  match truthyOpt (env "PROOF_SYSTEM") with
  | None => failM "PROOF_SYSTEM is required"
  | Some _ =>
      match truthyOpt (env "PROVING_KEY_PATH"), truthyOpt (env "VERIFYING_KEY_PATH"), truthyOpt (env "CIRCUIT_BUILD_DIR") with
      | Some pk, Some vk, Some dir =>
          foreachM (fun p => e ← existsSync p; guardM e (Error None ("ENOENT: no such file or directory, access '" +:+ p +:+ "'"))) [pk; vk; dir]
      | _, _, _ => failM "PROVING_KEY_PATH, VERIFYING_KEY_PATH, and CIRCUIT_BUILD_DIR are required"
      end
  end.
Example redactSecrets_example :
  redactSecrets ("key S" +:+ repeatString 55 "B"%char +:+ " tx 0x" +:+ repeatString 64 "f"%char +:+ ".") =
  "key S[REDACTED_STELLAR_SECRET] tx 0x[REDACTED_32_BYTES].".
Proof. reflexivity. Qed.

(** ** What is never printed *)
(** A Stellar secret seed: [S...], 56 characters of base 32. *)
Definition seedLike (s : string) : Prop := String.length s = 56%nat /\ allChars isBase32 s = true.

Lemma startsWith_cons s c p : startsWith s (String c p) = match s with String d s' => (c ==? d) && startsWith s' p | "" => false end.
Proof.
  destruct s as [|d s]; [done|]. unfold startsWith. cbn [String.prefix].
  destruct (ascii_dec c d), (bool_decide_reflect (c = d)); done || congruence.
Qed.
Lemma startsWith_nil s : startsWith s "" = true.
Proof. by destruct s. Qed.
(** A text with a foreign character among its first ones does not start with
    a base-32 word that long. *)
Lemma startsWith_foreign a c b p :
  allChars isBase32 p = true -> isBase32 c = false -> (String.length a < String.length p)%nat ->
  startsWith (a +:+ String c b) p = false.
Proof.
  revert p. induction a as [|d a IH]; intros [|e p] Hp Hc Hl; cbn in Hl; try lia; cbn in Hp;
    apply andb_true_iff in Hp as [He Hp]; rewrite ?append_nil_l, ?append_cons, startsWith_cons.
  - apply andb_false_iff. left. apply bool_decide_eq_false. intros ->. congruence.
  - rewrite IH by (done || lia). by rewrite andb_false_r.
Qed.
Lemma replaceGo_prefix p r s q :
  allChars isBase32 q = true -> (match r with String c _ => isBase32 c = false | "" => False end) -> q ≠ "" ->
  startsWith (replaceGo p r 0 s) q = true -> startsWith s p = false /\ startsWith s q = true.
Proof.
  intros Hq Hr. revert q Hq. induction s as [|c s IH]; intros [|d q] Hq Hne; try done.
  cbn in Hq. apply andb_true_iff in Hq as [Hd Hq]. cbn [replaceGo]. destruct (startsWith (String c s) p) eqn:E.
  - destruct r as [|e r]; [done|]. rewrite append_cons, startsWith_cons. intros [->%bool_decide_eq_true _]%andb_true_iff. congruence.
  - rewrite !startsWith_cons. intros [-> H]%andb_true_iff. split; [done|]. cbn [andb].
    destruct q as [|e q]; [apply startsWith_nil|]. by apply IH.
Qed.
Lemma includes_app_foreign r rest p :
  allChars isBase32 p = true -> (String.length r < String.length p)%nat ->
  includes rest p = false -> forall c, isBase32 c = false -> includes (r +:+ String c rest) p = false.
Proof.
  intros Hp Hl Hrest c Hc. induction r as [|d r IH].
  - pose proof (startsWith_foreign "" c rest p Hp Hc Hl) as H. rewrite append_nil_l in H |- *. cbn [includes]. by rewrite Hrest, H.
  - cbn in Hl. rewrite append_cons. cbn [includes]. rewrite <- append_cons, startsWith_foreign by (done || cbn; lia).
    rewrite IH by lia. done.
Qed.
Lemma replaceAll_clean p s : seedLike p -> includes (replaceAll p redacted s) p = false.
Proof.
  intros [Hl Hp]. unfold replaceAll. assert (forall k, includes (replaceGo p redacted k s) p = false) as H; [|apply H].
  induction s as [|c s IH]; intros k; [destruct p; [done|reflexivity]|]. cbn [replaceGo].
  destruct k as [|k]; [|apply IH]. destruct (startsWith (String c s) p) eqn:E.
  - change redacted with ("[REDACTED_STELLAR_SECRET" +:+ "]"). rewrite append_assoc.
    apply includes_app_foreign; [done|cbn; lia|apply IH|done].
  - cbn [includes]. rewrite IH, orb_false_r. apply not_true_iff_false. intros H.
    destruct p as [|d q]; [done|]. cbn in Hp. apply andb_true_iff in Hp as [Hd Hq]. rewrite startsWith_cons in H, E.
    apply andb_true_iff in H as [H1 H2]. rewrite H1 in E. cbn [andb] in E. destruct q as [|e q]; [done|].
    apply replaceGo_prefix in H2 as [_ H2]; [congruence|done..].
Qed.
Lemma redact_clean text p : seedLike p -> includes (redact text p) p = false.
Proof.
  intros Hp. unfold redact. destruct (truthy p) eqn:E; [by apply replaceAll_clean|].
  destruct Hp as [Hl _]. unfold truthy in E. apply negb_false_iff, bool_decide_eq_true in E as ->. done.
Qed.
(** An occurrence does not straddle a foreign character. *)
Lemma includes_join a c b p :
  allChars isBase32 p = true -> isBase32 c = false -> includes a p = false -> includes b p = false ->
  includes (a +:+ String c b) p = false.
Proof.
  intros Hp Hc Ha Hb. induction a as [|d a IH].
  - rewrite append_nil_l. cbn [includes]. rewrite Hb, orb_false_r. destruct p as [|e p]; [by destruct b|].
    by apply (startsWith_foreign "" c b); [..|cbn; lia].
  - rewrite append_cons. cbn [includes] in *. apply orb_false_iff in Ha as [Ha1 Ha2]. rewrite IH by done. rewrite orb_false_r.
    clear IH Ha2 Hb. rewrite <- append_cons. generalize dependent (String d a). clear d a. intros a.
    revert p Hp. induction a as [|d a IH]; intros [|e p] Hp H; cbn in Hp; rewrite ?startsWith_nil in H; try done.
    + rewrite append_nil_l, startsWith_cons. apply andb_true_iff in Hp as [He _]. apply andb_false_iff. left.
      apply bool_decide_eq_false. intros ->. congruence.
    + rewrite append_cons, startsWith_cons in *. apply andb_true_iff in Hp as [He Hp].
      apply andb_false_iff in H as [->|H]; [done|]. by rewrite (IH p Hp H), andb_false_r.
Qed.
Lemma includes_short s p : (String.length s < String.length p)%nat -> includes s p = false.
Proof.
  assert (forall s p, (String.length s < String.length p)%nat -> startsWith s p = false) as Hs.
  { clear. induction s as [|c s IH]; intros [|d p] H; cbn in H; try lia; [done|]. rewrite startsWith_cons, IH by lia. apply andb_false_r. }
  revert p. induction s as [|c s IH]; intros p H; cbn [includes]; rewrite Hs by done; [done|]. apply IH. cbn in H. lia.
Qed.

(** ** What is returned *)
Definition isTxHash (h : string) : Prop := String.length h = 64%nat /\ allChars isHexChar h = true.

Lemma startsWith_app p s : startsWith (p +:+ s) p = true.
Proof.
  induction p as [|c p IH]; [apply startsWith_nil|]. rewrite append_cons, startsWith_cons, IH. by rewrite bool_decide_true.
Qed.
Lemma includes_app_l a s p : includes s p = true -> includes (a +:+ s) p = true.
Proof. intros H. induction a as [|c a IH]; [done|]. rewrite append_cons. cbn [includes]. rewrite IH. apply orb_true_r. Qed.
Lemma takeHex_spec n s m : takeHex n s = Some m -> String.length m = n /\ allChars isHexChar m = true /\ startsWith s m = true.
Proof.
  revert s m. induction n as [|n IH]; intros s m; [intros [= <-]; by rewrite startsWith_nil|]. destruct s as [|c s]; [done|].
  cbn [takeHex]. destruct (isHexChar c) eqn:E; [|done]. intros (m' & Em & ->)%fmap_Some. apply IH in Em as (Hl & Hm & Hs).
  rewrite startsWith_cons, Hs, bool_decide_true by done. cbn. by rewrite Hl, Hm, E.
Qed.
Lemma startsWith_includes s p : startsWith s p = true -> includes s p = true.
Proof. intros H. destruct s; cbn [includes]; by rewrite H. Qed.
Lemma includes_sliceFrom n s p : includes (sliceFrom n s) p = true -> includes s p = true.
Proof.
  revert s. induction n as [|n IH]; intros [|c s] H; try done. cbn [includes]. rewrite (IH s H). apply orb_true_r.
Qed.
Lemma includes_trimStart s p : includes (trimStart s) p = true -> includes s p = true.
Proof.
  induction s as [|c s IH]; [done|]. cbn [trimStart]. destruct (isSpace c); [|done]. intros H. cbn [includes]. rewrite (IH H). apply orb_true_r.
Qed.
Lemma after_includes w s r p : after w s = Some r -> includes r p = true -> includes s p = true.
Proof. unfold after. destruct (startsWith s w); [|done]. intros [= <-]. apply includes_sliceFrom. Qed.
(** A pattern that only returns hashes it found. *)
Definition finds (p : string -> option string) : Prop := forall s m, p s = Some m -> isTxHash m /\ includes s m = true.
Lemma takeHex_finds s m : takeHex 64 s = Some m -> isTxHash m /\ includes s m = true.
Proof. intros (Hl & Hm & Hs)%takeHex_spec. split; [done|]. by apply startsWith_includes. Qed.
Lemma search_finds p : finds p -> finds (search p).
Proof.
  intros Hp s. induction s as [|c s IH]; intros m; cbn [search].
  - destruct (p "") eqn:E; [|done]. intros [= <-]. by apply Hp.
  - destruct (p (String c s)) eqn:E; [intros [= <-]; by apply Hp|]. intros H. apply IH in H as [H1 H2]. split; [done|].
    cbn [includes]. rewrite H2. apply orb_true_r.
Qed.
Lemma explorerLink_finds : finds explorerLink.
Proof.
  intros s m (r & Er & H)%bind_Some. apply takeHex_finds in H as [H1 H2]. split; [done|]. by eapply after_includes.
Qed.
Lemma transactionLine_finds : finds transactionLine.
Proof.
  intros s m (r & Er & H)%bind_Some. apply takeHex_finds in H as [H1 H2%includes_trimStart]. split; [done|]. by eapply after_includes.
Qed.
Lemma orElse_after_includes w s p : includes (orElse (after w s) s) p = true -> includes s p = true.
Proof. destruct (after w s) eqn:E; [by apply (after_includes w)|done]. Qed.
Lemma hashLine_finds : finds hashLine.
Proof.
  intros s m. destruct s as [|c s]; [done|]. cbn [hashLine]. destruct (_ || _); [|done].
  destruct (after "ransaction hash" s) as [r|] eqn:Er; [|done]. intros H.
  apply takeHex_finds in H as [H1 H2%includes_trimStart%orElse_after_includes]. split; [done|].
  cbn [includes]. apply orb_true_iff. right. apply (after_includes _ _ _ _ Er).
  destruct r as [|w r]; [done|]. destruct (isSpace w); [|done]. destruct (after "is" (trimStart r)) eqn:Ea; [|done].
  cbn [orElse] in H2. apply (after_includes _ _ _ _ Ea), includes_trimStart in H2. cbn [includes]. rewrite H2. apply orb_true_r.
Qed.
Lemma parseSorobanTx_finds : finds parseSorobanTx.
Proof.
  intros s m. unfold parseSorobanTx. destruct (search hashLine s) eqn:E1; [intros [= <-]; by apply (search_finds _ hashLine_finds)|].
  destruct (search explorerLink s) eqn:E2; [intros [= <-]; by apply (search_finds _ explorerLink_finds)|].
  apply (search_finds _ transactionLine_finds).
Qed.

Section Invoke.
Context `{Os} `{Env}.
(** The [i]-th process of the host, run as the call, and its output without
    the secret. *)
Definition runOf (o : InvokeOpts) (i : Z) : Exit := spawn i "stellar" (cliArgs o) cargoPath.
Definition shown (o : InvokeOpts) (i : Z) : string := redact (output (runOf o i)) (secret o).
(** It failed in a way that is worth another attempt, or in another way. *)
Definition transient (text : string) : Prop :=
  includes text "TxBadSeq" = true \/ includes text "timeout" = true \/ includes text "429" = true \/ includes text "temporarily" = true.
Definition retriedAfter (o : InvokeOpts) (i : Z) : Prop := exit_status (runOf o i) ≠ Some 0 /\ transient (shown o i).
(** [m] runs, all but the last of which were retried. *)
Definition invokeSpec (o : InvokeOpts) (n : nat) (h : Host) (res : result SorobanInvokeResult) (h' : Host) : Prop :=
  files h' = files h /\ exists m : nat, (m <= n)%nat /\ tick h' = tick h + Z.of_nat m /\
  let last := tick h' - 1 in
  (forall i, tick h <= i < last -> retriedAfter o i) /\
  match res with
  | Ok r =>
      (0 < m)%nat /\ exit_status (runOf o last) = Some 0 /\
      returnValue r = trim (exit_stdout (runOf o last)) /\ raw r = shown o last /\ includes (raw r) (secret o) = false /\
      (isTxHash (txHash r) /\ includes (output (runOf o last)) (txHash r) = true \/
       readOnly o = true /\ txHash r = "" /\ parseSorobanTx (output (runOf o last)) = None)
  | Throw e =>
      includes (message e) (secret o) = false /\
      (m = n /\ ((0 < n)%nat -> retriedAfter o last) \/
       (0 < m)%nat /\ exit_status (runOf o last) ≠ Some 0 /\ ~ transient (shown o last) \/
       (0 < m)%nat /\ exit_status (runOf o last) = Some 0 /\ readOnly o = false /\ parseSorobanTx (output (runOf o last)) = None)
  end.
Lemma retryable_iff text : retryable text = true <-> transient text.
Proof. unfold retryable, transient. rewrite !orb_true_iff. tauto. Qed.
(** The errors hold the secret only if the output they quote does. *)
Lemma invokeFailed_clean o l : seedLike (secret o) -> (String.length (method o) < 56)%nat ->
  includes l (secret o) = false -> includes (message (invokeFailed o l)) (secret o) = false.
Proof.
  intros [Hlen Hb] Hm Hl. cbn [invokeFailed message]. change ("stellar contract invoke " +:+ method o +:+ " failed: " +:+ l)
    with ("stellar contract invoke" +:+ String " " (method o +:+ String " " ("failed:" +:+ String " " l))).
  repeat apply includes_join; try done; apply includes_short; rewrite Hlen; done || (simpl; lia).
Qed.
Lemma noHash_clean o r : seedLike (secret o) -> (String.length (method o) < 56)%nat ->
  includes (message (noHash o r)) (secret o) = false.
Proof.
  intros Hs Hm. pose proof (redact_clean (output r) _ Hs) as Hr. destruct Hs as [Hlen Hb]. cbn [noHash message].
  change ("Soroban " +:+ method o +:+ " succeeded but no tx hash found in output:" +:+ String (chr 10) (redact (output r) (secret o)))
    with ("Soroban" +:+ String " " (method o +:+ String " " ("succeeded but no tx hash found in output:"
            +:+ String (chr 10) (redact (output r) (secret o))))).
  repeat apply includes_join; try done; apply includes_short; rewrite Hlen; done || (simpl; lia).
Qed.
Lemma invokeLoop_spec o n last h res h' :
  seedLike (secret o) -> (String.length (method o) < 56)%nat -> includes last (secret o) = false ->
  invokeLoop n o last h = (res, h') -> invokeSpec o n h res h'.
Proof.
  intros Hs Hm. revert last h. induction n as [|n IH]; intros last h Hl; cbn [invokeLoop].
  { intros [= <- <-]. split; [done|]. exists 0%nat. split; [done|]. split; [lia|]. cbv zeta. split; [lia|].
    split; [by apply invokeFailed_clean|]. left. split; [done|lia]. }
  unfold mbind, M_bind, spawnSync. fold (runOf o (tick h)). set (r := runOf o (tick h)).
  assert (includes (redact (output r) (secret o)) (secret o) = false) as Hr by (by apply redact_clean).
  assert (tick h + 1 - 1 = tick h) as Hlast by lia.
  destruct (bool_decide_reflect (exit_status r = Some 0)) as [E0|E0].
  - intros E. assert (tick h' = tick h + 1 /\ files h' = files h) as [Ht Hf].
    { destruct (parseSorobanTx _), (readOnly o); by injection E as <- <-. }
    split; [done|]. exists 1%nat. split; [lia|]. split; [lia|]. cbv zeta. rewrite Ht, Hlast. split; [lia|].
    destruct (parseSorobanTx (output r)) as [hash|] eqn:Ep; [|destruct (readOnly o) eqn:Ero]; injection E as <- _.
    + apply parseSorobanTx_finds in Ep as [Hp1 Hp2]. do 5 (split; [done || lia|]). by left.
    + do 5 (split; [done || lia|]). by right.
    + split; [by apply noHash_clean|]. right. right. split; [lia|done].
  - cbv zeta. destruct (retryable _) eqn:Er.
    + apply retryable_iff in Er. intros E. apply IH in E as (Hf & m & Hmn & Ht & Hall & Hres); [|done]. cbn [files tick] in Hf, Ht, Hall.
      split; [done|]. exists (S m). split; [lia|]. split; [lia|]. cbv zeta.
      assert (forall i, tick h <= i < tick h' - 1 -> retriedAfter o i) as Hall'.
      { intros i Hi. destruct (Z.eq_dec i (tick h)) as [->|]; [done|]. apply Hall. lia. }
      split; [done|]. destruct res as [a|e].
      * destruct Hres as [_ Hres]. split; [lia|done].
      * destruct Hres as [He [[-> Hx]|[[_ Hx]|[_ Hx]]]]; (split; [done|]); [left|right; left; split; [lia|done]|right; right; split; [lia|done]].
        split; [done|]. intros _. destruct n; [|apply Hx; lia]. rewrite Ht. replace (tick h + 1 + Z.of_nat 0 - 1) with (tick h) by lia. done.
    + intros [= <- <-]. split; [done|]. exists 1%nat. split; [lia|]. cbn [tick]. split; [lia|]. cbv zeta. rewrite Hlast. split; [lia|].
      split; [by apply invokeFailed_clean|]. right. left. split; [lia|]. split; [done|]. rewrite <- retryable_iff. fold (runOf o (tick h)) in Er.
      unfold shown. fold r. by rewrite Er.
Qed.

(** The [i]-th process of the host ended with 0 and printed the hash. *)
Definition printedBy (o : InvokeOpts) (i : Z) (h : string) : Prop :=
  exit_status (spawn i "stellar" (cliArgs o) cargoPath) = Some 0 /\
  includes (output (spawn i "stellar" (cliArgs o) cargoPath)) h = true.
(** What a call that returns has run: one process that ended with 0, whose
    output holds the hash and the value that are returned. *)
Definition ranAs (o : InvokeOpts) (h h' : Host) (r : SorobanInvokeResult) : Prop :=
  exists i, tick h <= i < tick h' /\ let x := spawn i "stellar" (cliArgs o) cargoPath in
    exit_status x = Some 0 /\ returnValue r = trim (exit_stdout x) /\
    match parseSorobanTx (output x) with
    | Some t => txHash r = t /\ isTxHash t
    | None => readOnly o = true /\ txHash r = ""
    end.
Lemma invokeLoop_returns o n last h r h' : invokeLoop n o last h = (Ok r, h') -> files h' = files h /\ ranAs o h h' r.
Proof.
  revert last h. induction n as [|n IH]; intros last h; cbn [invokeLoop]; [done|].
  unfold mbind, M_bind, spawnSync. set (x := spawn _ _ _ _). destruct (bool_decide_reflect (exit_status x = Some 0)) as [E0|].
  - intros E. assert (files h' = files h /\ tick h' = tick h + 1 /\ returnValue r = trim (exit_stdout x) /\
      match parseSorobanTx (output x) with Some t => txHash r = t | None => readOnly o = true /\ txHash r = "" end) as (H1 & H2 & H3 & H4).
    { destruct (parseSorobanTx (output x)); [by injection E as <- <-|]. destruct (readOnly o); [by injection E as <- <-|done]. }
    split; [done|]. exists (tick h). split; [lia|]. cbv zeta. fold x. split; [done|]. split; [done|].
    destruct (parseSorobanTx (output x)) eqn:Ep; [|done]. split; [done|]. by apply parseSorobanTx_finds in Ep as [].
  - cbv zeta. destruct (retryable _); [|done]. intros E. apply IH in E as (Hf & i & Hi & Hx). simpl in Hf, Hi.
    split; [done|]. exists i. split; [lia|done].
Qed.
Lemma invoke_returns o h r h' : sorobanInvoke o h = (Ok r, h') -> files h' = files h /\ ranAs o h h' r.
Proof. apply invokeLoop_returns. Qed.

Lemma since_invoke k o : preserves (since k) (sorobanInvoke o).
Proof.
  unfold sorobanInvoke. generalize "" as last. induction (retries o) as [|n IH]; intros last; cbn [invokeLoop]; [auto with preserve|].
  apply preserves_bind; [apply since_spawn|]. intros r. cbv zeta. destruct (parseSorobanTx _), (readOnly o); auto with preserve.
Qed.

End Invoke.

(** ** Witness: a retry after [TxBadSeq], then a hash *)
Definition toySeed : string := "S" +:+ repeatString 55 "A"%char.
Definition toyHash : string := repeatString 64 "a"%char.
Definition toyCli : Os := {| cwd := "/"; execFile k c a fs := (Ok "", fs); clock k := k;
  spawn k c a p := if k =? 0 then mkExit (Some 1) "" ("TxBadSeq for " +:+ toySeed)
                   else mkExit (Some 0) "7" ("Transaction hash is " +:+ toyHash) |}.
Definition toyOpts : InvokeOpts := mkOpts "CPOOL" toySeed "get_root" [] None None 4 false.
End StellarUtils.
