(* ===== verification/Assets.v ===== *)
(** * The asset registry (packages/assets/src/index.ts)

    The field identifier of an asset is the first 31 bytes of the SHA-256 of
    its token contract. *)
From S2P Require Import Prelude JsText JsCollections Json Crypto Runtime Host Field.
Import JsText Json Crypto Runtime Host Field.

Module Assets.

Record AssetConfig := mkAsset {
  symbol : string; tokenContract : string; decimals : Z; cfg_assetIdField : string; cfg_assetIdHex : string }.

Section Assets.
Context `{Sha256}.
(** [sha.subarray(0, 31)] of the digest. *)
Definition digest31 (s : string) : bytes := sliceTo 31 (hexDecode (sha256 s)).
Definition assetIdField (token : string) : result string :=
  n ← BigInt ("0x" +:+ hexEncode (digest31 token)); mret (toString n).
Definition assetIdHex (token : string) : result string :=
  f ← assetIdField token; n ← BigInt f; mret ("0x" +:+ hex32 n).
Definition makeAssetConfig (sym token : string) (decimals : Z) : result AssetConfig :=
  f ← assetIdField token; h ← assetIdHex token; mret (mkAsset sym token decimals f h).

Context `{Env}.
Definition USDC_TOKEN : string := envNullish "USDC_SAC_CONTRACT" "CBIELTK6YBZJU5UP2WWQEUCYKLPU6AUNZ2BQ4WWFEIE3USCIHMXQDAMA".
Definition XLM_TOKEN : string := envNullish "XLM_SAC_CONTRACT" "CDLZFC3SYJYDZT7K67VZ75HPJVIEUVNIXF47ZG2FB2RMQQVU2HHGCYSC".
(** The table is built when the module loads, which throws if this does. *)
Definition ASSETS : result (list (string * AssetConfig)) :=
  u ← makeAssetConfig "USDC" USDC_TOKEN 7; x ← makeAssetConfig "XLM" XLM_TOKEN 7; mret [("USDC", u); ("XLM", x)].
Definition assetBySymbol (sym : string) : result AssetConfig :=
  as_ ← ASSETS;
  match JsMap.get as_ sym with
  | Some cfg => Ok cfg
  | None => Throw (Error None ("unknown asset symbol: " +:+ sym))
  end.
Definition assetByIdHex (idHex : string) : result AssetConfig :=
  as_ ← ASSETS;
  let norm := if startsWith idHex "0x" then toLowerCase idHex else "0x" +:+ toLowerCase idHex in
  match filter (fun a => Is_true (toLowerCase (cfg_assetIdHex a) ==? norm)) (map snd as_) with
  | found :: _ => Ok found
  | [] => Throw (Error None ("unknown assetId: " +:+ idHex))
  end.

Lemma length_sliceTo n s : String.length (sliceTo n s) = Nat.min n (String.length s).
Proof. revert s. induction n as [|n IH]; intros [|c s]; try done. simpl. by rewrite IH. Qed.
(** The identifier is a field element below [2^248], in both renderings, and
    determines the 31 bytes. *)
Lemma assetId_spec t :
  String.length (hexDecode (sha256 t)) = 32%nat ->
  let v := valueBE 0 (digest31 t) in
  0 <= v < 2 ^ 248 /\ assetIdField t = Ok (toString v) /\ assetIdHex t = Ok ("0x" +:+ hex32 v) /\ String.length (hex32 v) = 64%nat.
Proof.
  intros Hl. assert (String.length (digest31 t) = 31%nat) as Hd by (unfold digest31; by rewrite length_sliceTo, Hl).
  pose proof (valueBE_range 0 (digest31 t) ltac:(lia)) as Hv. rewrite Hd in Hv. change (0 + 1) with 1 in Hv. rewrite Z.mul_1_l in Hv.
  change (256 ^ Z.of_nat 31) with (2 ^ 248) in Hv.
  assert (assetIdField t = Ok (toString (valueBE 0 (digest31 t)))) as Ef.
  { unfold assetIdField. rewrite BigInt_hexEncode by (by intros E; rewrite E in Hd). done. }
  split_and!; [lia|lia|done| |apply hex32_length; lia]. unfold assetIdHex. rewrite Ef. simpl. by rewrite BigInt_toString.
Qed.
Lemma assetId_inj t t' h :
  String.length (hexDecode (sha256 t)) = 32%nat -> String.length (hexDecode (sha256 t')) = 32%nat ->
  assetIdHex t = Ok h -> assetIdHex t' = Ok h -> digest31 t = digest31 t'.
Proof.
  intros H1 H2 E1 E2. destruct (assetId_spec t H1) as (Hv & _ & Et & _), (assetId_spec t' H2) as (Hv' & _ & Et' & _).
  rewrite Et in E1. rewrite Et' in E2. rewrite <- E2 in E1. injection E1 as E1. apply hex32_inj in E1; [|lia..].
  apply valueBE_inj in E1 as [_ E1]; [done| |lia..]. unfold digest31. by rewrite !length_sliceTo, H1, H2.
Qed.
End Assets.
End Assets.
