(* ===== verification/Proving.v ===== *)
(** * Proof builders (packages/proving/src/paths.ts, env.ts, prove.ts)

    The Groth16 pipeline the prover, the relayer and the command line share:
    coinutils derives a circuit input from a note and the pool's leaves,
    snarkjs computes the witness, proves and verifies, and circom2soroban
    renders the result.  The three programs are child processes of [Host]. *)
From S2P Require Import Prelude JsText JsCollections Json Crypto Runtime Host Field Assets StellarUtils.
Import JsText Json Crypto Runtime Host Field.

Module Proving.

(** ** paths.ts *)
Section Paths.
Context `{Os} `{Env}.
Definition SHADE_ROOT : string := envOr "SHADE_ROOT" cwd.
Definition SHADE_SCRATCH_DIR : string := envOr "SHADE_SCRATCH_DIR" (resolve SHADE_ROOT ".scratch").
Definition ZK_REF : string := envOr "SHADE_ZK_REF" (resolve SHADE_ROOT ".zk-ref/soroban-examples/privacy-pools").
Definition COINUTILS_BIN : string := envOr "COINUTILS_BIN" (resolve ZK_REF "target/release/stellar-coinutils").
Definition CIRCOM2SOROBAN_BIN : string :=
  envOr "CIRCOM2SOROBAN_BIN" (resolve SHADE_ROOT "tools/circom2soroban/target/release/circom2soroban").
Definition CIRCUIT_BUILD_DIR : string := envOr "CIRCUIT_BUILD_DIR" (resolve SHADE_ROOT "circuits").
Definition withdrawCircuitDir : string := envOr "WITHDRAW_CIRCUIT_DIR" (resolve CIRCUIT_BUILD_DIR "withdraw_public").
Definition transferCircuitDir : string := envOr "TRANSFER_CIRCUIT_DIR" (resolve CIRCUIT_BUILD_DIR "private_transfer").
Definition depositCircuitDir : string := envOr "DEPOSIT_CIRCUIT_DIR" (resolve CIRCUIT_BUILD_DIR "deposit_note_mint").
Definition mpcSettlementCircuitDir : string := envOr "MPC_SETTLEMENT_CIRCUIT_DIR" (resolve CIRCUIT_BUILD_DIR "mpc_settlement").
Definition mpcPricedSettlementCircuitDir : string :=
  envOr "MPC_PRICED_SETTLEMENT_CIRCUIT_DIR" (resolve CIRCUIT_BUILD_DIR "mpc_priced_settlement").
(** Directories are not part of the file store: creating one changes nothing. *)
Definition scratchDir : string := SHADE_SCRATCH_DIR.
Definition SNARKJS_CLI : string := resolve SHADE_ROOT "node_modules/snarkjs/cli.js".
End Paths.

(** ** env.ts
    [dotenv] fills variables that are not set yet, file by file; then
    [.env.generated] overrides. *)
Definition loadRuntimeEnv (processEnv : EnvMap) (envFile : option string) : M Host EnvMap := fun h =>
  let quiet e path := match files h !! path with Some t => parseEnvText false e t | None => e end in
  let e := fold_left quiet [orElse envFile ".env"; ".env"; ".env.generated"; "../.env"] processEnv in
  (Ok (match files h !! ".env.generated" with Some t => parseEnvText true e t | None => e end), h).

(** ** prove.ts *)
Record GeneratedCoin := mkCoin {
  path : string; commitmentHex : string; commitmentDecimal : string; value7dp : string; coin_assetIdField : string }.
(** The members of a coin file; [coin] itself must be an object.  The members
    are strings in the files coinutils writes. *)
Definition coinOf (p : string) (c : json) : result GeneratedCoin :=
  match field c "coin" with
  | JObj _ as k => Ok (mkCoin p (strField c "commitment_hex") (strField k "commitment") (strField k "value") (strField k "asset_id"))
  | _ => Throw (Error None "TypeError: Cannot read properties of undefined")
  end.
Definition coinFromPath (p : string) : M Host GeneratedCoin := c ← readJson p; liftR (coinOf p c).
(** The note's opening: value, label, nullifier and secret. *)
Record Opening := mkOpening { o_value : string; o_label : string; o_nullifier : string; o_secret : string; o_assetId : string }.
Definition openingOf (c : json) : result Opening :=
  match field c "coin" with
  | JObj _ as k => Ok (mkOpening (strField k "value") (strField k "label") (strField k "nullifier") (strField k "secret") (strField k "asset_id"))
  | _ => Throw (Error None "TypeError: Cannot read properties of undefined")
  end.
Definition readOpening (coin : GeneratedCoin) : M Host Opening := c ← readJson (path coin); liftR (openingOf c).

Record WithdrawBinding := mkBinding {
  operationType : string; recipientHash : string; relayerFee : string; deadlineLedger : string;
  quoteHash : option string; intentHash : option string; fillReceiptHash : option string;
  destinationDomain : option string; destinationRecipient : option string; maxFee : option string;
  minFinalityThreshold : option string }.
Record DepositBinding := mkDeposit {
  sourceDomain : string; d_destinationDomain : string; cctpNonceHex : string; burnTxHashHex : string; amount6dp : string;
  amount7dp : string; assetStrkey : string; poolStrkey : string; encryptedNotePayloadHashHex : string; policyIdHex : string;
  poolId : string; chainId : string }.
Record NoteProof := mkNoteProof { n_proofHex : string; n_publicHex : string; n_stateRootHex : string; n_locallyVerified : bool }.
Record TransferProof := mkTransferProof {
  t_proofHex : string; t_publicHex : string; t_stateRootHex : string; t_associationRootHex : string;
  t_outputCommitmentHex : string; feePublic : string; outValue : string; t_locallyVerified : bool }.
Record DepositProof := mkDepositProof { d_proofHex : string; d_publicHex : string; d_commitmentHex : string; d_locallyVerified : bool }.

Definition recipient32ToField (hex : string) : result string := n ← BigInt ("0x" +:+ strip0x hex); mret (toString n).
Definition recipientHashField `{Sha256} (strkey : string) : result string := Assets.assetIdField strkey.
Definition stateText (commitments : list string) (scope : string) : string :=
  stringify (JObj [("commitments", JArr (map JStr commitments)); ("scope", JStr scope)]).
(** [/OK!/.test(out)]. *)
Definition saysOk (out : string) : bool := StellarUtils.includes out "OK!".

Section Prove.
Context `{Os} `{Env} `{Sha256}.

Definition snarkjs (args : list string) : M Host string := execFileSync "node" (SNARKJS_CLI :: args).
Definition coinutils (args : list string) : M Host string := execFileSync COINUTILS_BIN args.
Definition c2s (args : list string) : M Host string := out ← execFileSync CIRCOM2SOROBAN_BIN args; mret (trim out).
Definition CIRCUITS : string := withdrawCircuitDir.
Definition C2S : string := CIRCOM2SOROBAN_BIN.

Definition generateCoin (scope outPath assetIdField : string) : M Host GeneratedCoin :=
  coinutils ["generate"; scope; "-o"; outPath; "--asset-id"; assetIdField] ;;
  coinFromPath outPath.
Definition buildAssociationSet (coin : GeneratedCoin) (scratch tag : string) : M Host (string * string) :=
  o ← readOpening coin;
  let assocPath := scratch +:+ "/" +:+ tag +:+ "_assoc.json" in
  rmSync assocPath ;;
  coinutils ["update-association"; assocPath; o_label o] ;;
  a ← readJson assocPath;
  root ← liftR (hexRoot (field a "root"));
  mret (assocPath, root).
Definition computeStateRoot (coin : GeneratedCoin) (commitmentsDecimal : list string) (scope scratch tag : string)
    (assocPath : option string) : M Host string :=
  let statePath := scratch +:+ "/" +:+ tag +:+ "_rootstate.json" in
  writeFileSync statePath (stateText commitmentsDecimal scope) ;;
  let inputPath := scratch +:+ "/" +:+ tag +:+ "_rootinput.json" in
  coinutils (match truthyOpt assocPath with
             | Some a => ["withdraw"; path coin; statePath; a; "-o"; inputPath]
             | None => ["withdraw"; path coin; statePath; "-o"; inputPath]
             end) ;;
  input ← readJson inputPath;
  liftR (hexRoot (field input "stateRoot")).

(** The witness, the proof, its verification and its two renderings, for a
    circuit directory and the input file: what every builder does. *)
Record Groth16 := mkGroth16 { g_proofHex : string; g_publicHex : string; g_verified : bool }.
Definition groth16Run (dir inputPath wtns proofJson publicJson : string) : M Host bool :=
  snarkjs ["wtns"; "calculate"; dir +:+ "/build/main_js/main.wasm"; inputPath; wtns] ;;
  snarkjs ["groth16"; "prove"; dir +:+ "/output/main_final.zkey"; wtns; proofJson; publicJson] ;;
  verify ← snarkjs ["groth16"; "verify"; dir +:+ "/output/main_verification_key.json"; publicJson; proofJson];
  mret (saysOk verify).
Definition groth16 (dir inputPath wtns proofJson publicJson : string) : M Host Groth16 :=
  ok ← groth16Run dir inputPath wtns proofJson publicJson;
  proofHex ← c2s ["proof"; proofJson];
  publicHex ← c2s ["public"; publicJson];
  mret (mkGroth16 proofHex publicHex ok).

Definition buildTransferProof (coin : GeneratedCoin) (commitmentsDecimal : list string) (scope fee7dp scratch tag : string)
    (assocPath : option string) : M Host TransferProof :=
  let file s := scratch +:+ "/" +:+ tag +:+ s in
  writeFileSync (file "_xstate.json") (stateText commitmentsDecimal scope) ;;
  coinutils (["transfer"; path coin; file "_xstate.json"; fee7dp; "--out-scope"; scope +:+ "_out"; "-o"; file "_xfer.json";
              "--out-coin"; file "_xout.json"]
             ++ (match truthyOpt assocPath with Some a => ["--association-file"; a] | None => [] end)) ;;
  witness ← readJson (file "_xfer.json");
  g ← groth16 transferCircuitDir (file "_xfer.json") (file "_x.wtns") (file "_x_proof.json") (file "_x_public.json");
  stateRoot ← liftR (hexRoot (field witness "stateRoot"));
  assocRoot ← liftR (hexRoot (field witness "associationRoot"));
  outCommitment ← liftR (hexRoot (field witness "outputCommitment"));
  mret (mkTransferProof (g_proofHex g) (g_publicHex g) stateRoot assocRoot outCommitment
          (strField witness "feePublic") (strField witness "outValue") (g_verified g)).

Definition orZero (o : option string) : string := orElse o "0".
Definition bindingArgs (b : WithdrawBinding) : list string :=
  ["--operation-type"; operationType b; "--recipient-hash"; recipientHash b; "--relayer-fee"; relayerFee b;
   "--deadline-ledger"; deadlineLedger b; "--quote-hash"; orZero (quoteHash b); "--intent-hash"; orZero (intentHash b);
   "--fill-receipt-hash"; orZero (fillReceiptHash b); "--destination-domain"; orZero (destinationDomain b);
   "--destination-recipient"; orZero (destinationRecipient b); "--max-fee"; orZero (maxFee b);
   "--min-finality-threshold"; orZero (minFinalityThreshold b)].
Definition plainWithdraw : WithdrawBinding := mkBinding "1" "0" "0" "0" None None None None None None None.
Definition buildNoteProof (coin : GeneratedCoin) (commitmentsDecimal : list string) (scope scratch tag assocPath : string)
    (binding : option WithdrawBinding) : M Host NoteProof :=
  let b := orElse binding plainWithdraw in
  let file s := scratch +:+ "/" +:+ tag +:+ s in
  writeFileSync (file "_state.json") (stateText commitmentsDecimal scope) ;;
  coinutils (["withdraw"; path coin; file "_state.json"; assocPath; "-o"; file "_input.json"] ++ bindingArgs b) ;;
  input ← readJson (file "_input.json");
  stateRoot ← liftR (hexRoot (field input "stateRoot"));
  g ← groth16 CIRCUITS (file "_input.json") (file "_witness.wtns") (file "_proof.json") (file "_public.json");
  mret (mkNoteProof (g_proofHex g) (g_publicHex g) stateRoot (g_verified g)).

(** The circuit input of a deposit proof: the CCTP message and the note. *)
Definition depositInput (o : Opening) (b : DepositBinding) : result json :=
  cctpNonceHash ← hashToField (cctpNonceHex b);
  burnTxHashHash ← hashToField (sha256 (burnTxHashHex b));
  assetIdHash ← recipientHashField (assetStrkey b);
  recipientPool ← recipientHashField (poolStrkey b);
  payloadHash ← hashToField (encryptedNotePayloadHashHex b);
  policyIdHash ← hashToField (policyIdHex b);
  mret (JObj
    [("operationType", JStr "4"); ("sourceDomain", JStr (sourceDomain b)); ("destinationDomain", JStr (d_destinationDomain b));
     ("cctpNonceHash", JStr cctpNonceHash); ("burnTxHashHash", JStr burnTxHashHash); ("amount6dp", JStr (amount6dp b));
     ("amount7dp", JStr (amount7dp b)); ("assetIdHash", JStr assetIdHash); ("recipientPool", JStr recipientPool);
     ("encryptedNotePayloadHash", JStr payloadHash); ("policyIdHash", JStr policyIdHash); ("poolId", JStr (poolId b));
     ("chainId", JStr (chainId b)); ("value", JStr (o_value o)); ("label", JStr (o_label o)); ("nullifier", JStr (o_nullifier o));
     ("secret", JStr (o_secret o))]).
Definition buildDepositProof (coin : GeneratedCoin) (b : DepositBinding) (scratch tag : string) : M Host DepositProof :=
  o ← readOpening coin;
  input ← liftR (depositInput o b);
  let file s := scratch +:+ "/" +:+ tag +:+ s in
  writeFileSync (file "_dep_input.json") (stringify input) ;;
  g ← groth16 depositCircuitDir (file "_dep_input.json") (file "_dep.wtns") (file "_dep_proof.json") (file "_dep_public.json");
  mret (mkDepositProof (g_proofHex g) (g_publicHex g) (commitmentHex coin) (g_verified g)).

Lemma since_groth16 k dir i w p q : preserves (since k) (groth16 dir i w p q).
Proof. unfold groth16, groth16Run, snarkjs, c2s. auto 12 with preserve ticks. Qed.
Lemma since_depositProof k c b scratch tag : preserves (since k) (buildDepositProof c b scratch tag).
Proof.
  unfold buildDepositProof, readOpening. apply preserves_bind; [auto with preserve ticks|]. intros o.
  apply preserves_bind; [auto with preserve|]. intros i. cbv zeta. auto using since_groth16 with preserve ticks.
Qed.
End Prove.
#[export] Hint Resolve since_groth16 since_depositProof : ticks.
End Proving.
