(* ===== verification/Compliance.v ===== *)
(** * Compliance witnesses (packages/proving/src/compliance.ts)

    The allow-list membership and deny-list non-membership witness: the deny
    list is sorted, and non-membership is shown by two adjacent leaves around
    the label.  Theorem: the builder finds such leaves exactly when the label
    is allowed, the deny list is strictly ascending and has the label strictly
    between its ends but not among its leaves. *)
From S2P Require Import Prelude JsText JsCollections Json Crypto Runtime Host Field Proving.
From Stdlib Require Import Sorted.
Import JsText Json Crypto Runtime Host Field Proving.

Module Compliance.

Record MProof := mkMProof { root : json; leafIndex : json; siblings : json }.
Record ComplianceParams := mkParams {
  label : string; allowLabels : list string; denyLabels : list string; policyId : string; scratch : string; tag : string }.

(** [labels.indexOf(x)], [None] for -1. *)
Fixpoint indexOf (x : string) (l : list string) : option nat :=
  match l with
  | [] => None
  | y :: l' => if y ==? x then Some O else S <$> indexOf x l'
  end.
(** The loop that checks the order; [prev] is the element before the list. *)
Fixpoint checkSorted (prev : string) (l : list string) : result unit :=
  match l with
  | [] => Ok tt
  | x :: l' =>
      a ← BigInt x; b ← BigInt prev;
      if a <=? b then Throw (Error None "deny labels must be strictly sorted ascending") else checkSorted x l'
  end.
Definition sortedCheck (l : list string) : result unit := match l with [] => Ok tt | x :: l' => checkSorted x l' end.
(** The search for the leaves around the label, from index [i]. *)
Fixpoint findAdjacent (lab : string) (i : nat) (l : list string) : result (option nat) :=
  match l with
  | lo :: ((hi :: _) as l') =>
      a ← BigInt lo; v ← BigInt lab;
      if a <? v then b ← BigInt hi; if v <? b then Ok (Some i) else findAdjacent lab (S i) l'
      else findAdjacent lab (S i) l'
  | _ => Ok None
  end.

Section Compliance.
Context `{Os} `{Env}.

Definition complianceDir : string := envNullish "COMPLIANCE_CIRCUIT_DIR" (resolve CIRCUIT_BUILD_DIR "compliance_membership").
Definition hasComplianceArtifacts : M Host bool :=
  a ← existsSync (resolve complianceDir "build/main_js/main.wasm");
  if a : bool then existsSync (resolve complianceDir "output/main_final.zkey") else mret false.
Definition merkleProof (sc tg : string) (leaves : list string) (index : nat) : M Host MProof :=
  let statePath := sc +:+ "/" +:+ tg +:+ "_state.json" in
  writeFileSync statePath (stateText leaves "compliance") ;;
  out ← coinutils ["merkle-proof"; statePath; toString (Z.of_nat index); "--depth"; "2"];
  j ← liftR (parseJson (trim out));
  mret (mkMProof (field j "root") (field j "leafIndex") (field j "siblings")).

(** The choice of the leaves: the index in the allow list and the index of the
    lower deny leaf. *)
Definition chooseLeaves (p : ComplianceParams) : result (nat * nat) :=
  match indexOf (label p) (allowLabels p) with
  | None => Throw (Error None "label not in allow set")
  | Some allowIdx =>
      sortedCheck (denyLabels p) ;;
      lo ← findAdjacent (label p) 0 (denyLabels p);
      match lo with
      | None => Throw (Error None "no adjacent deny leaves bound the label (is it denied, or out of sentinel range?)")
      | Some i => Ok (allowIdx, i)
      end
  end.
Definition leafAt (l : list string) (i : nat) : string := nth i l "".
Definition buildComplianceWitness (p : ComplianceParams) : M Host json :=
  ix ← liftR (chooseLeaves p);
  let '(allowIdx, loIdx) := ix in
  allowP ← merkleProof (scratch p) (tag p +:+ "_allow") (allowLabels p) allowIdx;
  loP ← merkleProof (scratch p) (tag p +:+ "_lo") (denyLabels p) loIdx;
  hiP ← merkleProof (scratch p) (tag p +:+ "_hi") (denyLabels p) (loIdx + 1);
  mret (JObj
    [("allowRoot", root allowP); ("denyRoot", root loP); ("policyId", JStr (policyId p)); ("label", JStr (label p));
     ("allowIndex", JStr (toString (Z.of_nat allowIdx))); ("allowSiblings", siblings allowP);
     ("denyLo", JStr (leafAt (denyLabels p) loIdx)); ("denyLoIndex", JStr (toString (Z.of_nat loIdx)));
     ("denyLoSiblings", siblings loP); ("denyHi", JStr (leafAt (denyLabels p) (loIdx + 1)));
     ("denyHiIndex", JStr (toString (Z.of_nat (loIdx + 1)))); ("denyHiSiblings", siblings hiP)]).
Definition buildComplianceProof (p : ComplianceParams) : M Host (bool * json) :=
  built ← hasComplianceArtifacts;
  if negb built then failM "compliance_membership circuit not built; run npm run circuits:build"
  else
    w ← buildComplianceWitness p;
    let file s := scratch p +:+ "/" +:+ tag p +:+ s in
    writeFileSync (file "_comp_input.json") (stringify w) ;;
    ok ← groth16Run complianceDir (file "_comp_input.json") (file "_comp.wtns") (file "_comp_proof.json") (file "_comp_public.json");
    mret (ok, w).
Definition calcComplianceWitness (witnessJson : json) (sc tg : string) : M Host unit :=
  let inputPath := sc +:+ "/" +:+ tg +:+ "_comp_adv_input.json" in
  writeFileSync inputPath (stringify witnessJson) ;;
  snarkjs ["wtns"; "calculate"; resolve complianceDir "build/main_js/main.wasm"; inputPath; sc +:+ "/" +:+ tg +:+ "_comp_adv.wtns"] ;;
  mret tt.
End Compliance.

(** ** The choice is exact *)
Lemma indexOf_Some x l i : indexOf x l = Some i -> l !! i = Some x.
Proof.
  revert i. induction l as [|y l IH]; [done|]. intros i. cbn [indexOf]. destruct (bool_decide_reflect (y = x)) as [->|]; [by intros [= <-]|].
  intros (j & Ej & ->)%fmap_Some. by apply IH.
Qed.
Lemma indexOf_None x l : indexOf x l = None <-> x ∉ l.
Proof.
  induction l as [|y l IH]; cbn [indexOf]; [split; [intros _; apply not_elem_of_nil|done]|].
  rewrite not_elem_of_cons, <- IH. destruct (bool_decide_reflect (y = x)) as [->|]; [naive_solver|].
  rewrite fmap_None. naive_solver.
Qed.
(** The values of the leaves, which all parse. *)
Definition values (l : list string) (vs : list Z) : Prop := Forall2 (fun s v => BigInt s = Ok v) l vs.
Lemma checkSorted_iff x a l vs :
  BigInt x = Ok a -> values l vs -> checkSorted x l = Ok tt <-> StronglySorted Z.lt (a :: vs).
Proof.
  intros Hx Hl. revert x a Hx. induction Hl as [|s v l vs Hs Hl IH]; intros x a Hx; cbn [checkSorted].
  { split; [intros _; by repeat constructor|done]. }
  rewrite Hs, Hx. cbn. destruct (Z.leb_spec v a) as [Hle|Hlt].
  - split; [done|]. intros Hsort. inversion Hsort as [|?? Hs' Hf]; subst. apply Forall_cons in Hf as [Hf _]. lia.
  - rewrite (IH s v Hs). split; intros Hsort.
    + constructor; [done|]. inversion Hsort as [|?? Hs' Hf]; subst. constructor; [lia|]. eapply Forall_impl; [exact Hf|]. intros; simpl in *; lia.
    + by inversion Hsort.
Qed.
Lemma sortedCheck_iff l vs : values l vs -> sortedCheck l = Ok tt <-> StronglySorted Z.lt vs.
Proof. destruct 1 as [|x a l vs Hx Hl]; [split; [constructor|done]|]. cbn [sortedCheck]. by apply checkSorted_iff. Qed.
Lemma findAdjacent_step lab i lo hi l a v b : BigInt lo = Ok a -> BigInt lab = Ok v -> BigInt hi = Ok b ->
  findAdjacent lab i (lo :: hi :: l) =
    if a <? v then if v <? b then Ok (Some i) else findAdjacent lab (S i) (hi :: l) else findAdjacent lab (S i) (hi :: l).
Proof.
  intros Ha Hv Hb. change (findAdjacent lab i (lo :: hi :: l)) with
    (a ← BigInt lo; v ← BigInt lab;
     if a <? v then b ← BigInt hi; if v <? b then Ok (Some i) else findAdjacent lab (S i) (hi :: l) else findAdjacent lab (S i) (hi :: l)).
  by rewrite Ha, Hv, Hb.
Qed.
Lemma findAdjacent_run lab v i l vs : BigInt lab = Ok v -> values l vs ->
  exists r, findAdjacent lab i l = Ok r /\
    (forall j, r = Some j -> exists lo hi, (i <= j)%nat /\ vs !! (j - i)%nat = Some lo /\ vs !! (S j - i)%nat = Some hi /\ lo < v < hi) /\
    (r = None -> forall j lo hi, vs !! j = Some lo -> vs !! S j = Some hi -> ~ lo < v < hi).
Proof.
  intros Hv Hl. revert i. induction Hl as [|lo a l vs Ha Hl IH]; intros i.
  { exists None. split; [done|]. split; [done|]. intros _ j lo hi E. by destruct j. }
  destruct Hl as [|hi b l vs Hb Hl].
  { exists None. split; [done|]. split; [done|]. intros _ [|j] x y E1 E2; done. }
  destruct (IH (S i)) as (r & Er & Hs & Hn). rewrite (findAdjacent_step lab i lo hi l a v b) by done.
  destruct (Z.ltb_spec a v) as [Hav|Hav].
  - destruct (Z.ltb_spec v b) as [Hvb|Hvb].
    + exists (Some i). split; [done|]. split; [|done]. intros j [= <-]. exists a, b. rewrite Nat.sub_diag.
      replace (S i - i)%nat with 1%nat by lia. by split_and!; try done; lia.
    + exists r. split; [exact Er|]. split.
      * intros j Ej. destruct (Hs j Ej) as (x & y & Hj & E1 & E2 & Hxy). exists x, y.
        replace (j - i)%nat with (S (j - S i)) by lia. replace (S j - i)%nat with (S (S j - S i)) by lia. split_and!; done || lia.
      * intros En [|j] x y E1 E2; [cbn in E1, E2; simplify_eq; lia|]. by apply (Hn En j).
  - exists r. split; [exact Er|]. split.
    + intros j Ej. destruct (Hs j Ej) as (x & y & Hj & E1 & E2 & Hxy). exists x, y.
      replace (j - i)%nat with (S (j - S i)) by lia. replace (S j - i)%nat with (S (S j - S i)) by lia. split_and!; done || lia.
    + intros En [|j] x y E1 E2; [cbn in E1, E2; simplify_eq; lia|]. by apply (Hn En j).
Qed.

Lemma sorted_between vs : StronglySorted Z.lt vs -> forall v j lo hi,
  vs !! j = Some lo -> vs !! S j = Some hi -> lo < v < hi -> v ∉ vs.
Proof.
  induction 1 as [|a vs Hs IH Hf]; intros v j lo hi E1 E2 Hv; [by rewrite lookup_nil in E1|].
  rewrite not_elem_of_cons. rewrite Forall_forall in Hf. destruct j as [|j]; cbn in E1, E2.
  - injection E1 as ->. split; [lia|]. destruct vs as [|b vs]; [done|]. injection E2 as ->. rewrite not_elem_of_cons. split; [lia|].
    intros Hin. inversion Hs as [|?? _ Hf']; subst. rewrite Forall_forall in Hf'. specialize (Hf' v Hin). lia.
  - split; [|exact (IH v j lo hi E1 E2 Hv)]. specialize (Hf lo (list_elem_of_lookup_2 vs j lo E1)). lia.
Qed.
Lemma sorted_bracket vs v a : StronglySorted Z.lt (a :: vs) -> v ∉ a :: vs -> a < v -> (exists b, b ∈ vs /\ v < b) ->
  exists j lo hi, (a :: vs) !! j = Some lo /\ (a :: vs) !! S j = Some hi /\ lo < v < hi.
Proof.
  revert a. induction vs as [|c vs IH]; intros a Hs Hn Ha (b & Hb & Hvb); [by apply elem_of_nil in Hb|].
  rewrite not_elem_of_cons in Hn. destruct Hn as [Hne Hn]. destruct (Z.ltb_spec v c) as [Hvc|Hvc]; [by exists 0%nat, a, c|].
  rewrite not_elem_of_cons in Hn. destruct Hn as [Hnc Hn]. apply elem_of_cons in Hb as [->|Hb]; [lia|].
  inversion Hs as [|?? Hs' _]; subst. destruct (IH c) as (j & lo & hi & E1 & E2 & Hv); [done|by rewrite not_elem_of_cons|lia|by exists b|].
  by exists (S j), lo, hi.
Qed.

(** C23. The deny check is exact: with a label and deny leaves that are
    integers, leaves are chosen exactly when the label is on the allow list,
    the deny leaves ascend strictly, and the label lies between the outermost
    of them without being one of them; the chosen allow leaf is the label, and
    the chosen deny leaves are adjacent and enclose it. *)
Theorem compliance_exact p v vs :
  BigInt (label p) = Ok v -> values (denyLabels p) vs ->
  ((exists ix, chooseLeaves p = Ok ix) <->
     label p ∈ allowLabels p /\ StronglySorted Z.lt vs /\ v ∉ vs /\ exists lo hi, lo ∈ vs /\ hi ∈ vs /\ lo < v < hi) /\
  (forall ai di, chooseLeaves p = Ok (ai, di) ->
     allowLabels p !! ai = Some (label p) /\
     exists lo hi, vs !! di = Some lo /\ vs !! S di = Some hi /\ lo < v < hi).
Proof.
  intros Hv Hvs. destruct (findAdjacent_run (label p) v 0 (denyLabels p) vs Hv Hvs) as (r & Er & Hs & Hn).
  pose proof (sortedCheck_iff (denyLabels p) vs Hvs) as Hsort. unfold chooseLeaves. destruct (indexOf _ _) as [ai|] eqn:Ei.
  2:{ apply indexOf_None in Ei. split; [split; [by intros [? ?]|by intros [? _]]|done]. }
  apply indexOf_Some in Ei. assert (label p ∈ allowLabels p) as Hin by (by eapply list_elem_of_lookup_2).
  destruct (sortedCheck (denyLabels p)) as [[]|e]; cbn.
  2:{ split; [|done]. split; [by intros [? ?]|]. intros (_ & H & _). by apply Hsort in H. }
  rewrite Er. cbn. pose proof (proj1 Hsort eq_refl) as Hss. destruct r as [di|].
  - destruct (Hs di eq_refl) as (lo & hi & _ & E1 & E2 & Hlh). rewrite Nat.sub_0_r in E1, E2. split.
    + split; [intros _|by eexists]. split; [done|]. split; [done|].
      split; [by apply (sorted_between vs Hss v di lo hi)|]. exists lo, hi.
      split; [exact (list_elem_of_lookup_2 vs di lo E1)|]. split; [exact (list_elem_of_lookup_2 vs (S di) hi E2)|done].
    + intros ai' di' [= <- <-]. split; [done|]. by exists lo, hi.
  - split; [|done]. split; [by intros [? ?]|]. intros (_ & _ & Hnv & lo & hi & Hlo & Hhi & Hlh). exfalso.
    destruct vs as [|a vs]; [by apply elem_of_nil in Hlo|]. inversion Hss as [|?? _ Hf]; subst. rewrite Forall_forall in Hf.
    assert (a < v) as Hav by (apply elem_of_cons in Hlo as [->|Hlo]; [lia|specialize (Hf lo Hlo); lia]).
    assert (exists b, b ∈ vs /\ v < b) as Hb by (apply elem_of_cons in Hhi as [->|Hhi]; [lia|exists hi; split; [done|lia]]).
    destruct (sorted_bracket vs v a Hss Hnv Hav Hb) as (j & x & y & E1 & E2 & Hxy). exact (Hn eq_refl j x y E1 E2 Hxy).
Qed.
Lemma compliance_exact_witness :
  let p := mkParams "25" ["7"; "25"] ["0"; "20"; "30"; "1000"] "1" "/s" "t" in
  chooseLeaves p = Ok (1%nat, 1%nat) /\ ["7"; "25"] !! 1%nat = Some "25" /\ exists ix, chooseLeaves p = Ok ix.
Proof.
  intros p. assert (values (denyLabels p) [0; 20; 30; 1000]) as Hvs by (repeat constructor).
  destruct (compliance_exact p 25 [0; 20; 30; 1000] eq_refl Hvs) as [Hiff Hix].
  assert (chooseLeaves p = Ok (1%nat, 1%nat)) as E by reflexivity. split; [exact E|]. split; [exact (proj1 (Hix _ _ E))|].
  apply Hiff. split; [apply (bool_decide_unpack _); vm_compute; exact I|]. split; [repeat constructor; reflexivity|].
  split; [apply (bool_decide_unpack _); vm_compute; exact I|]. exists 20, 30. split; [apply (bool_decide_unpack _); vm_compute; exact I|].
  split; [apply (bool_decide_unpack _); vm_compute; exact I|lia].
Defined.
End Compliance.
