(* ===== verification/MpcProving.v ===== *)
(** * Settlement witnesses
      (packages/proving/src/mpc-settlement.ts, packages/proving/src/mpc-priced.ts)

    The circuit inputs of a committee-matched pair: the same-asset crossing,
    where both parties receive the matched amount, and the priced cross-asset
    one.  Theorems: what a witness that is built guarantees about assets,
    amounts and fresh output notes. *)
From S2P Require Import Prelude JsText JsCollections Json Crypto Runtime Host Field Proving.
Import JsText Json Crypto Runtime Host Field Proving.

Module MpcProving.

Definition BN254_P : Z := 21888242871839275222246405745257275088548364400416034343698204186575808495617.

(** An output note the builder invents. *)
Record NotePreimage := mkPreimage { p_value : string; p_label : string; p_nullifier : string; p_secret : string }.
Record MpcSettlementParams := mkSettlement {
  coinA : GeneratedCoin; coinB : GeneratedCoin; commitmentsDecimal : list string; assocPath : string; scope : string;
  batchHashHex : string; poolId : string; chainId : string; matchedAmount7dp : string; deadlineLedger : string;
  scratch : string; tag : string }.
Record MpcSettlementProof := mkMpcProof {
  proofHex : string; publicHex : string; nullifierHashAHex : string; nullifierHashBHex : string;
  outputCommitmentAHex : string; outputCommitmentBHex : string; outPreimageA : NotePreimage; outPreimageB : NotePreimage;
  locallyVerified : bool }.
Record PricedParams := mkPricedParams {
  coinX : GeneratedCoin; coinY : GeneratedCoin; x_commitmentsDecimal : list string; x_assocPath : string; x_scope : string;
  x_batchHashHex : string; x_poolId : string; x_chainId : string; priceScaled : string; minOutputA : string; minOutputB : string;
  x_deadlineLedger : string; x_scratch : string; x_tag : string }.
Record PricedProof := mkPricedProof {
  pp_proofHex : string; pp_publicHex : string; pp_locallyVerified : bool; pp_witnessJson : json; pp_nullifierHashA : string;
  pp_nullifierHashB : string; pp_outputCommitmentA : string; pp_outputCommitmentB : string }.

Definition MpcCircuitNotBuiltError : error :=
  Error None "mpc_settlement circuit not compiled yet. Run: bash circuits/mpc_settlement/build.sh".
(** The bindings of a [coinutils withdraw] that is only run for its paths. *)
Definition dummyBindings (operationType : string) : list string :=
  ["--operation-type"; operationType; "--recipient-hash"; "0"; "--relayer-fee"; "0"; "--deadline-ledger"; "0"; "--quote-hash"; "0";
   "--intent-hash"; "0"; "--fill-receipt-hash"; "0"; "--destination-domain"; "0"; "--destination-recipient"; "0"; "--max-fee"; "0";
   "--min-finality-threshold"; "0"].

Section Mpc.
Context `{Os} `{Env} `{Random}.

Definition artifactsIn (files : list string) (dir : string) : M Host bool :=
  (fix go files := match files with
                   | [] => mret true
                   | f :: fs => e ← existsSync (resolve dir f); if e : bool then go fs else mret false
                   end) files.
Definition hasMpcSettlementArtifacts : M Host bool :=
  artifactsIn ["build/main_js/main.wasm"; "output/main_final.zkey"; "output/main_verification_key.json"] mpcSettlementCircuitDir.
Definition hasMpcPricedArtifacts : M Host bool :=
  artifactsIn ["build/main_js/main.wasm"; "output/main_final.zkey"; "output/main_verification_key.json"] mpcPricedSettlementCircuitDir.
(** [BigInt("0x" + randomBytes(31).toString("hex")) % BN254_P]. *)
Definition randField : M Host string := b ← draw 31; n ← liftR (BigInt ("0x" +:+ hexEncode b)); mret (toString (Z.rem n BN254_P)).
Definition freshNote (value : string) : M Host NotePreimage :=
  l ← randField; n ← randField; s ← randField; mret (mkPreimage value l n s).

(** [coinutils withdraw] for one note, and the input file it writes. *)
Definition withdrawPaths (coin : GeneratedCoin) (statePath assoc out op : string) : M Host unit :=
  execFileSync COINUTILS_BIN (["withdraw"; path coin; statePath; assoc; "-o"; out] ++ dummyBindings op) ;; mret tt.
Definition noteSide (w : json) (pre : Opening) (s : string) : list (string * json) :=
  [("label" +:+ s, JStr (o_label pre)); ("value" +:+ s, JStr (o_value pre)); ("nullifier" +:+ s, JStr (o_nullifier pre));
   ("secret" +:+ s, JStr (o_secret pre)); ("stateIndex" +:+ s, field w "stateIndex"); ("stateSiblings" +:+ s, field w "stateSiblings");
   ("labelIndex" +:+ s, field w "labelIndex"); ("labelSiblings" +:+ s, field w "labelSiblings")].
Definition outSide (n : NotePreimage) (s : string) : list (string * json) :=
  [("outValue" +:+ s, JStr (p_value n)); ("outLabel" +:+ s, JStr (p_label n)); ("outNullifier" +:+ s, JStr (p_nullifier n));
   ("outSecret" +:+ s, JStr (p_secret n))].
Definition buildMpcSettlementWitness (p : MpcSettlementParams) : M Host (json * NotePreimage * NotePreimage) :=
  let file s := scratch p +:+ "/" +:+ tag p +:+ s in
  let statePath := file "_mpc_state.json" in
  writeFileSync statePath (stateText (commitmentsDecimal p) (scope p)) ;;
  withdrawPaths (coinA p) statePath (assocPath p) (file "_mpc_coinA_withdraw.json") "1" ;;
  withdrawPaths (coinB p) statePath (assocPath p) (file "_mpc_coinB_withdraw.json") "1" ;;
  wA ← readJson (file "_mpc_coinA_withdraw.json");
  wB ← readJson (file "_mpc_coinB_withdraw.json");
  let assetId := coin_assetIdField (coinA p) in
  guardM (truthy assetId && (assetId ==? coin_assetIdField (coinB p)))
    (Error None "mpc_settlement is same-asset only: coinA and coinB must share one assetId") ;;
  preA ← readOpening (coinA p);
  preB ← readOpening (coinB p);
  outA ← freshNote (matchedAmount7dp p);
  outB ← freshNote (matchedAmount7dp p);
  batchHash ← liftR (hashToField (batchHashHex p));
  mret (JObj
    ([("stateRoot", field wA "stateRoot"); ("associationRoot", field wA "associationRoot"); ("batchHash", JStr batchHash);
      ("poolId", JStr (poolId p)); ("chainId", JStr (chainId p)); ("matchedAmount7dp", JStr (matchedAmount7dp p));
      ("deadlineLedger", JStr (deadlineLedger p)); ("assetId", JStr assetId)]
     ++ noteSide wA preA "A" ++ outSide outA "A" ++ noteSide wB preB "B" ++ outSide outB "B"), outA, outB).

Definition publicSignal (pub : json) (i : nat) : M Host string :=
  match pub with
  | JArr l => liftR (hexRoot (nth i l JNull))
  | _ => failM "Cannot convert undefined to a BigInt"
  end.
Definition buildMpcSettlementProof (p : MpcSettlementParams) : M Host MpcSettlementProof :=
  built ← hasMpcSettlementArtifacts;
  if negb built then throwM MpcCircuitNotBuiltError
  else
    w ← buildMpcSettlementWitness p;
    let '(witnessJson, outA, outB) := w in
    let file s := scratch p +:+ "/" +:+ tag p +:+ s in
    writeFileSync (file "_mpc_witness.json") (stringify witnessJson) ;;
    ok ← groth16Run mpcSettlementCircuitDir (file "_mpc_witness.json") (file "_mpc.wtns") (file "_mpc_proof.json") (file "_mpc_public.json");
    pub ← readJson (file "_mpc_public.json");
    proof ← c2s ["proof"; file "_mpc_proof.json"];
    public ← c2s ["public"; file "_mpc_public.json"];
    nA ← publicSignal pub 0; nB ← publicSignal pub 1; cA ← publicSignal pub 2; cB ← publicSignal pub 3;
    mret (mkMpcProof proof public nA nB cA cB outA outB ok).

(** ** The priced pair *)
(** The amounts of a priced pair: all of X, and X at the price, rounded down. *)
Definition pricedAmounts (valueX valueY priceText : string) : result (Z * Z) :=
  matchedA ← BigInt valueX;
  priceScaled ← BigInt priceText;
  let matchedB := Z.quot (matchedA * priceScaled) 1000000000 in
  if toString matchedB ==? valueY then Ok (matchedA, matchedB)
  else Throw (Error None ("priced witness: coinY value " +:+ valueY +:+ " != floor(matchedA*price/1e9)=" +:+ toString matchedB
                          +:+ " (choose notes/price so they match)")).
Definition freshFields : M Host (string * string * string) := l ← randField; n ← randField; s ← randField; mret (l, n, s).
Definition pricedSide (w : json) (pre : Opening) (s : string) : list (string * json) :=
  [("label" +:+ s, JStr (o_label pre)); ("nullifier" +:+ s, JStr (o_nullifier pre)); ("secret" +:+ s, JStr (o_secret pre));
   ("stateIndex" +:+ s, field w "stateIndex"); ("stateSiblings" +:+ s, field w "stateSiblings");
   ("labelIndex" +:+ s, field w "labelIndex"); ("labelSiblings" +:+ s, field w "labelSiblings")].
Definition pricedOut (o : string * string * string) (s : string) : list (string * json) :=
  [("outLabel" +:+ s, JStr o.1.1); ("outNullifier" +:+ s, JStr o.1.2); ("outSecret" +:+ s, JStr o.2)].
Definition buildMpcPricedWitness (p : PricedParams) : M Host json :=
  let file s := x_scratch p +:+ "/" +:+ x_tag p +:+ s in
  let statePath := file "_priced_state.json" in
  writeFileSync statePath (stateText (x_commitmentsDecimal p) (x_scope p)) ;;
  withdrawPaths (coinX p) statePath (x_assocPath p) (file "_priced_wX.json") "0" ;;
  withdrawPaths (coinY p) statePath (x_assocPath p) (file "_priced_wY.json") "0" ;;
  wX ← readJson (file "_priced_wX.json");
  wY ← readJson (file "_priced_wY.json");
  preX ← readOpening (coinX p);
  preY ← readOpening (coinY p);
  guardM (negb (o_assetId preX ==? o_assetId preY))
    (Error None "priced settlement requires a genuine cross-asset (assetX != assetY)") ;;
  am ← liftR (pricedAmounts (o_value preX) (o_value preY) (priceScaled p));
  batchHash ← liftR (hashToField (x_batchHashHex p));
  outA ← freshFields;
  outB ← freshFields;
  mret (JObj
    ([("stateRoot", field wX "stateRoot"); ("associationRoot", field wX "associationRoot"); ("batchHash", JStr batchHash);
      ("poolId", JStr (x_poolId p)); ("chainId", JStr (x_chainId p)); ("deadlineLedger", JStr (x_deadlineLedger p));
      ("inputAssetA", JStr (o_assetId preX)); ("outputAssetA", JStr (o_assetId preY)); ("inputAssetB", JStr (o_assetId preY));
      ("outputAssetB", JStr (o_assetId preX)); ("matchedAmountA", JStr (toString am.1)); ("matchedAmountB", JStr (toString am.2));
      ("priceScaled", JStr (priceScaled p)); ("priceScale", JStr "1000000000"); ("minOutputA", JStr (minOutputA p));
      ("minOutputB", JStr (minOutputB p))]
     ++ pricedSide wX preX "A" ++ pricedSide wY preY "B" ++ pricedOut outA "A" ++ pricedOut outB "B")).
(** Here an empty [CIRCOM2SOROBAN_BIN] is kept ([??], not [||]). *)
Definition pricedC2s (args : list string) : M Host string :=
  out ← execFileSync (envNullish "CIRCOM2SOROBAN_BIN" (resolve SHADE_ROOT "tools/circom2soroban/target/release/circom2soroban")) args;
  mret (trim out).
Definition buildMpcPricedProof (p : PricedParams) : M Host PricedProof :=
  built ← hasMpcPricedArtifacts;
  if negb built then failM "mpc_priced_settlement circuit not built; run npm run circuits:build"
  else
    w ← buildMpcPricedWitness p;
    let file s := x_scratch p +:+ "/" +:+ x_tag p +:+ s in
    writeFileSync (file "_priced_input.json") (stringify w) ;;
    ok ← groth16Run mpcPricedSettlementCircuitDir (file "_priced_input.json") (file "_priced.wtns") (file "_priced_proof.json")
           (file "_priced_public.json");
    pub ← readJson (file "_priced_public.json");
    proof ← pricedC2s ["proof"; file "_priced_proof.json"];
    public ← pricedC2s ["public"; file "_priced_public.json"];
    nA ← publicSignal pub 0; nB ← publicSignal pub 1; cA ← publicSignal pub 2; cB ← publicSignal pub 3;
    mret (mkPricedProof proof public ok w nA nB cA cB).
Definition calcPricedWitness (witnessJson : json) (sc tg : string) : M Host unit :=
  let inputPath := sc +:+ "/" +:+ tg +:+ "_priced_adv_input.json" in
  writeFileSync inputPath (stringify witnessJson) ;;
  snarkjs ["wtns"; "calculate"; resolve mpcPricedSettlementCircuitDir "build/main_js/main.wasm"; inputPath;
           sc +:+ "/" +:+ tg +:+ "_priced_adv.wtns"] ;;
  mret tt.

(** ** What a witness guarantees *)
Lemma freshNote_value v h n h' : freshNote v h = (Ok n, h') -> p_value n = v.
Proof.
  unfold freshNote. intros Hr. bind_ok Hr as l s1 E1. bind_ok Hr as m s2 E2. bind_ok Hr as k s3 E3. by apply ret_Ok in Hr as [-> _].
Qed.
(** A same-asset witness: both notes have the one non-empty asset that the
    witness names, and each party's new note is worth the matched amount. *)
Lemma settlement_witness_same_asset p h w outA outB h' :
  buildMpcSettlementWitness p h = (Ok (w, outA, outB), h') ->
  coin_assetIdField (coinA p) = coin_assetIdField (coinB p) /\ coin_assetIdField (coinA p) ≠ "" /\
  field w "assetId" = JStr (coin_assetIdField (coinA p)) /\ field w "matchedAmount7dp" = JStr (matchedAmount7dp p) /\
  p_value outA = matchedAmount7dp p /\ p_value outB = matchedAmount7dp p.
Proof.
  unfold buildMpcSettlementWitness. cbv zeta. intros Hr. bind_ok Hr as u1 s1 E1. bind_ok Hr as u2 s2 E2. bind_ok Hr as u3 s3 E3.
  bind_ok Hr as wA s4 E4. bind_ok Hr as wB s5 E5. bind_ok Hr as u6 s6 E6. apply guardM_Ok in E6 as [Hg ->].
  apply andb_true_iff in Hg as [Ht Ha%bool_decide_eq_true]. bind_ok Hr as preA s7 E7. bind_ok Hr as preB s8 E8.
  bind_ok Hr as oA s9 E9. bind_ok Hr as oB s10 E10. bind_ok Hr as bh s11 E11. apply ret_Ok in Hr as [[= -> -> ->] _].
  apply freshNote_value in E9, E10. split_and!; try done. unfold truthy in Ht. by apply negb_true_iff, bool_decide_eq_false in Ht.
Qed.
(** The amounts of a priced pair: accepted exactly when Y's note is worth X's
    at the price, rounded down. *)
Lemma pricedAmounts_iff x price y a b :
  0 <= x -> 0 <= price ->
  pricedAmounts (toString x) y (toString price) = Ok (a, b) <-> a = x /\ b = x * price / 1000000000 /\ y = toString b.
Proof.
  intros Hx Hp. unfold pricedAmounts. rewrite !BigInt_toString. cbn. rewrite Z.quot_div_nonneg by nia.
  destruct (bool_decide_reflect (toString (x * price / 1000000000) = y)) as [E|E]; split.
  - by intros [= <- <-].
  - by intros (-> & -> & _).
  - done.
  - intros (_ & -> & ->). done.
Qed.
End Mpc.
End MpcProving.
