(* ===== verification/NoteVault.v ===== *)
(** * The encrypted note vault
      (packages/note-vault/src/index.ts, the same file in frontend/lib)

    A random master key encrypts the vault under the owner's AAD and is itself
    wrapped by recovery methods; the backend only sees the envelope.
    Theorems: every recovery method gives the vault back, an envelope passes
    the plaintext gate exactly when no forbidden name occurs in it, at any
    depth, and what the recovery policy counts.  Random bytes are arguments;
    AES-GCM, HKDF and PBKDF2 belong to WebCrypto and are parameters. *)
From S2P Require Import Prelude JsText JsCollections Json Jsonb Crypto Base64 Database Runtime.
From Stdlib Require Import Ascii ZifyBool.
Import JsText Json Crypto Base64 Runtime.

Module NoteVault.

(** [deriveBits] for 256 bits: HKDF-SHA-256 with an info string, and
    PBKDF2-SHA-256 with an iteration count. *)
Class Kdf := { hkdf : bytes -> bytes -> string -> bytes; pbkdf2 : string -> bytes -> Z -> bytes }.
Class KdfLaws `{Kdf} : Prop := {
  hkdf_length ikm salt info : String.length (hkdf ikm salt info) = 32%nat;
  pbkdf2_length password salt n : String.length (pbkdf2 password salt n) = 32%nat
}.

(** ** Types *)
Record NotePreimage := mkPreimage {
  owner_secret : string; spend_secret : string; blinding : string; nonce : string;
  memo_commitment : string; compliance_tag : string; source_context : string }.
Record VaultNote := mkNote {
  commitment : string; asset_id : string; amount_7dp : string; note_preimage : NotePreimage;
  deposit_id : option string; note_status : string; note_created_at : string }.
Record NoteVault := mkVault {
  vault_id : string; created_at : string; updated_at : string; notes : list VaultNote }.
Record VaultWrapper := mkWrapper {
  w_id : string; w_type : string; w_status : string; kdf : string; salt : string; wrapped_key : string;
  diagnostic_only : option bool; w_metadata : list (string * json) }.
Record VaultAad := mkAad { a_app : string; a_origin : string; a_vault_id : string; a_privy_user_id : string; a_vault_version : Z }.
Record EncryptedVaultEnvelope := mkEnvelope {
  e_vault_id : string; e_privy_user_id : string; e_iv : string; e_aad : VaultAad;
  e_ciphertext : string; e_wrappers : list VaultWrapper }.

Definition preimageJson (p : NotePreimage) : json :=
  JObj [("owner_secret", JStr (owner_secret p)); ("spend_secret", JStr (spend_secret p));
        ("blinding", JStr (blinding p)); ("nonce", JStr (nonce p)); ("memo_commitment", JStr (memo_commitment p));
        ("compliance_tag", JStr (compliance_tag p)); ("source_context", JStr (source_context p))].
Definition noteJson (n : VaultNote) : json :=
  JObj ([("commitment", JStr (commitment n)); ("asset_id", JStr (asset_id n)); ("amount_7dp", JStr (amount_7dp n));
         ("note_preimage", preimageJson (note_preimage n))]
        ++ match deposit_id n with Some d => [("deposit_id", JStr d)] | None => [] end
        ++ [("status", JStr (note_status n)); ("created_at", JStr (note_created_at n))]).
Definition vaultJson (v : NoteVault) : json :=
  JObj [("version", JStr "shade-note-vault-v1"); ("vault_id", JStr (vault_id v)); ("created_at", JStr (created_at v));
        ("updated_at", JStr (updated_at v)); ("notes", JArr (map noteJson (notes v)))].
Definition aadJson (a : VaultAad) : json :=
  JObj [("app", JStr (a_app a)); ("origin", JStr (a_origin a)); ("vault_id", JStr (a_vault_id a));
        ("privy_user_id", JStr (a_privy_user_id a)); ("vault_version", JNum (a_vault_version a))].
Definition wrapperJson (w : VaultWrapper) : json :=
  JObj ([("id", JStr (w_id w)); ("type", JStr (w_type w)); ("status", JStr (w_status w)); ("kdf", JStr (kdf w));
         ("salt", JStr (salt w)); ("wrapped_key", JStr (wrapped_key w))]
        ++ match diagnostic_only w with Some b => [("diagnostic_only", JBool b)] | None => [] end
        ++ [("metadata", JObj (w_metadata w))]).
Definition envelopeJson (e : EncryptedVaultEnvelope) : json :=
  JObj [("version", JStr "shade-encrypted-vault-v1"); ("vault_id", JStr (e_vault_id e));
        ("privy_user_id", JStr (e_privy_user_id e));
        ("cipher", JObj [("name", JStr "AES-256-GCM"); ("iv", JStr (e_iv e)); ("tagLength", JNum 128)]);
        ("aad", aadJson (e_aad e)); ("ciphertext", JStr (e_ciphertext e));
        ("wrappers", JArr (map wrapperJson (e_wrappers e)))].

(** ** Security gates *)
Definition PLAINTEXT_FORBIDDEN : list string :=
  ["owner_secret"; "spend_secret"; "blinding"; "nonce"; "note_preimage"; "vault_master_key"; "raw_signature"; "private_key"; "secret"].
Definition forbidden (k : string) : bool := bool_decide (k ∈ PLAINTEXT_FORBIDDEN).
(** The first forbidden key [walk] meets. *)
Fixpoint firstForbidden (v : json) : option string :=
  match v with
  | JArr l =>
      (fix items (l : list json) : option string :=
         match l with
         | [] => None
         | x :: l => match firstForbidden x with Some k => Some k | None => items l end
         end) l
  | JObj kvs =>
      (fix members (kvs : list (string * json)) : option string :=
         match kvs with
         | [] => None
         | (k, val) :: kvs =>
             if forbidden k then Some k
             else match firstForbidden val with Some k' => Some k' | None => members kvs end
         end) kvs
  | _ => None
  end.
Definition assertNoPlaintextNoteFields (v : json) : result unit :=
  match firstForbidden v with
  | None => Ok tt
  | Some k => Throw (Error None ("plaintext note field " +:+ String dquote (k +:+ String dquote " is forbidden in stored/transmitted vault data")))
  end.
Definition redacted (k : string) : bool := forbidden k || (k ==? "wrapped_key") || (k ==? "ciphertext").
Fixpoint redactVaultForLogs (v : json) : json :=
  match v with
  | JArr l => JArr (map redactVaultForLogs l)
  | JObj kvs => JObj (map (fun kv => (kv.1, if redacted kv.1 then JStr "[REDACTED]" else redactVaultForLogs kv.2)) kvs)
  | _ => v
  end.
(** [x?.f] and [x.f] read [JNull] when absent. *)
Definition validateVaultEnvelope (env : json) : result unit :=
  if negb (field env "version" ==? JStr "shade-encrypted-vault-v1") then Throw (Error None "bad envelope version")
  else if negb (truthyJson (field env "vault_id")) || negb (truthyJson (field env "privy_user_id"))
       || negb (truthyJson (field env "ciphertext")) || negb (field (field env "cipher") "name" ==? JStr "AES-256-GCM")
  then Throw (Error None "malformed envelope")
  else match field env "wrappers" with
       | JArr _ => assertNoPlaintextNoteFields env
       | _ => Throw (Error None "envelope missing wrappers")
       end.
Definition parseVaultEnvelope (text : string) : result json :=
  match parse text with
  | None => Throw (Error None "SyntaxError")
  | Some env => match validateVaultEnvelope env with Ok _ => Ok env | Throw e => Throw e end
  end.

(** ** Vault construction *)
Definition generateNotePreimage (h : nat -> bytes) : NotePreimage :=
  mkPreimage (hexEncode (h 0%nat)) (hexEncode (h 1%nat)) (hexEncode (h 2%nat)) (hexEncode (h 3%nat))
    (hexEncode (h 4%nat)) (hexEncode (h 5%nat)) (hexEncode (h 6%nat)).
Definition buildNoteCommitment `{Sha256} (p : NotePreimage) : string := "0x" +:+ sha256 (stringify (preimageJson p)).
Definition createEmptyNoteVault (vaultId now : string) : NoteVault := mkVault vaultId now now [].
Definition addNoteToVault (v : NoteVault) (n : VaultNote) (now : string) : NoteVault :=
  mkVault (vault_id v) (created_at v) now
    (selectWhere (fun m => negb (commitment m ==? commitment n)) (notes v) ++ [n]).

Section WebCrypto.
Context `{Aes} `{Kdf}.

(** [subtle.encrypt] appends the 16-byte tag; [importKey] refuses other key
    lengths.  A missing AAD is the empty one. *)
Definition validKey (k : bytes) : bool := bool_decide (String.length k ∈ [16; 24; 32]%nat).
Definition aesGcmEncrypt (rawKey iv plaintext aad : bytes) : result bytes :=
  if validKey rawKey then let '(ct, tag) := aesSeal rawKey iv aad plaintext in Ok (ct +:+ tag)
  else Throw (Error None "DataError").
Definition aesGcmDecrypt (rawKey iv ct aad : bytes) : result bytes :=
  if validKey rawKey then
    let n := (String.length ct - 16)%nat in
    match aesOpen rawKey iv aad (sliceTo n ct) (sliceFrom n ct) with
    | Some m => Ok m
    | None => Throw (Error None "OperationError")
    end
  else Throw (Error None "DataError").

Definition AAD_BYTES (a : json) : bytes := stringify a.
Definition encryptNoteVault (iv : bytes) (v : NoteVault) (masterKey : bytes) (a : VaultAad) : result (string * string) :=
  match aesGcmEncrypt masterKey iv (stringify (vaultJson v)) (AAD_BYTES (aadJson a)) with
  | Ok ct => Ok (btoa ct, btoa iv)
  | Throw e => Throw e
  end.
Definition decryptNoteVault (ciphertext iv : string) (masterKey : bytes) (a : json) : result json :=
  match atob iv with
  | Throw e => Throw e
  | Ok iv =>
      match atob ciphertext with
      | Throw e => Throw e
      | Ok ct =>
          match aesGcmDecrypt masterKey iv ct (AAD_BYTES a) with
          | Throw e => Throw e
          | Ok pt => match parse pt with Some j => Ok j | None => Throw (Error None "SyntaxError") end
          end
      end
  end.
Definition createVaultEnvelope (iv : bytes) (v : NoteVault) (masterKey : bytes) (privyUserId origin : string)
    (wrappers : list VaultWrapper) : result EncryptedVaultEnvelope :=
  let aad := mkAad "Shade Protocol" origin (vault_id v) privyUserId 1 in
  match encryptNoteVault iv v masterKey aad with
  | Ok (ct, iv64) => Ok (mkEnvelope (vault_id v) privyUserId iv64 aad ct wrappers)
  | Throw e => Throw e
  end.
Definition decryptEnvelope (env : EncryptedVaultEnvelope) (masterKey : bytes) : result json :=
  decryptNoteVault (e_ciphertext env) (e_iv env) masterKey (aadJson (e_aad env)).
(** The same on an envelope as it was received: the AAD is printed in the
    order its members have there. *)
Definition decryptReceived (env : json) (masterKey : bytes) : result json :=
  decryptNoteVault (strField env "ciphertext") (strField (field env "cipher") "iv") masterKey (field env "aad").

(** ** Recovery wrappers *)
Definition wrapWithKey (iv wrappingKey masterKey : bytes) : result string :=
  match aesGcmEncrypt wrappingKey iv masterKey "" with Ok ct => Ok (btoa (iv +:+ ct)) | Throw e => Throw e end.
Definition unwrapWithKey (wrappingKey : bytes) (wrappedKeyB64 : string) : result bytes :=
  match atob wrappedKeyB64 with
  | Ok blob => aesGcmDecrypt wrappingKey (sliceTo 12 blob) (sliceFrom 12 blob) ""
  | Throw e => Throw e
  end.

(** The draws of a wrap: the salt, the IV and the identifier. *)
Record WrapRandom := mkWrapRandom { r_salt : bytes; r_iv : bytes; r_id : bytes }.
Definition wrapHkdf (info type : string) (diag : option bool) (metadata : list (string * json)) (r : WrapRandom)
    (masterKey ikm : bytes) : result VaultWrapper :=
  match wrapWithKey (r_iv r) (hkdf ikm (r_salt r) info) masterKey with
  | Ok wk => Ok (mkWrapper (hexEncode (r_id r)) type "active" "HKDF-SHA256" (btoa (r_salt r)) wk diag metadata)
  | Throw e => Throw e
  end.
Definition unwrapHkdf (info : string) (w : VaultWrapper) (ikm : bytes) : result bytes :=
  match atob (salt w) with Ok s => unwrapWithKey (hkdf ikm s info) (wrapped_key w) | Throw e => Throw e end.

Definition wrapVaultKeyWithPasskeyPrf (r : WrapRandom) (masterKey prfOutput : bytes) metadata : result VaultWrapper :=
  wrapHkdf "shade-vault-passkey-prf" "passkey_prf" None metadata r masterKey prfOutput.
Definition unwrapVaultKeyWithPasskeyPrf (w : VaultWrapper) (prfOutput : bytes) : result bytes :=
  unwrapHkdf "shade-vault-passkey-prf" w prfOutput.
Definition wrapVaultKeyWithStellarSignature (r : WrapRandom) (masterKey signatureBytes : bytes) metadata : result VaultWrapper :=
  wrapHkdf "shade-vault-stellar-ed25519" "stellar_ed25519_signature" None metadata r masterKey signatureBytes.
Definition unwrapVaultKeyWithStellarSignature (w : VaultWrapper) (signatureBytes : bytes) : result bytes :=
  unwrapHkdf "shade-vault-stellar-ed25519" w signatureBytes.
Definition wrapVaultKeyWithRecoveryFileSecret (r : WrapRandom) (masterKey secret : bytes) metadata : result VaultWrapper :=
  wrapHkdf "shade-vault-recovery-file" "recovery_file_secret" None metadata r masterKey secret.
Definition unwrapVaultKeyWithRecoveryFileSecret (w : VaultWrapper) (secret : bytes) : result bytes :=
  unwrapHkdf "shade-vault-recovery-file" w secret.
Definition PBKDF2_ITERS : Z := 310000.
Definition wrapVaultKeyWithRecoveryKitPassword (r : WrapRandom) (masterKey : bytes) (password : string)
    (metadata : list (string * json)) : result VaultWrapper :=
  match wrapWithKey (r_iv r) (pbkdf2 password (r_salt r) PBKDF2_ITERS) masterKey with
  | Ok wk => Ok (mkWrapper (hexEncode (r_id r)) "recovery_kit_password" "active" "PBKDF2-SHA256" (btoa (r_salt r)) wk None metadata)
  | Throw e => Throw e
  end.
Definition unwrapVaultKeyWithRecoveryKitPassword (w : VaultWrapper) (password : string) : result bytes :=
  match atob (salt w) with
  | Ok s => unwrapWithKey (pbkdf2 password s PBKDF2_ITERS) (wrapped_key w)
  | Throw e => Throw e
  end.
Definition diagnosticWrapVaultKeyWithEvmSignature (r : WrapRandom) (masterKey signatureBytes : bytes)
    (metadata : list (string * json)) : result VaultWrapper :=
  wrapHkdf "shade-vault-evm-diagnostic" "evm_signature" (Some true)
    (JsMap.set metadata "diagnostic_only" (JBool true)) r masterKey signatureBytes.
Definition diagnosticVerifyEvmSignatureStability (sigA sigB : bytes) : bool :=
  (String.length sigA =? String.length sigB)%nat && (sigA ==? sigB).
End WebCrypto.

Definition buildRecoveryFile (vaultId : string) (secret : bytes) (w : VaultWrapper) (now : string) : json :=
  JObj [("version", JStr "shade-recovery-file-v1"); ("vault_id", JStr vaultId); ("created_at", JStr now);
        ("app", JStr "Shade Protocol");
        ("warning", JStr "Keep this file safe. It can help restore your private vault. Anyone with this file can decrypt your vault.");
        ("recovery_file_secret", JStr (btoa secret)); ("wrapper", wrapperJson w)].

(** ** Recovery policy *)
Inductive RecoveryPolicyStatus := insufficient | sufficient | strong.
#[export] Instance RecoveryPolicyStatus_eq_dec : EqDecision RecoveryPolicyStatus.
Proof. solve_decision. Defined.
Definition policyText (p : RecoveryPolicyStatus) : string :=
  match p with insufficient => "insufficient" | sufficient => "sufficient" | strong => "strong" end.
Record PolicyOpts := mkOpts { mainnet : bool; min : Z; allowEvmOnly : bool }.
Definition isActive (w : VaultWrapper) : bool := w_status w ==? "active".
Definition isDiagnostic (w : VaultWrapper) : bool := match diagnostic_only w with Some b => b | None => false end.
Definition countsNonEvm (w : VaultWrapper) : bool := negb (w_type w ==? "evm_signature") && negb (isDiagnostic w).
Definition isStrong (w : VaultWrapper) : bool := (w_type w ==? "passkey_prf") || (w_type w ==? "stellar_ed25519_signature").
Definition evaluateRecoveryPolicy (wrappers : list VaultWrapper) (opts : PolicyOpts) : RecoveryPolicyStatus :=
  let active := selectWhere isActive wrappers in
  let nonEvm := selectWhere countsNonEvm active in
  let strongFound := existsb isStrong active in
  let n := Z.of_nat (length nonEvm) in
  if negb (allowEvmOnly opts) && (n =? 0) then insufficient
  else if n <? min opts then insufficient
  else if mainnet opts then (if (2 <=? n) && strongFound then strong else insufficient)
  else if strongFound && (2 <=? n) then strong else sufficient.

(** ** Recovery *)
Section Recovery.
Context {aes : Aes} {aesLaws : AesLaws} {kdfs : Kdf} {kdfLaws : KdfLaws}.

(** What the owner keeps, by recovery method. *)
Inductive RecoverySecret :=
| PasskeyPrf (prf : bytes)
| StellarSignature (sig : bytes)
| RecoveryFileSecret (secret : bytes)
| RecoveryKitPassword (password : string).
Definition wrapWith (r : WrapRandom) (masterKey : bytes) (s : RecoverySecret) (metadata : list (string * json)) :
    result VaultWrapper :=
  match s with
  | PasskeyPrf prf => wrapVaultKeyWithPasskeyPrf r masterKey prf metadata
  | StellarSignature sig => wrapVaultKeyWithStellarSignature r masterKey sig metadata
  | RecoveryFileSecret secret => wrapVaultKeyWithRecoveryFileSecret r masterKey secret metadata
  | RecoveryKitPassword password => wrapVaultKeyWithRecoveryKitPassword r masterKey password metadata
  end.
Definition unwrapWith (w : VaultWrapper) (s : RecoverySecret) : result bytes :=
  match s with
  | PasskeyPrf prf => unwrapVaultKeyWithPasskeyPrf w prf
  | StellarSignature sig => unwrapVaultKeyWithStellarSignature w sig
  | RecoveryFileSecret secret => unwrapVaultKeyWithRecoveryFileSecret w secret
  | RecoveryKitPassword password => unwrapVaultKeyWithRecoveryKitPassword w password
  end.

Lemma sliceTo_app n a b : String.length a = n -> sliceTo n (a +:+ b) = a.
Proof.
  revert n. induction a as [|c a IH]; intros n; simpl; [intros <-; by destruct b|].
  destruct n as [|n]; [done|]. intros [= Hn]. simpl. f_equal. by apply IH.
Qed.
Lemma sliceFrom_app n a b : String.length a = n -> sliceFrom n (a +:+ b) = b.
Proof.
  revert n. induction a as [|c a IH]; intros n; simpl; [intros <-; by destruct b|].
  destruct n as [|n]; [done|]. intros [= Hn]. simpl. by apply IH.
Qed.
Lemma validKey_32 k : String.length k = 32%nat -> validKey k = true.
Proof. intros Hk. unfold validKey. rewrite Hk. done. Qed.
Lemma aesGcm_roundtrip k iv m aad :
  String.length k = 32%nat ->
  exists ct, aesGcmEncrypt k iv m aad = Ok ct /\ aesGcmDecrypt k iv ct aad = Ok m.
Proof using aesLaws.
  intros Hk. unfold aesGcmEncrypt, aesGcmDecrypt. rewrite (validKey_32 k Hk).
  destruct (aesSeal k iv aad m) as [ct tag] eqn:E. exists (ct +:+ tag). split; [done|].
  pose proof (aes_tag k iv aad m) as Ht. pose proof (aes_open k iv aad m) as Ho. rewrite E in Ht, Ho. simpl in Ht, Ho.
  rewrite length_append, Ht. replace (String.length ct + 16 - 16)%nat with (String.length ct) by lia.
  rewrite sliceTo_app, sliceFrom_app by done. by rewrite Ho.
Qed.
Lemma unwrap_wrap iv k m :
  String.length k = 32%nat -> String.length iv = 12%nat ->
  exists b, wrapWithKey iv k m = Ok b /\ unwrapWithKey k b = Ok m.
Proof using aesLaws.
  intros Hk Hiv. destruct (aesGcm_roundtrip k iv m "" Hk) as (ct & E1 & E2).
  exists (btoa (iv +:+ ct)). unfold wrapWithKey, unwrapWithKey. rewrite E1, atob_btoa. split; [done|].
  by rewrite sliceTo_app, sliceFrom_app.
Qed.
Lemma unwrapWith_wrapWith r mk s md :
  String.length (r_iv r) = 12%nat -> exists w, wrapWith r mk s md = Ok w /\ unwrapWith w s = Ok mk.
Proof using aesLaws kdfLaws.
  intros Hiv.
  assert (forall info type ikm, exists w, wrapHkdf info type None md r mk ikm = Ok w /\ unwrapHkdf info w ikm = Ok mk) as Hh.
  { intros info type ikm. destruct (unwrap_wrap (r_iv r) (hkdf ikm (r_salt r) info) mk) as (b & E1 & E2);
      [apply hkdf_length|done|]. unfold wrapHkdf, unwrapHkdf. rewrite E1. eexists. split; [done|].
    simpl. by rewrite atob_btoa. }
  destruct s; simpl; [apply Hh..|].
  destruct (unwrap_wrap (r_iv r) (pbkdf2 password (r_salt r) PBKDF2_ITERS) mk) as (b & E1 & E2);
    [apply pbkdf2_length|done|].
  unfold wrapVaultKeyWithRecoveryKitPassword, unwrapVaultKeyWithRecoveryKitPassword. rewrite E1.
  eexists. split; [done|]. simpl. by rewrite atob_btoa.
Qed.

Lemma created_decrypts iv v mk uid origin ws :
  String.length mk = 32%nat -> exists env, createVaultEnvelope iv v mk uid origin ws = Ok env /\
    e_vault_id env = vault_id v /\ e_privy_user_id env = uid /\ e_wrappers env = ws /\ e_ciphertext env ≠ "" /\
    decryptEnvelope env mk = Ok (vaultJson v).
Proof using aesLaws.
  intros Hmk. pose (aad := mkAad "Shade Protocol" origin (vault_id v) uid 1).
  destruct (aesGcm_roundtrip mk iv (stringify (vaultJson v)) (AAD_BYTES (aadJson aad)) Hmk) as (ct & E3 & E4).
  unfold createVaultEnvelope, encryptNoteVault. fold aad. rewrite E3. eexists. split_and!; [done..| |].
  - simpl. intros Hb. pose proof (atob_btoa ct) as Ha. rewrite Hb in Ha. injection Ha as <-.
    unfold aesGcmEncrypt in E3. rewrite (validKey_32 mk Hmk) in E3. destruct (aesSeal mk iv (AAD_BYTES (aadJson aad)) _) as [c tag] eqn:Es.
    pose proof (aes_tag mk iv (AAD_BYTES (aadJson aad)) (stringify (vaultJson v))) as Ht. rewrite Es in Ht. simpl in Ht. injection E3 as E3.
    apply (f_equal String.length) in E3. rewrite length_append, Ht in E3. simpl in E3. lia.
  - unfold decryptEnvelope, decryptNoteVault. cbn [e_ciphertext e_iv e_aad]. rewrite !atob_btoa, E4. by rewrite parse_stringify.
Qed.

(** No recovery method loses the vault: for a 32-byte master key, wrapping
    it with a passkey PRF output, a Stellar signature, a recovery file secret
    or a kit password succeeds, the envelope that carries the wrapper is
    created, and the same secret unwraps a key that decrypts that envelope to
    exactly the vault that was encrypted. *)
Theorem vault_recovery iv r v mk s md uid origin ws :
  String.length mk = 32%nat -> String.length (r_iv r) = 12%nat ->
  exists w env, wrapWith r mk s md = Ok w /\ createVaultEnvelope iv v mk uid origin (ws ++ [w]) = Ok env /\
    w ∈ e_wrappers env /\
    exists mk', unwrapWith w s = Ok mk' /\ decryptEnvelope env mk' = Ok (vaultJson v).
Proof using aesLaws kdfLaws.
  intros Hmk Hiv. destruct (unwrapWith_wrapWith r mk s md Hiv) as (w & E1 & E2).
  destruct (created_decrypts iv v mk uid origin (ws ++ [w]) Hmk) as (env & E3 & _ & _ & Hws & _ & E4).
  exists w, env. split_and!; [done|done| |by exists mk]. rewrite Hws. apply elem_of_app. right. by left.
Qed.
End Recovery.

(** ** The plaintext gate *)
Inductive occurs (k : string) : json -> Prop :=
| occurs_item x l : x ∈ l -> occurs k x -> occurs k (JArr l)
| occurs_key v kvs : (k, v) ∈ kvs -> occurs k (JObj kvs)
| occurs_value k' v kvs : (k', v) ∈ kvs -> occurs k v -> occurs k (JObj kvs).

Lemma firstForbidden_arr l : firstForbidden (JArr l) = None <-> Forall (fun x => firstForbidden x = None) l.
Proof.
  induction l as [|x l IH]; [by split|]. rewrite Forall_cons, <- IH. simpl. destruct (firstForbidden x); [|tauto].
  split; [done|by intros [? _]].
Qed.
Lemma firstForbidden_obj kvs :
  firstForbidden (JObj kvs) = None <-> Forall (fun kv => forbidden kv.1 = false /\ firstForbidden kv.2 = None) kvs.
Proof.
  induction kvs as [|[k x] kvs IH]; [by split|]. rewrite Forall_cons, <- IH. simpl.
  destruct (forbidden k); [split; [done|by intros [[? _] _]]|].
  destruct (firstForbidden x); [split; [done|by intros [[_ ?] _]]|tauto].
Qed.
Lemma firstForbidden_None j : firstForbidden j = None <-> forall k, occurs k j -> forbidden k = false.
Proof.
  induction j as [|b|z|s|l IH|kvs IH]; try (split; [intros _ k Hk; inversion Hk|done]).
  - rewrite firstForbidden_arr, !Forall_forall. rewrite Forall_forall in IH. split.
    + intros Hl k Ho. inversion Ho as [x ? Hx Hk| |]; subst. by apply (IH x Hx); [apply Hl|].
    + intros Hk x Hx. apply IH; [done|]. intros k Ho. apply Hk. by econstructor.
  - rewrite firstForbidden_obj, !Forall_forall. rewrite Forall_forall in IH. split.
    + intros Hl k Ho. inversion Ho as [|v ? Hv|k' v ? Hv Hk]; subst; [by apply (Hl _ Hv)|].
      apply (IH _ Hv); [by apply (Hl _ Hv)|done].
    + intros Hk [k v] Hv. split; [apply Hk; by econstructor|]. apply (IH _ Hv). intros k' Ho. apply Hk.
      by eapply occurs_value.
Qed.
Lemma assertNoPlaintext_Ok j : assertNoPlaintextNoteFields j = Ok tt <-> forall k, occurs k j -> forbidden k = false.
Proof. rewrite <- firstForbidden_None. unfold assertNoPlaintextNoteFields. by destruct (firstForbidden j). Qed.

Lemma wrapper_plain w : firstForbidden (wrapperJson w) = None <-> firstForbidden (JObj (w_metadata w)) = None.
Proof.
  unfold wrapperJson. rewrite firstForbidden_obj. destruct (diagnostic_only w); simpl app;
    rewrite !Forall_cons, Forall_nil; simpl fst; simpl snd; cbn [firstForbidden];
    (split; [tauto|]; intros Hx; by repeat split).
Qed.
Lemma envelope_plain e :
  firstForbidden (envelopeJson e) = None <-> Forall (fun w => firstForbidden (JObj (w_metadata w)) = None) (e_wrappers e).
Proof.
  unfold envelopeJson. rewrite firstForbidden_obj, !Forall_cons, Forall_nil. cbn [fst snd].
  rewrite firstForbidden_arr, Forall_map. split.
  - intros (_ & _ & _ & _ & _ & _ & [_ Hw] & _). eapply Forall_impl; [exact Hw|]. intros w. apply wrapper_plain.
  - intros Hw. repeat split. eapply Forall_impl; [exact Hw|]. intros w. apply wrapper_plain.
Qed.

(** ** An envelope that was stored

    The members of an envelope come back in another order.  It passes the gate
    as before and, because the members of its AAD are in the stored order from
    the start, it decrypts as before. *)
Lemma firstForbidden_store j : firstForbidden j = None -> firstForbidden (Jsonb.store j) = None.
Proof.
  induction j as [| | | |l IH|kvs IH]; try done; cbn [Jsonb.store].
  - rewrite !firstForbidden_arr, Forall_map, !Forall_forall in *. eauto.
  - rewrite !firstForbidden_obj. induction IH as [|[k v] kvs Hv _ IH]; [done|]. rewrite Forall_cons. intros [[Hk Hf] Hr]. simpl in *.
    apply (Jsonb.place_Forall (fun kv => forbidden kv.1 = false /\ firstForbidden kv.2 = None)); auto.
Qed.
Lemma truthy_store j : truthyJson (Jsonb.store j) = truthyJson j.
Proof. by destruct j. Qed.
Lemma text_store j s : (Jsonb.store j ==? JStr s) = (j ==? JStr s).
Proof. by destruct j. Qed.
Lemma validate_store j : validateVaultEnvelope j = Ok tt -> validateVaultEnvelope (Jsonb.store j) = Ok tt.
Proof.
  unfold validateVaultEnvelope, assertNoPlaintextNoteFields. rewrite !field_store, !truthy_store, !text_store.
  destruct (negb _); [done|]. destruct (_ || _); [done|]. destruct (field j "wrappers"); try done. cbn [Jsonb.store].
  destruct (firstForbidden j) eqn:E; [done|]. by rewrite firstForbidden_store.
Qed.
Definition storedWrapper (w : VaultWrapper) : VaultWrapper :=
  mkWrapper (w_id w) (w_type w) (w_status w) (kdf w) (salt w) (wrapped_key w) (diagnostic_only w) (Jsonb.storeMembers (w_metadata w)).
Lemma unwrapWith_stored `{Aes} `{Kdf} w s : unwrapWith (storedWrapper w) s = unwrapWith w s.
Proof. by destruct s. Qed.
Lemma aad_stored a : Jsonb.store (aadJson a) = aadJson a.
Proof. vm_compute. reflexivity. Qed.
Lemma decrypt_stored `{Aes} e mk : decryptReceived (Jsonb.store (envelopeJson e)) mk = decryptEnvelope e mk.
Proof.
  unfold decryptReceived. rewrite !strField_store, !field_store, strField_store.
  change (field (envelopeJson e) "aad") with (aadJson (e_aad e)). by rewrite aad_stored.
Qed.

(** C28. The plaintext gate is exact: a value passes iff none of the forbidden
    names is a key at any depth; hence the backend's validation accepts an
    envelope the library built iff its identifiers and its ciphertext are
    non-empty and no wrapper's metadata hides a forbidden name. *)
Theorem plaintext_gate_exact :
  (forall j, assertNoPlaintextNoteFields j = Ok tt <-> forall k, occurs k j -> k ∉ PLAINTEXT_FORBIDDEN) /\
  (forall e, validateVaultEnvelope (envelopeJson e) = Ok tt <->
     e_vault_id e ≠ "" /\ e_privy_user_id e ≠ "" /\ e_ciphertext e ≠ "" /\
     forall w k, w ∈ e_wrappers e -> occurs k (JObj (w_metadata w)) -> k ∉ PLAINTEXT_FORBIDDEN).
Proof.
  assert (forall k, forbidden k = false <-> k ∉ PLAINTEXT_FORBIDDEN) as Hf by (intros k; apply bool_decide_eq_false).
  split.
  - intros j. rewrite assertNoPlaintext_Ok. by setoid_rewrite Hf.
  - intros e. unfold validateVaultEnvelope.
    change (field (envelopeJson e) "version" ==? JStr "shade-encrypted-vault-v1") with true.
    change (field (field (envelopeJson e) "cipher") "name" ==? JStr "AES-256-GCM") with true.
    change (field (envelopeJson e) "vault_id") with (JStr (e_vault_id e)).
    change (field (envelopeJson e) "privy_user_id") with (JStr (e_privy_user_id e)).
    change (field (envelopeJson e) "ciphertext") with (JStr (e_ciphertext e)).
    change (field (envelopeJson e) "wrappers") with (JArr (map wrapperJson (e_wrappers e))).
    cbn [negb truthyJson]. rewrite orb_false_r. unfold truthy. rewrite !negb_involutive.
    destruct (_ || _ || _) eqn:E.
    + split; [done|]. intros (H1 & H2 & H3 & _). rewrite !bool_decide_false in E by done. done.
    + rewrite !orb_false_iff, !bool_decide_eq_false in E. destruct E as [[E1 E2] E3].
      unfold assertNoPlaintextNoteFields.
      assert (firstForbidden (envelopeJson e) = None <-> forall w k, w ∈ e_wrappers e ->
        occurs k (JObj (w_metadata w)) -> k ∉ PLAINTEXT_FORBIDDEN) as Hx.
      { rewrite envelope_plain, Forall_forall. setoid_rewrite firstForbidden_None. setoid_rewrite Hf.
        split; intros Hy; [intros w k Hw; apply (Hy w Hw k)|intros w Hw k; apply (Hy w k Hw)]. }
      destruct (firstForbidden (envelopeJson e)) as [k|].
      * split; [done|]. intros (_ & _ & _ & Hy). apply Hx in Hy. done.
      * split; [|done]. intros _. split_and!; [done..|]. by apply Hx.
Qed.

(** ** The recovery policy *)
Definition rank (p : RecoveryPolicyStatus) : Z := match p with insufficient => 0 | sufficient => 1 | strong => 2 end.
Definition nonEvmCount (ws : list VaultWrapper) : Z :=
  Z.of_nat (length (selectWhere countsNonEvm (selectWhere isActive ws))).
Definition hasStrong (ws : list VaultWrapper) : bool := existsb isStrong (selectWhere isActive ws).
Lemma evaluate_counts ws o :
  evaluateRecoveryPolicy ws o =
    if negb (allowEvmOnly o) && (nonEvmCount ws =? 0) then insufficient
    else if nonEvmCount ws <? min o then insufficient
    else if mainnet o then (if (2 <=? nonEvmCount ws) && hasStrong ws then strong else insufficient)
    else if hasStrong ws && (2 <=? nonEvmCount ws) then strong else sufficient.
Proof. done. Qed.
Lemma count_cons w ws :
  nonEvmCount (w :: ws) = (if isActive w && countsNonEvm w then 1 else 0) + nonEvmCount ws /\
  hasStrong (w :: ws) = isActive w && isStrong w || hasStrong ws.
Proof.
  unfold nonEvmCount, hasStrong, selectWhere. rewrite filter_cons. destruct (isActive w) eqn:Ea.
  - rewrite decide_True by done. rewrite filter_cons. cbn [existsb]. split; [|done].
    destruct (countsNonEvm w); [rewrite decide_True by done; simpl; lia|rewrite decide_False by auto; simpl; lia].
  - rewrite decide_False by auto. done.
Qed.

(** The recovery policy: exactly when a vault is accepted as sufficient and
    as strong; wrappers that are revoked never count and EVM or diagnostic
    ones only help when no other is demanded; adding a wrapper never lowers
    the status, and on mainnet the answer is never merely sufficient. *)
Theorem recovery_policy_spec ws o :
  (evaluateRecoveryPolicy ws o = strong <->
     min o <= nonEvmCount ws /\ 2 <= nonEvmCount ws /\ hasStrong ws = true) /\
  (evaluateRecoveryPolicy ws o = sufficient <->
     mainnet o = false /\ min o <= nonEvmCount ws /\ (allowEvmOnly o = true \/ 1 <= nonEvmCount ws) /\
     (nonEvmCount ws < 2 \/ hasStrong ws = false)) /\
  (forall w, isActive w = false -> evaluateRecoveryPolicy (w :: ws) o = evaluateRecoveryPolicy ws o) /\
  (forall w, rank (evaluateRecoveryPolicy ws o) <= rank (evaluateRecoveryPolicy (w :: ws) o)).
Proof.
  assert (0 <= nonEvmCount ws) as Hn by (unfold nonEvmCount; lia).
  assert (forall w, isActive w = false -> evaluateRecoveryPolicy (w :: ws) o = evaluateRecoveryPolicy ws o) as Hr.
  { intros w Hw. rewrite !evaluate_counts. destruct (count_cons w ws) as [-> ->]. by rewrite Hw. }
  rewrite !evaluate_counts. split_and!; [| |exact Hr|].
  - repeat case_match; split; intros Hx; first [discriminate Hx|lia|reflexivity].
  - repeat case_match; split; intros Hx; first [discriminate Hx|reflexivity|lia].
  - intros w. rewrite evaluate_counts. destruct (count_cons w ws) as [-> ->].
    set (d := if isActive w && countsNonEvm w then 1 else 0). assert (0 <= d) as Hd by (unfold d; case_match; lia).
    clearbody d. repeat case_match; simpl; lia.
Qed.

(** ** Witnesses *)
Definition toyKdf : Kdf := {|
  hkdf ikm salt info := sliceTo 32 (ikm +:+ salt +:+ info +:+ repeatString 32 "k"%char);
  pbkdf2 password salt n := sliceTo 32 (password +:+ salt +:+ repeatString 32 "k"%char) |}.
Lemma sliceTo_length n s : (n <= String.length s)%nat -> String.length (sliceTo n s) = n.
Proof.
  revert s. induction n as [|n IH]; intros s Hs; [by destruct s|]. destruct s as [|c s]; simpl in *; [lia|].
  f_equal. apply IH. lia.
Qed.
Lemma toyKdf_laws : @KdfLaws toyKdf.
Proof.
  split; intros; apply sliceTo_length; rewrite !length_append; change (String.length (repeatString 32 "k"%char)) with 32%nat; lia.
Qed.
Definition toyMaster : bytes := repeatString 32 "m"%char.
Definition toyNote : VaultNote :=
  mkNote "0xc" "USDC" "100" (mkPreimage "1" "2" "3" "4" "5" "6" "7") None "active" "2026-01-01".
Definition toyVault : NoteVault := addNoteToVault (createEmptyNoteVault "v-1" "t0") toyNote "t1".
Definition toyDraw : WrapRandom := mkWrapRandom "salt" (repeatString 12 "i"%char) "id".
Lemma vault_recovery_witness :
  exists w env,
    @wrapWith ToyRuntime.toy_aes toyKdf toyDraw toyMaster (RecoveryKitPassword "pw") [] = Ok w /\
    @createVaultEnvelope ToyRuntime.toy_aes (repeatString 12 "j"%char) toyVault toyMaster "did" "https://shade" ([] ++ [w]) = Ok env.
Proof.
  destruct (@vault_recovery ToyRuntime.toy_aes ToyRuntime.toy_aes_laws toyKdf toyKdf_laws (repeatString 12 "j"%char) toyDraw
    toyVault toyMaster (RecoveryKitPassword "pw") [] "did" "https://shade" []) as (w & env & E1 & E2 & _);
    [reflexivity|reflexivity|]. exists w, env. split; [exact E1|exact E2].
Defined.
End NoteVault.
