(* ===== verification/Store.v ===== *)
(** * The API's store (apps/api/src/db.ts)

    One definition per method of the class [Store]: its statements in order,
    on the tables of [Database].  Rows and results are JSON rows, [undefined]
    parameters are [JNull].  Theorems: a login nonce is accepted at most once
    and only before it expires, and the ownership queries return rows of the
    asking user only. *)
From S2P Require Import Prelude JsText JsCollections Json Ids JobQueue Database Runtime.
Import JsText Json Database Runtime.

Module Store.

Section Store.
Context `{Uuid}.

Definition rowJson (r : Row) : json := JObj r.
Definition optRow (o : option Row) : json := match o with Some r => JObj r | None => JNull end.
Definition rowsJson (rs : list Row) : json := JArr (map rowJson rs).
Definition andB (p q : Row -> bool) (r : Row) : bool := p r && q r.
Definition opt (o : option string) : json := strOrNull o.

Definition health : M DB unit := mret tt.

Definition transition (t : Ids.StateTransition) : M DB unit :=
  insert schemaOf "state_transitions"
    [("entity_type", JStr (Ids.entityType t)); ("entity_id", JStr (Ids.entityId t));
     ("from_state", opt (Ids.fromState t)); ("to_state", JStr (Ids.toState t)); ("reason", opt (Ids.reason t));
     ("tx_hash", opt (Ids.txHash t)); ("metadata", orElse (Ids.metadata t) (JObj []))] OnError ;;
  mret tt.

Record DepositInput := mkDeposit {
  d_depositId : string; d_idempotencyKey : string; d_sourceDomain : Z; d_destinationDomain : Z; d_assetId : string;
  d_amount6 : string; d_amount7 : string; d_commitment : string; d_encryptedNotePayloadHash : string;
  d_policyId : string; d_state : string }.
Definition depositColumns (i : DepositInput) : Row :=
  [("deposit_id", JStr (d_depositId i)); ("idempotency_key", JStr (d_idempotencyKey i));
   ("source_domain", JNum (d_sourceDomain i)); ("destination_domain", JNum (d_destinationDomain i));
   ("asset_id", JStr (d_assetId i)); ("amount_usdc_6dp", JStr (d_amount6 i)); ("amount_usdc_7dp", JStr (d_amount7 i));
   ("commitment", JStr (d_commitment i)); ("encrypted_note_payload_hash", JStr (d_encryptedNotePayloadHash i));
   ("policy_id", JStr (d_policyId i)); ("state", JStr (d_state i))].
Definition upsertDeposit (i : DepositInput) : M DB unit :=
  insert schemaOf "cctp_deposits" (depositColumns i) (DoNothing (Some ["idempotency_key"])) ;;
  mret tt.

(** A missing table counts as no finding. *)
Definition criticalRootMismatchCount : M DB Z :=
  catchM (rows ← select schemaOf "root_audit_findings" (eqText "code" "ROOT_MISMATCH_CRITICAL");
          mret (Z.of_nat (length rows)))
         (fun _ => mret 0).

Record UserDepositInput := mkUserDeposit {
  u_deposit : DepositInput; u_userId : string; u_sourceChain : string; u_sourceWalletAddress : string; u_vaultId : string }.
(** The state column is the literal ['prepared']. *)
Definition createUserDeposit (i : UserDepositInput) : M DB unit :=
  insert schemaOf "cctp_deposits"
    (depositColumns (u_deposit i)
     ++ [("user_id", JStr (u_userId i)); ("source_chain", JStr (u_sourceChain i));
         ("source_wallet_address", JStr (u_sourceWalletAddress i)); ("vault_id", JStr (u_vaultId i))])
    (DoNothing (Some ["deposit_id"])) ;;
  mret tt.
Definition getDepositForUser (userId depositId : string) : M DB (option Row) :=
  selectFirst schemaOf "cctp_deposits" (andB (eqText "deposit_id" depositId) (eqText "user_id" userId)).
Definition setDepositBurnTx (depositId burnTxHash : string) : M DB unit :=
  now ← dateNow;
  update schemaOf "cctp_deposits" (eqText "deposit_id" depositId)
    [("source_tx_hash", JStr burnTxHash); ("state", JStr "burn_submitted"); ("updated_at", JNum now)] ;;
  mret tt.

Definition readableTables : list string :=
  ["cctp_deposits"; "proof_jobs"; "withdrawals"; "intents"; "quotes"; "settlements"; "cctp_exits"; "note_commitments"].
Definition getById (t idColumn id : string) : M DB (option Row) :=
  if negb (bool_decide (t ∈ readableTables)) then failM ("unsafe table " +:+ t)
  else selectFirst schemaOf t (eqText idColumn id).
Definition insertableTables : list string :=
  ["proof_jobs"; "withdrawals"; "intents"; "quotes"; "quote_acceptances"; "solver_inventory_locks"; "fills"; "settlements"; "cctp_exits"].
Definition insertGeneric (t : string) (row : Row) : M DB unit :=
  if negb (bool_decide (t ∈ insertableTables)) then failM ("unsafe table " +:+ t)
  else insert schemaOf t row (DoNothing None) ;; mret tt.

(** ** Users *)
Definition idOf (r : Row) : string := strField (JObj r) "id".
Definition returnedId (rows : list Row) : M DB string :=
  match rows with
  | r :: _ => mret (idOf r)
  | [] => failM "Cannot read properties of undefined"
  end.
Definition touchLogin (userId : string) : M DB unit :=
  now ← dateNow;
  update schemaOf "users" (eqText "id" userId) [("last_login_at", JNum now); ("updated_at", JNum now)] ;;
  mret tt.
Definition createProfile (userId : string) : M DB unit :=
  insert schemaOf "user_profiles" [("user_id", JStr userId)] (DoNothing None) ;; mret tt.
Definition upsertUserByPrivyId (privyUserId : string) (email primaryAuthMethod : option string) : M DB string :=
  existing ← selectFirst schemaOf "users" (eqText "privy_user_id" privyUserId);
  match existing with
  | Some r => touchLogin (idOf r) ;; mret (idOf r)
  | None =>
      now ← dateNow;
      rows ← insert schemaOf "users"
        [("privy_user_id", JStr privyUserId); ("email", opt email);
         ("primary_auth_method", JStr (orElse primaryAuthMethod "privy")); ("last_login_at", JNum now)] OnError;
      uid ← returnedId rows;
      createProfile uid ;;
      mret uid
  end.

Definition sameAddress (address : string) (r : Row) : bool :=
  toLowerCase (strField (JObj r) "address") ==? toLowerCase address.
Definition userOwnsWallet (userId address : string) (chain : option string) : M DB bool :=
  rows ← select schemaOf "user_wallets"
    (fun r => eqText "user_id" userId r && sameAddress address r
              && match truthyOpt chain with Some c => eqText "chain" c r | None => true end);
  mret (0 <? Z.of_nat (length rows)).
Definition userOwnsVault (userId vaultId : string) : M DB bool :=
  rows ← select schemaOf "note_vaults" (andB (eqText "user_id" userId) (eqText "vault_id" vaultId));
  mret (0 <? Z.of_nat (length rows)).

(** ** Note vaults *)
Record VaultInput := mkVaultInput { v_envelope : json; v_ciphertext : string; v_aad : json; v_recoveryPolicyStatus : string }.
Definition vaultColumns (i : VaultInput) : Row :=
  [("envelope", v_envelope i); ("ciphertext", JStr (v_ciphertext i)); ("aad", v_aad i);
   ("recovery_policy_status", JStr (v_recoveryPolicyStatus i))].
Definition createNoteVault (userId privyUserId vaultId : string) (i : VaultInput) : M DB unit :=
  now ← dateNow;
  insert schemaOf "note_vaults"
    ([("user_id", JStr userId); ("privy_user_id", JStr privyUserId); ("vault_id", JStr vaultId)]
     ++ vaultColumns i ++ [("backup_status", JStr "created")])
    (DoUpdate ["vault_id"] (fun excluded =>
       [("envelope", get excluded "envelope"); ("ciphertext", get excluded "ciphertext"); ("aad", get excluded "aad");
        ("recovery_policy_status", get excluded "recovery_policy_status"); ("updated_at", JNum now)])) ;;
  mret tt.
Definition listNoteVaults (userId : string) : M DB (list Row) :=
  rows ← select schemaOf "note_vaults" (eqText "user_id" userId);
  mret (map (project ["vault_id"; "backup_status"; "recovery_policy_status"; "last_backup_verified_at";
                      "last_restored_at"; "created_at"; "updated_at"]) (orderDesc "created_at" rows)).
Definition ownVault (userId vaultId : string) : Row -> bool := andB (eqText "user_id" userId) (eqText "vault_id" vaultId).
Definition getNoteVault (userId vaultId : string) : M DB (option Row) :=
  selectFirst schemaOf "note_vaults" (ownVault userId vaultId).
Definition changed (rows : list Row) : bool := 0 <? Z.of_nat (length rows).
Definition updateNoteVault (userId vaultId : string) (i : VaultInput) : M DB bool :=
  now ← dateNow;
  rows ← update schemaOf "note_vaults" (ownVault userId vaultId) (vaultColumns i ++ [("updated_at", JNum now)]);
  mret (changed rows).
Definition setVaultBackupStatus (userId vaultId st : string) : M DB bool :=
  now ← dateNow;
  rows ← update schemaOf "note_vaults" (ownVault userId vaultId)
    ([("backup_status", JStr st)]
     ++ (if st ==? "verified" then [("last_backup_verified_at", JNum now)]
         else if st ==? "restored" then [("last_restored_at", JNum now)] else [])
     ++ [("updated_at", JNum now)]);
  mret (changed rows).
Definition setVaultBackupVerified (userId vaultId : string) (verification : json) : M DB bool :=
  now ← dateNow;
  rows ← update schemaOf "note_vaults" (ownVault userId vaultId)
    [("backup_status", JStr "verified"); ("last_backup_verified_at", JNum now);
     ("last_backup_verification", verification); ("updated_at", JNum now)];
  mret (changed rows).
Definition setVaultRecoveryPolicy (vaultId st : string) : M DB unit :=
  now ← dateNow;
  update schemaOf "note_vaults" (eqText "vault_id" vaultId)
    [("recovery_policy_status", JStr st); ("updated_at", JNum now)] ;;
  mret tt.
Record DepositReady := mkReady { ready : bool; backup_status : string; recovery_policy_status : string }.
Definition readyOf (r : Row) : DepositReady :=
  let b := strField (JObj r) "backup_status" in
  let p := strField (JObj r) "recovery_policy_status" in
  mkReady ((b ==? "verified") && ((p ==? "sufficient") || (p ==? "strong"))) b p.
Definition vaultDepositReady (userId vaultId : string) : M DB (option DepositReady) :=
  r ← selectFirst schemaOf "note_vaults" (ownVault userId vaultId);
  mret (readyOf <$> r).
Definition addVaultWrapper (userId vaultId wrapperType : string) (metadata : json) : M DB string :=
  rows ← insert schemaOf "note_vault_wrappers"
    [("vault_id", JStr vaultId); ("user_id", JStr userId); ("wrapper_type", JStr wrapperType);
     ("metadata", nullish metadata (JObj []))] OnError;
  returnedId rows.
Definition deleteVaultWrapper (userId vaultId wrapperId : string) : M DB bool :=
  n ← delete schemaOf "note_vault_wrappers"
    (fun r => eqText "id" wrapperId r && eqText "vault_id" vaultId r && eqText "user_id" userId r);
  mret (0 <? n).
Definition listVaultWrappers (vaultId : string) : M DB (list Row) :=
  rows ← select schemaOf "note_vault_wrappers" (eqText "vault_id" vaultId);
  mret (map (project ["wrapper_type"; "wrapper_status"; "metadata"]) rows).

(** ** Wallet login *)
Definition createNonce (walletType address nonce msg : string) (expiresAt : Z) : M DB unit :=
  insert schemaOf "auth_nonces"
    [("wallet_type", JStr walletType); ("address", JStr address); ("nonce", JStr nonce); ("message", JStr msg);
     ("expires_at", JNum expiresAt)] OnError ;;
  mret tt.
Definition nonceLive (walletType address nonce : string) (now : Z) (r : Row) : bool :=
  eqText "wallet_type" walletType r && eqText "address" address r && eqText "nonce" nonce r
  && isNull (get r "consumed_at") && (now <? numOf (get r "expires_at")).
(** One [update ... where id = (select ... limit 1) returning message]. *)
Definition consumeNonce (walletType address nonce : string) : M DB (option string) :=
  now ← dateNow;
  live ← select schemaOf "auth_nonces" (nonceLive walletType address nonce now);
  match orderDesc "created_at" live with
  | [] => mret None
  | r :: _ =>
      rows ← update schemaOf "auth_nonces" (eqCol "id" (get r "id")) [("consumed_at", JNum now)];
      mret (match rows with r' :: _ => Some (textOf (get r' "message")) | [] => None end)
  end.
Definition upsertUserByWallet (walletType chain address : string) : M DB string :=
  existing ← selectFirst schemaOf "user_wallets" (andB (eqText "wallet_type" walletType) (eqText "address" address));
  match existing with
  | Some r =>
      let uid := textOf (get r "user_id") in
      touchLogin uid ;; mret uid
  | None =>
      now ← dateNow;
      rows ← insert schemaOf "users" [("last_login_at", JNum now)] OnError;
      uid ← returnedId rows;
      createProfile uid ;;
      insert schemaOf "user_wallets"
        [("user_id", JStr uid); ("wallet_type", JStr walletType); ("chain", JStr chain); ("address", JStr address);
         ("is_primary", JBool true); ("verified_at", JNum now)] OnError ;;
      mret uid
  end.
Definition createSession (userId sessionHash : string) (expiresAt : Z) : M DB unit :=
  insert schemaOf "user_sessions"
    [("user_id", JStr userId); ("session_hash", JStr sessionHash); ("expires_at", JNum expiresAt)] OnError ;;
  mret tt.
Definition sessionLive (sessionHash : string) (now : Z) (r : Row) : bool :=
  eqText "session_hash" sessionHash r && isNull (get r "revoked_at") && (now <? numOf (get r "expires_at")).
Definition userIdForSession (sessionHash : string) : M DB (option string) :=
  now ← dateNow;
  r ← selectFirst schemaOf "user_sessions" (sessionLive sessionHash now);
  mret ((fun r => textOf (get r "user_id")) <$> r).
Definition revokeSession (sessionHash : string) : M DB unit :=
  now ← dateNow;
  update schemaOf "user_sessions" (eqText "session_hash" sessionHash) [("revoked_at", JNum now)] ;;
  mret tt.

(** ** Profile and wallets *)
Definition walletColumns : list string := ["id"; "wallet_type"; "chain"; "address"; "is_primary"; "verified_at"; "created_at"].
Definition listWallets (userId : string) : M DB (list Row) :=
  rows ← select schemaOf "user_wallets" (eqText "user_id" userId);
  mret (map (project walletColumns) (orderAsc "created_at" rows)).
Definition getUser (userId : string) : M DB json :=
  u ← selectFirst schemaOf "users" (eqText "id" userId);
  p ← selectFirst schemaOf "user_profiles" (eqText "user_id" userId);
  match u with
  | None => mret JNull
  | Some u =>
      wallets ← listWallets userId;
      mret (JObj (project ["id"; "privy_user_id"; "display_name"; "email"; "avatar_url"; "testnet_only"; "created_at";
                           "last_login_at"] u
                  ++ project ["preferences"; "risk_flags"] (orElse p []) ++ [("wallets", rowsJson wallets)]))
  end.
Definition syncPrivyWallet (userId privyUserId : string) (w : json) : M DB unit :=
  now ← dateNow;
  insert schemaOf "user_wallets"
    [("user_id", JStr userId); ("privy_user_id", JStr privyUserId); ("wallet_type", field w "wallet_type");
     ("wallet_source", nullish (field w "wallet_source") (JStr "external")); ("chain", field w "chain");
     ("address", field w "address"); ("privy_wallet_id", field w "privy_wallet_id"); ("verified_at", JNum now)]
    (DoUpdate ["wallet_type"; "address"] (fun excluded =>
       [("user_id", get excluded "user_id"); ("privy_user_id", get excluded "privy_user_id");
        ("wallet_source", get excluded "wallet_source"); ("chain", get excluded "chain");
        ("privy_wallet_id", get excluded "privy_wallet_id"); ("verified_at", JNum now)])) ;;
  mret tt.
Definition syncPrivyWallets (userId privyUserId : string) (wallets : list json) : M DB Z :=
  foreachM (syncPrivyWallet userId privyUserId) wallets ;;
  mret (Z.of_nat (length wallets)).
Definition updateUser (userId : string) (fields : list (string * json)) : M DB unit :=
  let sets := omap (fun k => (fun v => (k, v)) <$> JsMap.get fields k) ["display_name"; "email"; "avatar_url"] in
  now ← dateNow;
  (match sets with
   | [] => mret tt
   | _ => update schemaOf "users" (eqText "id" userId) (sets ++ [("updated_at", JNum now)]) ;; mret tt
   end) ;;
  match JsMap.get fields "preferences" with
  | None => mret tt
  | Some prefs =>
      update schemaOf "user_profiles" (eqText "user_id" userId) [("preferences", prefs); ("updated_at", JNum now)] ;;
      mret tt
  end.
Definition addWallet (userId walletType chain address : string) : M DB string :=
  rows ← insert schemaOf "user_wallets"
    [("user_id", JStr userId); ("wallet_type", JStr walletType); ("chain", JStr chain); ("address", JStr address)]
    (DoUpdate ["wallet_type"; "address"] (fun excluded => [("chain", get excluded "chain")]));
  returnedId rows.
Definition deleteWallet (userId walletId : string) : M DB bool :=
  n ← delete schemaOf "user_wallets"
    (fun r => eqText "id" walletId r && eqText "user_id" userId r && eqCol "is_primary" (JBool false) r);
  mret (0 <? n).

(** ** Activity and history *)
Record Activity := mkActivity {
  event_type : string; act_entity_type : option string; act_entity_id : option string; act_tx_hash : option string;
  act_metadata : option json }.
Definition logActivity (userId : option string) (e : Activity) : M DB unit :=
  insert schemaOf "user_activity"
    [("user_id", opt userId); ("event_type", JStr (event_type e)); ("entity_type", opt (act_entity_type e));
     ("entity_id", opt (act_entity_id e)); ("tx_hash", opt (act_tx_hash e));
     ("metadata", orElse (act_metadata e) (JObj []))] OnError ;;
  mret tt.
Definition listActivity (userId : string) (limit : nat) : M DB (list Row) :=
  rows ← select schemaOf "user_activity" (eqText "user_id" userId);
  mret (map (project ["event_type"; "entity_type"; "entity_id"; "tx_hash"; "metadata"; "created_at"])
          (take limit (orderDesc "created_at" rows))).
Definition userTables : list string :=
  ["cctp_deposits"; "note_commitments"; "withdrawals"; "intents"; "settlements"; "cctp_exits"; "encrypted_note_backups"].
Definition listByUser (t userId : string) : M DB (list Row) :=
  if negb (bool_decide (t ∈ userTables)) then failM ("unsafe table " +:+ t)
  else
    rows ← select schemaOf t (eqText "user_id" userId);
    mret (take 200 (orderDesc "created_at" rows)).
Definition listNoteVaultsForRecovery (userId : string) (vaultId : option string) : M DB (list Row) :=
  rows ← select schemaOf "note_vaults"
    (fun r => eqText "user_id" userId r && match truthyOpt vaultId with Some v => eqText "vault_id" v r | None => true end);
  mret (map (project ["vault_id"; "envelope"; "ciphertext"; "aad"; "backup_status"; "recovery_policy_status";
                      "created_at"; "updated_at"]) (orderDesc "created_at" rows)).
Definition addNoteBackup (userId commitment encryptedPayload version : string) : M DB unit :=
  insert schemaOf "encrypted_note_backups"
    [("user_id", JStr userId); ("commitment", JStr commitment); ("encrypted_payload", JStr encryptedPayload);
     ("encryption_version", JStr version)]
    (DoUpdate ["user_id"; "commitment"] (fun excluded => [("encrypted_payload", get excluded "encrypted_payload")])) ;;
  mret tt.

(** ** The RFQ lifecycle *)
Record Lifecycle := mkLifecycle { lc_intent : option Row; lc_quote : option Row; lc_accepted : bool; lc_fill : option Row }.
Definition rfqLifecycle (intentHash quoteId : string) : M DB Lifecycle :=
  i ← selectFirst schemaOf "intents" (eqText "intent_hash" intentHash);
  q ← selectFirst schemaOf "quotes" (eqText "quote_id" quoteId);
  a ← select schemaOf "quote_acceptances" (eqText "quote_id" quoteId);
  f ← select schemaOf "fills" (eqText "quote_id" quoteId);
  mret (mkLifecycle i q (0 <? Z.of_nat (length a)) (head (orderDesc "created_at" f))).
Definition isNullifierSpent (nullifier : string) : M DB bool :=
  catchM (rows ← select schemaOf "nullifier_spends" (eqText "nullifier" nullifier);
          mret (0 <? Z.of_nat (length rows)))
         (fun _ => mret false).
Definition listQuotesByIntent (intentHash : string) : M DB (list Row) :=
  rows ← select schemaOf "quotes" (eqText "intent_hash" intentHash);
  mret (map (project ["quote_id"; "intent_hash"; "quote_hash"; "solver_id"; "payload"; "valid_until_ledger"; "state"])
          (orderAsc "created_at" rows)).
Definition executeFill (fillId destinationTxHash : string) : M DB bool :=
  rows ← update schemaOf "fills" (eqText "fill_id" fillId)
    [("destination_tx_hash", JStr destinationTxHash); ("state", JStr "EXECUTED")];
  mret (changed rows).
Definition setRowUser (t idColumn id userId : string) : M DB unit :=
  if negb (bool_decide (t ∈ ["cctp_deposits"; "withdrawals"; "intents"; "settlements"; "cctp_exits"])) then mret tt
  else update schemaOf t (eqText idColumn id) [("user_id", JStr userId)] ;; mret tt.

(** ** Selective disclosure *)
Definition getOwnedSettlements (userId : string) (settlementIds : list string) : M DB (list Row) :=
  match settlementIds with
  | [] => mret []
  | _ =>
      rows ← select schemaOf "settlements" (andB (eqText "user_id" userId) (anyText "settlement_id" settlementIds));
      mret (map (project ["settlement_id"; "intent_hash"; "quote_id"; "nullifier"; "stellar_tx_hash"; "state"; "created_at"]) rows)
  end.
Definition getOwnedNoteCommitments (userId : string) (commitments : list string) : M DB (list Row) :=
  match commitments with
  | [] => mret []
  | _ =>
      rows ← select schemaOf "note_commitments" (andB (eqText "user_id" userId) (anyText "commitment" commitments));
      mret (map (project ["commitment"; "policy_id"; "amount_usdc_7dp"; "status"; "created_at"]) rows)
  end.
(** [select distinct] fixes no order; here it is the order of insertion. *)
Definition getAnchorIdsForSettlements (settlementIds : list string) : M DB (list string) :=
  match settlementIds with
  | [] => mret []
  | _ =>
      rows ← select schemaOf "anchor_payouts"
        (andB (anyText "settlement_id" settlementIds) (fun r => negb (isNull (get r "anchor_transaction_id"))));
      mret (fold_left JsSet.add (map (fun r => textOf (get r "anchor_transaction_id")) rows) [])
  end.
Record ReportRow := mkReport {
  rr_reportId : string; rr_userId : string; rr_from : option string; rr_to : option string;
  rr_noteCommitments : list string; rr_disclosedNullifiers : list string; rr_quoteId : option string;
  rr_policyId : option string; rr_anchorId : option string; rr_amountDisclosed : bool; rr_proofLinks : list string;
  rr_servicePubkey : string; rr_serviceSignature : string; rr_attachment : option json }.
Definition textArray (l : list string) : json := JStr (stringify (JArr (map JStr l))).
Definition insertViewKeyReport (r : ReportRow) : M DB unit :=
  insert schemaOf "view_key_reports"
    [("report_id", JStr (rr_reportId r)); ("user_id", JStr (rr_userId r)); ("time_range_from", opt (rr_from r));
     ("time_range_to", opt (rr_to r)); ("note_commitments", textArray (rr_noteCommitments r));
     ("disclosed_nullifiers", textArray (rr_disclosedNullifiers r)); ("quote_id", opt (rr_quoteId r));
     ("policy_id", opt (rr_policyId r)); ("anchor_id", opt (rr_anchorId r));
     ("amount_disclosed", JBool (rr_amountDisclosed r)); ("proof_links", textArray (rr_proofLinks r));
     ("service_pubkey", JStr (rr_servicePubkey r)); ("service_signature", JStr (rr_serviceSignature r));
     ("encrypted_attachment", match rr_attachment r with Some a => JStr (stringify a) | None => JNull end)] OnError ;;
  mret tt.
Definition getViewKeyReport (userId reportId : string) : M DB (option Row) :=
  selectFirst schemaOf "view_key_reports" (andB (eqText "report_id" reportId) (eqText "user_id" userId)).
End Store.
End Store.
