(* ===== verification/Privy.v ===== *)
(** * Privy authentication (packages/auth-privy/src/index.ts)

    Access tokens are ES256 JWTs verified offline; the token's subject is the
    canonical identity.  The database is reached through the interface
    [PrivyDb], which the API's store implements.  Theorem: a request is only
    authenticated by a token that carries a valid signature under the key the
    configuration selects, the expected issuer and audience, and no expiry
    that has passed, and it acts as the user of its subject. *)
From S2P Require Import Prelude JsText JsCollections Json Crypto Base64 Database Runtime Store.
From Stdlib Require Import Ascii.
Import JsText Json Crypto Base64 Database Runtime.

Module Privy.

(** WebCrypto's ECDSA P-256: imported keys are kept as bytes. *)
Class WebKeys := {
  importSpki : bytes -> option bytes;
  importJwk : json -> option bytes;
  ecdsaVerify : bytes -> bytes -> bytes -> bool }.

Record PrivyClaims := mkClaims {
  c_userId : string; c_appId : string; c_issuer : string; c_issuedAt : json; c_expiration : json; c_sessionId : json }.

(** The module's caches and the database, as one process sees them. *)
Record PrivyCache := mkCache { cachedKey : option bytes; jwksCache : JsMap.t string bytes }.
Record Api := mkApi { adb : DB; acache : PrivyCache }.
Definition onStore {A} (m : M DB A) : M Api A := fun w =>
  let '(r, d) := m (adb w) in (r, mkApi d (acache w)).
Lemma preserves_onStore {A} (I : DB -> Prop) (m : M DB A) : preserves I m -> preserves (fun w => I (adb w)) (onStore m).
Proof. intros Hm w Hw. specialize (Hm (adb w) Hw). unfold onStore. by destruct (m (adb w)). Qed.
Lemma onStore_Ok {A} (m : M DB A) w a w' :
  onStore m w = (Ok a, w') -> exists db, m (adb w) = (Ok a, db) /\ w' = mkApi db (acache w).
Proof. unfold onStore. destruct (m (adb w)) as [r db]. intros [= -> <-]. eauto. Qed.
Definition getCache : M Api PrivyCache := fun w => (Ok (acache w), w).
Definition putCache (c : PrivyCache) : M Api unit := fun w => (Ok tt, mkApi (adb w) c).

(** What the guards ask of the database ([PrivyDbAdapter]). *)
Class PrivyDb := {
  upsertUserByPrivyId : string -> option string -> option string -> M Api string;
  userOwnsWallet : string -> string -> option string -> M Api bool;
  userOwnsVault : string -> string -> M Api bool }.
#[export] Instance storePrivyDb `{Uuid} : PrivyDb := {|
  upsertUserByPrivyId did email m := onStore (Store.upsertUserByPrivyId did email m);
  userOwnsWallet u a c := onStore (Store.userOwnsWallet u a c);
  userOwnsVault u v := onStore (Store.userOwnsVault u v) |}.

(** ** Encodings *)
(** [s.replace(/-/g, "+").replace(/_/g, "/")] and the missing padding. *)
Definition unUrl (c : ascii) : ascii :=
  if c ==? "-"%char then "+"%char else if c ==? "_"%char then "/"%char else c.
Definition b64urlToBytes (s : string) : result bytes :=
  atob (mapString unUrl s +:+ sliceFrom (Nat.modulo (String.length s + 3) 4) "===").

(** Drop the first [-----<word> ...-----]: up to the dashes after the next
    ones, when the text in between holds no dash. *)
Fixpoint skipLabel (s : string) : option string :=
  match s with
  | EmptyString => None
  | String c s' =>
      if c ==? "-"%char then (if startsWith s "-----" then Some (sliceFrom 5 s) else None) else skipLabel s'
  end.
Definition labelAt (open s : string) : option string :=
  if startsWith s open then
    match sliceFrom (String.length open) s with
    | EmptyString => None
    | String c rest => if c ==? "-"%char then None else skipLabel rest
    end
  else None.
Fixpoint replaceLabel (open s : string) : string :=
  match labelAt open s with
  | Some rest => rest
  | None => match s with EmptyString => "" | String c s' => String c (replaceLabel open s') end
  end.
Definition pemToSpki (pem : string) : result bytes :=
  atob (filterString (fun c => negb (isSpace c))
    (replaceLabel "-----END " (replaceLabel "-----BEGIN " pem))).

(** [decodeURIComponent] on text whose escapes are well-formed UTF-8. *)
Fixpoint decodeURIComponent (s : string) : result string :=
  match s with
  | EmptyString => Ok ""
  | String c s' =>
      if c ==? "%"%char then
        match s' with
        | String h (String l s'') =>
            match digitVal h, digitVal l with
            | Some a, Some b =>
                match decodeURIComponent s'' with
                | Ok t => Ok (String (chr (Z.to_N (16 * a + b))) t)
                | Throw e => Throw e
                end
            | _, _ => Throw (Error None "URI malformed")
            end
        | _ => Throw (Error None "URI malformed")
        end
      else match decodeURIComponent s' with Ok t => Ok (String c t) | Throw e => Throw e end
  end.

(** ** Tokens of a request *)
(** The first cookie of that name with a value, decoded. *)
Fixpoint cookieValue (name : string) (parts : list string) : result (option string) :=
  match parts with
  | [] => Ok None
  | part :: parts =>
      let kv := splitOn "="%char (trim part) in
      let v := orElse (kv !! 1%nat) "" in
      if (orElse (head kv) "" ==? name) && truthy v then
        match decodeURIComponent v with Ok t => Ok (Some t) | Throw e => Throw e end
      else cookieValue name parts
  end.
(** The bearer header, else the cookie. *)
Definition tokenOf (cookieName : string) (r : Request) : result (option string) :=
  match header r "authorization" with
  | Some auth =>
      if startsWith auth "Bearer " then Ok (Some (trim (sliceFrom 7 auth)))
      else match truthyOpt (header r "cookie") with
           | Some cookie => cookieValue cookieName (splitOn ";"%char cookie)
           | None => Ok None
           end
  | None =>
      match truthyOpt (header r "cookie") with
      | Some cookie => cookieValue cookieName (splitOn ";"%char cookie)
      | None => Ok None
      end
  end.
Definition extractPrivyAccessToken (r : Request) : result (option string) := tokenOf "privy-token" r.

Section Verify.
Context `{Env} `{WebKeys} `{Fetch}.

Definition importError : error := Error None "DataError".
(** The JWK of the token's [kid], else the first one. *)
Definition chooseJwk (keys : list json) (kid : option string) : option json :=
  match truthyOpt kid with
  | Some k =>
      match List.find (fun j => field j "kid" ==? JStr k) keys with
      | Some j => Some j
      | None => head keys
      end
  | None => head keys
  end.
Definition fetchJwk (appId : string) (kid : option string) : M Api bytes :=
  n ← onStore tick;
  let url := orElse (env "PRIVY_JWKS_URL") ("https://auth.privy.io/api/v1/apps/" +:+ appId +:+ "/jwks.json") in
  match fetch n "GET" url JNull with
  | Throw e => throwM e
  | Ok (st, j) =>
      if negb (respOk st) then failM ("failed to fetch Privy JWKS (" +:+ toString st +:+ ")")
      else match field j "keys" with
           | JArr keys =>
               match chooseJwk keys kid with
               | None => failM "no matching JWK for token kid"
               | Some jwk => match importJwk jwk with Some k => mret k | None => throwM importError end
               end
           | _ => failM "keys is not iterable"
           end
  end.
Definition verificationKey (kid : option string) : M Api bytes :=
  c ← getCache;
  match cachedKey c with
  | Some k => mret k
  | None =>
      match truthyOpt (env "PRIVY_JWT_VERIFICATION_KEY") with
      | Some pem =>
          spki ← liftR (pemToSpki pem);
          match importSpki spki with
          | Some k => putCache (mkCache (Some k) (jwksCache c)) ;; mret k
          | None => throwM importError
          end
      | None =>
          match truthyOpt (env "PRIVY_APP_ID") with
          | None => failM "provide PRIVY_JWT_VERIFICATION_KEY or PRIVY_APP_ID for token verification"
          | Some appId =>
              let cacheKey := appId +:+ ":" +:+ orElse kid "default" in
              match JsMap.get (jwksCache c) cacheKey with
              | Some k => mret k
              | None =>
                  k ← fetchJwk appId kid;
                  putCache (mkCache (cachedKey c) (JsMap.set (jwksCache c) cacheKey k)) ;;
                  mret k
              end
          end
      end
  end.

(** [payload.exp <= now] of the runtime: a missing or non-numeric [exp] is
    not a number and compares as false; [null] counts as 0. *)
Definition member (j : json) (k : string) : option json :=
  match j with JObj kvs => JsMap.get kvs k | _ => None end.
Definition expired (payload : json) (now : Z) : bool :=
  match member payload "exp" with
  | Some (JNum e) => e <=? now
  | Some JNull => 0 <=? now
  | Some (JBool b) => (if b then 1 else 0) <=? now
  | Some (JStr s) => match Number s with NaN => false | e => negb (below now e) end
  | _ => false
  end.
Definition checkPayload (payload : json) (now : Z) : result PrivyClaims :=
  if negb (field payload "iss" ==? JStr "privy.io") then Throw (Error None "bad issuer")
  else
    let aud := match truthyOpt (env "PRIVY_APP_ID") with
               | Some appId => field payload "aud" ==? JStr appId
               | None => true
               end in
    if negb aud then Throw (Error None "audience mismatch")
    else if expired payload now then Throw (Error None "token expired")
    else Ok (mkClaims (strField payload "sub") (strField payload "aud") (strField payload "iss")
               (field payload "iat") (field payload "exp") (field payload "sid")).
Definition kidOf (header : json) : option string := match field header "kid" with JStr k => Some k | _ => None end.
Definition parseJson (b : bytes) : result json :=
  match parse b with Some j => Ok j | None => Throw (Error None "SyntaxError") end.

Definition verifyPrivyAccessToken (token : string) : M Api PrivyClaims :=
  match splitOn "."%char token with
  | [headerB64; payloadB64; sigB64] =>
      hb ← liftR (b64urlToBytes headerB64);
      header ← liftR (parseJson hb);
      if negb (field header "alg" ==? JStr "ES256") then failM "unexpected alg"
      else
        sig ← liftR (b64urlToBytes sigB64);
        key ← verificationKey (kidOf header);
        if negb (ecdsaVerify key sig (headerB64 +:+ "." +:+ payloadB64)) then failM "invalid token signature"
        else
          pb ← liftR (b64urlToBytes payloadB64);
          payload ← liftR (parseJson pb);
          now ← onStore dateNow;
          liftR (checkPayload payload (now / 1000))
  | _ => failM "malformed JWT"
  end.

Context `{PrivyDb}.

Record PrivyUser := mkUser { p_userId : string; p_privyUserId : string; p_claims : PrivyClaims }.
Definition requirePrivyUser (r : Request) : M Api PrivyUser :=
  token ← liftR (extractPrivyAccessToken r);
  match truthyOpt token with
  | None => httpM 401 "Privy authentication required"
  | Some token =>
      claims ← catchM (verifyPrivyAccessToken token)
                 (fun e => httpM 401 ("invalid Privy token: " +:+ message e));
      userId ← upsertUserByPrivyId (c_userId claims) None None;
      mret (mkUser userId (c_userId claims) claims)
  end.
Definition optionalPrivyUser (r : Request) : M Api (option (string * string)) :=
  token ← liftR (extractPrivyAccessToken r);
  match truthyOpt token with
  | None => mret None
  | Some token =>
      catchM (claims ← verifyPrivyAccessToken token;
              userId ← upsertUserByPrivyId (c_userId claims) None None;
              mret (Some (userId, c_userId claims)))
             (fun _ => mret None)
  end.
Definition syncPrivyUserToDb (id : string) (email primaryAuthMethod : option string) : M Api string :=
  upsertUserByPrivyId id email primaryAuthMethod.
Definition requireUserOwnedWallet (userId walletAddress : string) (chain : option string) : M Api unit :=
  ok ← userOwnsWallet userId walletAddress chain;
  guardM ok (Error (Some 403) "wallet is not linked to the authenticated user").
Definition requireUserOwnedVault (userId vaultId : string) : M Api unit :=
  ok ← userOwnsVault userId vaultId;
  guardM ok (Error (Some 403) "vault does not belong to the authenticated user").

(** ** What an authenticated request shows *)

(** The key of the environment's PEM. *)
Definition pemKey (key : bytes) : Prop :=
  exists pem spki, env "PRIVY_JWT_VERIFICATION_KEY" = Some pem /\ pem ≠ "" /\ pemToSpki pem = Ok spki /\ importSpki spki = Some key.
Definition jwksUrl (appId : string) : string :=
  match env "PRIVY_JWKS_URL" with
  | Some url => url
  | None => "https://auth.privy.io/api/v1/apps/" +:+ appId +:+ "/jwks.json"
  end.
(** The first JWK with that [kid], or the first of all when the token names
    none or none has it. *)
Definition selectedJwk (keys : list json) (kid : option string) (jwk : json) : Prop :=
  (exists k before after, kid = Some k /\ k ≠ "" /\ keys = before ++ jwk :: after /\ field jwk "kid" = JStr k /\
     forall j, j ∈ before -> field j "kid" ≠ JStr k) \/
  (head keys = Some jwk /\ forall k, kid = Some k -> k ≠ "" -> forall j, j ∈ keys -> field j "kid" ≠ JStr k).
(** The [n]-th call found the key at the application's address. *)
Definition servedKey (n : Z) (appId : string) (kid : option string) (key : bytes) : Prop :=
  exists st j keys jwk, fetch n "GET" (jwksUrl appId) JNull = Ok (st, j) /\ 200 <= st < 300 /\
    field j "keys" = JArr keys /\ selectedJwk keys kid jwk /\ importJwk jwk = Some key.
(** The key a process checks a token of that [kid] with: the cached one, the
    PEM of the environment, or the JWK of the application, cached or fetched. *)
Definition trustedKey (w : Api) (kid : option string) (key : bytes) : Prop :=
  match cachedKey (acache w) with
  | Some k => key = k
  | None =>
      pemKey key \/
      orElse (env "PRIVY_JWT_VERIFICATION_KEY") "" = "" /\
      exists appId, env "PRIVY_APP_ID" = Some appId /\ appId ≠ "" /\
        match JsMap.get (jwksCache (acache w)) (appId +:+ ":" +:+ orElse kid "default") with
        | Some k => key = k
        | None => servedKey (ticks (adb w)) appId kid key
        end
  end.
(** Caches that hold only what the configuration selects. *)
Definition cacheSound (c : PrivyCache) : Prop :=
  (forall k, cachedKey c = Some k -> pemKey k) /\
  (forall ck k, JsMap.get (jwksCache c) ck = Some k -> exists n appId kid,
     env "PRIVY_APP_ID" = Some appId /\ ck = appId +:+ ":" +:+ orElse kid "default" /\ servedKey n appId kid k).

Lemma truthyOpt_Some o s : truthyOpt o = Some s -> o = Some s /\ truthy s = true.
Proof. unfold truthyOpt. destruct o as [t|]; [|done]. destruct (truthy t) eqn:E; [|done]. by intros [= ->]. Qed.
Lemma truthy_ne s : truthy s = true -> s ≠ "".
Proof. by intros Ht ->. Qed.
Lemma find_split {A} (p : A -> bool) l x : List.find p l = Some x ->
  exists before after, l = before ++ x :: after /\ p x = true /\ forall y, y ∈ before -> p y = false.
Proof.
  induction l as [|a l IH]; cbn [List.find]; [done|]. destruct (p a) eqn:E.
  - intros [= ->]. exists [], l. split; [done|]. split; [done|]. intros y Hy. by apply elem_of_nil in Hy.
  - intros (b & r & -> & Hx & Hb)%IH. exists (a :: b), r. split; [done|]. split; [done|]. intros y [->|Hy]%elem_of_cons; [done|by apply Hb].
Qed.
Lemma chooseJwk_selected keys kid j : chooseJwk keys kid = Some j -> selectedJwk keys kid j.
Proof.
  unfold chooseJwk, selectedJwk. destruct (truthyOpt kid) as [k|] eqn:Et.
  - apply truthyOpt_Some in Et as [-> Ht%truthy_ne]. destruct (List.find _ keys) as [x|] eqn:E.
    + intros [= ->]. apply find_split in E as (b & r & E & Hx%bool_decide_eq_true & Hb). left. exists k, b, r.
      do 4 (split; [done|]). intros y Hy. specialize (Hb y Hy). by apply bool_decide_eq_false in Hb.
    + intros Hh. right. split; [done|]. intros k' [= <-] _ y Hy E'. pose proof (List.find_none _ _ E y) as Hn. cbv beta in Hn.
      rewrite bool_decide_true in Hn by done. discriminate Hn. by apply list_elem_of_In.
  - intros Hh. right. split; [done|]. intros k -> Hk. unfold truthyOpt in Et. destruct (truthy k) eqn:E; [done|].
    unfold truthy in E. by apply negb_false_iff, bool_decide_eq_true in E.
Qed.
Lemma fetchJwk_tables appId kid w r w' : fetchJwk appId kid w = (r, w') ->
  acache w' = acache w /\ tables (adb w') = tables (adb w) /\ clock (adb w') = clock (adb w) /\
  (forall key, r = Ok key -> servedKey (ticks (adb w)) appId kid key).
Proof.
  unfold fetchJwk, mbind, M_bind, onStore, tick. simpl. intros Hx.
  destruct (fetch _ _ _ _) as [[st j]|e] eqn:Ef; [|injection Hx as <- <-; by split_and!].
  destruct (respOk st) eqn:Er; simpl in Hx; [|injection Hx as <- <-; by split_and!].
  destruct (field j "keys") as [| | | |keys|] eqn:Ek; try (injection Hx as <- <-; by split_and!).
  destruct (chooseJwk keys kid) as [jwk|] eqn:Ec; [|injection Hx as <- <-; by split_and!].
  destruct (importJwk jwk) as [k|] eqn:Ei; injection Hx as <- <-; split_and!; try done.
  intros key [= <-]. unfold respOk in Er. apply andb_true_iff in Er as [Hs1%Z.leb_le Hs2%Z.ltb_lt].
  exists st, j, keys, jwk. split_and!; try done. by apply chooseJwk_selected.
Qed.
Lemma verificationKey_run kid w r w' : verificationKey kid w = (r, w') ->
  tables (adb w') = tables (adb w) /\ clock (adb w') = clock (adb w) /\ (forall key, r = Ok key -> trustedKey w kid key).
Proof.
  unfold verificationKey, mbind, M_bind, getCache, putCache, liftR, trustedKey. intros Hx.
  destruct (cachedKey (acache w)) as [k|] eqn:Ec; [injection Hx as <- <-; split_and!; try done; naive_solver|].
  destruct (truthyOpt (env "PRIVY_JWT_VERIFICATION_KEY")) as [pem|] eqn:Ep.
  - apply truthyOpt_Some in Ep as [Ep Ht%truthy_ne]. destruct (pemToSpki pem) as [spki|] eqn:Es; [|injection Hx as <- <-; by split_and!].
    destruct (importSpki spki) as [k|] eqn:Ei; injection Hx as <- <-; split_and!; try done.
    intros key [= <-]. left. by exists pem, spki.
  - assert (orElse (env "PRIVY_JWT_VERIFICATION_KEY") "" = "") as Hno.
    { unfold truthyOpt in Ep. destruct (env _) as [s|]; [|done]. destruct (truthy s) eqn:E; [done|].
      unfold truthy in E. by apply negb_false_iff, bool_decide_eq_true in E. }
    destruct (truthyOpt (env "PRIVY_APP_ID")) as [appId|] eqn:Ea; [|injection Hx as <- <-; by split_and!].
    apply truthyOpt_Some in Ea as [Ea Ht%truthy_ne].
    destruct (JsMap.get (jwksCache (acache w)) _) as [k|] eqn:Eg.
    + injection Hx as <- <-. split_and!; try done. intros key [= <-]. right. split; [done|]. exists appId. by rewrite Eg.
    + destruct (fetchJwk appId kid w) as [[k|e] w1] eqn:Ef; apply fetchJwk_tables in Ef as (E1 & E2 & E3 & E4);
        injection Hx as <- <-; split_and!; try done.
      intros key [= <-]. right. split; [done|]. exists appId. rewrite Eg. split; [done|]. split; [done|]. by apply E4.
Qed.
Lemma verificationKey_cache kid : preserves (fun w => cacheSound (acache w)) (verificationKey kid).
Proof.
  intros w Hw. pose proof Hw as [Hp Hj]. unfold verificationKey, mbind, M_bind, getCache, putCache, liftR.
  destruct (cachedKey (acache w)) as [k|] eqn:Ec; [done|].
  destruct (truthyOpt (env "PRIVY_JWT_VERIFICATION_KEY")) as [pem|] eqn:Ep.
  - apply truthyOpt_Some in Ep as [Ep Ht%truthy_ne]. destruct (pemToSpki pem) as [spki|] eqn:Es; [|done].
    destruct (importSpki spki) as [k|] eqn:Ei; [|done]. split; [|done]. intros key [= <-]. by exists pem, spki.
  - destruct (truthyOpt (env "PRIVY_APP_ID")) as [appId|] eqn:Ea; [|done]. apply truthyOpt_Some in Ea as [Ea Ht%truthy_ne].
    destruct (JsMap.get (jwksCache (acache w)) _) as [k|] eqn:Eg; [done|].
    destruct (fetchJwk appId kid w) as [[k|e] w1] eqn:Ef; apply fetchJwk_tables in Ef as (E1 & E2 & E3 & E4); [|cbn; by rewrite E1].
    split; [done|]. intros ck key. cbn [snd mret M_ret acache jwksCache]. rewrite JsMap.get_set. case_bool_decide as Hck; [|apply Hj].
    intros [= <-]. exists (ticks (adb w)), appId, kid. split; [done|]. split; [done|]. by apply E4.
Qed.

(** What a verified token has shown. *)
Record verified (w : Api) (token : string) (c : PrivyClaims) (payload : json) : Prop := {
  ver_parts : exists h p s hb header sig key pb,
    splitOn "."%char token = [h; p; s] /\ b64urlToBytes h = Ok hb /\ parse hb = Some header /\
    field header "alg" = JStr "ES256" /\ b64urlToBytes s = Ok sig /\
    trustedKey w (match field header "kid" with JStr k => Some k | _ => None end) key /\
    ecdsaVerify key sig (h +:+ "." +:+ p) = true /\ b64urlToBytes p = Ok pb /\ parse pb = Some payload;
  ver_issuer : field payload "iss" = JStr "privy.io";
  ver_audience : forall appId, env "PRIVY_APP_ID" = Some appId -> truthy appId = true -> field payload "aud" = JStr appId;
  ver_expiry : forall e, member payload "exp" = Some (JNum e) -> clock (adb w) / 1000 < e;
  ver_subject : c_userId c = strField payload "sub" }.

Lemma parseJson_Ok b j : parseJson b = Ok j -> parse b = Some j.
Proof. unfold parseJson. destruct (parse b); congruence. Qed.
Lemma verify_run token w r w' : verifyPrivyAccessToken token w = (r, w') ->
  tables (adb w') = tables (adb w) /\ (forall c, r = Ok c -> exists payload, verified w token c payload).
Proof.
  unfold verifyPrivyAccessToken. destruct (splitOn "."%char token) as [|h [|p [|s [|]]]] eqn:Es;
    try (intros [= <- <-]; by split).
  unfold mbind, M_bind, liftR. destruct (b64urlToBytes h) as [hb|] eqn:Eh; [|intros [= <- <-]; by split].
  destruct (parseJson hb) as [header|] eqn:Ej; [|intros [= <- <-]; by split].
  destruct (bool_decide_reflect (field header "alg" = JStr "ES256")) as [Ealg|]; [|intros [= <- <-]; by split]. cbn [negb].
  destruct (b64urlToBytes s) as [sig|] eqn:Esig; [|intros [= <- <-]; by split].
  destruct (verificationKey (kidOf header) w) as [[key|e] w1] eqn:Ek; apply verificationKey_run in Ek as (E1 & E2 & E3);
    [|intros [= <- <-]; by split].
  destruct (ecdsaVerify key sig _) eqn:Ev; cbn [negb]; [|intros [= <- <-]; by split].
  destruct (b64urlToBytes p) as [pb|] eqn:Epb; [|intros [= <- <-]; by split].
  destruct (parseJson pb) as [payload|] eqn:Epj; [|intros [= <- <-]; by split].
  unfold onStore, dateNow. intros [= <- <-]. split; [done|]. intros c Hc. exists payload. simpl in Hc. rewrite E2 in Hc.
  unfold checkPayload in Hc.
  destruct (bool_decide_reflect (field payload "iss" = JStr "privy.io")) as [Ei|]; [|done]. cbn [negb] in Hc.
  destruct (match truthyOpt (env "PRIVY_APP_ID") with Some _ => _ | None => true end) eqn:Ea; [|done]. cbn [negb] in Hc.
  destruct (expired payload _) eqn:Ex; [done|]. injection Hc as <-. split; try done.
  - exists h, p, s, hb, header, sig, key, pb. split_and!; try done; [by apply parseJson_Ok|by apply E3|by apply parseJson_Ok].
  - intros appId Happ Ht. unfold truthyOpt in Ea. rewrite Happ, Ht in Ea. by apply bool_decide_eq_true in Ea.
  - intros e He. unfold expired in Ex. rewrite He in Ex. by apply Z.leb_gt in Ex.
Qed.

Lemma verify_cache token : preserves (fun w => cacheSound (acache w)) (verifyPrivyAccessToken token).
Proof.
  unfold verifyPrivyAccessToken. destruct (splitOn "."%char token) as [|h [|p [|s [|]]]]; try (unfold failM; auto with preserve).
  apply preserves_bind; [auto with preserve|intros hb]. apply preserves_bind; [auto with preserve|intros header].
  apply preserves_if; [unfold failM; auto with preserve|]. apply preserves_bind; [auto with preserve|intros sig].
  apply preserves_bind; [apply verificationKey_cache|intros key]. apply preserves_if; [unfold failM; auto with preserve|].
  apply preserves_bind; [auto with preserve|intros pb]. apply preserves_bind; [auto with preserve|intros payload].
  apply preserves_bind; [by intros w Hw|intros now; auto with preserve].
Qed.

(** What the guards rely on in the database. *)
Class PrivyDbLaws (isUser : Api -> string -> string -> Prop) : Prop :=
  upsert_isUser did email m w uid w' : upsertUserByPrivyId did email m w = (Ok uid, w') -> isUser w' did uid.

Lemma privy_authenticates_at isUser `{!PrivyDbLaws isUser} r w u w' :
  requirePrivyUser r w = (Ok u, w') ->
  exists token payload, extractPrivyAccessToken r = Ok (Some token) /\ verified w token (p_claims u) payload /\
    p_privyUserId u = strField payload "sub" /\ isUser w' (p_privyUserId u) (p_userId u).
Proof.
  intros Hr. unfold requirePrivyUser in Hr. lift_ok Hr as t Et.
  destruct (truthyOpt t) as [token|] eqn:Ett; [|done]. apply truthyOpt_Some in Ett as [-> _].
  bind_ok Hr as claims w1 Ec. bind_ok Hr as uid w2 Eu. apply ret_Ok in Hr as [-> ->]. simpl.
  apply catchM_Ok in Ec as [Ec|(e & w3 & _ & Hx)]; [|done].
  apply verify_run in Ec as [_ Hv]. destruct (Hv claims eq_refl) as [payload Hp].
  exists token, payload. split_and!; [done|done|apply Hp|by eapply upsert_isUser].
Qed.
End Verify.

(** ** The store discharges the interface *)
Definition storeUser (w : Api) (did uid : string) : Prop :=
  exists r, r ∈ table (adb w) "users" /\ get r "privy_user_id" = JStr did /\ Store.idOf r = uid.

Lemma touchLogin_keeps uid db u db' r :
  Store.touchLogin uid db = (Ok u, db') -> r ∈ table db "users" ->
  exists r', r' ∈ table db' "users" /\ Store.idOf r' = Store.idOf r /\ get r' "privy_user_id" = get r "privy_user_id".
Proof.
  unfold Store.touchLogin. intros Ht Hr. bind_ok Ht as now db1 En. injection En as <- <-.
  bind_ok Ht as rows db2 Eu. apply ret_Ok in Ht as [_ ->].
  erewrite (update_ok schemaOf) in Eu; [|reflexivity..]. injection Eu as _ <-. rewrite table_same.
  eexists. split; [apply elem_of_updateWhere; exists r; split; [done|reflexivity]|].
  destruct (eqText "id" uid r); [|done].
  assert (forall c, c ≠ "last_login_at" -> c ≠ "updated_at" ->
    get (assignRow [("last_login_at", JNum (clock db)); ("updated_at", JNum (clock db))] r) c = get r c) as Hg.
  { intros c H1 H2. unfold get. rewrite get_assignRow. simpl. rewrite !bool_decide_false by done.
    by destruct (JsMap.get r c). }
  assert (forall r : Row, Store.idOf r = textOf (get r "id")) as Hid by done.
  rewrite !Hid, !Hg by discriminate. done.
Qed.
#[export] Instance store_laws `{Uuid} : PrivyDbLaws storeUser.
Proof.
  intros did email m w uid w'. simpl. unfold onStore.
  destruct (Store.upsertUserByPrivyId did email m (adb w)) as [r d] eqn:E. intros [= -> <-].
  unfold storeUser. cbn [adb]. unfold Store.upsertUserByPrivyId in E.
  bind_ok E as existing db1 E1. apply selectFirst_Ok in E1 as [-> ->].
  destruct (head (selectWhere (eqText "privy_user_id" did) (table (adb w) "users"))) as [r|] eqn:Eh.
  - apply head_selectWhere in Eh as [Hr Hd%eqText_true]. bind_ok E as u db2 Et. apply ret_Ok in E as [-> ->].
    destruct (touchLogin_keeps _ _ _ _ r Et Hr) as (r' & Hr' & Hid & Hp). exists r'. split_and!; congruence.
  - bind_ok E as now db2 En. injection En as <- <-. bind_ok E as rows db3 Ei.
    apply (insert_OnError_Ok schemaOf) in Ei as (s & row & [= <-] & Eb & -> & ->).
    bind_ok E as uid' db4 Eid. apply ret_Ok in Eid as [-> ->]. bind_ok E as u db5 Ep. apply ret_Ok in E as [-> ->].
    exists row. assert (table db5 "users" = table (adb w) "users" ++ [row]) as ->.
    { unfold Store.createProfile in Ep. bind_ok Ep as rows db6 Ei. apply ret_Ok in Ep as [_ ->].
      pose proof (keeps_insert schemaOf "users" "user_profiles" (table (adb w) "users" ++ [row])
        [("user_id", JStr (Store.idOf row))] (DoNothing None)) as Hk.
      specialize (Hk ltac:(discriminate) _ (table_same "users" (table (adb w) "users" ++ [row]) (ticked (adb w)))). by rewrite Ei in Hk. }
    split_and!; [apply elem_of_app; right; by left| |done].
    cbn -[coerce] in Eb. destruct email; injection Eb as <-; done.
Qed.

Section Claim.
Context `{Env} `{WebKeys} `{Fetch} `{Uuid}.

(** C40. A request is authenticated as a user only by a token with three parts
    whose header names ES256, issued by privy.io, for the configured
    application and, when it carries a numeric expiry, not expired, and signed
    under the one key the configuration selects for it: the cached key, else
    the PEM of the environment, else, for the application's identifier, the
    cached or fetched JWK at [PRIVY_JWKS_URL] or the application's address at
    privy.io whose [kid] is the token's, or the first of them.  The user is the
    row of the token's subject.  Caches that hold only such keys stay so.  A
    request that is refused changes no table. *)
Theorem privy_authenticates r w :
  (forall u w', requirePrivyUser r w = (Ok u, w') ->
     exists token payload, extractPrivyAccessToken r = Ok (Some token) /\ verified w token (p_claims u) payload /\
       p_privyUserId u = strField payload "sub" /\ storeUser w' (p_privyUserId u) (p_userId u)) /\
  (cacheSound (acache w) -> cacheSound (acache (requirePrivyUser r w).2)) /\
  (extractPrivyAccessToken r = Ok None -> requirePrivyUser r w = (Throw (Error (Some 401) "Privy authentication required"), w)) /\
  (forall token e w1, verifyPrivyAccessToken token w = (Throw e, w1) -> tables (adb w1) = tables (adb w)).
Proof.
  split_and!.
  - intros u w'. apply privy_authenticates_at. apply store_laws.
  - assert (preserves (fun w => cacheSound (acache w)) (requirePrivyUser r)) as Hp; [|apply Hp].
    unfold requirePrivyUser. apply preserves_bind; [auto with preserve|intros t]. destruct (truthyOpt t) as [token|]; [|by intros v Hv].
    apply preserves_bind; [apply preserves_catch; [apply verify_cache|intros e; by intros v Hv]|intros claims].
    apply preserves_bind; [|auto with preserve]. intros v Hv. cbn. unfold onStore. by destruct (Store.upsertUserByPrivyId _ _ _ _).
  - intros Hn. unfold requirePrivyUser, mbind, M_bind, liftR. by rewrite Hn.
  - intros token e w1 Ev. by apply verify_run in Ev as [Ht _].
Qed.
End Claim.

(** ** Witness: a signed token on an empty database *)
Definition toyKeys : WebKeys := {|
  importSpki b := Some b; importJwk j := Some (strField j "k");
  ecdsaVerify key sig data := sig ==? key |}.
Definition toyPrivyEnv : Env := fun v => if v ==? "PRIVY_APP_ID" then Some "app-1" else None.
Definition toyJwks : Fetch := fun _ _ _ _ =>
  Ok (200, JObj [("keys", JArr [JObj [("kid", JStr "kid-1"); ("k", JStr "key")]])]).
Definition toyToken : string :=
  btoa (stringify (JObj [("alg", JStr "ES256"); ("kid", JStr "kid-1")])) +:+ "." +:+
  btoa (stringify (JObj [("iss", JStr "privy.io"); ("aud", JStr "app-1"); ("sub", JStr "did:privy:1"); ("exp", JNum 100)]))
  +:+ "." +:+ btoa "key".
Definition toyRequest (body : json) : Request := mkRequest [("authorization", "Bearer " +:+ toyToken)] [] [] body.
Definition toyApi : Api := mkApi (emptyDB 5000) (mkCache None []).
Definition toyLogin := @requirePrivyUser toyPrivyEnv toyKeys toyJwks (@storePrivyDb toyUuid) (toyRequest JNull) toyApi.
Lemma privy_authenticates_witness :
  exists u w', toyLogin = (Ok u, w') /\ storeUser w' (p_privyUserId u) (p_userId u).
Proof.
  destruct toyLogin as [[u|e] w'] eqn:E; [|exfalso; revert E; vm_compute; discriminate].
  destruct (proj1 (@privy_authenticates toyPrivyEnv toyKeys toyJwks toyUuid (toyRequest JNull) toyApi) u w' E)
    as (token & payload & _ & _ & _ & Hu).
  exists u, w'. split; [reflexivity|exact Hu].
Defined.
End Privy.
