(* ===== verification/Schemas.v ===== *)
(** * Request schemas (apps/api/src/schemas.ts, packages/rfq-types)

    The zod schemas as data.  zod is a third-party library: what it returns
    for a schema and a value is the class parameter [Zod]. *)
From S2P Require Import Prelude JsText JsCollections Json Jsonb Database Runtime.
Import JsText Json Runtime.

Module Schemas.

Inductive check := Min (n : Z) | Max (n : Z) | Regex (re : string) | UuidFormat | Email | Url | Datetime | Int | Positive.
Inductive zschema :=
| ZString (cs : list check)
| ZNumber (cs : list check)
| ZBool
| ZLiteral (j : json)
| ZEnum (l : list string)
| ZRecord (* of unknown *)
| ZArray (s : zschema) (cs : list check)
| ZObject (fields : list (string * zschema))
| ZOptional (s : zschema)
| ZDefault (s : zschema) (j : json)
| ZRefine (s : zschema) (refinement : string).

(** [schema.parse(value)]: the parsed value, or a ZodError. *)
Class Zod := zodParse : zschema -> json -> option json.
(** The error handler answers a ZodError with 400. *)
Definition zodError : error := Error (Some 400) "invalid request body".
Definition parse `{Zod} (s : zschema) (j : json) : result json :=
  match zodParse s j with Some v => Ok v | None => Throw zodError end.
(** zod strips the members an object schema does not name. *)
Class ZodLaws `{Zod} : Prop :=
  zod_strips fields j v : zodParse (ZObject fields) j = Some v ->
    exists kvs, v = JObj kvs /\ forall k, k ∈ kvs.*1 -> k ∈ fields.*1.
(** No member of the value is dropped or filled in by the schema. *)
Fixpoint covers (s : zschema) (j : json) : bool :=
  match s with
  | ZObject fields =>
      match j with
      | JObj kvs =>
          forallb (fun kv => bool_decide (kv.1 ∈ fields.*1)) kvs
          && (fix go (fields : list (string * zschema)) : bool :=
                match fields with
                | [] => true
                | (k, s') :: fields => match JsMap.get kvs k with Some v => covers s' v | None => true end && go fields
                end) fields
      | _ => true
      end
  | ZArray s' _ => match j with JArr l => forallb (covers s') l | _ => true end
  | ZOptional s' | ZRefine s' _ => covers s' j
  | ZDefault _ _ => false
  | _ => true
  end.
(** What such a schema accepts is returned as a copy: the same members. *)
Class ZodKeeps `{Zod} : Prop :=
  zod_keeps s j v : covers s j = true -> zodParse s j = Some v -> Jsonb.same v j.
(** A member that has to be a string is one, and is passed on. *)
Class ZodTexts `{Zod} : Prop :=
  zod_texts fields j v k checks : zodParse (ZObject fields) j = Some v -> (k, ZString checks) ∈ fields ->
    exists x, field v k = JStr x /\ field j k = JStr x.
(** For the witnesses: accept every value, strip the top level. *)
Definition toyZod : Zod := fun s j =>
  match s, j with
  | ZObject fields, JObj kvs => Some (JObj (selectWhere (fun kv => bool_decide (kv.1 ∈ fields.*1)) kvs))
  | ZObject _, _ => None
  | _, _ => Some j
  end.
Lemma toyZod_laws : @ZodLaws toyZod.
Proof.
  intros fields [| | | | |kvs] v; try done. intros [= <-]. eexists. split; [done|].
  intros k (x & -> & [_ Hx%bool_decide_eq_true]%elem_of_selectWhere)%list_elem_of_fmap. done.
Qed.

Lemma toyZod_keeps : @ZodKeeps toyZod.
Proof.
  intros s j v Hc Hp. assert (v = j) as ->; [|done]. destruct s as [| | | | | | |fields| | |]; try by injection Hp. destruct j as [| | | | |kvs]; try done.
  injection Hp as <-. f_equal. cbn [covers] in Hc. apply andb_true_iff in Hc as [Hc _]. clear -Hc. induction kvs as [|kv kvs IH]; [done|].
  apply andb_true_iff in Hc as [Hk Hc]. unfold selectWhere in *. rewrite filter_cons, decide_True by (by rewrite Hk). by rewrite IH.
Qed.

(** The same, and members that have to be strings are tested. *)
Definition textMember (kvs : list (string * json)) (f : string * zschema) : bool :=
  match f.2 with ZString _ => match JsMap.get kvs f.1 with Some (JStr _) => true | _ => false end | _ => true end.
Definition strictZod : Zod := fun s j =>
  match s, j with
  | ZObject fields, JObj kvs => if forallb (textMember kvs) fields then toyZod s j else None
  | _, _ => toyZod s j
  end.
Lemma get_stripped (p : string -> bool) kvs k (v : json) : JsMap.get kvs k = Some v -> p k = true ->
  JsMap.get (selectWhere (fun kv => p kv.1) kvs) k = Some v.
Proof.
  intros Hg Hp. revert Hg. unfold selectWhere. induction kvs as [|[k' v'] kvs IH]; [done|]. cbn [JsMap.get]. rewrite filter_cons. cbn [fst].
  case_bool_decide as E; [subst k'; rewrite decide_True by (by rewrite Hp); intros [= ->]; cbn [JsMap.get]; by rewrite bool_decide_true|].
  intros Hg. destruct (decide (Is_true (p k'))); [|by apply IH]. cbn [JsMap.get]. rewrite bool_decide_false by done. by apply IH.
Qed.
Lemma strictZod_laws : @ZodLaws strictZod.
Proof.
  intros fields j v. unfold zodParse, strictZod. destruct j; try apply toyZod_laws. destruct (forallb _ _); [apply toyZod_laws|done].
Qed.
Lemma strictZod_texts : @ZodTexts strictZod.
Proof.
  intros fields [| | | | |kvs] v k checks; try done. unfold zodParse, strictZod. destruct (forallb _ _) eqn:Ef; [|done]. intros [= <-] Hk.
  rewrite forallb_forall in Ef. specialize (Ef _ (proj1 (list_elem_of_In _ _) Hk)). unfold textMember in Ef. cbn [fst snd] in Ef.
  destruct (JsMap.get kvs k) as [[]|] eqn:Eg; try done. exists s. cbn [field]. rewrite Eg. split; [|done].
  pose proof (get_stripped (fun x => bool_decide (x ∈ fields.*1)) _ _ _ Eg) as E. cbn beta in E. rewrite E; [done|].
  apply bool_decide_eq_true. by apply (list_elem_of_fmap_2 fst _ (k, ZString checks)).
Qed.

Definition str1 := ZString [Min 1].
Definition digits := ZString [Regex "^\d+$"].
Definition posInt := ZNumber [Int; Positive].
Definition obj := ZObject.

Definition idempotencyHeader := obj [("idempotency-key", ZString [Min 8])].
Definition prepareDepositSchema := obj
  [("amount_usdc_6dp", digits); ("asset_id", str1); ("owner_public_key", str1); ("spend_public_key", str1);
   ("compliance_tag", str1); ("source_context", str1); ("memo_commitment", str1);
   ("encrypted_note_payload_hash", str1); ("policy_id", str1); ("shade_vault_contract", str1)].
Definition proofRequestSchema := obj
  [("proof_type", ZEnum ["deposit_note_mint"; "withdraw_public"; "withdraw_cctp"; "rfq_settlement"; "private_transfer"]);
   ("public_inputs", ZRecord); ("witness", ZOptional ZRecord)].
Definition withdrawalSchema := obj
  [("root", str1); ("nullifier", str1); ("asset_id", str1); ("amount_public", digits); ("recipient", str1);
   ("relayer_fee", digits); ("deadline_ledger", posInt); ("policy_id", str1); ("pool_id", str1); ("chain_id", str1)].
Definition quoteAcceptanceSchema := obj [("intent_hash", str1); ("user_signature_hash", str1)].
Definition lockSchema := obj
  [("solver_id", str1); ("lock_hash", str1); ("amount", str1); ("asset", str1); ("expires_at_ledger", posInt)].
Definition fillSchema := obj
  [("quote_id", ZString [UuidFormat]); ("fill_receipt_hash", str1); ("destination_tx_hash", ZOptional (ZString []));
   ("amount", str1); ("recipient", str1)].
Definition settlementSchema := obj
  [("intent_hash", str1); ("quote_id", ZString [UuidFormat]); ("fill_id", ZOptional (ZString []));
   ("fill_receipt_hash", ZOptional (ZString [])); ("proof_job_id", str1); ("nullifier", str1)].
Definition cctpExitSchema := obj
  [("nullifier", str1); ("destination_domain", ZNumber [Int]); ("destination_recipient", str1);
   ("amount_usdc_7dp", digits); ("relayer_fee", digits)].
Definition walletTypes := ZEnum ["EVM"; "STELLAR"].
Definition authNonceSchema := obj [("wallet_type", walletTypes); ("address", str1)].
Definition authVerifySchema := obj [("address", str1); ("signature", str1); ("nonce", str1)].
Definition updateMeSchema := obj
  [("display_name", ZOptional (ZString [Max 100])); ("email", ZOptional (ZString [Email; Max 200]));
   ("avatar_url", ZOptional (ZString [Url; Max 500])); ("preferences", ZOptional ZRecord)].
Definition addWalletSchema := obj [("wallet_type", walletTypes); ("address", str1); ("signature", str1); ("nonce", str1)].
Definition noteBackupSchema := obj
  [("commitment", str1); ("encrypted_payload", str1); ("encryption_version", ZDefault (ZString []) (JStr "v1"))].
Definition requestQuotesSchema := obj [("amount", digits); ("expiry_ledger", ZOptional posInt)].
Definition vaultWrapperSchema := obj
  [("id", ZString []);
   ("type", ZEnum ["passkey_prf"; "stellar_ed25519_signature"; "recovery_file_secret"; "recovery_kit_password"; "evm_signature"]);
   ("status", ZEnum ["active"; "revoked"]); ("kdf", ZEnum ["HKDF-SHA256"; "PBKDF2-SHA256"]); ("salt", ZString []);
   ("wrapped_key", ZString []); ("diagnostic_only", ZOptional ZBool); ("metadata", ZRecord)].
Definition encryptedVaultEnvelopeSchema := obj
  [("version", ZLiteral (JStr "shade-encrypted-vault-v1")); ("vault_id", str1); ("privy_user_id", str1);
   ("cipher", obj [("name", ZLiteral (JStr "AES-256-GCM")); ("iv", ZString []); ("tagLength", ZLiteral (JNum 128))]);
   ("aad", ZRecord); ("ciphertext", str1); ("wrappers", ZArray vaultWrapperSchema [])].
Definition addWrapperSchema := obj [("wrapper", vaultWrapperSchema); ("envelope", encryptedVaultEnvelopeSchema)].
Definition evmAddress := ZString [Regex "^0x[a-fA-F0-9]{40}$"].
Definition userDepositPrepareSchema := obj
  [("amount_usdc_6dp", digits); ("source_chain", str1); ("source_wallet_address", evmAddress); ("vault_id", str1);
   ("commitment", str1); ("encrypted_note_payload_hash", str1); ("policy_id", str1)].
Definition burnSubmittedSchema := obj
  [("burn_tx_hash", ZString [Regex "^0x[a-fA-F0-9]{64}$"]); ("source_chain", str1); ("source_wallet_address", evmAddress)].
Definition syncPrivyWalletsSchema := obj
  [("wallets", ZArray (ZRefine (obj
     [("wallet_type", walletTypes);
      ("wallet_source", ZOptional (ZEnum ["privy_embedded"; "external"; "freighter"; "legacy"]));
      ("chain", str1); ("address", str1); ("privy_wallet_id", ZOptional (ZString []))])
     "EVM: /^0x[a-fA-F0-9]{40}$/, STELLAR: /^G[A-Z2-7]{55}$/") [Min 1])].
Definition noteRecoverSchema := obj [("vault_id", ZOptional str1)].
Definition verifyBackupSchema := obj
  [("verification", obj
     [("vault_id", str1); ("decrypted_vault_hash", ZString [Min 8]); ("commitments_hash", str1);
      ("method", ZEnum ["stellar_ed25519_signature"; "recovery_file_secret"; "recovery_kit_password"; "passkey_prf"]);
      ("verified_at_client", str1)])].
Definition viewKeyReportSchema := obj
  [("settlement_ids", ZDefault (ZArray str1 [Max 200]) (JArr [])); ("note_commitments", ZDefault (ZArray str1 [Max 200]) (JArr []));
   ("time_range_from", ZOptional (ZString [Datetime])); ("time_range_to", ZOptional (ZString [Datetime]));
   ("quote_id", ZOptional str1); ("policy_id", ZOptional str1); ("anchor_id", ZOptional str1);
   ("disclose_amounts", ZDefault ZBool (JBool false));
   ("attachment_recipient_pubkey", ZOptional (ZString [Regex "^[0-9a-fA-F]{64}$"]))].

(** ** packages/rfq-types *)
Definition encryptedShareSchema := obj [("nodeId", str1); ("ciphertext", str1); ("nonce", str1); ("senderPubkey", str1)].
Definition intentSchema := obj
  [("intent_type", ZLiteral (JStr "PRIVATE_RFQ")); ("version", ZLiteral (JStr "1.0")); ("user_pubkey_commitment", str1);
   ("input_asset", str1); ("output_asset", str1); ("amount_mode", ZEnum ["exact_in"; "exact_out"; "max_in"]);
   ("amount_commitment", str1); ("min_output_commitment", str1); ("expiry_ledger", posInt);
   ("allowed_solvers_root", str1); ("compliance_policy_id", str1); ("destination_commitment", str1);
   ("replay_domain", ZLiteral (JStr "shade:stellar:testnet:rfq:v1")); ("signature", str1);
   ("note_nullifier", ZOptional str1); ("note_commitment", ZOptional str1); ("recipient_commitment", ZOptional str1);
   ("encrypted_shares", ZOptional (ZArray encryptedShareSchema []))].
Definition decimal := ZString [Regex "^\d+(\.\d+)?$"].
Definition quoteSchema := obj
  [("quote_id", ZString [UuidFormat]); ("intent_hash", str1); ("solver_id", str1); ("input_asset", str1);
   ("output_asset", str1); ("gross_input", decimal); ("net_output", decimal); ("fee", decimal);
   ("valid_until_ledger", posInt); ("solver_inventory_commitment", str1);
   ("settlement_method", ZEnum ["private_note"; "stellar_payout"; "cctp_exit"; "proof_of_fill"]); ("quote_signature", str1)].
End Schemas.
