(* ===== verification/ApiAuth.v ===== *)
(** * Wallet login and the guards of the API (apps/api/src/auth.ts, server.ts,
    and the helpers of routes.ts)

    Session tokens, wallet signatures, the unified [authedUser], the
    ownership and root-health guards, and the reply the error handler makes of
    a throw.  ethers and the Stellar SDK are the class parameter [Wallets]. *)
From S2P Require Import Prelude JsText JsCollections Json Crypto Base64 Ids JobQueue Database Runtime NoteVault Store Privy Schemas.
From Stdlib Require Import Ascii.
Import JsText Json Crypto Base64 Database Runtime Privy.

Module ApiAuth.

(** ethers' [getAddress] and [verifyMessage], and
    [Keypair.fromPublicKey(address).verify(message, sig)]; each may throw. *)
Class Wallets := {
  getAddress : string -> result string;
  verifyMessage : string -> string -> result string;
  stellarVerify : string -> bytes -> bytes -> result bool }.

Inductive WalletType := EVM | STELLAR.
#[export] Instance WalletType_eq_dec : EqDecision WalletType.
Proof. solve_decision. Defined.
Definition walletText (t : WalletType) : string := match t with EVM => "EVM" | STELLAR => "STELLAR" end.
(** The values the schemas admit. *)
Definition walletTypeOf (s : string) : WalletType := if s ==? "EVM" then EVM else STELLAR.
Definition CHAIN_FOR (t : WalletType) : string :=
  match t with EVM => "arbitrum-sepolia" | STELLAR => "stellar-testnet" end.

(** ** auth.ts *)
Definition SESSION_TTL : Z := 1000 * 60 * 60 * 24 * 7.
Definition NONCE_TTL : Z := 1000 * 60 * 10.
Definition COOKIE : string := "shade_session".

Definition lf : string := String (chr 10) "".
Definition authMessage (t : WalletType) (address nonce : string) : string :=
  "Shade Protocol Testnet wants you to sign in with your " +:+ walletText t +:+ " wallet:" +:+ lf +:+ address +:+ lf +:+ lf
  +:+ "Nonce: " +:+ nonce.

(** [Buffer.from(s, "base64")]: both alphabets, other characters skipped,
    left-over bits dropped. *)
Definition isBase64 (c : ascii) : bool := match dec6 c with Some _ => true | None => false end.
Fixpoint ungroupLoose (fuel : nat) (l : list sextet) : bytes :=
  match ungroup l with
  | Some b => b
  | None => match fuel with O => "" | S f => ungroupLoose f (removelast l) end
  end.
Definition bufferBase64 (s : string) : bytes :=
  match decodeGroups (filterString isBase64 (mapString unUrl s)) with
  | Some l => ungroupLoose 1 l
  | None => ""
  end.
Definition isHex (c : ascii) : bool := match digitVal c with Some d => d <? 16 | None => false end.

Section Auth.
Context `{Wallets}.
Definition normalizeAddress (t : WalletType) (address : string) : result string :=
  match t with EVM => getAddress address | STELLAR => Ok address end.
Definition verifyWalletSignature (t : WalletType) (address message signature : string) : bool :=
  match t with
  | EVM =>
      match verifyMessage message signature with
      | Throw _ => false
      | Ok recovered =>
          match getAddress recovered, getAddress address with
          | Ok a, Ok b => a ==? b
          | _, _ => false
          end
      end
  | STELLAR =>
      let sig := if allChars isHex signature && Nat.eqb (String.length signature) 128
                 then hexDecode signature else bufferBase64 signature in
      match stellarVerify address message sig with Ok b => b | Throw _ => false end
  end.
End Auth.

Definition readSessionToken (r : Request) : result (option string) := tokenOf COOKIE r.

(** [encodeURIComponent]. *)
Definition unreserved (c : ascii) : bool :=
  isDigit c || ((65 <=? JsText.code c) && (JsText.code c <=? 90)) || ((97 <=? JsText.code c) && (JsText.code c <=? 122))
  || bool_decide (c ∈ ["-"; "_"; "."; "!"; "~"; "*"; "'"; "("; ")"]%char).
Definition upperHex (c : ascii) : ascii :=
  if (97 <=? JsText.code c) && (JsText.code c <=? 122) then chr (Z.to_N (JsText.code c - 32)) else c.
Fixpoint encodeURIComponent (s : string) : string :=
  match s with
  | EmptyString => ""
  | String c s' =>
      (if unreserved c then String c "" else String "%"%char (mapString upperHex (hexOfByte c))) +:+ encodeURIComponent s'
  end.
Definition sessionCookie (token : string) : string :=
  COOKIE +:+ "=" +:+ encodeURIComponent token +:+ "; HttpOnly; Path=/; SameSite=Lax; Max-Age=" +:+ toString (SESSION_TTL / 1000).
Definition clearedCookie : string := COOKIE +:+ "=; HttpOnly; Path=/; SameSite=Lax; Max-Age=0".

Section Session.
Context `{Sha256}.
Definition sha256Hex (s : string) : string := sha256 s.
Definition requireUser (r : Request) : M Api string :=
  token ← liftR (readSessionToken r);
  match truthyOpt token with
  | None => httpM 401 "authentication required"
  | Some token =>
      userId ← onStore (Store.userIdForSession (sha256Hex token));
      match truthyOpt userId with
      | None => httpM 401 "invalid or expired session"
      | Some userId => mret userId
      end
  end.
Definition optionalUser (r : Request) : M Api (option string) :=
  token ← liftR (readSessionToken r);
  match truthyOpt token with
  | None => mret None
  | Some token => onStore (Store.userIdForSession (sha256Hex token))
  end.
Definition newSessionToken `{Random} : M Api string :=
  n ← onStore tick; mret (hexEncode (randomBytes n 32)).
End Session.

(** ** Helpers of routes.ts *)
(** [Number(s)] as a bound for counts: a fraction counts as the next integer,
    [NaN] as 0, which no count is below either, and an infinity as a number
    that no count reaches. *)
Definition numberOf (s : string) : Z :=
  match Number s with
  | NaN => 0
  | Infinite negative => if negative then 0 else 2 ^ 53
  | Decimal m e => if 0 <=? e then m * 10 ^ e else - ((- m) / 10 ^ (- e))
  end.
Example numberOf_fraction : numberOf "1.5" = 2.
Proof. reflexivity. Qed.
Definition wrapperOf (w : json) : NoteVault.VaultWrapper :=
  NoteVault.mkWrapper (strField w "id") (strField w "type") (strField w "status") (strField w "kdf") (strField w "salt")
    (strField w "wrapped_key") (match field w "diagnostic_only" with JBool b => Some b | _ => None end)
    (match field w "metadata" with JObj kvs => kvs | _ => [] end).
Definition itemsOf (j : json) : list json := match j with JArr l => l | _ => [] end.

Section Helpers.
Context `{Env}.
Definition recoveryPolicyFor (wrappers : list json) : NoteVault.RecoveryPolicyStatus :=
  let mainnet := orElse (env "SHADE_NETWORK_MODE") "testnet" ==? "mainnet" in
  let min := numberOf (if mainnet then orElse (env "SHADE_MIN_RECOVERY_WRAPPERS_MAINNET") "2"
                       else orElse (env "SHADE_MIN_RECOVERY_WRAPPERS_TESTNET") "1") in
  let allowEvmOnly := env "ALLOW_EVM_SIGNATURE_ONLY_RECOVERY" ==? Some "true" in
  NoteVault.evaluateRecoveryPolicy (map wrapperOf wrappers) (NoteVault.mkOpts mainnet min allowEvmOnly).
Definition isSet (v : string) : bool := match truthyOpt (env v) with Some _ => true | None => false end.
Definition privyEnabled : bool := isSet "PRIVY_APP_ID" || isSet "PRIVY_JWT_VERIFICATION_KEY".
Definition legacyWalletAuth : bool := env "ENABLE_LEGACY_WALLET_AUTH" ==? Some "true".
Definition requireDevRoutes : M Api unit :=
  guardM (env "ENABLE_DEV_ROUTES" ==? Some "true") (Error (Some 404) "dev route disabled (set ENABLE_DEV_ROUTES=true)").

Context `{Uuid} `{Schemas.Zod}.
Definition randomNonce : M Api string :=
  u ← onStore randomUUID; mret (filterString (fun c => negb (c ==? "-"%char)) u).
(** [schema.parse(value)]. *)
Definition parseM (s : Schemas.zschema) (j : json) : M Api json := liftR (Schemas.parse s j).
Definition headersJson (r : Request) : json := JObj (map (fun kv => (kv.1, JStr kv.2)) (headers r)).
Definition idem (r : Request) : M Api string :=
  h ← parseM Schemas.idempotencyHeader (headersJson r); mret (strField h "idempotency-key").

Context `{WebKeys} `{Fetch} `{Sha256}.
Definition authedUser (r : Request) : M Api string :=
  if privyEnabled then u ← requirePrivyUser r; mret (p_userId u)
  else if legacyWalletAuth then requireUser r
  else httpM 401 "authentication not configured (set PRIVY_APP_ID or ENABLE_LEGACY_WALLET_AUTH)".
Definition authedUserOptional (r : Request) : M Api (option string) :=
  if privyEnabled then u ← optionalPrivyUser r; mret (fst <$> u)
  else if legacyWalletAuth then optionalUser r
  else mret None.

(** [row.user_id && row.user_id !== userId]. *)
Definition foreign (userId : string) (row : Row) : bool :=
  truthyJson (get row "user_id") && negb (get row "user_id" ==? JStr userId).
Definition requireOwned (t idColumn what : string) (userId id : string) : M Api unit :=
  row ← onStore (Store.getById t idColumn id);
  match row with
  | None => httpM 404 (what +:+ " not found")
  | Some row => guardM (negb (foreign userId row)) (Error (Some 403) (what +:+ " not owned by user"))
  end.
Definition requireOwnedIntent (userId intentHash : string) : M Api unit :=
  requireOwned "intents" "intent_hash" "intent" userId intentHash.
Definition requireOwnedExit (userId exitId : string) : M Api unit :=
  requireOwned "cctp_exits" "exit_id" "exit" userId exitId.
Definition assertRootHealthy : M Api unit :=
  critical ← onStore Store.criticalRootMismatchCount;
  if 0 <? critical then
    httpM 409 ("ROOT_MISMATCH_CRITICAL: " +:+ toString critical +:+ " unresolved root-audit finding(s); spends are blocked")
  else mret tt.

(** No critical finding of the root auditor. *)
Definition rootHealthy (w : Api) : Prop :=
  forall f, f ∈ table (adb w) "root_audit_findings" -> get f "code" ≠ JStr "ROOT_MISMATCH_CRITICAL".
Lemma criticalCount_run db :
  Store.criticalRootMismatchCount db =
    (Ok (rowCount (eqText "code" "ROOT_MISMATCH_CRITICAL") (table db "root_audit_findings")), db).
Proof. done. Qed.
Lemma rootHealthy_count w :
  rootHealthy w <-> (0 <? rowCount (eqText "code" "ROOT_MISMATCH_CRITICAL") (table (adb w) "root_audit_findings")) = false.
Proof.
  rewrite <- not_true_iff_false, Z.ltb_lt, rowCount_pos. unfold rootHealthy. setoid_rewrite eqText_true. naive_solver.
Qed.
Lemma assertRootHealthy_Ok w u w' : assertRootHealthy w = (Ok u, w') -> w' = w /\ rootHealthy w.
Proof.
  unfold assertRootHealthy, mbind, M_bind, onStore. rewrite criticalCount_run, rootHealthy_count.
  destruct (0 <? _); [done|]. intros [= _ <-]. by destruct w.
Qed.
Lemma assertRootHealthy_blocks w : ~ rootHealthy w -> exists msg, assertRootHealthy w = (Throw (Error (Some 409) msg), w).
Proof.
  rewrite rootHealthy_count, not_false_iff_true. intros E. unfold assertRootHealthy, mbind, M_bind, onStore.
  rewrite criticalCount_run, E. destruct w. by eexists.
Qed.

(** A job on the queue: the worker's database connection is another one. *)
Definition enqueueJob (q : JobQueue.QueueName) (jobType : string) (pl : json) (key : option string) : M Api JobQueue.ServiceJob :=
  uuid ← onStore randomUUID;
  onStore (onQueue (JobQueue.enqueue uuid q jobType pl key)).
(** The reply that names a new job. *)
Definition queued (fields : list (string * json)) (job : JobQueue.ServiceJob) : Response :=
  reply (JObj (fields ++ [("job_id", JStr (JobQueue.job_id job)); ("status", JStr "queued")])).
Definition logActivity (userId : option string) (event_type entity_type entity_id : string) : M Api unit :=
  onStore (Store.logActivity userId (Store.mkActivity event_type (Some entity_type) (Some entity_id) None None)).
Definition toState (entityType entityId st : string) : M Api unit :=
  onStore (Store.transition (Ids.mkTransition entityType entityId None st None None None)).
End Helpers.

(** [{ ...a, ...b }] on entries; the entries of a value that is spread. *)
Definition entriesOf (j : json) : list (string * json) :=
  match j with
  | JObj kvs => kvs
  | JArr l => imap (fun i x => (toString (Z.of_nat i), x)) l
  | _ => []
  end.
Definition spread (a b : list (string * json)) : list (string * json) :=
  fold_left (fun m kv => JsMap.set m kv.1 kv.2) b a.
Lemma spread_get_other a b k : k ∉ b.*1 -> JsMap.get (spread a b) k = JsMap.get a k.
Proof.
  unfold spread. revert a. induction b as [|[k' v] b IH]; intros a; [done|]. rewrite fmap_cons, not_elem_of_cons. cbn [fold_left].
  intros [Hk Hb]. rewrite IH by done. apply JsMap.get_set_ne. simpl. intros E. by apply Hk.
Qed.
Lemma spread_get a b k : NoDup b.*1 ->
  JsMap.get (spread a b) k = match JsMap.get b k with Some v => Some v | None => JsMap.get a k end.
Proof.
  unfold spread. revert a. induction b as [|[k' v] b IH]; intros a; [done|]. rewrite fmap_cons, NoDup_cons. intros [Hn Hb]. cbn [fold_left fst snd].
  rewrite IH by done. cbn [JsMap.get]. destruct (bool_decide_reflect (k = k')) as [->|Hne].
  - assert (JsMap.get b k' = None) as -> by (by apply JsMap.get_None). by rewrite JsMap.get_set_eq.
  - destruct (JsMap.get b k); [done|]. apply JsMap.get_set_ne. by intros ->.
Qed.
Lemma spread_keys a b kv : kv ∈ spread a b -> kv.1 ∈ a.*1 \/ kv.1 ∈ b.*1.
Proof.
  unfold spread. revert a. induction b as [|[k' v] b IH]; intros a; cbn [fold_left]; [left; by apply list_elem_of_fmap_2|].
  intros [Hin|Hin]%IH; [|right; right; exact Hin]. assert (kv.1 ∈ a.*1 \/ kv.1 = k') as [Hk| ->]; [|by left|right; left].
  clear -Hin. cbn [fst snd] in Hin. apply list_elem_of_fmap in Hin as ([q u] & E & Hin). rewrite E. cbn [fst]. clear E.
  induction a as [|[p x] a IH]; cbn [JsMap.set] in Hin.
  - apply list_elem_of_singleton in Hin as [= -> ->]. by right.
  - destruct (k' ==? p).
    + apply elem_of_cons in Hin as [[= -> ->]|Hin]; [by right|]. left. right. by apply (list_elem_of_fmap_2 fst _ (q, u)).
    + apply elem_of_cons in Hin as [[= -> ->]|Hin]; [left; left|]. apply IH in Hin as [Hin| ->]; [left; right; exact Hin|by right].
Qed.
(** A parsed body has only the members its schema names. *)
Lemma parse_keys `{Schemas.ZodLaws} fields j b k :
  Schemas.parse (Schemas.ZObject fields) j = Ok b -> k ∉ fields.*1 -> k ∉ (entriesOf b).*1.
Proof.
  unfold Schemas.parse. destruct (Schemas.zodParse _ j) as [v|] eqn:E; [|done]. intros [= <-].
  apply Schemas.zod_strips in E as (kvs & -> & Hk). simpl. auto.
Qed.

(** ** server.ts *)
(** [setErrorHandler]: schema errors carry 400, other errors their status. *)
Definition errorResponse (e : error) : Response := replyCode (orElse (statusCode e) 500) (err (message e)).
Definition handle (m : M Api Response) : Api -> Response * Api := fun w =>
  match m w with
  | (Ok r, w') => (r, w')
  | (Throw e, w') => (errorResponse e, w')
  end.
Definition corsHeaders `{Env} (origin : option string) : list (string * string) :=
  let allowed := map trim (splitOn ","%char (orElse (env "WEB_ORIGIN") "http://localhost:3000")) in
  match truthyOpt origin with
  | Some o =>
      if bool_decide (o ∈ allowed) then
        [("access-control-allow-origin", o); ("access-control-allow-credentials", "true");
         ("access-control-allow-headers", "content-type, authorization, idempotency-key");
         ("access-control-allow-methods", "GET, POST, PATCH, DELETE, OPTIONS")]
      else []
  | None => []
  end.
End ApiAuth.
