(* ===== verification/Cctp.v ===== *)
(** * CCTP amounts, routes and attestations (packages/cctp-utils/src/index.ts)

    Conversions between the 6-decimal amounts of CCTP and the 7-decimal ones
    of Stellar, the inbound route check, the forward hook and the polling of
    Circle's attestation service.  [StrKey] belongs to the Stellar SDK and is a
    parameter. *)
From S2P Require Import Prelude JsText JsCollections Json Crypto Database Runtime Host.
From Stdlib Require Import Ascii.
Import JsText Json Crypto Database Runtime Host.

Module Cctp.

(** The 32 bytes of a [C...] contract address, or of a [G...] key. *)
Class StrKey := { decodeContract : string -> option bytes; decodePublicKey : string -> option bytes }.
Definition isValidContract `{StrKey} (s : string) : bool := match decodeContract s with Some _ => true | None => false end.

Definition arbitrumSepoliaDomain : Z := 3.
Definition stellarDomain : Z := 27.
Definition arbitrumSepoliaUsdc : string := "0x75faf114eafb1BDbe2F0316DF893fd58CE46AA4d".
Definition arbitrumSepoliaTokenMessenger : string := "0x8FE6B999Dc680CcFDD5Bf7EB0974218be2542DAA".
Definition arbitrumSepoliaMessageTransmitter : string := "0xE737e5cEBEEBa77EFE34D4aa090756590b1CE275".
Definition stellarCctpForwarder : string := "CA66Q2WFBND6V4UEB7RD4SAXSVIWMD6RA4X3U32ELVFGXV5PJK4T4VSZ".
Definition stellarMessageTransmitter : string := "CBJ6MTCKKZG73PMDZCJMSFRD7DQEMI4FKDH7CGDSV4W6FHCRBCQAVVJY".
Definition stellarTokenMessengerMinter : string := "CDNG7HXAPBWICI2E3AUBP3YZWZELJLYSB6F5CC7WLDTLTHVM74SLRTHP".
Definition stellarUsdcAsset : string := "USDC-GBBD47IF6LWK7P7MDEVSCWR7DPUWV3NY3DTQEVFL4NAT4AQH3ZLLFLA5".
Definition LOCKED_CCTP : json := JObj
  [("cctpVersion", JStr "v2"); ("arbitrumSepoliaDomain", JNum arbitrumSepoliaDomain); ("stellarDomain", JNum stellarDomain);
   ("arbitrumSepoliaUsdc", JStr arbitrumSepoliaUsdc); ("arbitrumSepoliaTokenMessenger", JStr arbitrumSepoliaTokenMessenger);
   ("arbitrumSepoliaMessageTransmitter", JStr arbitrumSepoliaMessageTransmitter);
   ("stellarCctpForwarder", JStr stellarCctpForwarder); ("stellarMessageTransmitter", JStr stellarMessageTransmitter);
   ("stellarTokenMessengerMinter", JStr stellarTokenMessengerMinter); ("stellarUsdcAsset", JStr stellarUsdcAsset)].
Definition FINALITY_THRESHOLD_FINALIZED : Z := 2000.
Definition FINALITY_THRESHOLD_CONFIRMED : Z := 1000.

Definition usdc6ToStellar7 (amount6 : Z) : Z := amount6 * 10.
(** BigInt [%] and [/] truncate towards zero. *)
Definition stellar7ToUsdc6 (amount7 : Z) : result Z :=
  if negb (Z.rem amount7 10 =? 0) then
    Throw (Error None "Stellar 7dp amount cannot be represented exactly as CCTP 6dp")
  else Ok (Z.quot amount7 10).

Record CctpInboundRoute := mkRoute {
  destinationDomain : Z; mintRecipient : string; destinationCaller : string; forwardRecipient : string }.

Section Strkey.
Context `{StrKey}.

Definition stellarContractToBytes32 (contractId : string) : result string :=
  match decodeContract contractId with
  | None => Throw (Error None ("Expected Stellar contract strkey, got " +:+ contractId))
  | Some b => Ok ("0x" +:+ hexEncode b)
  end.
Definition validateInboundRoute (route : CctpInboundRoute) (expectedForwarder : string) : result unit :=
  if negb (destinationDomain route =? stellarDomain) then
    Throw (Error None ("wrong destination domain: expected " +:+ toString stellarDomain))
  else if negb (isValidContract (mintRecipient route)) then Throw (Error None "mintRecipient must be a Stellar C contract")
  else if negb (isValidContract (destinationCaller route)) then Throw (Error None "destinationCaller must be a Stellar C contract")
  else if negb (mintRecipient route ==? expectedForwarder) then Throw (Error None "mintRecipient must equal CctpForwarder")
  else if negb (destinationCaller route ==? expectedForwarder) then Throw (Error None "destinationCaller must equal CctpForwarder")
  else if negb (isValidContract (forwardRecipient route)) then
    Throw (Error None "forwardRecipient must be the ShadeVault C contract")
  else Ok tt.

Lemma validContract_Ok s : isValidContract s = true -> exists b, stellarContractToBytes32 s = Ok ("0x" +:+ hexEncode b).
Proof. unfold isValidContract, stellarContractToBytes32. destruct (decodeContract s); [eauto|done]. Qed.
Definition byte (n : Z) : ascii := chr (Z.to_N (n mod 256)).
(** [buf.writeUInt32BE(n)] for [n < 2^32]. *)
Definition uint32BE (n : Z) : bytes :=
  String (byte (n / 16777216)) (String (byte (n / 65536)) (String (byte (n / 256)) (String (byte n) ""))).
Definition encodeStellarForwardHook (recipient : string) : result string :=
  if negb (isValidContract recipient) then Throw (Error None "forwardRecipient must be a Stellar C contract")
  else Ok ("0x" +:+ hexEncode (repeatString 24 (chr 0) +:+ repeatString 4 (chr 0)
             +:+ uint32BE (Z.of_nat (String.length recipient)) +:+ recipient)).

Lemma hook_inj r1 r2 :
  hexEncode (repeatString 24 (chr 0) +:+ repeatString 4 (chr 0) +:+ uint32BE (Z.of_nat (String.length r1)) +:+ r1)
  = hexEncode (repeatString 24 (chr 0) +:+ repeatString 4 (chr 0) +:+ uint32BE (Z.of_nat (String.length r2)) +:+ r2) -> r1 = r2.
Proof.
  intros E%(inj hexEncode). apply append_inj_length in E as [_ E]; [|done]. apply append_inj_length in E as [_ E]; [|done].
  by apply append_inj_length in E as [_ E].
Qed.

(** Amounts convert exactly: a 7-decimal amount has a 6-decimal image
    exactly when it is the image of one, also for negative amounts; a route
    passes exactly when it goes to the Stellar domain, names the expected
    forwarder as recipient and caller, and forwards to a valid contract; and a
    forward hook determines its recipient. *)
Theorem route_and_amounts_exact route forwarder r1 r2 :
  (forall a b, stellar7ToUsdc6 b = Ok a <-> b = usdc6ToStellar7 a) /\
  (validateInboundRoute route forwarder = Ok tt <->
     destinationDomain route = 27 /\ mintRecipient route = forwarder /\ destinationCaller route = forwarder /\
     isValidContract forwarder = true /\ isValidContract (forwardRecipient route) = true) /\
  (isValidContract r1 = true /\ isValidContract r2 = true /\ encodeStellarForwardHook r1 = encodeStellarForwardHook r2 <->
     isValidContract r1 = true /\ r1 = r2).
Proof.
  split_and!.
  - intros a b. unfold stellar7ToUsdc6, usdc6ToStellar7. pose proof (Z.quot_rem' b 10) as Hqr. split.
    + destruct (Z.eqb_spec (Z.rem b 10) 0) as [E|]; [|done]. intros [= <-]. lia.
    + intros ->. change (a * 10) with (Z.mul a 10). rewrite (Z.rem_mul a 10), (Z.quot_mul a 10) by lia. reflexivity.
  - unfold validateInboundRoute, stellarDomain. split.
    + destruct (Z.eqb_spec (destinationDomain route) 27); [|done]. cbn [negb].
      destruct (isValidContract (mintRecipient route)) eqn:E1; [|done]. destruct (isValidContract (destinationCaller route)); [|done].
      cbn [negb]. destruct (bool_decide_reflect (mintRecipient route = forwarder)) as [<-|]; [|done].
      destruct (bool_decide_reflect (destinationCaller route = mintRecipient route)); [|done]. cbn [negb].
      destruct (isValidContract (forwardRecipient route)); [|done]. done.
    + intros (-> & -> & -> & -> & ->). by rewrite bool_decide_true.
  - unfold encodeStellarForwardHook. split; [|intros [Hv <-]; by rewrite Hv]. intros (E1 & E2 & E). split; [done|].
    rewrite E1, E2 in E. apply hook_inj. exact (f_equal (fun r => match r with Ok s => sliceFrom 2 s | Throw _ => "" end) E).
Qed.
End Strkey.

(** ** Circle's attestation service *)
Record CctpAttestation := mkAttestation {
  att_status : string; att_message : string; att_attestation : string; eventNonce : option string; cctpVersion : option Z }.
(** [apiBase.replace(/\/$/, "")]. *)
Definition dropSlash (s : string) : string :=
  match String.get (String.length s - 1) s with
  | Some c => if c ==? "/"%char then sliceTo (String.length s - 1) s else s
  | None => s
  end.
(** [String(x)] of the scalar members. *)
Definition stringOf (j : json) : string :=
  match j with
  | JStr s => s | JNum z => toString z | JBool b => if b then "true" else "false"
  | JNull => "undefined" | _ => "[object Object]"
  end.
Definition attestationOf (msg : json) : CctpAttestation :=
  mkAttestation (stringOf (field msg "status")) (strField msg "message") (strField msg "attestation")
    (if truthyJson (field msg "eventNonce") then Some (stringOf (field msg "eventNonce")) else None)
    (match field msg "cctpVersion" with JNum v => Some v | _ => None end).

Section Poll.
Context `{Fetch} `{Os}.

(** [k] is the number of the call. *)
Definition fetchAttestationByTx (k : Z) (apiBase : string) (sourceDomain : Z) (burnTxHash : string) :
    result (option CctpAttestation) :=
  let url := dropSlash apiBase +:+ "/v2/messages/" +:+ toString sourceDomain +:+ "?transactionHash=" +:+ burnTxHash in
  match fetch k "GET" url JNull with
  | Throw e => Throw e
  | Ok (st, j) =>
      if st =? 404 then Ok None
      else if negb (respOk st) then Throw (Error None ("Iris lookup failed " +:+ toString st))
      else match field j "messages" with
           | JArr (msg :: _) => if truthyJson msg then Ok (Some (attestationOf msg)) else Ok None
           | _ => Ok None
           end
  end.
Definition complete (att : option CctpAttestation) : bool :=
  match att with
  | Some a => (att_status a ==? "complete") && truthy (att_attestation a) && negb (att_attestation a ==? "0x")
              && negb (att_attestation a ==? "PENDING")
  | None => false
  end.
(** [Math.round(ms / 1000)]. *)
Definition secondsOf (ms : Z) : Z := (ms + 500) / 1000.
Definition timedOut (ms : Z) (st : string) : error :=
  Error None ("attestation timed out after " +:+ toString (secondsOf ms) +:+ "s (last status: " +:+ st +:+ ")").
Definition statusOf (att : option CctpAttestation) : string :=
  match att with Some a => att_status a | None => "pending" end.
(** One turn of the loop per unit of [fuel]; [None] is out of fuel.  The
    [onTick] callback only reports the status and is left out. *)
Fixpoint pollLoop (fuel : nat) (apiBase : string) (sourceDomain : Z) (burnTxHash : string) (intervalMs timeoutMs start : Z) :
    M Timed (option CctpAttestation) :=
  match fuel with
  | O => mret None
  | S f =>
      att ← requested (fun k => fetchAttestationByTx k apiBase sourceDomain burnTxHash);
      if complete att then mret att
      else
        checked ← now;
        if timeoutMs <? checked - start then
          thrown ← now; throwM (timedOut (thrown - start) (statusOf att))
        else
          sleep intervalMs ;; pollLoop f apiBase sourceDomain burnTxHash intervalMs timeoutMs start
  end.
Definition pollAttestation (fuel : nat) (apiBase : string) (sourceDomain : Z) (burnTxHash : string)
    (intervalMs timeoutMs : option Z) : M Timed (option CctpAttestation) :=
  start ← now;
  pollLoop fuel apiBase sourceDomain burnTxHash (orElse intervalMs 8000) (orElse timeoutMs 1200000) start.

(** What the call numbered [i] answered: a 2xx answer whose first message
    is the attestation. *)
Definition irisAnswered (i : Z) (base : string) (dom : Z) (tx : string) (a : CctpAttestation) : Prop :=
  exists st msg rest j,
    fetch i "GET" (dropSlash base +:+ "/v2/messages/" +:+ toString dom +:+ "?transactionHash=" +:+ tx) JNull = Ok (st, j) /\
    200 <= st < 300 /\ field j "messages" = JArr (msg :: rest) /\ a = attestationOf msg.
Lemma fetchAttestationByTx_Some i base dom tx a :
  fetchAttestationByTx i base dom tx = Ok (Some a) -> irisAnswered i base dom tx a.
Proof.
  unfold fetchAttestationByTx, irisAnswered. cbv zeta. destruct (fetch _ _ _ _) as [[st j]|]; [|done]. destruct (st =? 404); [done|].
  unfold respOk. destruct ((200 <=? st) && (st <? 300)) eqn:E; [|done]. apply andb_true_iff in E as [E1%Z.leb_le E2%Z.ltb_lt]. cbn [negb].
  destruct (field j "messages") as [| | | |[|msg rest]|] eqn:Ef; try done. destruct (truthyJson msg); [|done]. intros [= <-]. by eexists _, _, _, _.
Qed.
Lemma complete_spelled a : complete (Some a) = true ->
  att_status a = "complete" /\ att_attestation a ≠ "" /\ att_attestation a ≠ "0x" /\ att_attestation a ≠ "PENDING".
Proof.
  unfold complete. intros [[[E1%bool_decide_eq_true E2]%andb_true_iff E3]%andb_true_iff E4]%andb_true_iff.
  apply negb_true_iff, bool_decide_eq_false in E3, E4. split; [done|]. split; [|done]. by intros E5; rewrite E5 in E2.
Qed.
Lemma pollLoop_calls fuel base dom tx interval timeoutMs start t :
  call t <= call (pollLoop fuel base dom tx interval timeoutMs start t).2.
Proof.
  revert t. induction fuel as [|fuel IH]; intros t; cbn [pollLoop]; [cbn; lia|].
  unfold mbind, M_bind, requested. destruct (fetchAttestationByTx (call t) base dom tx) as [att|e]; [|cbn; lia].
  destruct (complete att); [cbn; lia|]. cbn. destruct (_ <? _); [cbn; lia|]. etrans; [|apply IH]. cbn. lia.
Qed.
(** How a run of the loop ends that has the time [start] at its back. *)
Definition pollEnd (base : string) (dom : Z) (tx : string) (timeoutMs : Z) (t t' : Timed) (r : result (option CctpAttestation)) : Prop :=
  match r with
  | Ok None => False
  | Ok (Some a) =>
      (att_status a = "complete" /\ att_attestation a ≠ "" /\ att_attestation a ≠ "0x" /\ att_attestation a ≠ "PENDING") /\
      exists i, call t <= i < call t' /\ irisAnswered i base dom tx a
  | Throw e =>
      (exists i, call t <= i < call t' /\ fetchAttestationByTx i base dom tx = Throw e) \/
      (exists ms st, e = timedOut ms st /\ timeoutMs < ms)
  end.
Lemma pollLoop_sound fuel base dom tx interval timeoutMs start t r t' :
  monotone -> pollLoop fuel base dom tx interval timeoutMs start t = (r, t') ->
  call t <= call t' /\ (r = Ok None \/ pollEnd base dom tx timeoutMs t t' r).
Proof.
  intros Hm. revert t. induction fuel as [|fuel IH]; intros t; cbn [pollLoop]; [intros [= <- <-]; split; [lia|by left]|].
  unfold mbind, M_bind, requested. destruct (fetchAttestationByTx (call t) base dom tx) as [att|e] eqn:Eatt.
  2: { intros [= <- <-]. split; [cbn; lia|]. right. left. exists (call t). cbn. split; [lia|done]. }
  destruct (complete att) eqn:Ec.
  { intros [= <- <-]. split; [cbn; lia|]. right. destruct att as [a|]; [|done]. split; [by apply complete_spelled|].
    exists (call t). cbn. split; [lia|by apply fetchAttestationByTx_Some]. }
  cbn. destruct (Z.ltb_spec timeoutMs (clock (call t + 1) + paused t - start)) as [Hlt|_].
  { cbn. intros [= <- <-]. split; [cbn; lia|]. right. right. eexists _, _. split; [done|].
    pose proof (Hm (call t + 1) (call t + 1 + 1) ltac:(lia)). lia. }
  intros [Hle Hr]%IH. cbn in Hle. split; [lia|]. destruct Hr as [->|Hr]; [by left|right].
  destruct r as [[a|]|e]; [|done|]; cbn in Hr |- *.
  - destruct Hr as [Ha (i & Hi & Hr)]. split; [done|]. exists i. split; [lia|done].
  - destruct Hr as [(i & Hi & Hr)|Hr]; [left|by right]. exists i. split; [lia|done].
Qed.
(** Enough fuel: after [j] pauses the time since [start] is [interval * j] at
    least. *)
Lemma pollLoop_enough fuel base dom tx interval timeoutMs start t r t' j :
  monotone -> 0 < interval -> 0 <= j -> start + interval * j <= clock (call t) + paused t ->
  timeoutMs / interval + 2 - j <= Z.of_nat fuel -> (0 < fuel)%nat ->
  pollLoop fuel base dom tx interval timeoutMs start t = (r, t') -> r ≠ Ok None.
Proof.
  intros Hm Hi. revert t j. induction fuel as [|fuel IH]; intros t j Hj Hs Hf Hpos; [lia|]. cbn [pollLoop].
  unfold mbind, M_bind, requested. destruct (fetchAttestationByTx (call t) base dom tx) as [att|e]; [|by intros [= <- <-]].
  destruct (complete att) eqn:Ec; [intros [= <- <-]; by destruct att|].
  cbn. destruct (Z.ltb_spec timeoutMs (clock (call t + 1) + paused t - start)) as [|Hle]; [cbn; by intros [= <- <-]|].
  pose proof (Hm (call t) (call t + 1) ltac:(lia)) as Hc1. pose proof (Hm (call t + 1) (call t + 1 + 1) ltac:(lia)) as Hc2.
  apply (IH _ (j + 1)); [lia|cbn; lia|lia|]. destruct fuel; [|lia]. exfalso.
  assert (j <= timeoutMs / interval) by (apply Z.div_le_lower_bound; lia). lia.
Qed.
Lemma poll_ends fuel base dom tx interval timeoutMs t r t' :
  monotone -> 0 < orElse interval 8000 -> 0 <= orElse timeoutMs 1200000 ->
  orElse timeoutMs 1200000 / orElse interval 8000 + 2 <= Z.of_nat fuel ->
  pollAttestation fuel base dom tx interval timeoutMs t = (r, t') -> pollEnd base dom tx (orElse timeoutMs 1200000) t t' r.
Proof.
  intros Hm Hi Ht Hf. unfold pollAttestation, mbind, M_bind. cbn. intros Hr.
  pose proof (Z.div_pos _ _ Ht Hi). pose proof (Hm (call t) (call t + 1) ltac:(lia)) as Hc1.
  assert (r ≠ Ok None) as Hn by (eapply (pollLoop_enough _ _ _ _ _ _ _ _ _ _ 0); [..|exact Hr]; [done|done|lia|cbn; lia|lia|lia]).
  apply (pollLoop_sound _ _ _ _ _ _ _ _ _ _ Hm) in Hr as [Hle [->|Hr]]; [done|]. cbn in Hle.
  destruct r as [[a|]|e]; [|done|]; cbn in Hr |- *.
  - destruct Hr as [Ha (i & Hx & Hr)]. split; [done|]. exists i. split; [lia|done].
  - destruct Hr as [(i & Hx & Hr)|Hr]; [left|by right]. exists i. split; [lia|done].
Qed.

(** C39. Polling ends.  On a clock that does not go back, and with a positive
    interval, [timeout / interval + 2] rounds are enough, because every round
    that does not end pauses for the interval: the run returns an attestation,
    or throws the service's error, or throws the timeout once more than the
    timeout has passed.  An attestation that is returned has the status
    complete and a text that is neither empty nor [0x] nor [PENDING], and is
    the first message of a 2xx answer of one of the calls for that burn. *)
Theorem attestation_poll fuel base dom tx interval timeoutMs t :
  monotone -> 0 < orElse interval 8000 -> 0 <= orElse timeoutMs 1200000 ->
  orElse timeoutMs 1200000 / orElse interval 8000 + 2 <= Z.of_nat fuel ->
  exists r t', pollAttestation fuel base dom tx interval timeoutMs t = (r, t') /\
    match r with
    | Ok None => False
    | Ok (Some a) =>
        (att_status a = "complete" /\ att_attestation a ≠ "" /\ att_attestation a ≠ "0x" /\ att_attestation a ≠ "PENDING") /\
        exists i, call t <= i < call t' /\ irisAnswered i base dom tx a
    | Throw e =>
        (exists i, call t <= i < call t' /\ fetchAttestationByTx i base dom tx = Throw e) \/
        (exists ms st, e = timedOut ms st /\ orElse timeoutMs 1200000 < ms)
    end.
Proof.
  intros Hm Hi Ht Hf. destruct (pollAttestation fuel base dom tx interval timeoutMs t) as [r t'] eqn:E. exists r, t'. split; [done|].
  exact (poll_ends _ _ _ _ _ _ _ _ _ Hm Hi Ht Hf E).
Qed.
End Poll.

(** ** Witness: the third round, after two pauses, has the attestation *)
Definition toyIris : Fetch := fun k _ _ _ =>
  if k <? 4 then Ok (404, JNull)
  else Ok (200, JObj [("messages", JArr [JObj [("status", JStr "complete"); ("message", JStr "0xm"); ("attestation", JStr "0xa")]])]).
Definition toyStill : Os := {| cwd := "/"; execFile k c a fs := (Ok "", fs); spawn k c a p := mkExit (Some 0) "" ""; clock k := 0 |}.
Lemma attestation_poll_witness :
  exists t', @pollAttestation toyIris toyStill 5 "https://iris/" 3 "0xb" (Some 10) (Some 30) (mkTimed 0 0) =
    (Ok (Some (mkAttestation "complete" "0xm" "0xa" None None)), t') /\ paused t' = 20.
Proof.
  destruct (@attestation_poll toyIris toyStill 5 "https://iris/" 3 "0xb" (Some 10) (Some 30) (mkTimed 0 0)) as (r & t' & Hr & _);
    [intros i j _; cbn; lia|cbn; lia|cbn; lia|vm_compute; discriminate|].
  exists t'. rewrite Hr. revert Hr. vm_compute. by intros [= <- <-].
Defined.
End Cctp.
