(* ===== verification/Rfq.v ===== *)
(** * Quotes and swap terms (packages/rfq/src/rfq.ts, remit.ts)

    The hashes the parties of an RFQ sign, the byte layout of the atomic swap
    hash, the fixed-point price rules, the decimal rendering of amounts, the
    encryption of intents at rest, and the simulated remittance receipts. *)
From S2P Require Import Prelude JsText JsCollections Json Crypto Ids Runtime Host Cctp.
From Stdlib Require Import Ascii.
Import JsText Json JsArray Crypto Ids Runtime Host Cctp.

Module Rfq.

Record Intent := mkIntent {
  user_pubkey_commitment : string; input_asset : string; output_asset : string; amount_mode : string;
  amount : string; min_output : string; expiry_ledger : Z; allowed_solvers_root : string;
  compliance_policy_id : string; destination : string }.
Record Quote := mkQuote {
  quote_id : string; q_intent_hash : string; solver_id : string; q_input_asset : string; q_output_asset : string;
  gross_input : string; net_output : string; fee : string; valid_until_ledger : option Z; (* None: NaN *)
  solver_inventory_commitment : string }.
Definition intentJson (i : Intent) : json := JObj
  [("intent_type", JStr "PRIVATE_RFQ"); ("version", JStr "1.0"); ("user_pubkey_commitment", JStr (user_pubkey_commitment i));
   ("input_asset", JStr (input_asset i)); ("output_asset", JStr (output_asset i)); ("amount_mode", JStr (amount_mode i));
   ("amount", JStr (amount i)); ("min_output", JStr (min_output i)); ("expiry_ledger", JNum (expiry_ledger i));
   ("allowed_solvers_root", JStr (allowed_solvers_root i)); ("compliance_policy_id", JStr (compliance_policy_id i));
   ("destination", JStr (destination i)); ("replay_domain", JStr "shade:stellar:testnet:rfq:v1")].
Definition quoteJson (q : Quote) : json := JObj
  [("quote_id", JStr (quote_id q)); ("intent_hash", JStr (q_intent_hash q)); ("solver_id", JStr (solver_id q));
   ("input_asset", JStr (q_input_asset q)); ("output_asset", JStr (q_output_asset q)); ("gross_input", JStr (gross_input q));
   ("net_output", JStr (net_output q)); ("fee", JStr (fee q)); ("valid_until_ledger", match valid_until_ledger q with Some z => JNum z | None => JNull end);
   ("solver_inventory_commitment", JStr (solver_inventory_commitment q)); ("settlement_method", JStr "proof_of_fill")].

(** ** Prices *)
Definition PRICE_SCALE : Z := 1000000000.
(** BigInt division truncates. *)
Definition quotedFromPrice (inputAmount7dp priceScaled : Z) : Z := Z.quot (inputAmount7dp * priceScaled) PRICE_SCALE.
Record Priced := mkPriced { net : Z; feeOf : Z }.
Definition priceQuote (grossInput7dp feeBps : Z) : Priced :=
  let fee := Z.quot (grossInput7dp * feeBps) 10000 in mkPriced (grossInput7dp - fee) fee.

(** [s.replace(/^0+(\d)/, "$1")]: the leading zeros go, except one before a
    non-digit. *)
Fixpoint dropZeros (s : string) : string :=
  match s with
  | String c s' =>
      if c ==? "0"%char then
        match s' with String d _ => if isDigit d then dropZeros s' else s | EmptyString => s end
      else s
  | EmptyString => s
  end.
Definition usdc7ToDecimal (v : Z) : string :=
  let s := padStart 8 "0"%char (toString v) in
  let n := (String.length s - 7)%nat in
  dropZeros (sliceTo n s +:+ "." +:+ sliceFrom n s).

(** ** Hashes and signatures *)
Definition stable `{LocaleCompare} (value : json) : string := stableStringify value.
Section Hash.
Context `{Sha256}.
Definition intentHash `{LocaleCompare} (i : Intent) : string := "0x" +:+ sha256 (stable (intentJson i)).
Definition quoteHash `{LocaleCompare} (q : Quote) : string := "0x" +:+ sha256 (stable (quoteJson q)).

(** Sixteen bytes, most significant first: [x & 0xff] and [x >> 8] on the
    two's complement. *)
Fixpoint bytesBE (n : nat) (v : Z) : bytes :=
  match n with O => "" | S n' => bytesBE n' (Z.shiftr v 8) +:+ String (byte (Z.land v 255)) "" end.
Definition i128beBytes (v : Z) : bytes := bytesBE 16 v.
Definition recipientHashBytes (strkey : string) : bytes :=
  String (chr 0) (sliceTo 31 (hexDecode (sha256 strkey))).
Record AtomicSwapTerms := mkTerms {
  quoteHashHex : string; outputAssetIdHex : string; quotedOutput : Z; minOutput : Z; priceScaled : Z; recipientStrkey : string }.
Definition swapBytes (t : AtomicSwapTerms) : bytes :=
  hexDecode (strip0x (quoteHashHex t)) +:+ hexDecode (strip0x (outputAssetIdHex t)) +:+ i128beBytes (quotedOutput t)
  +:+ i128beBytes (minOutput t) +:+ i128beBytes (priceScaled t) +:+ recipientHashBytes (recipientStrkey t).
Definition atomicSwapHash (t : AtomicSwapTerms) : string := "0x" +:+ sha256 (swapBytes t).
Section Sign.
Context `{Keypair}.
Record Signed := mkSigned { sig : string; pubkey : string }.
Definition signQuoteStellar (quoteHashHex stellarSecret : string) : result Signed :=
  pk ← fromSecret stellarSecret;
  mret (mkSigned (hexEncode (keySign stellarSecret (hexDecode (strip0x quoteHashHex)))) (hexEncode pk)).
Definition signAtomicSwap (terms : AtomicSwapTerms) (stellarSecret : string) : result (string * Signed) :=
  let swapHash := atomicSwapHash terms in s ← signQuoteStellar swapHash stellarSecret; mret (swapHash, s).
End Sign.

(** ** Intents at rest *)
Definition padEnd (n : nat) (c : ascii) (s : string) : string := s +:+ repeatString (n - String.length s) c.
Record Sealed := mkSealed { ciphertext : string; iv : string; tag : string }.
Definition masterKey (masterKeyHex : string) : bytes := hexDecode (sliceTo 64 (padEnd 64 "0"%char (strip0x masterKeyHex))).
Definition encryptIntent `{LocaleCompare} `{Random} `{Aes} (i : Intent) (masterKeyHex : string) : M Host Sealed :=
  iv ← draw 12;
  let s := aesSeal (masterKey masterKeyHex) iv "" (stable (intentJson i)) in
  mret (mkSealed (hexEncode s.1) (hexEncode iv) (hexEncode s.2)).

(** ** Simulated remittances *)
Record RemitQuote := mkRemit {
  quoteId : string; amount7dp : string; payoutAmountMinor : string; currency : string; recipientMetadata : string;
  anchorId : string; policyId : string; expiryLedger : Z }.
Record RemitReceipt := mkReceipt {
  r_quoteId : string; settlementHash : string; r_payoutAmountMinor : string; r_currency : string; r_anchorId : string;
  r_status : string }.
Definition recipientMetadataCommitment (metadata blindingHex : string) : string :=
  "0x" +:+ sha256 (metadata +:+ "|" +:+ blindingHex).
Definition remitJson (q : RemitQuote) (commitment : string) : json := JObj
  [("quoteId", JStr (quoteId q)); ("amount7dp", JStr (amount7dp q)); ("payoutAmountMinor", JStr (payoutAmountMinor q));
   ("currency", JStr (currency q)); ("recipientMetadataCommitment", JStr commitment); ("anchorId", JStr (anchorId q));
   ("policyId", JStr (policyId q)); ("expiryLedger", JNum (expiryLedger q)); ("simulated", JBool true)].
Definition remitSettlementHash (q : RemitQuote) (commitment : string) : string := "0x" +:+ sha256 (stringify (remitJson q commitment)).
Definition simulateRemitReceipt (q : RemitQuote) (metadataBlindingHex : string) (currentLedger : Z) : result (string * RemitReceipt) :=
  if expiryLedger q <? currentLedger then Throw (Error None "remit quote expired")
  else
    let mc := recipientMetadataCommitment (recipientMetadata q) metadataBlindingHex in
    let h := remitSettlementHash q mc in
    Ok (h, mkReceipt (quoteId q) h (payoutAmountMinor q) (currency q) (anchorId q) "SIMULATED_PAID").
Definition receiptMatchesSettlement (receipt : RemitReceipt) (q : RemitQuote) (metadataBlindingHex : string) : bool :=
  settlementHash receipt ==? remitSettlementHash q (recipientMetadataCommitment (recipientMetadata q) metadataBlindingHex).
End Hash.

Example usdc7_small : usdc7ToDecimal 5 = "0.0000005". Proof. reflexivity. Qed.
Example usdc7_big : usdc7ToDecimal 1234567890123 = "123456.7890123". Proof. reflexivity. Qed.
Example i128_minus : i128beBytes (-2) = repeatString 15 (chr 255) +:+ String (chr 254) "". Proof. reflexivity. Qed.

(** ** The byte layout *)
Lemma length_bytesBE n v : String.length (bytesBE n v) = n.
Proof. revert v. induction n as [|n IH]; intros v; [done|]. cbn [bytesBE]. rewrite length_append, IH. simpl. lia. Qed.
Lemma byte_inj a b : byte a = byte b -> a mod 256 = b mod 256.
Proof.
  unfold byte, chr. pose proof (Z.mod_pos_bound a 256). pose proof (Z.mod_pos_bound b 256). intros E%(f_equal N_of_ascii).
  rewrite !N_ascii_embedding in E by lia. lia.
Qed.
Lemma land_255 v : Z.land v 255 = v mod 256.
Proof. change 255 with (Z.ones 8). rewrite Z.land_ones by lia. done. Qed.
Lemma byte_mod v : byte (v mod 256) = byte v.
Proof. unfold byte. by rewrite Z.mod_mod. Qed.
Lemma bytesBE_eq n v w : bytesBE n v = bytesBE n w <-> v mod 256 ^ Z.of_nat n = w mod 256 ^ Z.of_nat n.
Proof.
  revert v w. induction n as [|n IH]; intros v w; [by rewrite !Z.mod_1_r|].
  assert (forall z, z mod 256 ^ Z.of_nat (S n) = z mod 256 + 256 * ((z / 256) mod 256 ^ Z.of_nat n)) as Hm.
  { intros z. rewrite Nat2Z.inj_succ, Z.pow_succ_r by lia. rewrite Z.rem_mul_r by lia. done. }
  rewrite !Hm. cbn [bytesBE]. rewrite !land_255, !byte_mod, !Z.shiftr_div_pow2 by lia. change (2 ^ 8) with 256. split.
  - intros E. apply append_inj_length in E as [E1 E2]; [|by rewrite !length_bytesBE]. apply IH in E1.
    injection E2 as E2. apply byte_inj in E2. lia.
  - intros E. pose proof (Z.mod_pos_bound v 256). pose proof (Z.mod_pos_bound w 256).
    assert (v mod 256 = w mod 256) as E2 by lia. f_equal; [apply IH; lia|]. rewrite <- (byte_mod v), <- (byte_mod w). by rewrite E2.
Qed.
Lemma i128_inj v w : - 2 ^ 127 <= v < 2 ^ 127 -> - 2 ^ 127 <= w < 2 ^ 127 -> i128beBytes v = i128beBytes w -> v = w.
Proof.
  intros Hv Hw E%bytesBE_eq. change (256 ^ Z.of_nat 16) with (2 ^ 128) in E.
  assert ((v - w) mod 2 ^ 128 = 0) as E' by (rewrite Zminus_mod, E, Z.sub_diag; done).
  apply Z.mod_divide in E' as [k E']; [|done]. lia.
Qed.
(** A 32-byte value in hexadecimal, as the callers pass hashes. *)
Definition isBytes32 (h : string) : Prop := String.length (hexDecode (strip0x h)) = 32%nat.
Definition termsOk (t : AtomicSwapTerms) : Prop :=
  isBytes32 (quoteHashHex t) /\ isBytes32 (outputAssetIdHex t) /\ - 2 ^ 127 <= quotedOutput t < 2 ^ 127 /\
  - 2 ^ 127 <= minOutput t < 2 ^ 127 /\ - 2 ^ 127 <= priceScaled t < 2 ^ 127.

(** ** Scalar objects are bound by their canonical text *)
Definition scalar (j : json) : Prop := match j with JArr _ | JObj _ => False | _ => True end.
Lemma canon_scalar `{LocaleCompare} j : scalar j -> canon j = j.
Proof. by destruct j. Qed.
Lemma map_canon_scalar `{LocaleCompare} (kvs : list (string * json)) :
  Forall (fun kv => scalar kv.2) kvs -> map (fun kv => (kv.1, canon kv.2)) kvs = kvs.
Proof. induction 1 as [|[k v] l Hv _ IH]; [done|]. simpl in *. by rewrite canon_scalar, IH. Qed.
Lemma keyed_perm (kvs kvs' : list (string * json)) :
  NoDup kvs.*1 -> kvs.*1 = kvs'.*1 -> kvs ≡ₚ kvs' -> kvs = kvs'.
Proof.
  intros Hnd Ek Hp. assert (forall k v v', (k, v) ∈ kvs -> (k, v') ∈ kvs -> v = v') as Hf.
  { intros k v v' [i Hi]%list_elem_of_lookup [j Hj]%list_elem_of_lookup. assert (i = j) as ->; [|congruence].
    apply (NoDup_lookup _ i j k Hnd); rewrite list_lookup_fmap; [by rewrite Hi|by rewrite Hj]. }
  assert (forall kv, kv ∈ kvs' -> kv ∈ kvs) as Hin by (intros kv; by rewrite Hp). clear Hp Hnd. revert kvs' Ek Hin Hf.
  induction kvs as [|[k v] l IH]; intros [|[k' v'] l'] Ek Hin Hf; try done. rewrite !fmap_cons in Ek. injection Ek as Ek1 Ek.
  simpl in Ek1. subst k'. assert (v = v') as <- by (apply (Hf k); [left|apply Hin; left]). f_equal.
  assert (forall i kv kv', l !! i = Some kv -> l' !! i = Some kv' -> kv = kv') as Hpt.
  { intros i [a b] [a' b'] H1 H2. assert (a = a') as <-.
    { apply (f_equal (fun l => l !! i)) in Ek. rewrite !list_lookup_fmap, H1, H2 in Ek. by injection Ek. }
    f_equal. apply (Hf a); [right; by eapply list_elem_of_lookup_2|apply Hin; right; by eapply list_elem_of_lookup_2]. }
  apply list_eq. intros i. assert (length l = length l') as Hl by (apply (f_equal length) in Ek; by rewrite !length_fmap in Ek).
  destruct (l !! i) as [x|] eqn:E1, (l' !! i) as [y|] eqn:E2; [f_equal; eauto|..|done].
  - apply lookup_lt_Some in E1. apply lookup_ge_None in E2. lia.
  - apply lookup_lt_Some in E2. apply lookup_ge_None in E1. lia.
Qed.
Lemma stable_object_inj `{LocaleCompare} (kvs kvs' : list (string * json)) :
  NoDup kvs.*1 -> kvs.*1 = kvs'.*1 -> Forall (fun kv => scalar kv.2) kvs -> Forall (fun kv => scalar kv.2) kvs' ->
  stable (JObj kvs) = stable (JObj kvs') -> kvs = kvs'.
Proof.
  intros Hnd Ek Hs Hs' E. unfold stable in E. rewrite !stableStringify_stringify in E. apply (inj stringify) in E.
  cbn [canon] in E. rewrite !map_canon_scalar in E by done. injection E as E.
  apply keyed_perm; [done..|]. by rewrite <- (sortBy_perm entryCmp kvs), E, sortBy_perm.
Qed.

(** ** Theorems *)
Section Theorems.
Context `{Sha256} `{LocaleCompare}.

Lemma prefixed_binds s s' : "0x" +:+ sha256 s = "0x" +:+ sha256 s' -> s = s' \/ Collision.
Proof. intros E. apply append_inj_length in E as [_ E]; [|done]. by apply sha256_binds. Qed.
Lemma quote_scalars q : match quoteJson q with JObj kvs => Forall (fun kv => scalar kv.2) kvs | _ => False end.
Proof. unfold quoteJson. repeat constructor. simpl. by destruct (valid_until_ledger q). Qed.
Lemma quoteHash_binds q q' : quoteHash q = quoteHash q' -> q = q' \/ Collision.
Proof.
  intros E. apply prefixed_binds in E as [E|]; [left|by right].
  apply stable_object_inj in E; [|by apply (bool_decide_unpack _)|done|apply (quote_scalars q)|apply (quote_scalars q')].
  destruct q as [????????[]?], q' as [????????[]?]; simpl in E; by simplify_eq.
Qed.
Lemma intentHash_binds i i' : intentHash i = intentHash i' -> i = i' \/ Collision.
Proof.
  intros E. apply prefixed_binds in E as [E|]; [left|by right].
  apply stable_object_inj in E; [|by apply (bool_decide_unpack _)|done|by repeat constructor|by repeat constructor].
  destruct i, i'. simpl in E. by simplify_eq.
Qed.

(** Two recipients whose SHA-256 hashes share the 31 bytes that are signed. *)
Definition truncatedCollision (r r' : string) : Prop :=
  r ≠ r' /\ sliceTo 31 (hexDecode (sha256 r)) = sliceTo 31 (hexDecode (sha256 r')).
(** The terms two parties agree on: the 32-byte values, the amounts and the
    recipient. *)
Record sameTerms (t t' : AtomicSwapTerms) : Prop := {
  same_quote : hexDecode (strip0x (quoteHashHex t)) = hexDecode (strip0x (quoteHashHex t'));
  same_asset : hexDecode (strip0x (outputAssetIdHex t)) = hexDecode (strip0x (outputAssetIdHex t'));
  same_quoted : quotedOutput t = quotedOutput t';
  same_min : minOutput t = minOutput t';
  same_price : priceScaled t = priceScaled t';
  same_recipient : recipientStrkey t = recipientStrkey t' \/ truncatedCollision (recipientStrkey t) (recipientStrkey t') }.
Lemma swapBytes_inj t t' : termsOk t -> termsOk t' -> swapBytes t = swapBytes t' -> sameTerms t t'.
Proof.
  intros (Hq & Ha & H1 & H2 & H3) (Hq' & Ha' & H1' & H2' & H3') E. unfold swapBytes in E.
  apply append_inj_length in E as [Eq E]; [|congruence]. apply append_inj_length in E as [Ea E]; [|congruence].
  apply append_inj_length in E as [E1 E]; [|by unfold i128beBytes; rewrite !length_bytesBE]. apply append_inj_length in E as [E2 E]; [|by unfold i128beBytes; rewrite !length_bytesBE].
  apply append_inj_length in E as [E3 E]; [|by unfold i128beBytes; rewrite !length_bytesBE]. split; try done; try by apply i128_inj.
  destruct (decide (recipientStrkey t = recipientStrkey t')) as [|Hne]; [by left|right]. split; [done|]. by injection E.
Qed.
Lemma strip0x_0x s : strip0x ("0x" +:+ s) = sliceFrom 2 ("0x" +:+ s).
Proof. unfold strip0x. replace (startsWith ("0x" +:+ s) "0x") with true; [done|]. by destruct s. Qed.
Lemma signed_verifies `{KeypairLaws} h secret s :
  signQuoteStellar h secret = Ok s -> keyVerify (hexDecode (pubkey s)) (hexDecode (strip0x h)) (hexDecode (sig s)) = Ok true.
Proof.
  unfold signQuoteStellar. destruct (fromSecret secret) as [pk|e] eqn:E; [|done]. intros [= <-]. simpl.
  rewrite !hexDecode_encode. by apply key_verify.
Qed.

(** C31. What a solver signs binds the deal: equal quote hashes (intent hashes)
    mean equal quotes (intents), and equal swap hashes of well-formed terms
    mean the same quote hash, asset, amounts and price and the same recipient,
    or else an explicit SHA-256 collision, or two different recipients whose
    hashes agree on the 31 bytes that are signed; and the signature
    [signAtomicSwap] returns verifies, under the public key it returns, on the
    swap hash it returns. *)
Theorem rfq_terms_bound `{KeypairLaws} q q' i i' t t' secret :
  (quoteHash q = quoteHash q' -> q = q' \/ Collision) /\
  (intentHash i = intentHash i' -> i = i' \/ Collision) /\
  (termsOk t -> termsOk t' -> atomicSwapHash t = atomicSwapHash t' -> sameTerms t t' \/ Collision) /\
  (forall h s, signAtomicSwap t secret = Ok (h, s) ->
     h = atomicSwapHash t /\ keyVerify (hexDecode (pubkey s)) (hexDecode (sliceFrom 2 h)) (hexDecode (sig s)) = Ok true).
Proof.
  split_and!; [apply quoteHash_binds|apply intentHash_binds|..].
  - intros Ht Ht' E. apply prefixed_binds in E as [E|]; [left; by apply swapBytes_inj|by right].
  - intros h s. unfold signAtomicSwap. destruct (signQuoteStellar (atomicSwapHash t) secret) as [s0|e] eqn:E; [|done].
    intros [= <- <-]. split; [done|]. apply signed_verifies in E.
    unfold atomicSwapHash in E |- *. by rewrite strip0x_0x in E.
Qed.

(** Any change of a signed field shows in the settlement hash. *)
Lemma remit_binds q q' b b' :
  remitSettlementHash q (recipientMetadataCommitment (recipientMetadata q) b) =
  remitSettlementHash q' (recipientMetadataCommitment (recipientMetadata q') b') ->
  Collision \/ (quoteId q = quoteId q' /\ amount7dp q = amount7dp q' /\ payoutAmountMinor q = payoutAmountMinor q' /\
    currency q = currency q' /\ anchorId q = anchorId q' /\ policyId q = policyId q' /\ expiryLedger q = expiryLedger q' /\
    recipientMetadata q +:+ "|" +:+ b = recipientMetadata q' +:+ "|" +:+ b').
Proof.
  intros E. apply prefixed_binds in E as [E|]; [|by left]. apply (inj stringify) in E. injection E as E1 E2 E3 E4 E5 E6 E7 E8.
  rewrite !append_nil_l in E5. apply sha256_binds in E5 as [E5|Hc]; [right|by left]. repeat (split; [assumption|]). exact E5.
Qed.
(** A receipt is produced exactly for an unexpired quote, and then matches it. *)
Lemma remit_receipt q b ledger :
  match simulateRemitReceipt q b ledger with
  | Ok (h, r) => ledger <= expiryLedger q /\ receiptMatchesSettlement r q b = true /\ settlementHash r = h
  | Throw _ => expiryLedger q < ledger
  end.
Proof.
  unfold simulateRemitReceipt. destruct (Z.ltb_spec (expiryLedger q) ledger); [done|]. split; [done|]. split; [|done].
  unfold receiptMatchesSettlement. simpl. by apply bool_decide_eq_true.
Qed.
End Theorems.

(** ** Prices and decimals *)
Lemma priceQuote_sum gross bps : 0 <= gross -> 0 <= bps <= 10000 ->
  let p := priceQuote gross bps in
  net p + feeOf p = gross /\ 0 <= net p <= gross /\ feeOf p * 10000 <= gross * bps < (feeOf p + 1) * 10000.
Proof.
  intros Hg Hb. cbn. rewrite Z.quot_div_nonneg by nia. pose proof (Z.div_mod (gross * bps) 10000).
  pose proof (Z.mod_pos_bound (gross * bps) 10000). nia.
Qed.
Lemma parseDigits_app base acc a b :
  parseDigits base acc (a +:+ b) = parseDigits base acc a ≫= fun n => parseDigits base n b.
Proof.
  revert acc. induction a as [|c a IH]; intros acc; [done|]. rewrite append_cons. cbn [parseDigits].
  destruct (digitVal c) as [d|]; [|done]. by destruct (d <? base).
Qed.
Lemma parseDigits_zeros n acc s : acc = 0 -> parseDigits 10 acc (repeatString n "0"%char +:+ s) = parseDigits 10 0 s.
Proof. intros ->. induction n as [|n IH]; [done|]. simpl. exact IH. Qed.
Lemma allChars_repeat p n c : p c = true -> allChars p (repeatString n c) = true.
Proof. intros Hc. induction n as [|n IH]; [done|]. simpl. by rewrite Hc. Qed.
Lemma slice_split n s : sliceTo n s +:+ sliceFrom n s = s.
Proof. revert s. induction n as [|n IH]; intros [|c s]; try done. simpl. rewrite append_cons. by rewrite IH. Qed.

(** The integer part keeps its value and has no superfluous zero. *)
Definition plainInteger (s : string) : Prop :=
  s ≠ "" /\ allChars isDigit s = true /\ (s = "0" \/ startsWith s "0" = false).
Lemma dropZeros_spec a b :
  a ≠ "" -> allChars isDigit a = true ->
  exists a', dropZeros (a +:+ "." +:+ b) = a' +:+ "." +:+ b /\ plainInteger a' /\ parseDigits 10 0 a' = parseDigits 10 0 a.
Proof.
  induction a as [|c a IH]; [done|]. intros _ Ha. cbn in Ha. apply andb_true_iff in Ha as [Hc Ha]. rewrite append_cons.
  cbn [dropZeros]. destruct (bool_decide_reflect (c = "0"%char)) as [->|Hne].
  - destruct a as [|d a].
    + exists "0". split; [reflexivity|]. split; [|done]. split_and!; [done..|by left].
    + rewrite append_cons. cbn in Ha. apply andb_true_iff in Ha as [Hd Ha]. rewrite Hd. rewrite <- append_cons.
      destruct IH as (a' & E & Hp & Ev); [done|cbn; by rewrite Hd|]. exists a'. split; [exact E|]. split; [done|]. by rewrite Ev.
  - exists (String c a). split; [reflexivity|]. split; [|done]. split_and!; [done|cbn; by rewrite Hc|right].
    unfold startsWith. cbn [String.prefix]. destruct (ascii_dec "0" c); [congruence|]. done.
Qed.

(** Amounts are priced and printed exactly: net and fee of a quote add up
    to the gross amount, the fee being the exact fraction rounded down; and the
    decimal rendering of a non-negative amount is an integer part without
    superfluous zeros, a point and seven digits, which read together give the
    amount back. *)
Theorem prices_exact gross bps v : 0 <= gross -> 0 <= bps <= 10000 -> 0 <= v ->
  let p := priceQuote gross bps in
  (net p + feeOf p = gross /\ 0 <= net p <= gross /\ feeOf p * 10000 <= gross * bps < (feeOf p + 1) * 10000) /\
  exists whole frac, usdc7ToDecimal v = whole +:+ "." +:+ frac /\ plainInteger whole /\ String.length frac = 7%nat /\
    allChars isDigit frac = true /\ parseDigits 10 0 (whole +:+ frac) = Some v.
Proof.
  intros Hg Hb Hv p. split; [by apply priceQuote_sum|]. unfold usdc7ToDecimal. set (s := padStart 8 "0"%char (toString v)).
  assert (allChars isDigit (toString v) = true /\ parseDigits 10 0 (toString v) = Some v) as [Hd Hp].
  { destruct v as [|v|v]; [done| |lia]. split; [apply isDigit_pretty_N|].
    pose proof (parseRadix_pretty (N.pos v)) as Hr. unfold parseRadix in Hr. rewrite bool_decide_false in Hr by apply pretty_N_nonempty. exact Hr. }
  assert (allChars isDigit s = true) as Hs by (unfold s, padStart; by rewrite allChars_append, allChars_repeat, Hd).
  assert (parseDigits 10 0 s = Some v) as Hps by (unfold s, padStart; by rewrite parseDigits_zeros).
  assert (8 <= String.length s)%nat as Hl.
  { unfold s, padStart. rewrite length_append, ToyRuntime.repeatString_length. lia. }
  clearbody s. set (n := (String.length s - 7)%nat). rewrite <- (slice_split n s), allChars_append in Hs.
  apply andb_true_iff in Hs as [Ha Hf]. destruct (dropZeros_spec (sliceTo n s) (sliceFrom n s)) as (a' & E & Hpi & Ev); [|done|].
  { intros E. apply (f_equal String.length) in E. pose proof (f_equal String.length (slice_split n s)) as El.
    rewrite length_append, length_sliceFrom in El. simpl in E. lia. }
  exists a', (sliceFrom n s). split_and!; [exact E|done|rewrite length_sliceFrom; lia|done|].
  rewrite parseDigits_app, Ev, <- parseDigits_app, slice_split. exact Hps.
Qed.
Lemma prices_exact_witness :
  net (priceQuote 100000001 50) = 99500001 /\ feeOf (priceQuote 100000001 50) = 500000 /\
  exists whole frac, usdc7ToDecimal 99500001 = whole +:+ "." +:+ frac /\ parseDigits 10 0 (whole +:+ frac) = Some 99500001.
Proof.
  split; [reflexivity|]. split; [reflexivity|].
  destruct (prices_exact 100000001 50 99500001 ltac:(lia) ltac:(lia) ltac:(lia)) as (_ & w & f & E & _ & _ & _ & Hp).
  exists w, f. split; [exact E|exact Hp].
Defined.
Definition toyTerms : AtomicSwapTerms :=
  mkTerms ("0x" +:+ repeatString 64 "a"%char) ("0x" +:+ repeatString 64 "0"%char) 100 90 PRICE_SCALE "GUSER".
Lemma rfq_terms_bound_witness : exists h s,
  @signAtomicSwap Toy.toy_sha ToyRuntime.toy_keypair toyTerms "SSOLVER" = Ok (h, s) /\
  @keyVerify ToyRuntime.toy_keypair (hexDecode (pubkey s)) (hexDecode (sliceFrom 2 h)) (hexDecode (sig s)) = Ok true.
Proof.
  eexists _, _. split; [reflexivity|]. pose (q := mkQuote "" "" "" "" "" "" "" "" None ""). pose (i := mkIntent "" "" "" "" "" "" 0 "" "" "").
  destruct (@rfq_terms_bound Toy.toy_sha codePointCompare ToyRuntime.toy_keypair ToyRuntime.toy_keypair_laws q q i i
    toyTerms toyTerms "SSOLVER") as (_ & _ & _ & Hs). exact (proj2 (Hs _ _ eq_refl)).
Defined.
End Rfq.
