(* ===== verification/Evm.v ===== *)
(** * The EVM side (packages/evm-utils/src/index.ts)

    What the services ask of ethers and of an Arbitrum node, as a class
    parameter, and the record of the transactions a service submits: [Net] is
    the machine together with those transactions, in the order of
    submission. *)
From S2P Require Import Prelude JsText JsCollections Json Crypto Runtime Host.
Import JsText Json Crypto Runtime Host.

Module Evm.

(** The arguments of [depositForBurnWithHook]; the bytes are hexadecimal. *)
Record Burn := mkBurn {
  b_amount : Z; b_domain : Z; b_mintRecipient : string; b_burnToken : string; b_caller : string; b_maxFee : Z;
  b_finality : Z; b_hook : string }.
Inductive Tx :=
| Transfer (token to : string) (value : Z)
| Approve (token spender : string) (value : Z)
| DepositForBurn (messenger : string) (args : Burn).
#[export] Instance Burn_eq_dec : EqDecision Burn.
Proof. solve_decision. Defined.
#[export] Instance Tx_eq_dec : EqDecision Tx.
Proof. solve_decision. Defined.
(** [provider.getTransaction(hash)]: sender, target and calldata. *)
Record EvmTx := mkEvmTx { tx_from : string; tx_to : option string; tx_data : string }.

(** [new Wallet(key).address]; the view calls; sending a transaction and
    waiting for its receipt ([Ok] of the receipt's hash); reading a transaction
    and the status of its receipt; [iface.parseTransaction], which throws or
    returns [null]; [formatUnits] and [keccak256]. *)
Class Evm := {
  walletAddress : string -> result string;
  nativeBalance : Z -> string -> string -> result Z;
  balanceOf : Z -> string -> string -> string -> result Z;
  decimalsOf : Z -> string -> string -> result Z;
  allowanceOf : Z -> string -> string -> string -> string -> result Z;
  submit : Z -> string -> string -> Tx -> result string;
  getTransaction : Z -> string -> string -> result (option EvmTx);
  getReceipt : Z -> string -> string -> result (option (option Z));
  parseBurn : string -> result (option Burn);
  formatUnits : Z -> Z -> string;
  keccak256 : string -> string }.

Record Net := mkNet { host : Host; sent : list (string * Tx) }.
Definition onHost {A} (m : M Host A) : M Net A := fun n => let '(r, h) := m (host n) in (r, mkNet h (sent n)).

Section Evm.
Context `{Evm}.
Definition view {A} (f : Z -> result A) : M Net A := k ← onHost nextTick; liftR (f k).
(** A transaction is recorded whether or not it then fails. *)
Definition sendTx (rpc privateKey : string) (t : Tx) : M Net string :=
  k ← onHost nextTick;
  modifyM (fun n => mkNet (host n) (sent n ++ [(privateKey, t)])) ;;
  liftR (submit k rpc privateKey t).

(** [walletFromPrivateKey] pairs the key with the node; [ethBalance] asks for
    the balance of its address. *)
Record Wallet := mkWallet { address : string; privateKey : string; walletRpc : string }.
Definition walletFromPrivateKey (key rpcUrl : string) : result Wallet :=
  a ← walletAddress key; mret (mkWallet a key rpcUrl).
Definition ethBalance (w : Wallet) : M Net Z := view (fun k => nativeBalance k (walletRpc w) (address w)).
Record Erc20Balance := mkErc20 { raw : Z; decimals : Z; formatted : string }.
Definition erc20Balance (rpcUrl token owner : string) : M Net Erc20Balance :=
  raw ← view (fun k => balanceOf k rpcUrl token owner);
  d ← view (fun k => decimalsOf k rpcUrl token);
  mret (mkErc20 raw d (formatUnits raw d)).
End Evm.

(** A view changes neither the files nor what was sent. *)
Lemma view_Ok {A} (f : Z -> result A) n a n' :
  view f n = (Ok a, n') -> sent n' = sent n /\ files (host n') = files (host n) /\ f (tick (host n)) = Ok a.
Proof. unfold view, onHost, nextTick, mbind, M_bind, liftR. destruct n as [h s]. simpl. by intros [= -> <-]. Qed.

(** Programs that send nothing. *)
Definition quiet {A} (m : M Net A) : Prop := forall s, preserves (fun n => sent n = s) m.
Lemma quiet_onHost {A} (m : M Host A) : quiet (onHost m).
Proof. intros s n Hn. unfold onHost. by destruct (m (host n)). Qed.
Lemma quiet_view `{Evm} {A} (f : Z -> result A) : quiet (view f).
Proof. intros s n Hn. unfold view, onHost, nextTick, mbind, M_bind, liftR. by destruct n. Qed.
Lemma quiet_bind {A B} (m : M Net A) (f : A -> M Net B) : quiet m -> (forall a, quiet (f a)) -> quiet (m ≫= f).
Proof. intros Hm Hf s. apply preserves_bind; [apply Hm|intros a; apply Hf]. Qed.
Lemma quiet_ret {A} (a : A) : quiet (mret a).
Proof. intros s. apply preserves_ret. Qed.
Lemma quiet_lift {A} (r : result A) : quiet (liftR r).
Proof. intros s. apply preserves_lift. Qed.
Lemma quiet_throw {A} e : quiet (throwM e : M Net A).
Proof. intros s. apply preserves_throw. Qed.
Lemma quiet_guard b e : quiet (guardM b e).
Proof. intros s. apply preserves_guard. Qed.
Lemma quiet_fail {A} msg : quiet (failM msg : M Net A).
Proof. intros s. apply preserves_throw. Qed.
Create HintDb quiet.
#[export] Hint Resolve quiet_onHost quiet_view quiet_bind quiet_ret quiet_lift quiet_throw quiet_fail quiet_guard : quiet.
Lemma quiet_run {A} (m : M Net A) n r n' : quiet m -> m n = (r, n') -> sent n' = sent n.
Proof. intros Hm E. pose proof (Hm (sent n) n eq_refl) as H. by rewrite E in H. Qed.

(** The calls out of the process are counted up. *)
Definition reached (k : Z) (n : Net) : Prop := since k (host n).
Lemma reached_onHost {A} k (m : M Host A) : preserves (since k) m -> preserves (reached k) (onHost m).
Proof. intros Hm n Hn. specialize (Hm _ Hn). unfold onHost. by destruct (m (host n)). Qed.
#[export] Hint Resolve reached_onHost : ticks.
Lemma reached_view `{Evm} {A} k (f : Z -> result A) : preserves (reached k) (view f).
Proof. unfold view. auto with preserve ticks. Qed.
Lemma reached_sendTx `{Evm} k rpc key t : preserves (reached k) (sendTx rpc key t).
Proof. unfold sendTx. apply preserves_bind; [auto with ticks|]. intros i. apply preserves_bind; [|auto with preserve]. by apply preserves_modify. Qed.
#[export] Hint Resolve reached_view reached_sendTx : ticks.
Lemma reached_run {A} (m : M Net A) n r n' : (forall k, preserves (reached k) m) -> m n = (r, n') -> tick (host n) <= tick (host n').
Proof. intros Hm E. pose proof (Hm (tick (host n)) n (Z.le_refl _)) as Hn. by rewrite E in Hn. Qed.
(** The count of the calls before and after a run. *)
Tactic Notation "ticked" hyp(E) "as" ident(T) :=
  pose proof E as T; apply reached_run in T; [|solve [intros ?; auto with ticks]].

Definition toyEvm : Evm := {|
  walletAddress k := Ok ("0xaddr-" +:+ k); nativeBalance k r a := Ok 1; balanceOf k r t o := Ok 1000; decimalsOf k r t := Ok 6;
  allowanceOf k r t o s := Ok 0; submit k r key t := Ok ("0xtx" +:+ toString k);
  getTransaction k r h := Ok None; getReceipt k r h := Ok None; parseBurn d := Ok None;
  formatUnits v d := toString v; keccak256 s := s |}.
End Evm.
