(* ===== verification/CctpInbound.v ===== *)
(** * Inbound CCTP deposits (packages/cctp/src/cctp-inbound.ts)

    Burn on Arbitrum, attestation, mint-and-forward on Stellar, deposit proof
    and registration in the pool: the operator-driven flow, and the flow that
    starts from a burn the user signed, whose transaction is checked against
    the terms of the deposit.  Theorems: that check is exact, and what a
    completed deposit has gone through. *)
From S2P Require Import Prelude JsText JsCollections Json Crypto Base64 Database Runtime Host Field Cctp StellarUtils Assets Proving Evm.
From Stdlib Require Import Ascii.
Import JsText Json Crypto Runtime Host Cctp StellarUtils Evm.

Module CctpInbound.

Record InboundParams := mkInbound {
  amount6 : Z; commitmentHex : string; encryptedNotePayloadHashHex : string; policyIdHex : string; fast : option bool;
  maxFee6 : option Z; targetContract : option string; rootMethod : option string; newRootHex : option string;
  coin : option Proving.GeneratedCoin; scratch : option string; poolId : option string; chainId : option string;
  adminSecret : option string }.
Record InboundResult := mkResult {
  r_burnTxHash : string; r_message : string; r_attestation : string; cctpNonceHex : string; mintForwardTxHash : string;
  vaultUsdcBefore : string; vaultUsdcAfter : string; receiveDepositTxHash : string; leafIndex : string; r_root : string;
  amount7 : string }.
Record BurnValidation := mkValidation {
  v_burnTxHash : string; v_sender : string; v_amount6 : Z; v_destinationDomain : Z; v_mintRecipient : string;
  v_destinationCaller : string; v_burnToken : string; v_maxFee : Z; v_minFinalityThreshold : Z; v_hookData : string }.
Record BurnArgs := mkBurnArgs {
  burnTxHash : string; expectedSender : string; expectedAmount6 : Z; pool : string; expectedMaxFee6 : option Z;
  expectedFinality : option (option Z) (* Some None: NaN *) }.
Record PostUserBurnParams := mkPost {
  u_burnTxHash : string; u_pool : string; u_amount6 : Z; u_commitmentHex : string; u_payloadHashHex : string; u_policyIdHex : string;
  u_newRootHex : string; u_coin : option Proving.GeneratedCoin; u_scratch : option string; u_poolId : option string;
  u_chainId : option string }.

Section Inbound.
Context `{Os} `{Env} `{Sha256} `{StrKey} `{Fetch} `{Evm}.

Definition lookup (e : EnvMap) (key : string) : option string := JsMap.get e key.
Definition need (e : EnvMap) (key : string) : M Net string :=
  match truthyOpt (lookup e key) with Some v => mret v | None => failM ("missing env " +:+ key) end.
(** The double quotes removed, then trimmed. *)
Definition unquote (s : string) : string := trim (Base64.filterString (fun c => negb (c ==? dquote)) s).
Definition invoke (e : EnvMap) (contract secret method : string) (args : list string) (readOnly : bool) : M Net SorobanInvokeResult :=
  onHost (sorobanInvoke (mkOpts contract secret method args (lookup e "STELLAR_RPC_URL") (lookup e "STELLAR_NETWORK_PASSPHRASE") 4 readOnly)).

Fixpoint sacBalanceLoop (n : nat) (e : EnvMap) (sac ofContract secret : string) : M Net Z :=
  match n with
  | O => mret 0
  | S n' =>
      res ← invoke e sac secret "balance" ["--id"; ofContract] true;
      let cleaned := unquote (returnValue res) in
      if truthy cleaned then liftR (BigInt cleaned) else sacBalanceLoop n' e sac ofContract secret
  end.
Definition sacBalance (e : EnvMap) (sac ofContract secret : string) : M Net Z := sacBalanceLoop 5 e sac ofContract secret.
(** The balance read again while it has not grown, [n] more times at most. *)
Fixpoint awaitMint (n : nat) (e : EnvMap) (sac ofContract secret : string) (before after : Z) : M Net Z :=
  match n with
  | O => mret after
  | S n' =>
      if after <=? before then
        onHost nextTick ;; after ← sacBalance e sac ofContract secret; awaitMint n' e sac ofContract secret before after
      else mret after
  end.
(** [pollAttestation] with its default interval (8 s) and timeout (20 min), for
    which 152 rounds are enough; its calls are numbered from the tick it
    starts at, and its pauses end with it. *)
Definition pollFuel : nat := 152.
Definition poll (apiBase : string) (domain : Z) (tx : string) : M Net CctpAttestation := fun n =>
  let '(r, t) := pollAttestation pollFuel apiBase domain tx None None (mkTimed (tick (host n)) 0) in
  let n' := mkNet (mkHost (files (host n)) (call t)) (sent n) in
  match r with
  | Ok (Some a) => (Ok a, n')
  | Ok None => (Throw (Error None "poll: out of fuel"), n')
  | Throw e => (Throw e, n')
  end.
Definition apiBaseOf (e : EnvMap) : string := orElse (lookup e "CCTP_ATTESTATION_API_BASE") "https://iris-api-sandbox.circle.com".

(** ** Steps both flows share *)
Record Minted := mkMinted { mint_hash : string; before : Z; after : Z }.
Definition mintAndForward (e : EnvMap) (sac forwarder target secret : string) (att : CctpAttestation) : M Net Minted :=
  b ← sacBalance e sac target secret;
  m ← invoke e forwarder secret "mint_and_forward"
        ["--message"; bytesToCliHex (att_message att); "--attestation"; bytesToCliHex (att_attestation att)] false;
  a ← sacBalance e sac target secret;
  a ← awaitMint 10 e sac target secret b a;
  mret (mkMinted (txHash m) b a).
Definition depositBinding (nonceHex burnHash : string) (a6 a7 : Z) (sac target payloadHash policy : string)
    (pid cid : option string) : Proving.DepositBinding :=
  Proving.mkDeposit (toString arbitrumSepoliaDomain) (toString stellarDomain) nonceHex burnHash (toString a6) (toString a7) sac target
    payloadHash policy (orElse pid "1") (orElse cid "148").
Definition depositArgs (nonceHex sac commitment payloadHash policy : string) (a7 : Z) (rootArgs proofArgs : list string) : list string :=
  ["--source_domain"; toString arbitrumSepoliaDomain; "--cctp_nonce"; bytesToCliHex nonceHex; "--asset"; sac; "--amount"; toString a7;
   "--commitment"; bytesToCliHex commitment] ++ rootArgs
  ++ ["--encrypted_note_payload_hash"; bytesToCliHex payloadHash; "--policy_id"; bytesToCliHex policy] ++ proofArgs.
Definition proofArgs (d : Proving.DepositProof) : list string :=
  ["--proof_bytes"; Proving.d_proofHex d; "--pub_signals_bytes"; Proving.d_publicHex d].

(** ** The operator's deposit *)
Definition burnRequest (p : InboundParams) (forwarder vault usdc : string) : result Burn :=
  mintRecipient ← stellarContractToBytes32 forwarder;
  destinationCaller ← stellarContractToBytes32 forwarder;
  hookData ← encodeStellarForwardHook vault;
  let isFast := orElse (fast p) true in
  let thousandth := Z.quot (amount6 p) 1000 in
  let maxFee := if isFast then orElse (maxFee6 p) (if 0 <? thousandth then thousandth else 1) else 0 in
  mret (mkBurn (amount6 p) stellarDomain mintRecipient usdc destinationCaller maxFee
          (if isFast then FINALITY_THRESHOLD_CONFIRMED else FINALITY_THRESHOLD_FINALIZED) hookData).
Definition ensureAllowance (rpc key owner usdc messenger : string) (amount : Z) : M Net unit :=
  allowance ← view (fun k => allowanceOf k rpc usdc owner messenger);
  if allowance <? amount then sendTx rpc key (Approve usdc messenger (amount * 100)) ;; mret tt else mret tt.
Definition burnUsdc (e : EnvMap) (p : InboundParams) (forwarder vault : string) : M Net string :=
  let rpc := orElse (lookup e "ARB_SEPOLIA_RPC_URL") "https://sepolia-rollup.arbitrum.io/rpc" in
  let key := orElse (lookup e "ARB_SEPOLIA_PRIVATE_KEY") (orElse (lookup e "ETH_PRIVATE_KEY") "") in
  let usdc := orElse (lookup e "ARB_SEPOLIA_USDC_ADDRESS") arbitrumSepoliaUsdc in
  let messenger := orElse (lookup e "ARB_SEPOLIA_CCTP_TOKEN_MESSENGER") arbitrumSepoliaTokenMessenger in
  owner ← liftR (walletAddress key);
  bal ← view (fun k => balanceOf k rpc usdc owner);
  guardM (amount6 p <=? bal) (Error None ("insufficient USDC: have " +:+ toString bal +:+ ", need " +:+ toString (amount6 p))) ;;
  ensureAllowance rpc key owner usdc messenger (amount6 p) ;;
  b ← liftR (burnRequest p forwarder vault usdc);
  sendTx rpc key (DepositForBurn messenger b).
Definition depositProofArgs (p : InboundParams) (nonceHex burnHash sac : string) (a7 : Z) : M Net (list string) :=
  match truthyOpt (targetContract p) with
  | None => mret []
  | Some target =>
      match coin p with
      | None => failM "P1.8: coin (note opening) required for shielded_pool deposit proof"
      | Some c =>
          dep ← onHost (Proving.buildDepositProof c
                 (depositBinding nonceHex burnHash (amount6 p) a7 sac target (encryptedNotePayloadHashHex p) (policyIdHex p) (poolId p) (chainId p))
                 (orElse (scratch p) ".scratch") "inbound");
          guardM (Proving.d_locallyVerified dep) (Error None "P1.8 deposit proof failed local verification") ;;
          mret (proofArgs dep)
      end
  end.
Definition rootArgsOf (p : InboundParams) : M Net (list string) :=
  match truthyOpt (targetContract p) with
  | None => mret []
  | Some _ => match newRootHex p with
              | Some r => mret ["--new_root"; bytesToCliHex r]
              | None => failM "newRootHex required for shielded_pool deposit"
              end
  end.
Definition runCctpInbound (e : EnvMap) (p : InboundParams) : M Net InboundResult :=
  guardM (truthy (orElse (lookup e "ARB_SEPOLIA_PRIVATE_KEY") (orElse (lookup e "ETH_PRIVATE_KEY") "")))
    (Error None "ARB_SEPOLIA_PRIVATE_KEY/ETH_PRIVATE_KEY required") ;;
  forwarder ← need e "STELLAR_CCTP_FORWARDER_CONTRACT";
  vault ← (match targetContract p with Some t => mret t | None => need e "SHADE_VAULT_CONTRACT" end);
  sac ← need e "STELLAR_TESTNET_USDC_SAC_CONTRACT";
  secret ← need e "STELLAR_RELAYER_SECRET";
  burnHash ← burnUsdc e p forwarder vault;
  att ← poll (apiBaseOf e) arbitrumSepoliaDomain burnHash;
  let nonceHex := keccak256 (att_message att) in
  m ← mintAndForward e sac forwarder vault secret att;
  let delta := after m - before m in
  let expectedMax7 := usdc6ToStellar7 (amount6 p) in
  guardM ((0 <? delta) && (delta <=? expectedMax7))
    (Error None ("vault USDC delta " +:+ toString delta +:+ " not in (0, " +:+ toString expectedMax7 +:+ "]")) ;;
  proof ← depositProofArgs p nonceHex burnHash sac delta;
  rootA ← rootArgsOf p;
  receive ← invoke e vault (orElse (adminSecret p) secret) "receive_cctp_deposit"
              (depositArgs nonceHex sac (commitmentHex p) (encryptedNotePayloadHashHex p) (policyIdHex p) delta rootA proof) false;
  rootContract ← (match targetContract p with Some t => mret t | None => need e "COMMITMENT_TREE_CONTRACT" end);
  rootRes ← invoke e rootContract secret
              (orElse (rootMethod p) (match truthyOpt (targetContract p) with Some _ => "get_root" | None => "get_latest_root" end)) [] true;
  mret (mkResult burnHash (att_message att) (att_attestation att) nonceHex (mint_hash m) (toString (before m)) (toString (after m))
          (txHash receive) (unquote (returnValue receive)) (unquote (returnValue rootRes)) (toString delta)).

(** ** The check of a burn the user signed *)
(** [None] is a number that no finality equals: [NaN] or a fraction. *)
Definition expectedFinalityOf (e : EnvMap) (a : BurnArgs) : option Z :=
  match expectedFinality a with
  | Some f => f
  | None => match truthyOpt (lookup e "EXPECTED_CCTP_FINALITY_THRESHOLD") with
            | Some t => numberInt (Number t)
            | None => Some FINALITY_THRESHOLD_CONFIRMED
            end
  end.
Definition showFinality (f : option Z) : string := match f with Some z => toString z | None => "NaN" end.
(** The checks on the transaction and on its decoded arguments. *)
Definition checkTx (e : EnvMap) (a : BurnArgs) (tx : EvmTx) (status : option Z) : result unit :=
  if negb (status ==? Some 1) then Throw (Error None "burn tx reverted")
  else if negb (toLowerCase (tx_from tx) ==? toLowerCase (expectedSender a)) then Throw (Error None "burn sender != deposit user wallet")
  else if negb (toLowerCase (orElse (tx_to tx) "")
                ==? toLowerCase (orElse (lookup e "ARB_SEPOLIA_CCTP_TOKEN_MESSENGER") arbitrumSepoliaTokenMessenger)) then
    Throw (Error None "burn tx target != CCTP TokenMessenger")
  else Ok tt.
Definition checkBurn (e : EnvMap) (a : BurnArgs) (expMint expHook : string) (d : Burn) : result unit :=
  let usdc := toLowerCase (orElse (lookup e "ARB_SEPOLIA_USDC_ADDRESS") arbitrumSepoliaUsdc) in
  if negb (b_amount d =? expectedAmount6 a) then Throw (Error None "burn amount != deposit amount")
  else if negb (b_domain d =? stellarDomain) then Throw (Error None "burn destination domain != Stellar")
  else if negb (toLowerCase (b_mintRecipient d) ==? expMint) then Throw (Error None "burn mintRecipient != Stellar CCTP Forwarder")
  else if negb (toLowerCase (b_burnToken d) ==? usdc) then Throw (Error None "burn burnToken != expected USDC")
  else if negb (toLowerCase (b_caller d) ==? expMint) then Throw (Error None "burn destinationCaller != Stellar CCTP Forwarder")
  else if match expectedMaxFee6 a with Some m => m <? b_maxFee d | None => false end then
    Throw (Error None "burn maxFee exceeds prepared maxFee")
  else if negb (expectedFinalityOf e a ==? Some (b_finality d)) then
    Throw (Error None ("burn minFinalityThreshold " +:+ toString (b_finality d) +:+ " != expected " +:+ showFinality (expectedFinalityOf e a)))
  else if negb (toLowerCase (b_hook d) ==? expHook) then Throw (Error None "burn hookData forwardRecipient != ShadePool")
  else Ok tt.
Definition decodeBurn (data : string) : result Burn :=
  match parseBurn data with
  | Throw _ => Throw (Error None "burn tx is not depositForBurnWithHook")
  | Ok None => Throw (Error None "could not decode burn calldata")
  | Ok (Some d) => Ok d
  end.
Definition validateInboundBurnTx (e : EnvMap) (a : BurnArgs) : M Net BurnValidation :=
  let rpc := orElse (lookup e "ARB_SEPOLIA_RPC_URL") "https://sepolia-rollup.arbitrum.io/rpc" in
  tx ← view (fun k => getTransaction k rpc (burnTxHash a));
  receipt ← view (fun k => getReceipt k rpc (burnTxHash a));
  match tx, receipt with
  | Some tx, Some status =>
      liftR (checkTx e a tx status) ;;
      d ← liftR (decodeBurn (tx_data tx));
      mint ← liftR (stellarContractToBytes32 (orElse (lookup e "STELLAR_CCTP_FORWARDER_CONTRACT") stellarCctpForwarder));
      hook ← liftR (encodeStellarForwardHook (pool a));
      liftR (checkBurn e a (toLowerCase mint) (toLowerCase hook) d) ;;
      mret (mkValidation (burnTxHash a) (tx_from tx) (b_amount d) (b_domain d) (b_mintRecipient d) (b_caller d) (b_burnToken d)
              (b_maxFee d) (b_finality d) (b_hook d))
  | _, _ => failM "burn tx not found on Arbitrum"
  end.

(** ** Completing a burn the user signed *)
Definition runPostUserBurnCctpInbound (e : EnvMap) (p : PostUserBurnParams) : M Net InboundResult :=
  let forwarder := orElse (lookup e "STELLAR_CCTP_FORWARDER_CONTRACT") stellarCctpForwarder in
  sac ← need e "STELLAR_TESTNET_USDC_SAC_CONTRACT";
  secret ← need e "STELLAR_RELAYER_SECRET";
  att ← poll (apiBaseOf e) arbitrumSepoliaDomain (u_burnTxHash p);
  let nonceHex := keccak256 (att_message att) in
  m ← mintAndForward e sac forwarder (u_pool p) secret att;
  let delta := after m - before m in
  guardM (0 <? delta) (Error None "mint_and_forward produced no pool USDC delta") ;;
  match u_coin p with
  | None => failM "coin opening required to build DepositNoteMint proof (supply via prover path)"
  | Some c =>
      dep ← onHost (Proving.buildDepositProof c
             (depositBinding nonceHex (u_burnTxHash p) (u_amount6 p) delta sac (u_pool p) (u_payloadHashHex p) (u_policyIdHex p)
                (u_poolId p) (u_chainId p))
             (orElse (u_scratch p) ".scratch") "userburn");
      guardM (Proving.d_locallyVerified dep) (Error None "DepositNoteMint proof failed local verification") ;;
      receive ← invoke e (u_pool p) secret "receive_cctp_deposit"
                  (depositArgs nonceHex sac (u_commitmentHex p) (u_payloadHashHex p) (u_policyIdHex p) delta
                     ["--new_root"; bytesToCliHex (u_newRootHex p)] (proofArgs dep)) false;
      rootRes ← invoke e (u_pool p) secret "get_root" [] true;
      mret (mkResult (u_burnTxHash p) (att_message att) (att_attestation att) nonceHex (mint_hash m) (toString (before m)) (toString (after m))
              (txHash receive) (unquote (returnValue receive)) (unquote (returnValue rootRes)) (toString delta))
  end.

(** ** Theorems *)
(** The terms a burn transaction has to meet. *)
Record burnMeets (e : EnvMap) (a : BurnArgs) (mint hook : string) (tx : EvmTx) (d : Burn) : Prop := {
  bm_sender : toLowerCase (tx_from tx) = toLowerCase (expectedSender a);
  bm_target : toLowerCase (orElse (tx_to tx) "") = toLowerCase (orElse (lookup e "ARB_SEPOLIA_CCTP_TOKEN_MESSENGER") arbitrumSepoliaTokenMessenger);
  bm_amount : b_amount d = expectedAmount6 a;
  bm_domain : b_domain d = stellarDomain;
  bm_mint : toLowerCase (b_mintRecipient d) = toLowerCase mint;
  bm_token : toLowerCase (b_burnToken d) = toLowerCase (orElse (lookup e "ARB_SEPOLIA_USDC_ADDRESS") arbitrumSepoliaUsdc);
  bm_caller : toLowerCase (b_caller d) = toLowerCase mint;
  bm_fee : forall m, expectedMaxFee6 a = Some m -> b_maxFee d <= m;
  bm_finality : expectedFinalityOf e a = Some (b_finality d);
  bm_hook : toLowerCase (b_hook d) = toLowerCase hook }.
Definition validationOf (a : BurnArgs) (tx : EvmTx) (d : Burn) : BurnValidation :=
  mkValidation (burnTxHash a) (tx_from tx) (b_amount d) (b_domain d) (b_mintRecipient d) (b_caller d) (b_burnToken d) (b_maxFee d)
    (b_finality d) (b_hook d).
Lemma checkTx_iff e a tx st : checkTx e a tx st = Ok tt <-> st = Some 1 /\
  toLowerCase (tx_from tx) = toLowerCase (expectedSender a) /\
  toLowerCase (orElse (tx_to tx) "") = toLowerCase (orElse (lookup e "ARB_SEPOLIA_CCTP_TOKEN_MESSENGER") arbitrumSepoliaTokenMessenger).
Proof.
  unfold checkTx. repeat (case_bool_decide; cbn [negb]); naive_solver.
Qed.
Lemma checkBurn_iff e a mint hook tx d :
  toLowerCase (tx_from tx) = toLowerCase (expectedSender a) ->
  toLowerCase (orElse (tx_to tx) "") = toLowerCase (orElse (lookup e "ARB_SEPOLIA_CCTP_TOKEN_MESSENGER") arbitrumSepoliaTokenMessenger) ->
  checkBurn e a (toLowerCase mint) (toLowerCase hook) d = Ok tt <-> burnMeets e a mint hook tx d.
Proof.
  intros Hsnd Htgt. unfold checkBurn. split.
  - destruct (Z.eqb_spec (b_amount d) (expectedAmount6 a)); [|done]. destruct (Z.eqb_spec (b_domain d) stellarDomain); [|done]. cbn [negb].
    do 3 (case_bool_decide; cbn [negb]; [|done]).
    destruct (match expectedMaxFee6 a with Some _ => _ | None => _ end) eqn:Ef; [done|].
    do 2 (case_bool_decide; cbn [negb]; [|done]). intros _. split; try done.
    intros m Em. rewrite Em in Ef. by apply Z.ltb_ge in Ef.
  - intros [_ _ -> -> Hm Ht Hc Hf Hfin Hh]. rewrite !Z.eqb_refl, Hm, Ht, Hc, Hh, Hfin. rewrite !bool_decide_true by done. cbn [negb].
    destruct (expectedMaxFee6 a) as [m|]; [|done]. specialize (Hf m eq_refl). by rewrite (proj2 (Z.ltb_ge _ _)) by lia.
Qed.

(** The chain, asked twice, shows a transaction that succeeded and meets the
    terms. *)
Definition burned (e : EnvMap) (a : BurnArgs) (n : Net) (v : BurnValidation) : Prop :=
  let rpc := orElse (lookup e "ARB_SEPOLIA_RPC_URL") "https://sepolia-rollup.arbitrum.io/rpc" in
  exists tx d mint hook,
    getTransaction (tick (host n)) rpc (burnTxHash a) = Ok (Some tx) /\
    getReceipt (tick (host n) + 1) rpc (burnTxHash a) = Ok (Some (Some 1)) /\
    parseBurn (tx_data tx) = Ok (Some d) /\
    stellarContractToBytes32 (orElse (lookup e "STELLAR_CCTP_FORWARDER_CONTRACT") stellarCctpForwarder) = Ok mint /\
    encodeStellarForwardHook (pool a) = Ok hook /\ burnMeets e a mint hook tx d /\ v = validationOf a tx d.
Lemma validate_run e a n v :
  sent (validateInboundBurnTx e a n).2 = sent n /\ ((validateInboundBurnTx e a n).1 = Ok v <-> burned e a n v).
Proof.
  unfold burned. cbv zeta. unfold validateInboundBurnTx, view, onHost, nextTick, mbind, M_bind, liftR, failM, throwM. destruct n as [[fs k] sn]. simpl.
  destruct (getTransaction k _ _) as [[tx|]|e1]; [|destruct (getReceipt _ _ _) as [r|]; (split; [done|naive_solver])|split; [done|naive_solver]].
  destruct (getReceipt (k + 1) _ _) as [[st|]|e2]; [|split; [done|naive_solver]..].
  destruct (checkTx e a tx st) as [[]|e3] eqn:Et.
  2:{ split; [done|]. split; [done|]. intros (tx' & d & mint & hook & [= <-] & [= ->] & _ & _ & _ & [Hs Ht _ _ _ _ _ _ _ _] & _).
      assert (checkTx e a tx (Some 1) = Ok tt) as E by (by apply checkTx_iff). congruence. }
  apply checkTx_iff in Et as (-> & Hs & Ht). unfold decodeBurn. destruct (parseBurn (tx_data tx)) as [[d|]|e4] eqn:Ed;
    [|split; [done|naive_solver congruence]..].
  destruct (stellarContractToBytes32 _) as [mint|e5] eqn:Em; [|split; [done|naive_solver congruence]].
  destruct (encodeStellarForwardHook (pool a)) as [hook|e6] eqn:Eh; [|split; [done|naive_solver congruence]].
  pose proof (checkBurn_iff e a mint hook tx d Hs Ht) as Hiff. destruct (checkBurn _ _ _ _ d) as [[]|e7] eqn:Eb.
  - split; [done|]. split.
    + intros [= <-]. exists tx, d, mint, hook. split_and!; try done. by apply Hiff.
    + intros (tx' & d' & mint' & hook' & [= <-] & _ & Ed' & [= <-] & [= <-] & _ & ->). rewrite Ed in Ed'. by injection Ed' as <-.
  - split; [done|]. split; [done|]. intros (tx' & d' & mint' & hook' & [= <-] & _ & Ed' & [= <-] & [= <-] & Hm & ->).
    rewrite Ed in Ed'. injection Ed' as <-. apply Hiff in Hm. congruence.
Qed.

(** C6. The check of a user's burn is exact: it accepts precisely the
    transactions that succeeded, were sent by the depositing wallet to the CCTP
    messenger, decode as [depositForBurnWithHook], and burn the deposit's
    amount of USDC for the Stellar domain, minted and callable by the forwarder
    only, with the prepared fee bound and finality, and a hook that forwards to
    this pool; it then returns what the transaction says, which is
    determined, and it sends nothing. *)
Theorem burn_check_exact e a n :
  sent (validateInboundBurnTx e a n).2 = sent n /\
  (forall v, (validateInboundBurnTx e a n).1 = Ok v <-> burned e a n v) /\
  (forall v v', burned e a n v -> burned e a n v' -> v = v').
Proof.
  split; [exact (proj1 (validate_run e a n (mkValidation "" "" 0 0 "" "" "" 0 0 "")))|]. split; [intros v; apply validate_run|].
  intros v v' Hv Hv'. apply validate_run in Hv, Hv'. congruence.
Qed.

(** ** What a completed deposit has gone through *)
Lemma quiet_need e k : quiet (need e k).
Proof. unfold need. destruct (truthyOpt _); auto with quiet. Qed.
Lemma quiet_sacBalance e sac c s : quiet (sacBalance e sac c s).
Proof.
  unfold sacBalance. generalize 5%nat. intros n. induction n as [|n IH]; cbn [sacBalanceLoop]; [apply quiet_ret|].
  apply quiet_bind; [apply quiet_onHost|]. intros res. cbv zeta. destruct (truthy _); auto with quiet.
Qed.
Lemma quiet_awaitMint n e sac c s b a : quiet (awaitMint n e sac c s b a).
Proof.
  revert a. induction n as [|n IH]; intros a; cbn [awaitMint]; [apply quiet_ret|]. destruct (a <=? b); [|apply quiet_ret].
  apply quiet_bind; [apply quiet_onHost|intros _]. apply quiet_bind; [apply quiet_sacBalance|intros a'; apply IH].
Qed.
Lemma quiet_poll b d tx : quiet (poll b d tx).
Proof. intros s n Hn. unfold poll. destruct (pollAttestation _ _ _ _ _ _ _) as [[[a|]|] t]; exact Hn. Qed.
Lemma quiet_mint e sac f t s att : quiet (mintAndForward e sac f t s att).
Proof.
  unfold mintAndForward. apply quiet_bind; [apply quiet_sacBalance|intros b]. apply quiet_bind; [apply quiet_onHost|intros m].
  apply quiet_bind; [apply quiet_sacBalance|intros a]. apply quiet_bind; [apply quiet_awaitMint|intros a'; apply quiet_ret].
Qed.
Lemma quiet_depositProof p nh bh sac a : quiet (depositProofArgs p nh bh sac a).
Proof. unfold depositProofArgs. destruct (truthyOpt _); [|apply quiet_ret]. destruct (coin p); auto with quiet. Qed.
Lemma quiet_rootArgs p : quiet (rootArgsOf p).
Proof. unfold rootArgsOf. destruct (truthyOpt _); [|apply quiet_ret]. destruct (newRootHex p); auto with quiet. Qed.
(** The calls of the steps are counted up. *)
Lemma reached_need k e x : preserves (reached k) (need e x).
Proof. unfold need, failM. destruct (truthyOpt _); auto with preserve. Qed.
Lemma reached_invoke k e c s m args ro : preserves (reached k) (invoke e c s m args ro).
Proof. apply reached_onHost, since_invoke. Qed.
Lemma reached_sacBalance k e sac c s : preserves (reached k) (sacBalance e sac c s).
Proof.
  unfold sacBalance. generalize 5%nat. intros n. induction n as [|n IH]; cbn [sacBalanceLoop]; [auto with preserve|].
  apply preserves_bind; [apply reached_invoke|]. intros res. cbv zeta. destruct (truthy _); auto with preserve.
Qed.
Lemma reached_awaitMint k n e sac c s b a : preserves (reached k) (awaitMint n e sac c s b a).
Proof.
  revert a. induction n as [|n IH]; intros a; cbn [awaitMint]; [auto with preserve|]. destruct (a <=? b); [|auto with preserve].
  apply preserves_bind; [auto with ticks|intros _]. apply preserves_bind; [apply reached_sacBalance|intros a'; apply IH].
Qed.
Lemma reached_poll k b d tx : preserves (reached k) (poll b d tx).
Proof.
  intros n Hn. unfold poll, pollAttestation. unfold mbind at 1, M_bind at 1. cbn [now].
  pose proof (pollLoop_calls pollFuel b d tx (orElse None 8000) (orElse None 1200000) (clock (tick (host n)) + 0) (mkTimed (tick (host n) + 1) 0)) as Hc.
  unfold reached, since in *. cbn [call paused] in *. destruct (pollLoop _ _ _ _ _ _ _ _) as [[[a|]|] t]; cbn in *; lia.
Qed.
Lemma reached_burnUsdc k e p f v : preserves (reached k) (burnUsdc e p f v).
Proof.
  unfold burnUsdc, ensureAllowance. cbv zeta. auto 12 with preserve ticks.
Qed.
Lemma reached_depositProof k p nh bh sac a : preserves (reached k) (depositProofArgs p nh bh sac a).
Proof.
  unfold depositProofArgs. destruct (truthyOpt _); [|auto with preserve]. destruct (coin p); [|unfold failM; auto with preserve].
  apply preserves_bind; [apply reached_onHost, Proving.since_depositProof|auto with preserve].
Qed.
Lemma reached_rootArgs k p : preserves (reached k) (rootArgsOf p).
Proof. unfold rootArgsOf. destruct (truthyOpt _); [|auto with preserve]. destruct (newRootHex p); [|unfold failM]; auto with preserve. Qed.
#[local] Hint Resolve Proving.since_depositProof reached_need reached_invoke reached_sacBalance reached_awaitMint reached_poll reached_burnUsdc reached_depositProof
  reached_rootArgs : ticks.

(** An attestation that polling returns is complete, and one of the calls
    answered it for the burn. *)
Definition attested (base : string) (dom : Z) (tx : string) (lo hi : Z) (a : CctpAttestation) : Prop :=
  (att_status a = "complete" /\ att_attestation a ≠ "" /\ att_attestation a ≠ "0x" /\ att_attestation a ≠ "PENDING") /\
  exists i, lo <= i < hi /\ irisAnswered i base dom tx a.
Lemma attested_within base dom tx lo hi lo' hi' a : lo' <= lo -> hi <= hi' -> attested base dom tx lo hi a -> attested base dom tx lo' hi' a.
Proof. intros Hl Hh [Ha (i & Hi & Hx)]. split; [done|]. exists i. split; [lia|done]. Qed.
Lemma pollLoop_attested fuel base dom tx interval timeoutMs start t a t' :
  pollLoop fuel base dom tx interval timeoutMs start t = (Ok (Some a), t') -> attested base dom tx (call t) (call t') a.
Proof.
  revert t. induction fuel as [|fuel IH]; intros t; cbn [pollLoop]; [done|].
  unfold mbind, M_bind, requested. destruct (fetchAttestationByTx (call t) base dom tx) as [att|e] eqn:Eatt; [|done].
  destruct (complete att) eqn:Ec.
  - intros [= -> <-]. split; [by apply complete_spelled|]. exists (call t). split; [cbn; lia|by apply fetchAttestationByTx_Some].
  - cbn. destruct (_ <? _); [done|]. intros E%IH. cbn in E. eapply attested_within; [..|exact E]; lia.
Qed.
Lemma poll_attested base dom tx n a n' :
  poll base dom tx n = (Ok a, n') -> attested base dom tx (tick (host n)) (tick (host n')) a.
Proof.
  unfold poll, pollAttestation. generalize pollFuel. intros fuel. unfold mbind at 1, M_bind at 1. cbn [now].
  destruct (pollLoop _ _ _ _ _ _ _ _) as [[[b|]|e] t] eqn:E; try done. intros [= <- <-]. apply pollLoop_attested in E.
  cbn in E |- *. eapply attested_within; [..|exact E]; lia.
Qed.
(** On a clock that does not go back polling has fuel enough. *)
Lemma poll_enough base dom tx n : monotone ->
  (pollAttestation pollFuel base dom tx None None (mkTimed (tick (host n)) 0)).1 ≠ Ok None.
Proof.
  intros Hm. destruct (pollAttestation pollFuel base dom tx None None _) as [r t] eqn:E.
  apply poll_ends in E; [|done|cbn; lia|cbn; lia|vm_compute; discriminate]. cbn. intros ->. exact E.
Qed.

Definition operatorKey (e : EnvMap) : string := orElse (lookup e "ARB_SEPOLIA_PRIVATE_KEY") (orElse (lookup e "ETH_PRIVATE_KEY") "").
Lemma burnUsdc_Ok e p f v n h n' : burnUsdc e p f v n = (Ok h, n') ->
  exists approvals b messenger, sent n' = sent n ++ approvals ++ [(operatorKey e, DepositForBurn messenger b)] /\
    (approvals = [] \/ exists usdc, approvals = [(operatorKey e, Approve usdc messenger (amount6 p * 100))]) /\
    burnRequest p f v (orElse (lookup e "ARB_SEPOLIA_USDC_ADDRESS") arbitrumSepoliaUsdc) = Ok b.
Proof.
  unfold burnUsdc. cbv zeta. fold (operatorKey e). intros Hr. lift_ok Hr as owner Eo. bind_ok Hr as bal n1 E1. apply view_Ok in E1 as (S1 & _).
  bind_ok Hr as u n2 E2. apply guardM_Ok in E2 as [_ ->]. bind_ok Hr as u3 n3 E3. lift_ok Hr as b Eb.
  unfold sendTx in Hr. bind_ok Hr as k n4 E4. apply (quiet_run _ _ _ _ (quiet_onHost _)) in E4. bind_ok Hr as u5 n5 E5.
  injection E5 as _ <-. apply liftR_Ok in Hr as [_ ->]. simpl. rewrite E4. unfold ensureAllowance in E3. bind_ok E3 as al n6 E6.
  apply view_Ok in E6 as (S6 & _). destruct (al <? amount6 p).
  - bind_ok E3 as h7 n7 E7. apply ret_Ok in E3 as [_ ->]. unfold sendTx in E7. bind_ok E7 as k8 n8 E8.
    apply (quiet_run _ _ _ _ (quiet_onHost _)) in E8. bind_ok E7 as u9 n9 E9. injection E9 as _ <-. apply liftR_Ok in E7 as [_ ->]. simpl.
    rewrite E8, S6, S1. eexists [_], b, _. rewrite <- app_assoc. split; [done|]. split; [right; by eexists|done].
  - apply ret_Ok in E3 as [_ ->]. rewrite S6, S1. eexists [], b, _. split; [done|]. split; [by left|done].
Qed.

(** The process numbered [i], which calls a contract with the Stellar CLI. *)
Definition cliRun (e : EnvMap) (contract secret method : string) (args : list string) (i : Z) : Exit :=
  spawn i "stellar"
    (["contract"; "invoke"; "--id"; contract; "--source-account"; secret; "--rpc-url"; orElse (lookup e "STELLAR_RPC_URL") rpcUrl;
      "--network-passphrase"; orElse (lookup e "STELLAR_NETWORK_PASSPHRASE") networkPassphrase; "--"; method] ++ args) cargoPath.
(** It succeeded and printed the transaction hash [h]. *)
Definition printed (x : Exit) (h : string) : Prop := exit_status x = Some 0 /\ isTxHash h /\ includes (output x) h = true.
Lemma invoke_Ok e c s m args ro n r n' : invoke e c s m args ro n = (Ok r, n') ->
  exists i, tick (host n) <= i < tick (host n') /\ exit_status (cliRun e c s m args i) = Some 0 /\
    returnValue r = trim (exit_stdout (cliRun e c s m args i)) /\ (ro = false -> printed (cliRun e c s m args i) (txHash r)).
Proof.
  unfold invoke, onHost. destruct (sorobanInvoke _ _) as [res h'] eqn:E. intros [= -> <-].
  apply invoke_returns in E as (_ & i & Hi & Hz & Hv & Hh). exists i. split; [done|]. split; [done|]. split; [done|].
  intros ->. destruct (parseSorobanTx _) as [t|] eqn:Ep in Hh; [|by destruct Hh]. destruct Hh as [-> Ht].
  split; [done|]. split; [done|]. by apply parseSorobanTx_finds in Ep as [].
Qed.
(** A balance that some run between [lo] and [hi] answered, or 0 after five
    successful runs that answered nothing. *)
Definition balanceRun (e : EnvMap) (sac ofContract secret : string) : Z -> Exit := cliRun e sac secret "balance" ["--id"; ofContract].
Definition answeredText (x : Exit) : string := unquote (trim (exit_stdout x)).
Definition balanceSeen (e : EnvMap) (sac ofContract secret : string) (lo hi b : Z) : Prop :=
  (exists i, lo <= i < hi /\ exit_status (balanceRun e sac ofContract secret i) = Some 0 /\
     answeredText (balanceRun e sac ofContract secret i) ≠ "" /\ BigInt (answeredText (balanceRun e sac ofContract secret i)) = Ok b) \/
  b = 0 /\ exists idle, length idle = 5%nat /\ NoDup idle /\
     Forall (fun i => lo <= i < hi /\ exit_status (balanceRun e sac ofContract secret i) = Some 0 /\
                      answeredText (balanceRun e sac ofContract secret i) = "") idle.
Lemma sacBalance_Ok e sac c s n b n' : sacBalance e sac c s n = (Ok b, n') ->
  balanceSeen e sac c s (tick (host n)) (tick (host n')) b.
Proof.
  unfold sacBalance, balanceSeen. generalize 5%nat. intros k. revert n. induction k as [|k IH]; intros n; cbn [sacBalanceLoop].
  - intros [-> ->]%ret_Ok. right. split; [done|]. exists []. split; [done|]. split; [constructor|done].
  - intros Hr. bind_ok Hr as res n1 E1. apply invoke_Ok in E1 as (i & Hi & E0 & Ev & _). cbv zeta in Hr. rewrite Ev in Hr.
    change (unquote (trim _)) with (answeredText (balanceRun e sac c s i)) in Hr. destruct (truthy (answeredText _)) eqn:Et.
    + apply liftR_Ok in Hr as [Hb ->]. left. exists i. split; [done|]. split; [done|]. split; [by intros Hn; rewrite Hn in Et|done].
    + assert (tick (host n1) <= tick (host n')) as Hle.
      { refine (reached_run (sacBalanceLoop k e sac c s) _ _ _ _ Hr). intros q. clear. induction k as [|k IH]; cbn [sacBalanceLoop]; [auto with preserve|].
        apply preserves_bind; [apply reached_invoke|]. intros res. cbv zeta. destruct (truthy _); auto with preserve. }
      apply IH in Hr as [(j & Hj & Hx)|(-> & idle & Hl & Hnd & Hall)].
      * left. exists j. split; [lia|done].
      * right. split; [done|]. exists (i :: idle). split; [simpl; lia|]. unfold truthy in Et. apply negb_false_iff, bool_decide_eq_true in Et.
        split; [|constructor; [split; [lia|done]|eapply Forall_impl; [exact Hall|]; intros j [Hj Hx]; split; [lia|done]]].
        constructor; [|done]. intros Hin. rewrite Forall_forall in Hall. apply Hall in Hin as [Hin _]. lia.
Qed.
Lemma balanceSeen_earlier e sac c s lo lo' hi b : lo' <= lo -> balanceSeen e sac c s lo hi b -> balanceSeen e sac c s lo' hi b.
Proof.
  intros Hh [(i & Hi & Hx)|(-> & idle & Hl & Hnd & Hall)]; [left; exists i; split; [lia|done]|right].
  split; [done|]. exists idle. split; [done|]. split; [done|]. eapply Forall_impl; [exact Hall|]. intros j [Hj Hx]. split; [lia|done].
Qed.
Lemma awaitMint_Ok k e sac c s b a n a' n' lo : lo <= tick (host n) -> balanceSeen e sac c s lo (tick (host n)) a ->
  awaitMint k e sac c s b a n = (Ok a', n') -> balanceSeen e sac c s lo (tick (host n')) a'.
Proof.
  revert a n. induction k as [|k IH]; intros a n Hlo Ha; cbn [awaitMint]; [by intros [-> ->]%ret_Ok|].
  destruct (a <=? b); [|by intros [-> ->]%ret_Ok]. intros Hr. bind_ok Hr as u n1 E1. injection E1 as _ <-. bind_ok Hr as a1 n2 E2.
  pose proof (reached_run _ _ _ _ (fun q => reached_sacBalance q _ _ _ _) E2) as Hle. cbn in Hle.
  apply sacBalance_Ok in E2. cbn in E2. refine (IH _ _ _ _ Hr); [lia|]. eapply balanceSeen_earlier; [|exact E2]. lia.
Qed.

(** What a completed deposit has gone through between the calls [start] and
    [stop], in this order: the balance [b] of [target] is read, the message of
    the burn's attestation is minted, the balance [b + delta] is read, and
    [delta] is registered with the note's commitment. *)
Definition accounted (e : EnvMap) (sac forwarder target secret admin commitment payloadHash policy : string)
    (start stop : Z) (r : InboundResult) (delta : Z) : Prop :=
  exists att b k0 k1 i k2 k3 j rootArgs proofArgs,
    attested (apiBaseOf e) 3 (r_burnTxHash r) start k0 att /\
    r_message r = att_message att /\ r_attestation r = att_attestation att /\ cctpNonceHex r = keccak256 (att_message att) /\
    start <= k0 <= k1 /\ k1 <= i < k2 /\ k2 <= k3 <= j /\ j < stop /\
    balanceSeen e sac target secret k0 k1 b /\
    printed (cliRun e forwarder secret "mint_and_forward"
      ["--message"; bytesToCliHex (att_message att); "--attestation"; bytesToCliHex (att_attestation att)] i) (mintForwardTxHash r) /\
    balanceSeen e sac target secret k2 k3 (b + delta) /\
    0 < delta /\ vaultUsdcBefore r = toString b /\ vaultUsdcAfter r = toString (b + delta) /\ amount7 r = toString delta /\
    printed (cliRun e target admin "receive_cctp_deposit"
      (["--source_domain"; "3"; "--cctp_nonce"; bytesToCliHex (keccak256 (att_message att)); "--asset"; sac;
        "--amount"; toString delta; "--commitment"; bytesToCliHex commitment] ++ rootArgs ++
       ["--encrypted_note_payload_hash"; bytesToCliHex payloadHash; "--policy_id"; bytesToCliHex policy] ++ proofArgs) j)
      (receiveDepositTxHash r).
Definition minted (e : EnvMap) (sac forwarder target secret : string) (att : CctpAttestation) (m : Minted) (lo hi : Z) : Prop :=
  exists k1 i k2, lo <= k1 /\ k1 <= i < k2 /\ k2 <= hi /\ balanceSeen e sac target secret lo k1 (before m) /\
    printed (cliRun e forwarder secret "mint_and_forward"
      ["--message"; bytesToCliHex (att_message att); "--attestation"; bytesToCliHex (att_attestation att)] i) (mint_hash m) /\
    balanceSeen e sac target secret k2 hi (after m).
Lemma mint_Ok e sac f t s att n m n' : mintAndForward e sac f t s att n = (Ok m, n') ->
  minted e sac f t s att m (tick (host n)) (tick (host n')).
Proof.
  unfold mintAndForward. intros Hr. bind_ok Hr as b n1 E1. pose proof (reached_run _ _ _ _ (fun q => reached_sacBalance q _ _ _ _) E1) as T1.
  bind_ok Hr as r n2 E2. apply invoke_Ok in E2 as (i & Hi & _ & _ & Hp). bind_ok Hr as a n3 E3.
  pose proof (reached_run _ _ _ _ (fun q => reached_sacBalance q _ _ _ _) E3) as T3. bind_ok Hr as a' n4 E4.
  pose proof (reached_run _ _ _ _ (fun q => reached_awaitMint q _ _ _ _ _ _ _) E4) as T4. apply ret_Ok in Hr as [-> ->].
  apply sacBalance_Ok in E1. apply sacBalance_Ok in E3. apply (awaitMint_Ok _ _ _ _ _ _ _ _ _ _ _ T3 E3) in E4.
  exists (tick (host n1)), i, (tick (host n2)). split; [lia|]. split; [lia|]. split; [lia|]. split; [done|]. split; [by apply Hp|done].
Qed.
Lemma burnRequest_Ok p f v u b : burnRequest p f v u = Ok b ->
  b_amount b = amount6 p /\ b_domain b = stellarDomain /\ stellarContractToBytes32 f = Ok (b_mintRecipient b) /\
  b_caller b = b_mintRecipient b /\ encodeStellarForwardHook v = Ok (b_hook b) /\ b_burnToken b = u.
Proof.
  unfold burnRequest. destruct (stellarContractToBytes32 f) as [m|]; [|done]. cbn. destruct (encodeStellarForwardHook v) as [h|]; [|done].
  cbn. by intros [= <-].
Qed.

Definition operatorDeposit (e : EnvMap) (p : InboundParams) (n n' : Net) (r : InboundResult) : Prop :=
  exists delta approvals messenger b forwarder target sac secret,
    lookup e "STELLAR_CCTP_FORWARDER_CONTRACT" = Some forwarder /\ lookup e "STELLAR_TESTNET_USDC_SAC_CONTRACT" = Some sac /\
    lookup e "STELLAR_RELAYER_SECRET" = Some secret /\
    match targetContract p with Some t => target = t | None => lookup e "SHADE_VAULT_CONTRACT" = Some target end /\
    sent n' = sent n ++ approvals ++ [(operatorKey e, DepositForBurn messenger b)] /\
    (approvals = [] \/ exists usdc, approvals = [(operatorKey e, Approve usdc messenger (amount6 p * 100))]) /\
    b_amount b = amount6 p /\ b_domain b = stellarDomain /\ b_caller b = b_mintRecipient b /\
    stellarContractToBytes32 forwarder = Ok (b_mintRecipient b) /\ encodeStellarForwardHook target = Ok (b_hook b) /\
    accounted e sac forwarder target secret (orElse (adminSecret p) secret) (commitmentHex p) (encryptedNotePayloadHashHex p)
      (policyIdHex p) (tick (host n)) (tick (host n')) r delta /\ delta <= amount6 p * 10 /\
    (truthyOpt (targetContract p) ≠ None -> coin p ≠ None /\ newRootHex p ≠ None).
Definition userDeposit (e : EnvMap) (p : PostUserBurnParams) (n n' : Net) (r : InboundResult) : Prop :=
  sent n' = sent n /\ u_coin p ≠ None /\ r_burnTxHash r = u_burnTxHash p /\
  exists delta sac secret,
    lookup e "STELLAR_TESTNET_USDC_SAC_CONTRACT" = Some sac /\ lookup e "STELLAR_RELAYER_SECRET" = Some secret /\
    accounted e sac (orElse (lookup e "STELLAR_CCTP_FORWARDER_CONTRACT") stellarCctpForwarder) (u_pool p) secret secret
      (u_commitmentHex p) (u_payloadHashHex p) (u_policyIdHex p) (tick (host n)) (tick (host n')) r delta.
Lemma need_Ok e k n v n' : need e k n = (Ok v, n') -> lookup e k = Some v /\ n' = n.
Proof.
  unfold need, truthyOpt. destruct (lookup e k) as [f|]; [|done]. destruct (truthy f); [|done]. by intros [-> ->]%ret_Ok.
Qed.
Lemma targetOr_Ok e t k n v n' : (match t with Some t => mret t | None => need e k end) n = (Ok v, n') ->
  match t with Some t => v = t | None => lookup e k = Some v end /\ n' = n.
Proof. destruct t as [t|]; [by intros [-> ->]%ret_Ok|apply need_Ok]. Qed.
Lemma shielded_needs p nh bh sac a n1 n2 n3 n4 pr ra :
  depositProofArgs p nh bh sac a n1 = (Ok pr, n2) -> rootArgsOf p n3 = (Ok ra, n4) ->
  truthyOpt (targetContract p) ≠ None -> coin p ≠ None /\ newRootHex p ≠ None.
Proof.
  unfold depositProofArgs, rootArgsOf. destruct (truthyOpt (targetContract p)); [|done].
  destruct (coin p); [|done]. by destruct (newRootHex p).
Qed.
Lemma operator_run e p n r n' : runCctpInbound e p n = (Ok r, n') -> operatorDeposit e p n n' r.
Proof.
  unfold runCctpInbound. intros Hr. bind_ok Hr as u0 n0 E0. apply guardM_Ok in E0 as [_ ->]. bind_ok Hr as fwd n1 E1.
  apply need_Ok in E1 as [Lf ->]. bind_ok Hr as vault n2 E2. apply targetOr_Ok in E2 as [Lv ->].
  bind_ok Hr as sac n3 E3. apply need_Ok in E3 as [Ls ->]. bind_ok Hr as secret n4 E4. apply need_Ok in E4 as [Lk ->].
  bind_ok Hr as bh n5 E5. ticked E5 as T5.
  apply burnUsdc_Ok in E5 as (ap & b & ms & S5 & Hap & Hb). bind_ok Hr as att n6 E6.
  pose proof (quiet_run _ _ _ _ (quiet_poll _ _ _) E6) as S6. ticked E6 as T6.
  apply poll_attested in E6. cbv zeta in Hr. bind_ok Hr as m n7 E7.
  pose proof (quiet_run _ _ _ _ (quiet_mint _ _ _ _ _ _) E7) as S7. apply mint_Ok in E7 as (k1 & i & k2 & Hk1 & Hi & Hk2 & B1 & P1 & B2).
  bind_ok Hr as u8 n8 E8. apply guardM_Ok in E8 as [[Hd1%Z.ltb_lt Hd2%Z.leb_le]%andb_true_iff ->]. bind_ok Hr as proof n9 E9.
  pose proof (quiet_run _ _ _ _ (quiet_depositProof _ _ _ _ _) E9) as S9. ticked E9 as T9.
  bind_ok Hr as rootA n10 E10. pose proof (shielded_needs _ _ _ _ _ _ _ _ _ _ _ E9 E10) as Hsh.
  pose proof (quiet_run _ _ _ _ (quiet_rootArgs _) E10) as S10. ticked E10 as T10.
  bind_ok Hr as rc n11 E11. pose proof (quiet_run _ _ _ _ (quiet_onHost _) E11) as S11. apply invoke_Ok in E11 as (j & Hj & _ & _ & P2).
  bind_ok Hr as rcon n12 E12. apply targetOr_Ok in E12 as [_ ->].
  bind_ok Hr as rr n13 E13. pose proof (quiet_run _ _ _ _ (quiet_onHost _) E13) as S13. apply invoke_Ok in E13 as (j' & Hj' & _).
  apply ret_Ok in Hr as [-> ->]. apply burnRequest_Ok in Hb as (Hb1 & Hb2 & Hb3 & Hb4 & Hb5 & _).
  exists (after m - before m), ap, ms, b, fwd, vault, sac, secret. split; [done|]. split; [done|]. split; [done|]. split; [done|].
  split; [congruence|]. do 5 (split; [done|]). split; [done|]. split; [|done].
  exists att, (before m), (tick (host n6)), k1, i, k2, (tick (host n7)), j, rootA, proof.
  replace (before m + (after m - before m)) with (after m) by lia. split; [eapply attested_within; [..|exact E6]; lia|].
  do 3 (split; [done|]). do 4 (split; [lia|]). do 3 (split; [done|]). do 4 (split; [done|]). by apply P2.
Qed.
Lemma user_run e p n r n' : runPostUserBurnCctpInbound e p n = (Ok r, n') -> userDeposit e p n n' r.
Proof.
  unfold runPostUserBurnCctpInbound. cbv zeta. intros Hr. bind_ok Hr as sac n1 E1. apply need_Ok in E1 as [Ls ->].
  bind_ok Hr as secret n2 E2. apply need_Ok in E2 as [Lk ->]. bind_ok Hr as att n3 E3.
  pose proof (quiet_run _ _ _ _ (quiet_poll _ _ _) E3) as S3. ticked E3 as T3.
  apply poll_attested in E3. bind_ok Hr as m n4 E4. pose proof (quiet_run _ _ _ _ (quiet_mint _ _ _ _ _ _) E4) as S4.
  apply mint_Ok in E4 as (k1 & i & k2 & Hk1 & Hi & Hk2 & B1 & P1 & B2). bind_ok Hr as u5 n5 E5.
  apply guardM_Ok in E5 as [Hd%Z.ltb_lt ->]. unfold userDeposit. destruct (u_coin p) as [c|]; [|done]. bind_ok Hr as dep n6 E6.
  pose proof (quiet_run _ _ _ _ (quiet_onHost _) E6) as S6. ticked E6 as T6.
  bind_ok Hr as u7 n7 E7. apply guardM_Ok in E7 as [_ ->].
  bind_ok Hr as rc n8 E8. pose proof (quiet_run _ _ _ _ (quiet_onHost _) E8) as S8. apply invoke_Ok in E8 as (j & Hj & _ & _ & P2).
  bind_ok Hr as rr n9 E9. pose proof (quiet_run _ _ _ _ (quiet_onHost _) E9) as S9. apply invoke_Ok in E9 as (j' & Hj' & _).
  apply ret_Ok in Hr as [-> ->]. split; [congruence|]. split; [done|]. split; [done|].
  exists (after m - before m), sac, secret. split; [done|]. split; [done|].
  exists att, (before m), (tick (host n3)), k1, i, k2, (tick (host n4)), j, ["--new_root"; bytesToCliHex (u_newRootHex p)], (proofArgs dep).
  replace (before m + (after m - before m)) with (after m) by lia. split; [done|].
  do 3 (split; [done|]). do 4 (split; [lia|]). do 3 (split; [done|]). do 4 (split; [done|]). by apply P2.
Qed.

(** C8. Deposits are accounted by what arrived.  A completed deposit has read
    the target's balance, minted the message of a complete attestation that
    the service answered for its burn, read the balance again, and then called
    [receive_cctp_deposit] on the target with exactly the positive growth as
    [--amount], with the note's commitment and the hash of that message as the
    nonce; the hashes it returns were printed by those calls.  A completed
    operator deposit submitted exactly one burn, of the deposit's amount,
    mintable and callable by the forwarder only and forwarding to the target,
    after at most one approval, and the growth is at most the amount burned; a
    completed user deposit submitted nothing on the EVM side and needs the
    note's opening, as does an operator's deposit to a pool. *)
Theorem deposit_accounting e n r n' :
  (forall p, runCctpInbound e p n = (Ok r, n') -> operatorDeposit e p n n' r) /\
  (forall p, runPostUserBurnCctpInbound e p n = (Ok r, n') -> userDeposit e p n n' r).
Proof. split; intros p; [apply operator_run|apply user_run]. Qed.
End Inbound.

(** ** Witnesses *)
Definition toyStrKey : StrKey := {| decodeContract s := Some s; decodePublicKey s := Some s |}.
Definition toyIris : Fetch := fun k _ _ _ =>
  Ok (200, JObj [("messages", JArr [JObj [("status", JStr "complete"); ("message", JStr "0xm"); ("attestation", JStr "0xa")]])]).
(** The pool's balance is 0 before the mint and 50 after it. *)
Definition toyChain : Os := {|
  cwd := "/"; clock k := 100 * k; execFile k cmd args fs := (Ok "OK!", fs);
  spawn k c a p := mkExit (Some 0) (if bool_decide ("balance" ∈ a) then (if k <? 3 then "0" else "50") else "7")
                     ("Transaction hash is " +:+ repeatString 64 "b"%char) |}.
Definition toyOpening : string := stringify (JObj [("coin", JObj [("value", JStr "50"); ("label", JStr "1"); ("nullifier", JStr "2"); ("secret", JStr "3")])]).
Definition toySha : Sha256 := fun _ => repeatString 64 "c"%char.
Definition toyMap : EnvMap := [("STELLAR_TESTNET_USDC_SAC_CONTRACT", "CUSDC"); ("STELLAR_RELAYER_SECRET", "SRELAYER")].
Definition toyHex : string := "0x" +:+ repeatString 64 "1"%char.
Definition toyKeccak : Evm := {| walletAddress k := Ok k; nativeBalance k r a := Ok 1; balanceOf k r t o := Ok 1000; decimalsOf k r t := Ok 6;
  allowanceOf k r t o s := Ok 0; submit k r key t := Ok "0xtx";
  Evm.getTransaction k r h := Ok (Some (mkEvmTx "0xuser" (Some arbitrumSepoliaTokenMessenger) "0xdata"));
  getReceipt k r h := Ok (Some (Some 1));
  parseBurn d := Ok (Some (mkBurn 5 27 ("0x" +:+ hexEncode stellarCctpForwarder) arbitrumSepoliaUsdc ("0x" +:+ hexEncode stellarCctpForwarder) 1 1000
    (match @encodeStellarForwardHook toyStrKey "CPOOL" with Ok h => h | Throw _ => "" end)));
  formatUnits v d := toString v; keccak256 s := toyHex |}.
Definition toyPost : PostUserBurnParams := mkPost "0xburn" "CPOOL" 5 toyHex toyHex toyHex toyHex
  (Some (Proving.mkCoin "/c.json" toyHex "1" "50" "1")) None None None.
Lemma deposit_accounting_witness : exists r n',
  @runPostUserBurnCctpInbound toyChain (fun _ => None) toySha toyIris toyKeccak toyMap toyPost (mkNet (mkHost {[ "/c.json" := toyOpening ]} 0) [])
    = (Ok r, n') /\ amount7 r = "50" /\ @userDeposit toyChain (fun _ => None) toyIris toyKeccak toyMap toyPost (mkNet (mkHost {[ "/c.json" := toyOpening ]} 0) []) n' r.
Proof.
  eexists _, _. split; [vm_compute; reflexivity|]. split; [reflexivity|].
  apply (@deposit_accounting toyChain (fun _ => None) toySha toyStrKey toyIris toyKeccak toyMap). vm_compute. reflexivity.
Defined.
Lemma burn_check_exact_witness : 
  let a := mkBurnArgs "0xburn" "0xUSER" 5 "CPOOL" (Some 2) None in
  exists v, (@validateInboundBurnTx toyStrKey toyKeccak toyMap a (mkNet (mkHost ∅ 0) [])).1 = Ok v /\ v_amount6 v = 5 /\
  exists tx d mint hook, burnMeets toyMap a mint hook tx d.
Proof.
  intros a. eexists. split; [vm_compute; reflexivity|]. split; [reflexivity|].
  destruct (proj1 (proj1 (proj2 (@burn_check_exact toyStrKey toyKeccak toyMap a (mkNet (mkHost ∅ 0) []))) _) ltac:(vm_compute; reflexivity))
    as (tx & d & m & h & _ & _ & _ & _ & _ & Hb & _). by exists tx, d, m, h.
Defined.
End CctpInbound.
