(* ===== verification/Worker.v ===== *)
(** * The queue workers' loop

    What the prover and the relayer share: a worker holds a connection to the
    job queue and the machine it runs on; it claims a job, processes it, and
    hands the error of a failed run to [fail].  [settles] says what one turn
    of the loop does to the queue, for any processing function that only
    touches its own job. *)
From S2P Require Import Prelude JsText Json JobQueue Runtime Host Evm.
Import JsText Json.

Module Worker.

Record Worker := mkWorker { db : JobQueue.DB; net : Evm.Net }.
Definition onQueue {A} (m : M JobQueue.DB A) : M Worker A := fun w => let '(r, d) := m (db w) in (r, mkWorker d (net w)).
Definition onNet {A} (m : M Evm.Net A) : M Worker A := fun w => let '(r, n) := m (net w) in (r, mkWorker (db w) n).
Definition onHost {A} (m : M Host.Host A) : M Worker A := onNet (Evm.onHost m).

Definition setStatus (jobId st detail : string) : M Worker unit := onQueue (JobQueue.setStatus jobId st (Some detail)).
(** The backoff of [queue.fail(id, message)]. *)
Definition backoff : Z := 10.
Definition runOnce (q : JobQueue.QueueName) (types : list string) (process : JobQueue.ServiceJob -> M Worker unit) : M Worker bool :=
  job ← onQueue (JobQueue.claimNext q types);
  match job with
  | None => mret false
  | Some job =>
      catchM (process job) (fun e => onQueue (JobQueue.fail (JobQueue.job_id job) (message e) backoff)) ;;
      mret true
  end.
(** [for (;;)]: the turns of the loop until one fails, [fuel] at most; the
    pauses only advance the clock. *)
Fixpoint runLoop (fuel : nat) (pause : Z) (q : JobQueue.QueueName) (types : list string)
    (process : JobQueue.ServiceJob -> M Worker unit) : M Worker unit :=
  match fuel with
  | O => mret tt
  | S f =>
      did ← runOnce q types process;
      (if did : bool then mret tt
       else modifyM (fun w => mkWorker (JobQueue.mkDB (JobQueue.jobs (db w)) (JobQueue.events (db w)) (JobQueue.now (db w) + pause)) (net w))) ;;
      runLoop f pause q types process
  end.

(** ** A worker only touches the job it holds *)
(** The rows of a job keep what a worker does not write. *)
Definition sameJob (j j' : JobQueue.ServiceJob) : Prop :=
  JobQueue.job_id j' = JobQueue.job_id j /\ JobQueue.job_type j' = JobQueue.job_type j /\ JobQueue.queue j' = JobQueue.queue j /\
  JobQueue.payload j' = JobQueue.payload j /\ JobQueue.attempts j' = JobQueue.attempts j /\
  JobQueue.max_attempts j' = JobQueue.max_attempts j /\ JobQueue.waiting (JobQueue.status j') = false.
Record works (id : string) (d0 d : JobQueue.DB) : Prop := {
  wk_wf : JobQueue.wf d;
  wk_now : JobQueue.now d = JobQueue.now d0;
  wk_others : forall j, JobQueue.job_id j ≠ id -> j ∈ JobQueue.jobs d <-> j ∈ JobQueue.jobs d0;
  wk_self : forall j, j ∈ JobQueue.jobs d0 -> JobQueue.job_id j = id -> exists j', j' ∈ JobQueue.jobs d /\ sameJob j j' }.
Definition held (id : string) (d0 : JobQueue.DB) (w : Worker) : Prop := works id d0 (db w).

Lemma preserves_onNet {A} id d0 (m : M Evm.Net A) : preserves (held id d0) (onNet m).
Proof. intros w Hw. unfold onNet. by destruct (m (net w)). Qed.
Lemma preserves_onHost {A} id d0 (m : M Host.Host A) : preserves (held id d0) (onHost m).
Proof. apply preserves_onNet. Qed.
Lemma preserves_onQueue {A} id d0 (m : M JobQueue.DB A) : preserves (works id d0) m -> preserves (held id d0) (onQueue m).
Proof. intros Hm w Hw. specialize (Hm (db w) Hw). unfold held, onQueue. by destruct (m (db w)). Qed.
Lemma works_updateJob id d0 f :
  (forall j, JobQueue.job_id (f j) = JobQueue.job_id j) -> (forall j, JobQueue.idempotency_key (f j) = JobQueue.idempotency_key j) ->
  (forall j, JobQueue.job_ok j -> JobQueue.job_ok (f j)) -> (forall j, sameJob j (f j)) ->
  preserves (works id d0) (JobQueue.updateJob id f).
Proof.
  intros H1 H2 H3 H4. apply preserves_modify. intros d [Hwf Hn Ho Hs]. split.
  - by apply JobQueue.wf_updateJob; auto.
  - done.
  - intros j Hj. rewrite <- Ho by done. simpl. rewrite elem_of_updateWhere. split.
    + intros (k & Hk & ->). destruct (JobQueue.hasId id k) eqn:E; [|done]. apply JobQueue.hasId_true in E. congruence.
    + intros Hin. exists j. split; [done|]. destruct (JobQueue.hasId id j) eqn:E; [|done]. by apply JobQueue.hasId_true in E.
  - intros j Hj Ej. destruct (Hs j Hj Ej) as (k & Hk & Hkj). exists (f k). split.
    + simpl. apply elem_of_updateWhere. exists k. split; [done|]. rewrite (proj2 (JobQueue.hasId_true id k)); [done|].
      destruct Hkj as [-> _]. done.
    + unfold sameJob in *. destruct (H4 k) as (? & ? & ? & ? & ? & ? & ?). destruct_and!. split_and!; congruence.
Qed.
Lemma works_event id d0 id' st d : preserves (works id d0) (JobQueue.event id' st d).
Proof.
  intros s [Hwf Hn Ho Hs]. unfold JobQueue.event. destruct (existsb _ _) eqn:E; [|done].
  pose proof (JobQueue.preserves_event id' st d s Hwf) as Hwf'. unfold JobQueue.event in Hwf'. rewrite E in Hwf'. by split.
Qed.
Lemma works_setStatus id d0 st d : JobQueue.waiting st = false -> preserves (works id d0) (JobQueue.setStatus id st d).
Proof.
  intros Hst. unfold JobQueue.setStatus. apply preserves_bind; [apply preserves_get|]. intros s. apply preserves_bind; [|intros _; apply works_event].
  apply works_updateJob; try done. intros j. by apply JobQueue.statusRow_ok.
Qed.
Lemma works_complete id d0 r st : JobQueue.waiting st = false -> preserves (works id d0) (JobQueue.complete id r st).
Proof.
  intros Hst. unfold JobQueue.complete. apply preserves_bind; [apply preserves_get|]. intros s. apply preserves_bind; [|intros _; apply works_event].
  apply works_updateJob; try done. intros j. by apply JobQueue.completeRow_ok.
Qed.
Lemma held_setStatus id d0 st d : JobQueue.waiting st = false -> preserves (held id d0) (setStatus id st d).
Proof. intros Hst. by apply preserves_onQueue, works_setStatus. Qed.
Lemma held_complete id d0 r st :
  JobQueue.waiting st = false -> preserves (held id d0) (onQueue (JobQueue.complete id r st)).
Proof. intros Hst. by apply preserves_onQueue, works_complete. Qed.
#[export] Hint Resolve preserves_onNet preserves_onHost held_setStatus held_complete : preserve.

(** ** One turn of the loop *)
Definition others (id : string) (d0 d : JobQueue.DB) : Prop :=
  forall j, JobQueue.job_id j ≠ id -> j ∈ JobQueue.jobs d <-> j ∈ JobQueue.jobs d0.
Lemma others_updateJob id d0 f :
  (forall j, JobQueue.job_id (f j) = JobQueue.job_id j) -> preserves (others id d0) (JobQueue.updateJob id f).
Proof.
  intros Hf. apply preserves_modify. intros d Ho j Hj. rewrite <- (Ho j Hj). simpl. rewrite elem_of_updateWhere. split.
  - intros (k & Hk & ->). destruct (JobQueue.hasId id k) eqn:E; [|done]. apply JobQueue.hasId_true in E. by rewrite Hf in Hj.
  - intros Hin. exists j. split; [done|]. destruct (JobQueue.hasId id j) eqn:E; [|done]. by apply JobQueue.hasId_true in E.
Qed.
Lemma others_event id d0 id' st d : preserves (others id d0) (JobQueue.event id' st d).
Proof. intros s Ho. unfold JobQueue.event. by destruct (existsb _ _). Qed.
Lemma others_fail id d0 e b : preserves (others id d0) (JobQueue.fail id e b).
Proof.
  unfold JobQueue.fail. apply preserves_bind; [apply preserves_get|]. intros s.
  apply preserves_if; (apply preserves_bind; [by apply others_updateJob|intros _; apply others_event]).
Qed.
(** The claimed job after the claim. *)
Lemma works_claim q ts d j d1 : JobQueue.wf d -> JobQueue.claimNext q ts d = (Ok (Some j), d1) ->
  j ∈ JobQueue.jobs d1 /\ works (JobQueue.job_id j) d1 d1 /\ others (JobQueue.job_id j) d d1.
Proof.
  intros Hwf E. assert (JobQueue.wf d1) as Hwf1 by (pose proof (JobQueue.preserves_claimNext q ts d Hwf) as Hp; by rewrite E in Hp).
  destruct (JobQueue.claimNext_spec _ _ _ _ _ E) as (j0 & Hj0 & _ & -> & _ & ->).
  assert (JobQueue.claimRow (JobQueue.now d) j0 ∈ updateWhere (JobQueue.hasId (JobQueue.job_id j0)) (JobQueue.claimRow (JobQueue.now d)) (JobQueue.jobs d)) as Hin.
  { apply elem_of_updateWhere. exists j0. split; [done|]. by rewrite (proj2 (JobQueue.hasId_true _ j0)). }
  split; [done|]. split.
  - split; [done..|]. intros j Hj Ej. exists j. split; [done|]. assert (j = JobQueue.claimRow (JobQueue.now d) j0) as ->.
    { eapply JobQueue.row_unique; [apply Hwf1|exact Hj|exact Hin|exact Ej]. }
    by split_and!.
  - intros j Hj. simpl. rewrite elem_of_updateWhere. split.
    + intros (k & Hk & ->). destruct (JobQueue.hasId _ k) eqn:Ek; [|done]. apply JobQueue.hasId_true in Ek. simpl in Hj. congruence.
    + intros Hk. exists j. split; [done|]. destruct (JobQueue.hasId _ j) eqn:Ek; [|done]. apply JobQueue.hasId_true in Ek. done.
Qed.

(** A turn never throws.  It leaves the worker as it was when nothing is
    claimable; otherwise it claims a job, touches no other row, and either the
    processing succeeded or its error is in the job's row, which is then to be
    retried after the backoff, or failed for good. *)
Definition settled (process : JobQueue.ServiceJob -> M Worker unit) (j : JobQueue.ServiceJob) (w1 w' : Worker) : Prop :=
  (process j w1 = (Ok tt, w') /\ works (JobQueue.job_id j) (db w1) (db w')) \/
  exists e j', (process j w1).1 = Throw e /\ j' ∈ JobQueue.jobs (db w') /\ JobQueue.job_id j' = JobQueue.job_id j /\
    JobQueue.job_error j' = Some (sliceTo 2000 (message e)) /\ JobQueue.attempts j' = JobQueue.attempts j /\
    if JobQueue.max_attempts j <=? JobQueue.attempts j then JobQueue.status j' = "failed"
    else JobQueue.status j' = "failed_retry" /\ JobQueue.available_at j' = JobQueue.now (db w') + 1000 * backoff.
Definition turn (q : JobQueue.QueueName) (ts : list string) (process : JobQueue.ServiceJob -> M Worker unit) (w : Worker)
    (r : result bool) (w' : Worker) : Prop :=
  match r with
  | Throw _ => False
  | Ok false => w' = w /\ forall j, j ∈ JobQueue.jobs (db w) -> JobQueue.claimable q ts (JobQueue.now (db w)) j = false
  | Ok true => JobQueue.wf (db w') /\ exists j d1, JobQueue.claimNext q ts (db w) = (Ok (Some j), d1) /\
      others (JobQueue.job_id j) (db w) (db w') /\ settled process j (mkWorker d1 (net w)) w'
  end.
Lemma works_now_fail d j e b d' : JobQueue.fail (JobQueue.job_id j) e b d = (Ok tt, d') -> JobQueue.now d' = JobQueue.now d.
Proof.
  unfold JobQueue.fail. rewrite bind_getM. cbv zeta. intros E.
  assert (forall f st dd, (JobQueue.updateJob (JobQueue.job_id j) f ;; JobQueue.event (JobQueue.job_id j) st dd) d = (Ok tt, d') ->
    JobQueue.now d' = JobQueue.now d) as Hu.
  { intros f st dd. unfold JobQueue.updateJob, mbind, M_bind, modifyM, JobQueue.event. simpl.
    destruct (existsb _ _); [by intros [= <-]|done]. }
  revert E. destruct (match head _ with Some _ => _ | None => _ end); apply Hu.
Qed.
Lemma runOnce_turn q ts process w r w' :
  JobQueue.wf (db w) -> (forall j d0, preserves (held (JobQueue.job_id j) d0) (process j)) ->
  runOnce q ts process w = (r, w') -> turn q ts process w r w'.
Proof.
  intros Hwf Hp. unfold runOnce, mbind, M_bind, onQueue. destruct (JobQueue.claimNext q ts (db w)) as [[[j|]|e] d1] eqn:Ec.
  2:{ intros [= <- <-]. unfold JobQueue.claimNext in Ec. destruct (JobQueue.oldest _) eqn:Eo; [done|]. injection Ec as <-.
      apply JobQueue.oldest_None in Eo. split; [by destruct w|]. intros j Hj. apply not_true_iff_false. intros Hc.
      assert (j ∈ selectWhere (JobQueue.claimable q ts (JobQueue.now (db w))) (JobQueue.jobs (db w))) as Hs by (by apply elem_of_selectWhere).
      rewrite Eo in Hs. by apply elem_of_nil in Hs. }
  2:{ unfold JobQueue.claimNext in Ec. by destruct (JobQueue.oldest _). }
  destruct (works_claim q ts _ _ _ Hwf Ec) as (Hj & Hw & Ho). pose proof (Hp j d1 (mkWorker d1 (net w)) Hw) as Hw2.
  unfold catchM. destruct (process j (mkWorker d1 (net w))) as [[[]|e] w2] eqn:Ep; simpl in Hw2.
  - intros [= <- <-]. split; [apply Hw2|]. exists j, d1. split; [done|]. split.
    + intros k Hk. rewrite (wk_others _ _ _ Hw2 k Hk). by apply Ho.
    + left. by split.
  - destruct (wk_self _ _ _ Hw2 j Hj eq_refl) as (j2 & Hj2 & Hsame). destruct Hsame as (Eid & _ & _ & _ & Ea & Em & _).
    destruct (JobQueue.fail_known (db w2) j2 (message e) backoff) as (d3 & Ef & j3 & Hj3 & He3 & Ha3 & Hs3 & _); [apply Hw2|done|done|].
    rewrite Eid in Ef, Hj3. rewrite Ef. intros [= <- <-]. split.
    { pose proof (JobQueue.preserves_fail (JobQueue.job_id j) (message e) backoff (db w2) (wk_wf _ _ _ Hw2)) as Hpf. by rewrite Ef in Hpf. }
    exists j, d1. split; [done|]. split.
    + intros k Hk. pose proof (others_fail (JobQueue.job_id j) (db w2) (message e) backoff (db w2)) as Hof. rewrite Ef in Hof. simpl in Hof.
      simpl. rewrite (Hof ltac:(done) k Hk). rewrite (wk_others _ _ _ Hw2 k Hk). by apply Ho.
    + right. exists e, j3. rewrite Ep. simpl.
      assert (j3 ∈ JobQueue.jobs d3 /\ JobQueue.job_id j3 = JobQueue.job_id j) as [Hin Eid3].
      { assert (j3 ∈ selectWhere (JobQueue.hasId (JobQueue.job_id j)) (JobQueue.jobs d3)) as Hs.
        { destruct (selectWhere _ _); [done|]. injection Hj3 as ->. left. }
        by rewrite elem_of_selectWhere, JobQueue.hasId_true in Hs. }
      split_and!; [done..|congruence|]. rewrite <- Eid in Ef. apply works_now_fail in Ef. rewrite Ef, <- Ea, <- Em. exact Hs3.
Qed.
End Worker.
