(* ===== verification/Prover.v ===== *)
(** * The prover worker (apps/prover/src/worker.ts)

    Proof jobs from the queue through witness, proof, local verification and
    conversion to the stored public outputs.  Theorem: a turn of the worker
    never throws and settles the job it claimed; a job only becomes [ready]
    with a proof that verified locally, its stored result has public members
    only, and its raw witness files are gone. *)
From S2P Require Import Prelude JsText JsCollections Json Crypto Database JobQueue Runtime Host Field Assets Proving Evm Worker.
Import JsText Json Crypto Runtime Host Proving Worker.

Module Prover.

Definition PROOF_JOB_TYPES : list string :=
  ["withdraw_public"; "withdraw_cctp"; "rfq_settlement"; "private_transfer"; "deposit_note_mint"].

Section Prover.
Context `{Os} `{Env} `{Sha256}.

Definition SCRATCH : string := envNullish "SHADE_SCRATCH_DIR" (resolve (envNullish "SHADE_ROOT" cwd) ".scratch").

(** ** The payload *)
Definition strOr (j : json) (d : string) : string := match j with JNull => d | _ => Database.textOf j end.
Definition optText (j : json) : option string := match j with JNull => None | _ => Some (Database.textOf j) end.
Definition textsOf (j : json) : list string := match j with JArr l => map Database.textOf l | _ => [] end.
Definition bindingOf (j : json) : option WithdrawBinding :=
  match j with
  | JNull => None
  | _ => Some (mkBinding (strField j "operationType") (strField j "recipientHash") (strField j "relayerFee") (strField j "deadlineLedger")
           (optText (field j "quoteHash")) (optText (field j "intentHash")) (optText (field j "fillReceiptHash"))
           (optText (field j "destinationDomain")) (optText (field j "destinationRecipient")) (optText (field j "maxFee"))
           (optText (field j "minFinalityThreshold")))
  end.
Definition depositBindingOf (j : json) : DepositBinding :=
  let f k := strField j k in
  mkDeposit (f "sourceDomain") (f "destinationDomain") (f "cctpNonceHex") (f "burnTxHashHex") (f "amount6dp") (f "amount7dp")
    (f "assetStrkey") (f "poolStrkey") (f "encryptedNotePayloadHashHex") (f "policyIdHex") (f "poolId") (f "chainId").

Definition assertVerified (jobId : string) (ok : bool) : M Worker unit :=
  setStatus jobId "verifying_locally" (if ok then "snarkjs verify OK" else "snarkjs verify FAILED") ;;
  guardM ok (Error None "local proof verification failed").
Definition commitmentsOr (p : json) (coin : GeneratedCoin) : list string :=
  match field p "commitmentsDecimal" with JNull => [commitmentDecimal coin] | l => textsOf l end.

(** The proof of one job, as the public result to store. *)
Definition prove (jobId jobType tag : string) (p : json) (coin : GeneratedCoin) : M Worker json :=
  let scope := strOr (field p "scope") "shade" in
  let assoc := truthyOpt (optText (field p "assocPath")) in
  if jobType ==? "private_transfer" then
    match assoc with
    | None => failM (jobType +:+ " requires assocPath")
    | Some a =>
        pr ← onHost (buildTransferProof coin (commitmentsOr p coin) scope (strOr (field p "fee7dp") "0") SCRATCH tag (Some a));
        assertVerified jobId (t_locallyVerified pr) ;;
        mret (JObj [("proofHex", JStr (t_proofHex pr)); ("publicHex", JStr (t_publicHex pr)); ("stateRootHex", JStr (t_stateRootHex pr));
                    ("associationRootHex", JStr (t_associationRootHex pr)); ("outputCommitmentHex", JStr (t_outputCommitmentHex pr))])
    end
  else if jobType ==? "deposit_note_mint" then
    if negb (truthyJson (field p "depositBinding")) then failM "deposit_note_mint requires depositBinding"
    else
      pr ← onHost (buildDepositProof coin (depositBindingOf (field p "depositBinding")) SCRATCH tag);
      assertVerified jobId (d_locallyVerified pr) ;;
      mret (JObj [("proofHex", JStr (d_proofHex pr)); ("publicHex", JStr (d_publicHex pr)); ("commitmentHex", JStr (d_commitmentHex pr))])
  else
    match assoc with
    | None => failM (jobType +:+ " requires assocPath")
    | Some a =>
        pr ← onHost (buildNoteProof coin (commitmentsOr p coin) scope SCRATCH tag a (bindingOf (field p "binding")));
        assertVerified jobId (n_locallyVerified pr) ;;
        mret (JObj [("proofHex", JStr (n_proofHex pr)); ("publicHex", JStr (n_publicHex pr)); ("stateRootHex", JStr (n_stateRootHex pr))])
    end.
Definition witnessFiles (tag : string) : list string :=
  map (fun s => SCRATCH +:+ "/" +:+ tag +:+ s) ["_witness.wtns"; "_x.wtns"; "_dep.wtns"].
Definition jobTag (job : JobQueue.ServiceJob) : string :=
  strOr (field (JobQueue.payload job) "tag") ("job_" +:+ sliceTo 8 (JobQueue.job_id job)).
Definition processProofJob (job : JobQueue.ServiceJob) : M Worker json :=
  let p := JobQueue.payload job in
  let id := JobQueue.job_id job in
  let tag := jobTag job in
  coin ← onHost (coinFromPath (strField p "coinPath"));
  setStatus id "building_witness" (JobQueue.job_type job +:+ " witness") ;;
  setStatus id "proving" "groth16 prove" ;;
  result ← prove id (JobQueue.job_type job) tag p coin;
  setStatus id "converting_for_soroban" "circom2soroban bytes ready" ;;
  onHost (foreachM rmSync (witnessFiles tag)) ;;
  onQueue (JobQueue.complete id result "ready") ;;
  mret result.
Definition runProverOnce : M Worker bool :=
  runOnce JobQueue.prover PROOF_JOB_TYPES (fun job => processProofJob job ;; mret tt).
(** [fuel] turns of the endless loop. *)
Definition runProverLoop (fuel : nat) (intervalMs : Z) : M Worker unit :=
  runLoop fuel intervalMs JobQueue.prover PROOF_JOB_TYPES (fun job => processProofJob job ;; mret tt).

(** ** Facts *)
Definition publicKeys : list string :=
  ["proofHex"; "publicHex"; "stateRootHex"; "associationRootHex"; "outputCommitmentHex"; "commitmentHex"].
Definition publicResult (j : json) : Prop := exists kvs, j = JObj kvs /\ kvs.*1 ⊆ publicKeys.
(** The job's events record a verification that succeeded. *)
Definition verifiedEvent (id : string) (d : JobQueue.DB) : Prop :=
  exists t, JobQueue.mkServiceEvent id "verifying_locally" (Some "snarkjs verify OK") t ∈ JobQueue.events d.

Lemma preserves_assert id d0 ok : preserves (held id d0) (assertVerified id ok).
Proof. unfold assertVerified. apply preserves_bind; [by apply held_setStatus|auto with preserve]. Qed.
Lemma preserves_fail_msg id d0 msg : preserves (held id d0) (failM msg : M Worker json).
Proof. apply preserves_throw. Qed.
Lemma preserves_prove id d0 jt tag p coin : preserves (held id d0) (prove id jt tag p coin).
Proof.
  unfold prove. repeat case_match; try apply preserves_fail_msg;
    (apply preserves_bind; [apply preserves_onHost|intros pr; apply preserves_bind; [apply preserves_assert|intros _; apply preserves_ret]]).
Qed.
Lemma preserves_process job d0 : preserves (held (JobQueue.job_id job) d0) (processProofJob job).
Proof.
  unfold processProofJob. cbv zeta. apply preserves_bind; [auto with preserve|intros coin].
  apply preserves_bind; [by apply held_setStatus|intros _]. apply preserves_bind; [by apply held_setStatus|intros _].
  apply preserves_bind; [apply preserves_prove|intros res]. apply preserves_bind; [by apply held_setStatus|intros _].
  apply preserves_bind; [auto with preserve|intros _]. apply preserves_bind; [by apply held_complete|auto with preserve].
Qed.
Lemma assertVerified_Ok id ok w u w' :
  assertVerified id ok w = (Ok u, w') -> ok = true /\ verifiedEvent id (db w').
Proof.
  unfold assertVerified. intros Hr. bind_ok Hr as u1 w1 E. apply guardM_Ok in Hr as [-> ->]. split; [done|].
  unfold setStatus, onQueue, JobQueue.setStatus, mbind, M_bind, getM, JobQueue.updateJob, modifyM, JobQueue.event in E. simpl in E.
  destruct (existsb _ _); [|done]. injection E as _ <-. eexists. simpl. apply elem_of_app. right. by left.
Qed.
Lemma prove_Ok id jt tag p coin w res w' :
  prove id jt tag p coin w = (Ok res, w') -> publicResult res /\ verifiedEvent id (db w').
Proof.
  unfold prove. intros Hr. repeat case_match; try done;
    bind_ok Hr as pr w1 E1; bind_ok Hr as u w2 E2; apply ret_Ok in Hr as [-> ->]; apply assertVerified_Ok in E2 as [_ Hv];
    (split; [eexists; split; [reflexivity|simpl; unfold publicKeys; set_solver]|done]).
Qed.
Lemma keeps_verified_setStatus id id' st d : preserves (fun w => verifiedEvent id (db w)) (setStatus id' st d).
Proof.
  intros w [t Ht]. unfold setStatus, onQueue, JobQueue.setStatus, mbind, M_bind, getM, JobQueue.updateJob, modifyM, JobQueue.event. simpl.
  destruct (existsb _ _); exists t; simpl; [apply elem_of_app; by left|done].
Qed.
Lemma rmSync_all l h : exists h', foreachM rmSync l h = (Ok tt, h') /\ Forall (fun f => files h' !! f = None) l.
Proof.
  revert h. induction l as [|f l IH]; intros h; cbn [foreachM]; [by exists h|]. unfold mbind, M_bind, rmSync.
  destruct (IH (mkHost (delete f (files h)) (tick h))) as (h' & E & Hl). exists h'. split; [exact E|]. constructor; [|done].
  assert (forall l h h', foreachM rmSync l h = (Ok tt, h') -> files h !! f = None -> files h' !! f = None) as Hk.
  { clear. induction l as [|g l IH]; intros h h'; cbn [foreachM]; [by intros [= <-]|]. unfold mbind, M_bind, rmSync. intros E Hf.
    eapply IH; [exact E|]. simpl. rewrite lookup_delete_None. by right. }
  apply (Hk _ _ _ E). simpl. apply lookup_delete_None. by left.
Qed.

(** A job whose processing succeeded. *)
Record provedJob (job : JobQueue.ServiceJob) (w' : Worker) : Prop := {
  pj_row : exists j' res, j' ∈ JobQueue.jobs (db w') /\ JobQueue.job_id j' = JobQueue.job_id job /\ JobQueue.status j' = "ready" /\
    JobQueue.job_result j' = Some res /\ publicResult res;
  pj_verified : verifiedEvent (JobQueue.job_id job) (db w');
  pj_erased : Forall (fun f => files (Evm.host (net w')) !! f = None) (witnessFiles (jobTag job)) }.
Lemma complete_row id res st d d' : JobQueue.complete id res st d = (Ok tt, d') ->
  (exists j', j' ∈ JobQueue.jobs d' /\ JobQueue.job_id j' = id /\ JobQueue.status j' = st /\ JobQueue.job_result j' = Some res) /\
  (verifiedEvent id d -> verifiedEvent id d').
Proof.
  unfold JobQueue.complete, mbind, M_bind, getM, JobQueue.updateJob, modifyM, JobQueue.event. simpl.
  destruct (existsb _ _) eqn:E; [|done]. intros [= <-]. simpl. split.
  - apply JobQueue.existsb_hasId, list_elem_of_fmap in E as (j & Ej & Hj). exists j. split; [done|]. split; [done|].
    apply elem_of_updateWhere in Hj as (k & Hk & ->). destruct (JobQueue.hasId id k) eqn:Ek; [done|].
    apply not_true_iff_false in Ek as []. by apply JobQueue.hasId_true.
  - intros [t Ht]. exists t. simpl. apply elem_of_app. by left.
Qed.
Lemma process_Ok job w res w' : processProofJob job w = (Ok res, w') -> provedJob job w'.
Proof.
  unfold processProofJob. cbv zeta. intros Hr. bind_ok Hr as coin w1 E1. bind_ok Hr as u2 w2 E2. bind_ok Hr as u3 w3 E3.
  bind_ok Hr as r w4 E4. bind_ok Hr as u5 w5 E5. bind_ok Hr as u6 w6 E6. bind_ok Hr as u7 w7 E7. apply ret_Ok in Hr as [-> ->].
  apply prove_Ok in E4 as [Hp Hv]. 
  pose proof (keeps_verified_setStatus _ (JobQueue.job_id job) "converting_for_soroban" "circom2soroban bytes ready" w4 Hv) as Hv5. rewrite E5 in Hv5. simpl in Hv5.
  unfold onHost, onNet, Evm.onHost in E6. destruct (rmSync_all (witnessFiles (jobTag job)) (Evm.host (net w5))) as (h' & Eh & Hf).
  rewrite Eh in E6. injection E6 as _ <-. unfold onQueue in E7. simpl in E7. destruct (JobQueue.complete _ _ _ _) as [rc d'] eqn:Ec.
  injection E7 as -> <-. destruct u7. destruct (complete_row _ _ _ _ _ Ec) as [(j' & Hj & Hid & Hst & Hres) Hkeep].
  split; [by exists j', r|by apply Hkeep|exact Hf].
Qed.

(** C24. A turn of the prover never throws and settles the job it claims: it
    touches no other job, and either the job is [ready] with a proof that
    verified locally, a stored result of public members only and no raw
    witness file left, or its row carries the error and the job is to be
    retried after the backoff or has failed for good. *)
Theorem prover_turn w r w' :
  JobQueue.wf (db w) -> runProverOnce w = (r, w') ->
  turn JobQueue.prover PROOF_JOB_TYPES (fun job => processProofJob job ;; mret tt) w r w' /\
  (forall job d1, JobQueue.claimNext JobQueue.prover PROOF_JOB_TYPES (db w) = (Ok (Some job), d1) ->
     provedJob job w' \/ exists e, (processProofJob job (mkWorker d1 (net w))).1 = Throw e).
Proof.
  intros Hwf Hr. split.
  - apply runOnce_turn; [done| |exact Hr]. intros j d0. apply preserves_bind; [apply preserves_process|auto with preserve].
  - intros job d1 Ec. unfold runProverOnce, runOnce, mbind, M_bind, onQueue in Hr. rewrite Ec in Hr. unfold catchM in Hr.
    destruct (processProofJob job (mkWorker d1 (net w))) as [[res|e] w2] eqn:Ep; [|right; by exists e].
    left. cbn in Hr. injection Hr as _ <-. by eapply process_Ok.
Qed.
End Prover.

(** ** Witness: a private transfer whose tools write what is read *)
Definition toyCoin : string := stringify (JObj [("commitment_hex", JStr "0x1"); ("coin", JObj [("commitment", JStr "1"); ("value", JStr "5")])]).
Definition toyTools : Os := {|
  cwd := "/"; clock k := k; spawn k c a p := mkExit None "" "";
  execFile k cmd args fs :=
    (Ok "[INFO] snarkJS: OK!",
     match args with
     | "transfer" :: _ => <["/.scratch/t_xfer.json" := stringify (JObj [("stateRoot", JStr "1"); ("associationRoot", JStr "2"); ("outputCommitment", JStr "3")])]> fs
     | _ => fs
     end) |}.
Definition toyJob : json := JObj [("coinPath", JStr "/c.json"); ("assocPath", JStr "/a.json"); ("tag", JStr "t")].
Definition toyWorker : Worker :=
  mkWorker (JobQueue.enqueue "job-1" JobQueue.prover "private_transfer" toyJob None (JobQueue.emptyDB 0)).2
    (Evm.mkNet (mkHost {[ "/c.json" := toyCoin ]} 0) []).
Lemma prover_turn_witness : exists w' job d1,
  @runProverOnce toyTools (fun _ => None) Toy.toy_sha toyWorker = (Ok true, w') /\
  JobQueue.claimNext JobQueue.prover PROOF_JOB_TYPES (db toyWorker) = (Ok (Some job), d1) /\
  @provedJob toyTools (fun _ => None) job w'.
Proof.
  eexists _, _, _. split; [vm_compute; reflexivity|]. split; [vm_compute; reflexivity|].
  destruct (@prover_turn toyTools (fun _ => None) Toy.toy_sha toyWorker _ _ ltac:(apply JobQueue.preserves_enqueue, JobQueue.wf_empty)
    ltac:(vm_compute; reflexivity)) as [_ Hs].
  destruct (Hs _ _ ltac:(vm_compute; reflexivity)) as [Hok|[e He]]; [exact Hok|]. exfalso. revert He. vm_compute. discriminate.
Defined.
End Prover.
