(* ===== verification/Solver.v ===== *)
(** * The solver service (apps/solver/src/server.ts)

    The inventory, quote and fill handlers.  Theorems: a quote is only given
    when the inventory covers it, adds up, and carries a signature that
    verifies on the hash of exactly that quote; a fill pays what is asked from
    the inventory, to anyone who asks. *)
From S2P Require Import Prelude JsText JsCollections Json Crypto Database Ids Runtime Host Field Cctp Rfq Evm.
Import JsText Json Crypto Database Ids Runtime Host Evm.

Module Solver.

Section Solver.
Context `{Sha256} `{LocaleCompare} `{Env} `{Keypair} `{Evm}.

Definition httpError (c : Z) (msg : string) : error := Error (Some c) msg.
Definition envText (k : string) : string := orElse (env k) "".
Definition missingEnv (keys : list string) : list string :=
  filter (fun k => Is_true (match truthyOpt (env k) with Some _ => false | None => true end)) keys.
Definition requireEnv (keys : list string) : M Net unit :=
  match missingEnv keys with
  | [] => mret tt
  | missing => throwM (httpError 503 ("solver env required: " +:+ join ", " missing))
  end.
Record Inventory := mkInventory { inv_address : string; usdc6 : Z }.
Definition arbInventory : M Net Inventory :=
  a ← liftR (walletAddress (envText "ARB_SOLVER_PRIVATE_KEY"));
  bal ← erc20Balance (envText "ARB_SEPOLIA_RPC_URL") (envText "ARB_SEPOLIA_USDC_ADDRESS") a;
  mret (mkInventory a (raw bal)).

Definition get_health (r : Request) : M Net Response := mret (reply (JObj
  [("ok", JBool true); ("service", JStr "solver"); ("signing", JStr "ed25519");
   ("solverStellarPubkey", strOrNull (env "STELLAR_SOLVER_PUBLIC"))])).
Definition solverId : string := "stellar:" +:+ envText "STELLAR_SOLVER_PUBLIC".
Definition get_inventory (r : Request) : M Net Response :=
  requireEnv ["ARB_SOLVER_PRIVATE_KEY"; "ARB_SEPOLIA_RPC_URL"; "ARB_SEPOLIA_USDC_ADDRESS"; "STELLAR_SOLVER_PUBLIC"] ;;
  inv ← arbInventory;
  mret (reply (JObj [("solver_id", JStr solverId); ("arbitrum_address", JStr (inv_address inv));
                     ("arbitrum_usdc_6dp", JStr (toString (usdc6 inv)))])).

(** [BigInt(Number(...))], which [priceQuote] takes of the fee. *)
Definition feeBps : result Z := BigIntOfNumber (Number (orElse (env "RFQ_FEE_BPS") "50")).
Definition makeQuote (uuid : string) (intent : json) (inv : Inventory) (gross7 : Z) (p : Rfq.Priced) : Rfq.Quote :=
  Rfq.mkQuote uuid (Cctp.stringOf (nullish (field intent "intent_hash") (JStr ""))) solverId
    "USDC:Stellar:SAC" "USDC:ArbitrumSepolia" (Rfq.usdc7ToDecimal gross7) (Rfq.usdc7ToDecimal (Rfq.net p))
    (Rfq.usdc7ToDecimal (Rfq.feeOf p)) (Field.numberOf (nullish (field intent "expiry_ledger") (JNum 999999999)))
    (sha256 (inv_address inv +:+ ":" +:+ toString (usdc6 inv))).
Definition quoteReply (q : Rfq.Quote) (s : Rfq.Signed) (fill6 : Z) : json := JObj
  [("quote", Rfq.quoteJson q); ("quote_hash", JStr (Rfq.quoteHash q)); ("solver_pubkey", JStr (Rfq.pubkey s));
   ("solver_sig", JStr (Rfq.sig s)); ("fill_amount_6dp", JStr (toString fill6))].
Definition short (have need : Z) : string := "insufficient inventory: have " +:+ toString have +:+ " (6dp), need " +:+ toString need.
(** [uuid] is the identifier [uuidv4()] returns. *)
Definition post_quote (uuid : string) (r : Request) : M Net Response :=
  requireEnv ["ARB_SOLVER_PRIVATE_KEY"; "ARB_SEPOLIA_RPC_URL"; "ARB_SEPOLIA_USDC_ADDRESS"; "STELLAR_SOLVER_SECRET"; "STELLAR_SOLVER_PUBLIC"] ;;
  inv ← arbInventory;
  let intent := body r in
  gross7 ← liftR (BigInt (Cctp.stringOf (nullish (field intent "amount") (JStr "0"))));
  guardM (0 <? gross7) (httpError 400 "intent amount required (7dp)") ;;
  bps ← liftR feeBps;
  let p := Rfq.priceQuote gross7 bps in
  let fillAmount6 := Z.quot (Rfq.net p) 10 in
  guardM (fillAmount6 <=? usdc6 inv) (httpError 409 (short (usdc6 inv) fillAmount6)) ;;
  let q := makeQuote uuid intent inv gross7 p in
  sig ← liftR (Rfq.signQuoteStellar (Rfq.quoteHash q) (envText "STELLAR_SOLVER_SECRET"));
  mret (reply (quoteReply q sig fillAmount6)).

Definition fillReply (h recipient : string) (amount6 : Z) : json := JObj
  [("fill_tx_hash", JStr h); ("fill_receipt_hash", JStr (sha256 h)); ("amount_6dp", JStr (toString amount6)); ("recipient", JStr recipient)].
Definition post_fill (r : Request) : M Net Response :=
  requireEnv ["ARB_SOLVER_PRIVATE_KEY"; "ARB_SEPOLIA_RPC_URL"; "ARB_SEPOLIA_USDC_ADDRESS"] ;;
  let recipient := strField (body r) "recipient" in
  let amount := strField (body r) "amount_6dp" in
  if negb (truthy recipient && truthy amount) then mret (replyCode 400 (err "recipient and amount_6dp required"))
  else
    let key := envText "ARB_SOLVER_PRIVATE_KEY" in
    let rpc := envText "ARB_SEPOLIA_RPC_URL" in
    let token := envText "ARB_SEPOLIA_USDC_ADDRESS" in
    a ← liftR (walletAddress key);
    amount6 ← liftR (BigInt amount);
    bal ← view (fun k => balanceOf k rpc token a);
    if bal <? amount6 then
      mret (replyCode 409 (err ("insufficient inventory: have " +:+ toString bal +:+ ", need " +:+ toString amount6)))
    else
      h ← sendTx rpc key (Transfer token recipient amount6);
      mret (reply (fillReply h recipient amount6)).

(** ** What the inventory calls leave alone *)
Lemma requireEnv_Ok keys n u n' : requireEnv keys n = (Ok u, n') -> n' = n /\ missingEnv keys = [].
Proof. unfold requireEnv. destruct (missingEnv keys); [by intros [= _ ->]|done]. Qed.
Lemma arbInventory_Ok n inv n' :
  arbInventory n = (Ok inv, n') ->
  sent n' = sent n /\ walletAddress (envText "ARB_SOLVER_PRIVATE_KEY") = Ok (inv_address inv) /\
  balanceOf (tick (host n)) (envText "ARB_SEPOLIA_RPC_URL") (envText "ARB_SEPOLIA_USDC_ADDRESS") (inv_address inv) = Ok (usdc6 inv).
Proof.
  unfold arbInventory. intros Hr. lift_ok Hr as a Ea. bind_ok Hr as bal n1 Eb. apply ret_Ok in Hr as [-> ->].
  unfold erc20Balance in Eb. bind_ok Eb as raw n2 Er. bind_ok Eb as d n3 Ed. apply ret_Ok in Eb as [-> ->].
  apply view_Ok in Er as (Hs1 & _ & Hb), Ed as (Hs2 & _ & _). split; [congruence|]. done.
Qed.

(** A quote is backed: what the reply holds, on what terms. *)
Record backed (uuid : string) (r : Request) (bps : Z) (n : Net) (resp : Response) (q : Rfq.Quote) : Prop := {
  bk_gross : exists gross, BigInt (Cctp.stringOf (nullish (field (body r) "amount") (JStr "0"))) = Ok gross /\ 0 < gross /\
    let p := Rfq.priceQuote gross bps in
    Rfq.net p + Rfq.feeOf p = gross /\ 0 <= Rfq.net p /\ Rfq.gross_input q = Rfq.usdc7ToDecimal gross /\
    Rfq.net_output q = Rfq.usdc7ToDecimal (Rfq.net p) /\ Rfq.fee q = Rfq.usdc7ToDecimal (Rfq.feeOf p) /\
    exists owner have, walletAddress (envText "ARB_SOLVER_PRIVATE_KEY") = Ok owner /\
      balanceOf (tick (host n)) (envText "ARB_SEPOLIA_RPC_URL") (envText "ARB_SEPOLIA_USDC_ADDRESS") owner = Ok have /\
      Rfq.net p / 10 <= have;
  bk_reply : exists s pk fill, code resp = 200 /\ content resp = quoteReply q s fill /\
    fromSecret (envText "STELLAR_SOLVER_SECRET") = Ok pk /\
    keyVerify pk (hexDecode (strip0x (Rfq.quoteHash q))) (hexDecode (Rfq.sig s)) = Ok true }.
Lemma signQuote_key `{!KeypairLaws} h secret s :
  Rfq.signQuoteStellar h secret = Ok s ->
  exists pk, fromSecret secret = Ok pk /\ keyVerify pk (hexDecode (strip0x h)) (hexDecode (Rfq.sig s)) = Ok true.
Proof.
  unfold Rfq.signQuoteStellar. destruct (fromSecret secret) as [pk|e] eqn:E; [|done]. intros [= <-]. exists pk.
  split; [done|]. simpl. rewrite hexDecode_encode. by apply key_verify.
Qed.

(** C32. The solver quotes only what it can pay, and moves nothing by quoting:
    with a fee of at most 100%, a quote is given for a positive amount, its net
    and fee add up to the gross amount, the payout in 6 decimals is covered by
    the balance the solver read, and the signature in the reply verifies under
    the solver's Stellar key on the hash of exactly the quote in the reply. *)
Theorem quote_backed `{!KeypairLaws} uuid r bps n resp n' :
  feeBps = Ok bps -> 0 <= bps <= 10000 -> post_quote uuid r n = (Ok resp, n') ->
  sent n' = sent n /\ exists q, backed uuid r bps n resp q.
Proof.
  intros Eb Hb Hr. unfold post_quote in Hr. bind_ok Hr as u n1 Ereq. apply requireEnv_Ok in Ereq as [-> _].
  bind_ok Hr as inv n2 Einv. apply arbInventory_Ok in Einv as (Hs & Ha & Hbal). cbv zeta in Hr. lift_ok Hr as gross Eg.
  bind_ok Hr as u2 n3 Eguard. apply guardM_Ok in Eguard as [Hpos%Z.ltb_lt ->]. lift_ok Hr as bps' Ebps.
  rewrite Eb in Ebps. injection Ebps as <-. bind_ok Hr as u3 n4 Ecover. apply guardM_Ok in Ecover as [Hc%Z.leb_le ->].
  lift_ok Hr as sg Es. apply ret_Ok in Hr as [-> ->]. split; [done|]. eexists. apply signQuote_key in Es as (pk & Epk & Hv).
  destruct (Rfq.priceQuote_sum gross bps) as (Hsum & Hnet & _); [lia..|]. split; [|by eexists sg, pk, _].
  exists gross. cbv zeta. split_and!; [done|done|done|lia|done|done|done|]. exists (inv_address inv), (usdc6 inv). split_and!; [done..|].
  rewrite Z.quot_div_nonneg in Hc; [done|apply Hnet|lia].
Qed.

(** A fill: one transfer of what the request asks for, or none. *)
Lemma fill_spec r n res n' :
  post_fill r n = (res, n') ->
  sent n' = sent n \/
  exists amount bal k, BigInt (strField (body r) "amount_6dp") = Ok amount /\ amount <= bal /\
    (exists a, balanceOf k (envText "ARB_SEPOLIA_RPC_URL") (envText "ARB_SEPOLIA_USDC_ADDRESS") a = Ok bal) /\
    sent n' = sent n ++ [(envText "ARB_SOLVER_PRIVATE_KEY",
      Transfer (envText "ARB_SEPOLIA_USDC_ADDRESS") (strField (body r) "recipient") amount)].
Proof.
  unfold post_fill, requireEnv, view, sendTx, onHost, nextTick. unfold mbind, M_bind, mret, M_ret, throwM, liftR, modifyM.
  destruct (missingEnv _) as [|? ?]; [|by intros [= _ <-]; left]. destruct (truthy _ && truthy _); cbn [negb]; [|by intros [= _ <-]; left].
  destruct (walletAddress _) as [a|]; [|by intros [= _ <-]; left]. destruct (BigInt _) as [amount|]; [|by intros [= _ <-]; left].
  cbn. destruct (balanceOf _ _ _ _) as [bal|] eqn:Ebal; [|by intros [= _ <-]; left]. destruct (Z.ltb_spec bal amount); [by intros [= _ <-]; left|].
  destruct (submit _ _ _ _); intros [= _ <-]; right; eexists amount, bal, _; split_and!; try done; by eexists.
Qed.
End Solver.

(** ** Witness *)
Definition toyEnv : Env := fun k =>
  if k ==? "RFQ_FEE_BPS" then None else Some (if k ==? "STELLAR_SOLVER_SECRET" then "SSECRET" else "x").
Definition toyIntent : Request := mkRequest [] [] [] (JObj [("intent_hash", JStr "0xab"); ("amount", JStr "10000")]).
Lemma quote_backed_witness : exists resp n', 
  @post_quote Toy.toy_sha codePointCompare toyEnv ToyRuntime.toy_keypair toyEvm "uuid-1" toyIntent (mkNet (mkHost ∅ 0) []) = (Ok resp, n') /\
  code resp = 200 /\ sent n' = [] /\
  exists q, @backed Toy.toy_sha codePointCompare toyEnv ToyRuntime.toy_keypair toyEvm "uuid-1" toyIntent 50 (mkNet (mkHost ∅ 0) []) resp q.
Proof.
  eexists _, _. split; [vm_compute; reflexivity|]. split; [reflexivity|].
  apply (@quote_backed Toy.toy_sha codePointCompare toyEnv ToyRuntime.toy_keypair toyEvm ToyRuntime.toy_keypair_laws "uuid-1" toyIntent 50
    (mkNet (mkHost ∅ 0) [])); [reflexivity|lia|vm_compute; reflexivity].
Defined.
End Solver.
