(* ===== verification/NoteCrypto.v ===== *)
(** * Server-side note hashing (packages/note-crypto/src)

    Poseidon commitments and nullifiers of a note preimage.  The Poseidon hash
    (@iden3/js-crypto) is the class parameter [Poseidon]. *)
From S2P Require Import Prelude JsText Json Crypto Database Runtime.
From Stdlib Require Import Ascii.
Import JsText Json Crypto Database Runtime.

Module NoteCrypto.

Class Poseidon := poseidonHash : list Z -> Z.
Definition FIELD_MODULUS : Z := 21888242871839275222246405745257275088548364400416034343698204186575808495617.

Record NotePreimage := mkPreimage {
  assetId : string; amount7dp : string; ownerPublicKey : string; spendPublicKey : string;
  blinding : string; nonce : string; complianceTag : string; sourceContext : string; memoCommitment : string }.

(** [0x] and 64 hexadecimal digits. *)
Definition hex64 (z : Z) : string := "0x" +:+ padStart 64 "0"%char (toHexString z).

Definition withBlinding (i : NotePreimage) (b n : bytes) : NotePreimage :=
  mkPreimage (assetId i) (amount7dp i) (ownerPublicKey i) (spendPublicKey i) ("0x" +:+ hexEncode b) ("0x" +:+ hexEncode n)
    (complianceTag i) (sourceContext i) (memoCommitment i).
Definition generateNotePreimage `{Random} (k : Z) (i : NotePreimage) : NotePreimage :=
  withBlinding i (randomBytes k 32) (randomBytes (k + 1) 32).

Section Hashing.
Context `{Sha256} `{Poseidon}.

Definition fieldFromString (value : string) : result Z :=
  h ← BigInt ("0x" +:+ sha256 value); mret (Z.rem h FIELD_MODULUS).
Definition fieldFromHex (value : string) : result Z := v ← BigInt value; mret (Z.rem v FIELD_MODULUS).
Definition noteToFields (n : NotePreimage) : result (list Z) :=
  f1 ← fieldFromString (assetId n);
  f2 ← BigInt (amount7dp n);
  f3 ← fieldFromString (ownerPublicKey n);
  f4 ← fieldFromString (spendPublicKey n);
  f5 ← fieldFromHex (blinding n);
  f6 ← fieldFromHex (nonce n);
  f7 ← fieldFromString (complianceTag n);
  f8 ← fieldFromString (sourceContext n);
  f9 ← fieldFromString (memoCommitment n);
  mret [f1; f2; f3; f4; f5; f6; f7; f8; f9].
Definition poseidonCommitment (n : NotePreimage) : result string :=
  fields ← noteToFields n; mret (hex64 (poseidonHash fields)).
Definition nullifierDomain : string := "shade:nullifier:v1".
Definition deriveNullifier (n : NotePreimage) (domain : string) : result string :=
  f1 ← fieldFromString domain;
  f2 ← fieldFromHex (nonce n);
  f3 ← fieldFromHex (blinding n);
  f4 ← fieldFromString (ownerPublicKey n);
  mret (hex64 (poseidonHash [f1; f2; f3; f4])).
End Hashing.

(** A request body used as a preimage: hashing or converting a member of
    another type is a TypeError. *)
Definition typeError {A} : result A := Throw (Error None "TypeError").
Definition hashed (j : json) : result string := match j with JStr s => Ok s | _ => typeError end.
Definition converted (j : json) : result string :=
  match j with JStr s => Ok s | JNum z => Ok (toString z) | JBool b => Ok (if b then "1" else "0") | _ => typeError end.
Definition noteOf (j : json) : result NotePreimage :=
  a ← hashed (field j "assetId"); m ← converted (field j "amount7dp"); o ← hashed (field j "ownerPublicKey");
  s ← hashed (field j "spendPublicKey"); b ← converted (field j "blinding"); n ← converted (field j "nonce");
  c ← hashed (field j "complianceTag"); x ← hashed (field j "sourceContext"); e ← hashed (field j "memoCommitment");
  mret (mkPreimage a m o s b n c x e).
End NoteCrypto.
