(* ===== verification/RoutesAccount.v ===== *)
(** * Login, profile and history routes (apps/api/src/routes.ts)

    The handlers of /health, /v1/auth, /v1/me and /v1/activity.  Theorem: a
    login nonce is good for one login, made by the holder of the wallet before
    the nonce expires. *)
From S2P Require Import Prelude JsText JsCollections Json Crypto Base64 Ids JobQueue Database Runtime NoteVault Store Privy Schemas ApiAuth Cctp.
From Stdlib Require Import Ascii.
Import JsText Json Crypto Database Runtime Privy ApiAuth.

Module RoutesAccount.

Section Routes.
Context `{Env} `{Uuid} `{Schemas.Zod} `{WebKeys} `{Fetch} `{Sha256} `{Random} `{Wallets}.

Definition envJson (v : string) : json := strOrNull (env v).
Definition get_health (r : Request) : M Api Response :=
  onStore Store.health ;; mret (reply (JObj [("ok", JBool true)])).
Definition get_config (r : Request) : M Api Response := mret (reply Cctp.LOCKED_CCTP).
Definition get_contracts (r : Request) : M Api Response :=
  mret (reply (JObj
    [("shadePool", envJson "SHIELDED_POOL_CONTRACT"); ("nullifierRegistry", envJson "NULLIFIER_REGISTRY_CONTRACT");
     ("verifierWithdraw", envJson "VERIFIER_WITHDRAW_CONTRACT"); ("verifierTransfer", envJson "TRANSFER_VERIFIER_CONTRACT");
     ("verifierDepositNoteMint", envJson "VERIFIER_DEPOSIT_NOTE_MINT_CONTRACT");
     ("cctpForwarder", envJson "STELLAR_CCTP_FORWARDER_CONTRACT"); ("usdcSac", envJson "STELLAR_TESTNET_USDC_SAC_CONTRACT");
     ("deprecated", JObj
       [("shadeVault", envJson "SHADE_VAULT_CONTRACT"); ("commitmentTree", envJson "COMMITMENT_TREE_CONTRACT");
        ("complianceRegistry", envJson "COMPLIANCE_REGISTRY_CONTRACT"); ("intentEscrow", envJson "INTENT_ESCROW_CONTRACT")])])).
Definition get_health_full (r : Request) : M Api Response :=
  db ← catchM (onStore Store.health ;; mret true) (fun _ => mret false);
  mret (reply (JObj
    [("ok", JBool db); ("db", JBool db); ("pool", strOrNull (truthyOpt (env "SHIELDED_POOL_CONTRACT")));
     ("network", JStr (orElse (env "STELLAR_NETWORK_PASSPHRASE") "testnet"))])).

(** ** Wallet login *)
Definition post_auth_nonce (r : Request) : M Api Response :=
  b ← parseM Schemas.authNonceSchema (body r);
  let t := walletTypeOf (strField b "wallet_type") in
  address ← liftR (normalizeAddress t (strField b "address"));
  nonce ← randomNonce;
  let message := authMessage t address nonce in
  now ← onStore dateNow;
  onStore (Store.createNonce (walletText t) address nonce message (now + NONCE_TTL)) ;;
  mret (reply (JObj [("wallet_type", field b "wallet_type"); ("address", JStr address); ("nonce", JStr nonce);
                     ("message", JStr message)])).
Definition login (t : WalletType) (address : string) : M Api Response :=
  userId ← onStore (Store.upsertUserByWallet (walletText t) (CHAIN_FOR t) address);
  token ← newSessionToken;
  now ← onStore dateNow;
  onStore (Store.createSession userId (sha256Hex token) (now + SESSION_TTL)) ;;
  onStore (Store.logActivity (Some userId)
    (Store.mkActivity "auth.login" (Some "wallet") (Some address) None (Some (JObj [("walletType", JStr (walletText t))])))) ;;
  mret (mkResponse 200 (Some (sessionCookie token))
          (JObj [("user_id", JStr userId); ("session_token", JStr token); ("wallet_type", JStr (walletText t));
                 ("address", JStr address)])).
Definition verifyHandler (t : WalletType) (r : Request) : M Api Response :=
  b ← parseM Schemas.authVerifySchema (body r);
  address ← liftR (normalizeAddress t (strField b "address"));
  message ← onStore (Store.consumeNonce (walletText t) address (strField b "nonce"));
  match truthyOpt message with
  | None => mret (replyCode 401 (err "invalid or expired nonce"))
  | Some message =>
      if negb (verifyWalletSignature t address message (strField b "signature"))
      then mret (replyCode 401 (err "signature verification failed"))
      else login t address
  end.
Definition post_auth_evm_verify := verifyHandler EVM.
Definition post_auth_stellar_verify := verifyHandler STELLAR.
Definition get_auth_session (r : Request) : M Api Response :=
  userId ← authedUserOptional r;
  mret (reply (JObj [("authenticated", JBool (truthyJson (strOrNull userId))); ("user_id", strOrNull userId)])).
Definition post_auth_logout (r : Request) : M Api Response :=
  token ← liftR (readSessionToken r);
  (match truthyOpt token with
   | Some token => onStore (Store.revokeSession (sha256Hex token))
   | None => mret tt
   end) ;;
  mret (mkResponse 200 (Some clearedCookie) (JObj [("ok", JBool true)])).

(** ** Profile and wallets *)
Definition get_me (r : Request) : M Api Response :=
  userId ← authedUser r;
  me ← onStore (Store.getUser userId);
  mret (reply me).
Definition patch_me (r : Request) : M Api Response :=
  userId ← authedUser r;
  b ← parseM Schemas.updateMeSchema (body r);
  onStore (Store.updateUser userId (entriesOf b)) ;;
  me ← onStore (Store.getUser userId);
  mret (reply me).
Definition get_me_wallets (r : Request) : M Api Response :=
  userId ← authedUser r;
  ws ← onStore (Store.listWallets userId);
  mret (reply (JObj [("wallets", Store.rowsJson ws)])).
Definition post_me_wallets_sync_privy (r : Request) : M Api Response :=
  auth ← requirePrivyUser r;
  b ← parseM Schemas.syncPrivyWalletsSchema (body r);
  n ← onStore (Store.syncPrivyWallets (p_userId auth) (p_privyUserId auth) (itemsOf (field b "wallets")));
  onStore (Store.logActivity (Some (p_userId auth))
    (Store.mkActivity "wallet.sync_privy" None None None (Some (JObj [("count", JNum n)])))) ;;
  ws ← onStore (Store.listWallets (p_userId auth));
  mret (reply (JObj [("synced", JNum n); ("wallets", Store.rowsJson ws)])).
Definition post_me_wallets (r : Request) : M Api Response :=
  userId ← authedUser r;
  b ← parseM Schemas.addWalletSchema (body r);
  let t := walletTypeOf (strField b "wallet_type") in
  address ← liftR (normalizeAddress t (strField b "address"));
  message ← onStore (Store.consumeNonce (walletText t) address (strField b "nonce"));
  match truthyOpt message with
  | Some message =>
      if verifyWalletSignature t address message (strField b "signature") then
        walletId ← onStore (Store.addWallet userId (walletText t) (CHAIN_FOR t) address);
        logActivity (Some userId) "wallet.add" "wallet" address ;;
        mret (reply (JObj [("wallet_id", JStr walletId)]))
      else mret (replyCode 401 (err "wallet signature verification failed"))
  | None => mret (replyCode 401 (err "wallet signature verification failed"))
  end.
Definition delete_me_wallet (r : Request) : M Api Response :=
  userId ← authedUser r;
  deleted ← onStore (Store.deleteWallet userId (param r "wallet_id"));
  mret (if (deleted : bool) then reply (JObj [("ok", JBool true)])
        else replyCode 409 (err "cannot delete (not found or primary)")).

(** ** History *)
Definition history (key t : string) (r : Request) : M Api Response :=
  userId ← authedUser r;
  rows ← onStore (Store.listByUser t userId);
  mret (reply (JObj [(key, Store.rowsJson rows)])).
Definition get_me_deposits := history "deposits" "cctp_deposits".
Definition get_me_notes := history "notes" "note_commitments".
Definition get_me_withdrawals := history "withdrawals" "withdrawals".
Definition get_me_rfq := history "settlements" "settlements".
Definition get_me_cctp_exits := history "exits" "cctp_exits".
Definition get_me_note_backups := history "backups" "encrypted_note_backups".
Definition get_activity (r : Request) : M Api Response :=
  userId ← authedUser r;
  rows ← onStore (Store.listActivity userId 100);
  mret (reply (JObj [("activity", Store.rowsJson rows)])).
(** One poll of the event stream: the payload written, when it changed. *)
Definition activityPoll (userId lastSent : string) : M Api (option string) :=
  rows ← onStore (Store.listActivity userId 20);
  let payload := stringify (Store.rowsJson rows) in
  mret (if payload ==? lastSent then None else Some ("data: " +:+ payload +:+ lf +:+ lf)).
Definition get_test_report_latest (r : Request) : M Api Response :=
  mret (reply (JObj [("path", JStr "docs/test-report.generated.md")])).
Definition get_balances_testnet (r : Request) : M Api Response :=
  mret (reply (JObj [("status", JStr "requires setup:testnet for live balances")])).
Definition post_setup_validate (r : Request) : M Api Response :=
  mret (reply (JObj [("status", JStr "run npm run setup:testnet")])).

(** ** A nonce is good for one login *)
Definition nonces (w : Api) : list Row := table (adb w) "auth_nonces".
Definition nonceRow (t : WalletType) (address nonce : string) (r : Row) : bool :=
  eqText "wallet_type" (walletText t) r && eqText "address" address r && eqText "nonce" nonce r.
(** No live row of the nonce is left. *)
Definition spent (t : WalletType) (address nonce : string) (w : Api) : Prop :=
  forall x, x ∈ nonces w -> nonceRow t address nonce x = true -> get x "consumed_at" ≠ JNull.
(** Rows have their columns, and differ in their primary key and in the nonce
    they hold. *)
Record wfNonces (w : Api) : Prop := {
  wn_column x : x ∈ nonces w -> JsMap.get x "consumed_at" ≠ None;
  wn_id x y : x ∈ nonces w -> y ∈ nonces w -> get x "id" = get y "id" -> x = y;
  wn_nonce t a n x y : x ∈ nonces w -> y ∈ nonces w -> nonceRow t a n x = true -> nonceRow t a n y = true -> x = y }.

Lemma nonceLive_row t a n now x :
  Store.nonceLive (walletText t) a n now x = true <->
  nonceRow t a n x = true /\ get x "consumed_at" = JNull /\ now < numOf (get x "expires_at").
Proof.
  unfold Store.nonceLive, nonceRow. rewrite !andb_true_iff, Z.ltb_lt.
  assert (forall j, isNull j = true <-> j = JNull) as -> by (by intros []). tauto.
Qed.
Lemma get_consume v r c : c ≠ "consumed_at" -> get (assignRow [("consumed_at", v)] r) c = get r c.
Proof.
  intros Hc. unfold get. rewrite get_assignRow. simpl. rewrite bool_decide_false by done. by destruct (JsMap.get r c).
Qed.
Lemma nonceRow_consume t a n v r : nonceRow t a n (assignRow [("consumed_at", v)] r) = nonceRow t a n r.
Proof. unfold nonceRow, eqText, eqCol. by rewrite !get_consume. Qed.

(** What [consumeNonce] did when it returned a message. *)
Lemma consumeNonce_Ok t a n w m db' :
  Store.consumeNonce (walletText t) a n (adb w) = (Ok (Some m), db') -> wfNonces w ->
  exists x, x ∈ nonces w /\ Store.nonceLive (walletText t) a n (clock (adb w)) x = true /\ m = textOf (get x "message") /\
    forall y, y ∈ table db' "auth_nonces" -> nonceRow t a n y = true -> get y "consumed_at" ≠ JNull.
Proof.
  intros Hc [Hcol Hid Hn]. unfold Store.consumeNonce in Hc. bind_ok Hc as now db1 En. injection En as <- <-.
  bind_ok Hc as live db2 El. apply select_Ok in El as [-> ->].
  destruct (orderDesc "created_at" _) as [|x l] eqn:Eo; [by apply ret_Ok in Hc as [? _]|].
  assert (x ∈ selectWhere (Store.nonceLive (walletText t) a n (clock (adb w))) (nonces w)) as Hx.
  { rewrite <- (elem_of_orderDesc "created_at"). unfold nonces. rewrite Eo. left. }
  apply elem_of_selectWhere in Hx as [Hx Hl]. bind_ok Hc as rows db3 Eu. apply ret_Ok in Hc as [Em ->].
  erewrite (update_ok schemaOf) in Eu; [|reflexivity..]. injection Eu as <- <-.
  destruct (map _ _) as [|r rs] eqn:Er; [done|]. injection Em as ->.
  assert (r ∈ map (assignRow [("consumed_at", JNum (clock (adb w)))])
               (selectWhere (eqCol "id" (get x "id")) (nonces w))) as Hr by (unfold nonces; rewrite Er; left).
  apply list_elem_of_fmap in Hr as (y & -> & [Hy [Hyx Hnn]%eqCol_true]%elem_of_selectWhere).
  rewrite (Hid y x Hy Hx Hyx), get_consume by done.
  exists x. split_and!; [done..|]. intros z'. rewrite table_same. intros (z & Hz & ->)%elem_of_updateWhere Hzr.
  destruct (eqCol "id" (get x "id") z) eqn:Ez.
  - unfold get at 1. rewrite get_assignRow. specialize (Hcol z Hz). simpl. by destruct (JsMap.get z "consumed_at").
  - exfalso. apply nonceLive_row in Hl as [Hl _]. rewrite (Hn t a n z x Hz Hx Hzr Hl) in Ez.
    apply not_true_iff_false in Ez as []. by apply eqCol_true.
Qed.
(** A spent nonce is refused without a write. *)
Lemma consumeNonce_spent t a n w :
  spent t a n w -> Store.consumeNonce (walletText t) a n (adb w) = (Ok None, adb w).
Proof.
  intros Hs. unfold Store.consumeNonce, mbind, M_bind, dateNow, select. simpl.
  destruct (orderDesc "created_at" _) as [|x l] eqn:Eo; [done|].
  assert (x ∈ selectWhere (Store.nonceLive (walletText t) a n (clock (adb w))) (nonces w)) as Hx.
  { rewrite <- (elem_of_orderDesc "created_at"). unfold nonces. rewrite Eo. left. }
  apply elem_of_selectWhere in Hx as [Hx (Hr & Hn & _)%nonceLive_row]. by destruct (Hs x Hx Hr).
Qed.
(** Opening the session leaves the nonces alone. *)
Lemma login_keeps_nonces t a rows : preserves (fun w => nonces w = rows) (login t a).
Proof.
  unfold login, newSessionToken, randomUUID.
  repeat first [apply preserves_bind; [|intros ?] | apply (preserves_onStore (fun db => table db "auth_nonces" = rows))].
  all: unfold Store.upsertUserByWallet, Store.touchLogin, Store.createProfile, Store.returnedId, Store.createSession, Store.logActivity.
  all: keeps_table.
Qed.

(** C22. A login nonce is single use: a verification request succeeds only
    for a nonce row of its wallet type and address that is unconsumed and not
    expired and whose message the request's signature signs; afterwards the
    nonce is spent, and a request with a spent nonce is answered 401 and
    changes nothing. *)
Theorem nonce_single_use t r w b address :
  Schemas.parse Schemas.authVerifySchema (body r) = Ok b -> normalizeAddress t (strField b "address") = Ok address ->
  wfNonces w ->
  (forall resp w', verifyHandler t r w = (Ok resp, w') -> code resp = 200 ->
     spent t address (strField b "nonce") w' /\
     exists x, x ∈ nonces w /\ nonceRow t address (strField b "nonce") x = true /\ get x "consumed_at" = JNull /\
       clock (adb w) < numOf (get x "expires_at") /\
       verifyWalletSignature t address (textOf (get x "message")) (strField b "signature") = true) /\
  (spent t address (strField b "nonce") w ->
     verifyHandler t r w = (Ok (replyCode 401 (err "invalid or expired nonce")), w)).
Proof.
  intros Hb Ha Hwf. split.
  - intros resp w' Hv Hc. unfold verifyHandler, parseM in Hv. lift_ok Hv as b' Eb. rewrite Hb in Eb. injection Eb as <-.
    lift_ok Hv as a' Ea. rewrite Ha in Ea. injection Ea as <-. bind_ok Hv as m w1 Em. unfold onStore in Em.
    destruct (Store.consumeNonce _ _ _ (adb w)) as [rm db1] eqn:Ec. injection Em as -> <-.
    destruct (truthyOpt m) as [msg|] eqn:Et; [|apply ret_Ok in Hv as [-> _]; done].
    apply truthyOpt_Some in Et as [-> _]. apply consumeNonce_Ok in Ec as (x & Hx & Hl & -> & Hs); [|done].
    destruct (verifyWalletSignature _ _ _ _) eqn:Ev; [|apply ret_Ok in Hv as [-> _]; done]. cbn [negb] in Hv.
    pose proof (login_keeps_nonces t address _ (mkApi db1 (acache w)) eq_refl) as Hk. rewrite Hv in Hk.
    split; [intros y Hy; apply Hs; unfold nonces in *; simpl in Hk; by rewrite <- Hk|].
    apply nonceLive_row in Hl as (? & ? & ?). by exists x.
  - intros Hs. unfold verifyHandler, parseM, mbind, M_bind, liftR. rewrite Hb, Ha. unfold onStore.
    rewrite consumeNonce_spent by done. by destruct w.
Qed.
End Routes.

(** ** Witness: a nonce, its login, and the refused replay *)
Definition toyWallets : Wallets := {|
  getAddress a := Ok a; verifyMessage m s := Ok s; stellarVerify a m s := Ok (s ==? m) |}.
Definition toyVerify (nonce : string) : Request :=
  mkRequest [] [] [] (JObj [("address", JStr "0xA"); ("signature", JStr "0xA"); ("nonce", JStr nonce)]).
Definition toyNonceRequest : Request := mkRequest [] [] [] (JObj [("wallet_type", JStr "EVM"); ("address", JStr "0xA")]).
Definition toyIssued : result Response * Api :=
  @post_auth_nonce toyUuid Schemas.toyZod toyWallets toyNonceRequest toyApi.
Definition toyLoggedIn : result Response * Api :=
  @verifyHandler toyUuid Schemas.toyZod Toy.toy_sha ToyRuntime.toy_random toyWallets EVM (toyVerify "uuid0") toyIssued.2.
Lemma wfNonces_one w x : nonces w = [x] -> JsMap.get x "consumed_at" ≠ None -> wfNonces w.
Proof. intros E Hx. split; rewrite E; intros; set_solver. Qed.
Lemma nonce_single_use_witness :
  match toyLoggedIn with
  | (Ok resp, w') => code resp = 200 /\ spent EVM "0xA" "uuid0" w'
  | _ => False
  end.
Proof.
  destruct toyLoggedIn as [[resp|e] w'] eqn:E; [|exfalso; revert E; vm_compute; discriminate].
  assert (code resp = 200) as Hc by (revert E; vm_compute; by intros [= <- _]).
  split; [exact Hc|].
  assert (wfNonces toyIssued.2) as Hwf.
  { eapply wfNonces_one; [vm_compute; reflexivity|vm_compute; discriminate]. }
  exact (proj1 (proj1 (@nonce_single_use toyUuid Schemas.toyZod Toy.toy_sha ToyRuntime.toy_random toyWallets EVM
    (toyVerify "uuid0") toyIssued.2 _ "0xA" eq_refl eq_refl Hwf) resp w' E Hc)).
Defined.
End RoutesAccount.
