(* ===== verification/RoutesVault.v ===== *)
(** * Deposit, note and vault routes (apps/api/src/routes.ts)

    The user-signed CCTP deposit, the encrypted note vaults and the recovery
    endpoints.  Theorem: a deposit is only prepared for a linked wallet and an
    owned vault with a verified backup and a sufficient recovery policy, and
    the amounts, route and hook it returns are the ones of the request. *)
From S2P Require Import Prelude JsText JsCollections Json Crypto Base64 Ids JobQueue Database Runtime NoteVault Store Privy Schemas ApiAuth Cctp NoteCrypto.
From Stdlib Require Import Ascii.
Import JsText Json Crypto Database Runtime Privy ApiAuth.

Module RoutesVault.

Section Routes.
Context `{Env} `{Uuid} `{Schemas.Zod} `{WebKeys} `{Fetch} `{Sha256} `{Ids.LocaleCompare} `{Cctp.StrKey} `{NoteCrypto.Poseidon}.

Definition depositId (r : Request) : string := param r "deposit_id".
Definition vaultId (r : Request) : string := param r "vault_id".

(** ** User-signed deposits *)
Definition orEnv (v d : string) : string := orElse (truthyOpt (env v)) d.
Definition maxFeeOf (amount6 : Z) : Z := if 0 <? Z.quot amount6 1000 then Z.quot amount6 1000 else 1.
Definition notReady (r : option Store.DepositReady) : error :=
  Error (Some 409) ("vault not deposit-ready (backup="
    +:+ match r with Some r => Store.backup_status r | None => "undefined" end +:+ ", policy="
    +:+ match r with Some r => Store.recovery_policy_status r | None => "undefined" end +:+ ")").
Definition deposit_prepare_reply (depositId usdcAddress tokenMessenger pool mintRecipient destinationCaller hookData : string)
    (amount6 : Z) : json :=
  let maxFee := JStr (toString (maxFeeOf amount6)) in
  JObj
    [("deposit_id", JStr depositId);
     ("approval_tx_request", JObj
        [("to", JStr usdcAddress); ("abi", JStr "function approve(address,uint256)");
         ("args", JArr [JStr tokenMessenger; JStr (toString amount6)])]);
     ("burn_tx_request", JObj
        [("to", JStr tokenMessenger);
         ("abi", JStr "function depositForBurnWithHook(uint256,uint32,bytes32,address,bytes32,uint256,uint32,bytes)");
         ("args", JArr [JStr (toString amount6); JNum Cctp.stellarDomain; JStr mintRecipient; JStr usdcAddress;
                        JStr destinationCaller; maxFee; JNum Cctp.FINALITY_THRESHOLD_CONFIRMED; JStr hookData])]);
     ("usdc_address", JStr usdcAddress); ("token_messenger_address", JStr tokenMessenger);
     ("destination_domain", JNum Cctp.stellarDomain); ("mint_recipient", JStr mintRecipient);
     ("destination_caller", JStr destinationCaller); ("hook_data", JStr hookData); ("forward_recipient", JStr pool);
     ("max_fee", maxFee); ("finality_threshold", JNum Cctp.FINALITY_THRESHOLD_CONFIRMED);
     ("expected_amount_7dp_max", JStr (toString (Cctp.usdc6ToStellar7 amount6)))].
(** The guards, in order; the amount they admit. *)
Definition depositGuards (userId : string) (b : json) : M Api Z :=
  guardM (field b "source_chain" ==? JStr "arbitrum-sepolia") (Error (Some 400) "unsupported source_chain") ;;
  amount6 ← liftR (BigInt (strField b "amount_usdc_6dp"));
  guardM (negb (amount6 <=? 0)) (Error (Some 400) "amount must be positive") ;;
  wallet ← onStore (Store.userOwnsWallet userId (strField b "source_wallet_address") None);
  guardM wallet (Error (Some 403) "source wallet not linked to user") ;;
  vault ← onStore (Store.userOwnsVault userId (strField b "vault_id"));
  guardM vault (Error (Some 403) "vault not owned by user") ;;
  ready ← onStore (Store.vaultDepositReady userId (strField b "vault_id"));
  guardM (match ready with Some r => Store.ready r | None => false end) (notReady ready) ;;
  assertRootHealthy ;;
  mret amount6.
Definition post_deposits_prepare (r : Request) : M Api Response :=
  auth ← requirePrivyUser r;
  b ← parseM Schemas.userDepositPrepareSchema (body r);
  idempotencyKey ← idem r;
  amount6 ← depositGuards (p_userId auth) b;
  let usdcAddress := orEnv "ARB_SEPOLIA_USDC_ADDRESS" Cctp.arbitrumSepoliaUsdc in
  let tokenMessenger := orEnv "ARB_SEPOLIA_CCTP_TOKEN_MESSENGER" Cctp.arbitrumSepoliaTokenMessenger in
  let forwarder := orEnv "STELLAR_CCTP_FORWARDER_CONTRACT" Cctp.stellarCctpForwarder in
  let pool := orEnv "SHIELDED_POOL_CONTRACT" "" in
  mintRecipient ← liftR (Cctp.stellarContractToBytes32 forwarder);
  destinationCaller ← liftR (Cctp.stellarContractToBytes32 forwarder);
  hookData ← liftR (Cctp.encodeStellarForwardHook pool);
  let id := Ids.deterministicId (Ids.mkIdInput "udep" [idempotencyKey; strField b "commitment"]) in
  onStore (Store.createUserDeposit (Store.mkUserDeposit
    (Store.mkDeposit id idempotencyKey Cctp.arbitrumSepoliaDomain Cctp.stellarDomain usdcAddress (toString amount6)
       (toString (Cctp.usdc6ToStellar7 amount6)) (strField b "commitment") (strField b "encrypted_note_payload_hash")
       (strField b "policy_id") "prepared")
    (p_userId auth) (strField b "source_chain") (strField b "source_wallet_address") (strField b "vault_id"))) ;;
  logActivity (Some (p_userId auth)) "deposit.prepare" "deposit" id ;;
  mret (reply (deposit_prepare_reply id usdcAddress tokenMessenger pool mintRecipient destinationCaller hookData amount6)).

(** [dep.max_fee] is not a column, so [expected_max_fee6] is undefined and
    leaves no entry in the payload. *)
Definition burnJobPayload (depositId : string) (b : json) (dep : Row) : json :=
  JObj ([("deposit_id", JStr depositId); ("burn_tx_hash", field b "burn_tx_hash");
         ("source_wallet_address", field b "source_wallet_address"); ("expected_amount6", get dep "amount_usdc_6dp");
         ("commitment", get dep "commitment"); ("vault_id", get dep "vault_id");
         ("expected_finality", JNum Cctp.FINALITY_THRESHOLD_CONFIRMED)]
        ++ (match get dep "max_fee" with JNull => [] | fee => [("expected_max_fee6", fee)] end)
        ++ [("encryptedNotePayloadHashHex", get dep "encrypted_note_payload_hash"); ("policyIdHex", get dep "policy_id")]).
(** [String(v)] of a column. *)
Definition columnText (j : json) : string := match j with JNull => "null" | _ => Cctp.stringOf j end.
Definition post_burn_submitted (r : Request) : M Api Response :=
  auth ← requirePrivyUser r;
  b ← parseM Schemas.burnSubmittedSchema (body r);
  dep ← onStore (Store.getDepositForUser (p_userId auth) (depositId r));
  match dep with
  | None => mret (replyCode 404 (err "deposit not found"))
  | Some dep =>
      if negb (toLowerCase (columnText (get dep "source_wallet_address")) ==? toLowerCase (strField b "source_wallet_address"))
      then mret (replyCode 403 (err "wallet mismatch"))
      else
        onStore (Store.setDepositBurnTx (depositId r) (strField b "burn_tx_hash")) ;;
        job ← enqueueJob JobQueue.relayer "CCTP_INBOUND_AFTER_USER_BURN" (burnJobPayload (depositId r) b dep)
                (Some ("user-burn:" +:+ depositId r));
        onStore (Store.logActivity (Some (p_userId auth))
          (Store.mkActivity "deposit.burn_submitted" (Some "deposit") (Some (depositId r)) (Some (strField b "burn_tx_hash")) None)) ;;
        mret (queued [("deposit_id", JStr (depositId r))] job)
  end.
Definition getRow (t idColumn : string) (id : string) : M Api Response :=
  row ← onStore (Store.getById t idColumn id); mret (reply (Store.optRow row)).
Definition get_deposit (r : Request) : M Api Response := getRow "cctp_deposits" "deposit_id" (depositId r).
(** The granular relayer steps. *)
Definition depositStep (jobType : string) (r : Request) : M Api Response :=
  job ← enqueueJob JobQueue.relayer jobType (JObj (spread [("deposit_id", JStr (depositId r))] (entriesOf (body r))))
          (Some (jobType +:+ ":" +:+ depositId r));
  mret (queued [("deposit_id", JStr (depositId r))] job).
Definition depositSteps : list (string * string) :=
  [("process", "CCTP_INBOUND"); ("submit-burn", "CCTP_INBOUND_BURN"); ("fetch-attestation", "CCTP_FETCH_ATTESTATION");
   ("mint-forward", "STELLAR_MINT_FORWARD"); ("register-note", "REGISTER_NOTE")].

(** ** Notes *)
Definition post_notes_commitment (r : Request) : M Api Response :=
  note ← liftR (NoteCrypto.noteOf (body r));
  c ← liftR (NoteCrypto.poseidonCommitment note);
  mret (reply (JObj [("commitment", JStr c)])).
Definition get_note_status (r : Request) : M Api Response := getRow "note_commitments" "commitment" (param r "commitment").
Definition post_encrypted_backup (r : Request) : M Api Response :=
  userId ← authedUser r;
  b ← parseM Schemas.noteBackupSchema (body r);
  onStore (Store.addNoteBackup userId (strField b "commitment") (strField b "encrypted_payload") (strField b "encryption_version")) ;;
  logActivity (Some userId) "note.backup" "note" (strField b "commitment") ;;
  mret (reply (JObj [("ok", JBool true); ("commitment", field b "commitment")])).
Definition noPlaintext (j : json) : M Api unit := liftR (NoteVault.assertNoPlaintextNoteFields j).
Definition post_notes_recover (r : Request) : M Api Response :=
  auth ← requirePrivyUser r;
  b ← parseM Schemas.noteRecoverSchema (nullish (body r) (JObj []));
  let vid := match field b "vault_id" with JStr v => Some v | _ => None end in
  vaults ← onStore (Store.listNoteVaultsForRecovery (p_userId auth) vid);
  foreachM (fun v => noPlaintext (get v "envelope")) vaults ;;
  noteBackups ← onStore (Store.listByUser "encrypted_note_backups" (p_userId auth));
  onStore (Store.logActivity (Some (p_userId auth)) (Store.mkActivity "notes.recover" None None None
    (Some (JObj [("vault_count", JNum (Z.of_nat (length vaults))); ("backup_count", JNum (Z.of_nat (length noteBackups)));
                 ("vault_id", field b "vault_id")])))) ;;
  now ← onStore dateNow;
  mret (reply (JObj
    [("vaults", JArr (map (fun v => JObj (project ["vault_id"; "envelope"; "backup_status"; "recovery_policy_status"; "created_at"] v)) vaults));
     ("note_backups", Store.rowsJson noteBackups); ("recovery_started_at", JStr (toISOString now))])).

(** ** Note vaults *)
Definition ingestEnvelope (envelope : json) : M Api NoteVault.RecoveryPolicyStatus :=
  liftR (NoteVault.validateVaultEnvelope envelope) ;;
  noPlaintext envelope ;;
  mret (recoveryPolicyFor (itemsOf (field envelope "wrappers"))).
Definition vaultInput (e : json) (policy : NoteVault.RecoveryPolicyStatus) : Store.VaultInput :=
  Store.mkVaultInput e (strField e "ciphertext") (field e "aad") (NoteVault.policyText policy).
Definition post_note_vaults (r : Request) : M Api Response :=
  auth ← requirePrivyUser r;
  noPlaintext (body r) ;;
  e ← parseM Schemas.encryptedVaultEnvelopeSchema (field (body r) "envelope");
  guardM (field e "privy_user_id" ==? JStr (p_privyUserId auth)) (Error (Some 403) "envelope privy_user_id mismatch") ;;
  policy ← ingestEnvelope e;
  onStore (Store.createNoteVault (p_userId auth) (p_privyUserId auth) (strField e "vault_id") (vaultInput e policy)) ;;
  foreachM (fun w => onStore (Store.addVaultWrapper (p_userId auth) (strField e "vault_id") (strField w "type") (field w "metadata")) ;; mret tt)
    (itemsOf (field e "wrappers")) ;;
  onStore (Store.logActivity (Some (p_userId auth)) (Store.mkActivity "vault.create" (Some "vault") (Some (strField e "vault_id")) None
    (Some (JObj [("recovery_policy_status", JStr (NoteVault.policyText policy))])))) ;;
  mret (reply (JObj [("vault_id", field e "vault_id"); ("backup_status", JStr "created");
                     ("recovery_policy_status", JStr (NoteVault.policyText policy))])).
Definition get_note_vaults (r : Request) : M Api Response :=
  auth ← requirePrivyUser r;
  vs ← onStore (Store.listNoteVaults (p_userId auth));
  mret (reply (JObj [("vaults", Store.rowsJson vs)])).
Definition get_note_vault (r : Request) : M Api Response :=
  auth ← requirePrivyUser r;
  v ← onStore (Store.getNoteVault (p_userId auth) (vaultId r));
  match v with None => httpM 404 "vault not found" | Some v => mret (reply (Store.rowJson v)) end.
Definition put_note_vault (r : Request) : M Api Response :=
  auth ← requirePrivyUser r;
  noPlaintext (body r) ;;
  e ← parseM Schemas.encryptedVaultEnvelopeSchema (field (body r) "envelope");
  guardM ((field e "vault_id" ==? JStr (vaultId r)) && (field e "privy_user_id" ==? JStr (p_privyUserId auth)))
    (Error (Some 403) "vault id / identity mismatch") ;;
  policy ← ingestEnvelope e;
  ok ← onStore (Store.updateNoteVault (p_userId auth) (vaultId r) (vaultInput e policy));
  guardM ok (Error (Some 404) "vault not found") ;;
  mret (reply (JObj [("vault_id", JStr (vaultId r)); ("recovery_policy_status", JStr (NoteVault.policyText policy))])).
Definition readyEntries (r : option Store.DepositReady) : list (string * json) :=
  match r with
  | Some r => [("ready", JBool (Store.ready r)); ("backup_status", JStr (Store.backup_status r));
               ("recovery_policy_status", JStr (Store.recovery_policy_status r))]
  | None => []
  end.
Definition post_verify_backup (r : Request) : M Api Response :=
  auth ← requirePrivyUser r;
  b ← parseM Schemas.verifyBackupSchema (body r);
  let v := field b "verification" in
  if negb (field v "vault_id" ==? JStr (vaultId r)) then mret (replyCode 400 (err "verification vault_id mismatch"))
  else
    vault ← onStore (Store.getNoteVault (p_userId auth) (vaultId r));
    match vault with
    | None => mret (replyCode 404 (err "vault not found"))
    | Some vault =>
        let p := strField (JObj vault) "recovery_policy_status" in
        if negb (p ==? "sufficient") && negb (p ==? "strong")
        then mret (replyCode 409 (err ("recovery policy insufficient (" +:+ p +:+ ")")))
        else
          onStore (Store.setVaultBackupVerified (p_userId auth) (vaultId r) v) ;;
          onStore (Store.logActivity (Some (p_userId auth)) (Store.mkActivity "vault.backup_verified" (Some "vault") (Some (vaultId r))
            None (Some (JObj [("method", field v "method")])))) ;;
          ready ← onStore (Store.vaultDepositReady (p_userId auth) (vaultId r));
          mret (reply (JObj (spread [("vault_id", JStr (vaultId r)); ("backup_status", JStr "verified")] (readyEntries ready))))
    end.
Definition post_mark_restored (r : Request) : M Api Response :=
  auth ← requirePrivyUser r;
  ok ← onStore (Store.setVaultBackupStatus (p_userId auth) (vaultId r) "restored");
  if negb ok then mret (replyCode 404 (err "vault not found"))
  else
    logActivity (Some (p_userId auth)) "vault.restored" "vault" (vaultId r) ;;
    mret (reply (JObj [("vault_id", JStr (vaultId r)); ("backup_status", JStr "restored")])).
Definition post_wrappers (r : Request) : M Api Response :=
  auth ← requirePrivyUser r;
  noPlaintext (body r) ;;
  b ← parseM Schemas.addWrapperSchema (body r);
  let e := field b "envelope" in
  guardM (field e "vault_id" ==? JStr (vaultId r)) (Error (Some 403) "vault id mismatch") ;;
  policy ← ingestEnvelope e;
  onStore (Store.updateNoteVault (p_userId auth) (vaultId r) (vaultInput e policy)) ;;
  wrapperId ← onStore (Store.addVaultWrapper (p_userId auth) (vaultId r) (strField (field b "wrapper") "type")
                         (field (field b "wrapper") "metadata"));
  mret (reply (JObj [("wrapper_id", JStr wrapperId); ("recovery_policy_status", JStr (NoteVault.policyText policy))])).
Definition delete_wrapper (r : Request) : M Api Response :=
  auth ← requirePrivyUser r;
  ok ← onStore (Store.deleteVaultWrapper (p_userId auth) (vaultId r) (param r "wrapper_id"));
  mret (if negb ok then replyCode 404 (err "wrapper not found") else reply (JObj [("ok", JBool true)])).

(** ** When a deposit may be prepared *)
Record depositable (userId : string) (b : json) (w : Api) (amount6 : Z) : Prop := {
  dp_chain : field b "source_chain" = JStr "arbitrum-sepolia";
  dp_amount : BigInt (strField b "amount_usdc_6dp") = Ok amount6 /\ 0 < amount6;
  dp_wallet : exists x, x ∈ table (adb w) "user_wallets" /\ get x "user_id" = JStr userId /\
    toLowerCase (strField (JObj x) "address") = toLowerCase (strField b "source_wallet_address");
  dp_vault : exists v, v ∈ table (adb w) "note_vaults" /\ get v "user_id" = JStr userId /\
    get v "vault_id" = JStr (strField b "vault_id") /\ strField (JObj v) "backup_status" = "verified" /\
    strField (JObj v) "recovery_policy_status" ∈ ["sufficient"; "strong"];
  dp_root : rootHealthy w }.
(** The guards only read. *)
Lemma depositGuards_state userId b w r w' : depositGuards userId b w = (r, w') -> w' = w.
Proof.
  intros E. assert (preserves (fun x => x = w) (depositGuards userId b)) as Hp.
  { assert (forall A (m : M DB A), preserves (fun d => d = adb w) m -> preserves (fun x => x = w) (onStore m)) as Hs.
    { intros A m Hm x ->. unfold onStore. specialize (Hm (adb w) eq_refl). destruct (m (adb w)) as [a d]. simpl in *.
      subst. by destruct w. }
    unfold depositGuards, assertRootHealthy, Store.criticalRootMismatchCount.
    repeat first [apply preserves_bind; [|intros ?] | apply preserves_guard | apply preserves_lift | apply preserves_ret
                 | apply Hs | apply preserves_throw | apply preserves_catch; [|intros ?] | apply preserves_select
                 | progress case_match]. }
  specialize (Hp w eq_refl). by rewrite E in Hp.
Qed.
Lemma onStore_rows {A} (t : string) p (f : list Row -> A) w a w' :
  onStore (rows ← select schemaOf t p; mret (f rows)) w = (Ok a, w') -> a = f (selectWhere p (table (adb w) t)) /\ w' = w.
Proof.
  intros (db & E & ->)%onStore_Ok. bind_ok E as rows db1 Es. apply select_Ok in Es as [-> ->]. apply ret_Ok in E as [-> ->].
  by destruct w.
Qed.
Lemma depositGuards_Ok userId b w amount6 w' :
  depositGuards userId b w = (Ok amount6, w') -> depositable userId b w amount6.
Proof.
  intros Hg. unfold depositGuards in Hg. bind_ok Hg as u1 w1 E1. apply guardM_Ok in E1 as [E1%bool_decide_eq_true ->].
  lift_ok Hg as a Ea. bind_ok Hg as u2 w2 E2. apply guardM_Ok in E2 as [E2 ->]. rewrite negb_true_iff, Z.leb_gt in E2.
  bind_ok Hg as ow w3 E3. apply onStore_rows in E3 as [-> ->]. bind_ok Hg as u3 w4 E4. apply guardM_Ok in E4 as [E4 ->].
  bind_ok Hg as ov w5 E5. apply onStore_rows in E5 as [-> ->]. bind_ok Hg as u4 w6 E6. apply guardM_Ok in E6 as [_ ->].
  bind_ok Hg as rd w7 E7. apply onStore_Ok in E7 as (db & E7 & ->). unfold Store.vaultDepositReady in E7.
  bind_ok E7 as v db1 Ev. apply selectFirst_Ok in Ev as [-> Ev]. apply ret_Ok in E7 as [-> ->].
  bind_ok Hg as u5 w8 E8. apply guardM_Ok in E8 as [E8 ->]. bind_ok Hg as u6 w9 E9.
  apply assertRootHealthy_Ok in E9 as [-> E9]. apply ret_Ok in Hg as [-> _].
  split; [done|by split| | |by destruct w].
  - apply Z.ltb_lt in E4. apply rowCount_pos in E4 as (x & Hx & Hp). rewrite !andb_true_iff in Hp.
    destruct Hp as [[Hu%eqText_true Hs%bool_decide_eq_true] _]. by exists x.
  - destruct v as [v|]; [|done]. symmetry in Ev. apply head_selectWhere in Ev as [Hv Hp]. unfold Store.ownVault, Store.andB in Hp.
    apply andb_true_iff in Hp as [Hu%eqText_true Hid%eqText_true]. exists v. simpl in E8.
    rewrite andb_true_iff, orb_true_iff, !bool_decide_eq_true in E8. destruct E8 as [Hb Hp]. split_and!; try done. set_solver.
Qed.

(** The deposit row of a prepared deposit. *)
Record preparedRow (id userId : string) (b : json) (amount6 : Z) (d : Row) : Prop := {
  pr_id : get d "deposit_id" = JStr id;
  pr_user : get d "user_id" = JStr userId;
  pr_amount6 : get d "amount_usdc_6dp" = JStr (toString amount6);
  pr_amount7 : get d "amount_usdc_7dp" = JStr (toString (amount6 * 10));
  pr_commitment : get d "commitment" = JStr (strField b "commitment");
  pr_vault : get d "vault_id" = JStr (strField b "vault_id");
  pr_state : get d "state" = JStr "prepared" }.
Lemma createUserDeposit_rows id key userId b amount6 usdc db u db' :
  Store.createUserDeposit (Store.mkUserDeposit
    (Store.mkDeposit id key Cctp.arbitrumSepoliaDomain Cctp.stellarDomain usdc (toString amount6)
       (toString (Cctp.usdc6ToStellar7 amount6)) (strField b "commitment") (strField b "encrypted_note_payload_hash")
       (strField b "policy_id") "prepared")
    userId (strField b "source_chain") (strField b "source_wallet_address") (strField b "vault_id")) db = (Ok u, db') ->
  (table db' "cctp_deposits" = table db "cctp_deposits" /\ exists o, o ∈ table db "cctp_deposits" /\ get o "deposit_id" = JStr id) \/
  exists d, table db' "cctp_deposits" = table db "cctp_deposits" ++ [d] /\ preparedRow id userId b amount6 d.
Proof.
  intros Hc. unfold Store.createUserDeposit in Hc. bind_ok Hc as rows db1 E. apply ret_Ok in Hc as [_ ->].
  apply insert_DoNothing_Ok in E as (s & d & [= <-] & Eb & Hd).
  match type of Eb with buildRow _ _ ?g _ = _ => set (given := g) in Eb end.
  assert (forall c k z, find (fun d => col d ==? c) (columns cctp_deposits) = Some k -> ctype k = CNum -> required k = true ->
    JsMap.get given (col k) =
      Some (JStr (toString z)) -> get d c = JStr (toString z)) as Hn.
  { intros c k z Hk Ht Hq Hj. destruct (buildRow_value _ _ _ _ _ _ _ Eb Hk) as (v & Hv & ->). unfold columnValue in Hv. rewrite Hj, Ht in Hv.
    unfold checkNull in Hv. rewrite Hq in Hv. destruct (coerce _ _) as [w|] eqn:Ec; [|done]. apply coerce_num in Ec as ->. by injection Hv as <-. }
  assert (forall c k v, find (fun d => col d ==? c) (columns cctp_deposits) = Some k ->
    columnValue (clock db) (ticks db) given k
      = Some v -> get d c = v) as Hg.
  { intros c k v Hk Hv. unfold get. by rewrite (buildRow_get _ _ _ _ _ _ _ _ Eb Hk Hv). }
  destruct Hd as [(_ & -> & o & Ho & Hc)|[_ ->]].
  { left. split; [done|]. exists o. split; [done|]. unfold clashes, agree in Hc. cbn [existsb forallb] in Hc.
    rewrite orb_false_r, andb_true_r in Hc. apply andb_true_iff in Hc as [_ Hc%bool_decide_eq_true]. rewrite <- Hc.
    by eapply Hg. }
  right. exists d. rewrite table_same. split; [done|].
  split; first [eapply Hg; reflexivity|eapply Hn; reflexivity].
Qed.

(** C11. A deposit is prepared only from Arbitrum Sepolia, for a positive
    amount, a wallet linked to the user and a vault of the user whose backup is
    verified under a sufficient recovery policy, with no critical root
    mismatch; the reply carries the requested amount, its tenfold on Stellar
    and the configured route, and the stored row, unless the table had one of
    that identifier before, the same.  A request that fails a guard changes nothing
    after authentication. *)
Theorem deposit_gate r w u w1 b key :
  requirePrivyUser r w = (Ok u, w1) -> Schemas.parse Schemas.userDepositPrepareSchema (body r) = Ok b ->
  idem r w1 = (Ok key, w1) ->
  let id := Ids.deterministicId (Ids.mkIdInput "udep" [key; strField b "commitment"]) in
  (forall resp w', post_deposits_prepare r w = (Ok resp, w') ->
     exists amount6 recipient hook, depositable (p_userId u) b w1 amount6 /\
       Cctp.stellarContractToBytes32 (orEnv "STELLAR_CCTP_FORWARDER_CONTRACT" Cctp.stellarCctpForwarder) = Ok recipient /\
       Cctp.encodeStellarForwardHook (orEnv "SHIELDED_POOL_CONTRACT" "") = Ok hook /\
       content resp = deposit_prepare_reply id (orEnv "ARB_SEPOLIA_USDC_ADDRESS" Cctp.arbitrumSepoliaUsdc)
         (orEnv "ARB_SEPOLIA_CCTP_TOKEN_MESSENGER" Cctp.arbitrumSepoliaTokenMessenger) (orEnv "SHIELDED_POOL_CONTRACT" "")
         recipient recipient hook amount6 /\
       ((table (adb w') "cctp_deposits" = table (adb w1) "cctp_deposits" /\
         exists d, d ∈ table (adb w1) "cctp_deposits" /\ get d "deposit_id" = JStr id) \/
        exists d, table (adb w') "cctp_deposits" = table (adb w1) "cctp_deposits" ++ [d] /\
          preparedRow id (p_userId u) b amount6 d)) /\
  (forall e w2, depositGuards (p_userId u) b w1 = (Throw e, w2) -> post_deposits_prepare r w = (Throw e, w1)).
Proof.
  intros Hu Hb Hk id. split.
  - intros resp w' Hr. unfold post_deposits_prepare in Hr. bind_ok Hr as u' w2 E. rewrite Hu in E. injection E as <- <-.
    unfold parseM in Hr. lift_ok Hr as b' E. rewrite Hb in E. injection E as <-.
    bind_ok Hr as key' w2 E. rewrite Hk in E. injection E as <- <-. bind_ok Hr as amount6 w2 Eg.
    pose proof (depositGuards_state _ _ _ _ _ Eg) as ->. apply depositGuards_Ok in Eg.
    lift_ok Hr as recipient E1. lift_ok Hr as caller E2. rewrite E1 in E2. injection E2 as <-. lift_ok Hr as hook E3.
    bind_ok Hr as u1 w2 E4. apply onStore_Ok in E4 as (db1 & E4 & ->). bind_ok Hr as u2 w3 E5. apply ret_Ok in Hr as [-> ->].
    exists amount6, recipient, hook. split_and!; [done|done|done|done|].
    assert (table (adb w3) "cctp_deposits" = table db1 "cctp_deposits") as ->.
    { pose proof (preserves_onStore (fun db => table db "cctp_deposits" = table db1 "cctp_deposits")
        (Store.logActivity (Some (p_userId u)) (Store.mkActivity "deposit.prepare" (Some "deposit") (Some id) None None))) as Hp.
      specialize (Hp ltac:(unfold Store.logActivity; keeps_table) (mkApi db1 (acache w1)) eq_refl).
      unfold logActivity in E5. fold id in E5. by rewrite E5 in Hp. }
    by apply createUserDeposit_rows in E4.
  - intros e w2 Eg. pose proof (depositGuards_state _ _ _ _ _ Eg) as ->.
    unfold post_deposits_prepare, parseM, mbind, M_bind, liftR. by rewrite Hu, Hb, Hk, Eg.
Qed.
End Routes.

(** ** Witness: a deposit into a verified vault *)
Definition toyStrKey : Cctp.StrKey := {| Cctp.decodeContract s := Some s; Cctp.decodePublicKey s := Some s |}.
Definition toyDepositApi : Api :=
  mkApi (mkDB (list_to_map
    [("users", [[("id", JStr "u1"); ("privy_user_id", JStr "did:privy:1")]]);
     ("user_wallets", [[("user_id", JStr "u1"); ("address", JStr "0xABC")]]);
     ("note_vaults", [[("user_id", JStr "u1"); ("vault_id", JStr "v1"); ("backup_status", JStr "verified");
                       ("recovery_policy_status", JStr "strong")]])])
    (JobQueue.mkDB [] [] 5000) 0) (mkCache None []).
Definition toyDepositBody : json :=
  JObj [("amount_usdc_6dp", JStr "1500"); ("source_chain", JStr "arbitrum-sepolia"); ("source_wallet_address", JStr "0xabc");
        ("vault_id", JStr "v1"); ("commitment", JStr "0xc"); ("encrypted_note_payload_hash", JStr "0xh"); ("policy_id", JStr "p")].
Definition toyDepositRequest : Request :=
  mkRequest [("authorization", "Bearer " +:+ toyToken); ("idempotency-key", "key-0001")] [] [] toyDepositBody.
Definition toyDeposit :=
  @post_deposits_prepare toyPrivyEnv toyUuid Schemas.toyZod toyKeys toyJwks Toy.toy_sha toyStrKey toyDepositRequest toyDepositApi.
Definition toyDepositAuth := @requirePrivyUser toyPrivyEnv toyKeys toyJwks (@storePrivyDb toyUuid) toyDepositRequest toyDepositApi.
Definition toyClaims : PrivyClaims := mkClaims "did:privy:1" "app-1" "privy.io" JNull (JNum 100) JNull.
Lemma deposit_gate_witness :
  match toyDeposit with
  | (Ok _, w') => depositable "u1" toyDepositBody toyDepositAuth.2 1500
  | _ => False
  end.
Proof.
  destruct toyDeposit as [[resp|e] w'] eqn:E; [|exfalso; revert E; vm_compute; discriminate].
  assert (toyDepositAuth = (Ok (mkUser "u1" "did:privy:1" toyClaims), toyDepositAuth.2)) as Ha by (vm_compute; reflexivity).
  destruct (proj1 (@deposit_gate toyPrivyEnv toyUuid Schemas.toyZod toyKeys toyJwks Toy.toy_sha toyStrKey toyDepositRequest
    toyDepositApi _ _ toyDepositBody "key-0001" Ha ltac:(vm_compute; reflexivity) ltac:(vm_compute; reflexivity)) resp w' E)
    as (amount6 & recipient & hook & Hd & _).
  assert (amount6 = 1500) as <-; [|exact Hd].
  destruct Hd as [_ [Hb _] _ _ _]. revert Hb. vm_compute. by intros [= <-].
Defined.
End RoutesVault.
