(* ===== verification/StellarActions.v ===== *)
(** * Unsigned Soroban transactions (packages/stellar-actions/src)

    The backend builds unsigned invocations and broadcasts signed ones.  The
    Soroban RPC server and the Stellar SDK are the class parameter
    [SorobanRpc]. *)
From S2P Require Import Prelude JsText Json Crypto Database Runtime.
Import JsText Json Crypto Database Runtime.

Module StellarActions.

Inductive ScVal := ScAddress (s : string) | ScBytes (b : bytes) | ScI128 (v : Z) | ScU32 (v : Z).
Record Network := mkNetwork { rpcUrl : string; passphrase : string }.

(** [getAccount], [contract.call], [prepareTransaction] and [toXDR];
    [sendTransaction] (hash and status); the status of the [k]-th
    [getTransaction]. *)
Class SorobanRpc := {
  prepareInvoke : Z -> Network -> string -> string -> string -> list ScVal -> result string;
  sendTransaction : Z -> Network -> string -> result (string * string);
  getTransaction : Z -> Network -> string -> result string }.

Definition testnet `{Env} : Network :=
  mkNetwork (orElse (env "STELLAR_RPC_URL") "https://soroban-testnet.stellar.org")
    (orElse (env "STELLAR_NETWORK_PASSPHRASE") "Test SDF Network ; September 2015").

Definition addr (s : string) : ScVal := ScAddress s.
Definition bytesVal (hex : string) : ScVal := ScBytes (hexDecode (strip0x hex)).
Definition i128 (v : Z) : ScVal := ScI128 v.
Definition u32 (v : Z) : ScVal := ScU32 v.

Definition withdrawParams (to proofHex publicHex : string) : list ScVal := [addr to; bytesVal proofHex; bytesVal publicHex].
Definition withdrawCctpParams (to proofHex publicHex : string) (destinationDomain : Z) (destinationRecipientHex maxFee : string)
    (minFinality : Z) : result (list ScVal) :=
  fee ← BigInt maxFee;
  mret [addr to; bytesVal proofHex; bytesVal publicHex; u32 destinationDomain; bytesVal destinationRecipientHex; i128 fee;
        u32 minFinality].

Section Rpc.
Context `{SorobanRpc}.
Definition buildInvokeXdr (k : Z) (n : Network) (source contractId method : string) (params : list ScVal) : result string :=
  prepareInvoke k n source contractId method params.
(** Up to 30 more polls while the transaction is not found. *)
Fixpoint pollTransaction (fuel : nat) (k : Z) (n : Network) (hash status : string) : result string :=
  match fuel with
  | O => Ok status
  | S f =>
      if status ==? "NOT_FOUND" then
        match getTransaction k n hash with
        | Ok status => pollTransaction f (k + 1) n hash status
        | Throw e => Throw e
        end
      else Ok status
  end.
Definition broadcastSignedXdr (k : Z) (n : Network) (signedXdr : string) : result (string * string) :=
  match sendTransaction k n signedXdr with
  | Throw e => Throw e
  | Ok (hash, status) =>
      if status ==? "ERROR" then Throw (Error None "Soroban sendTransaction error")
      else
        match getTransaction (k + 1) n hash with
        | Throw e => Throw e
        | Ok status =>
            match pollTransaction 30 (k + 2) n hash status with
            | Throw e => Throw e
            | Ok status =>
                if status ==? "SUCCESS" then Ok (hash, status)
                else Throw (Error None ("tx " +:+ hash +:+ " status " +:+ status))
            end
        end
  end.
End Rpc.
End StellarActions.
