(* ===== verification/RoutesTrade.v ===== *)
(** * Proof, withdrawal, RFQ and exit routes (apps/api/src/routes.ts)

    Proof jobs, withdrawals, intents with their MPC routing, quotes, fills,
    settlement and CCTP exits.  Theorems: a settlement is recorded only when
    the whole RFQ lifecycle holds, and no spend route acts while the root
    auditor reports a critical mismatch. *)
From S2P Require Import Prelude JsText JsCollections Json Crypto Base64 Ids JobQueue Database Runtime NoteVault Store Privy Schemas ApiAuth Cctp StellarActions.
From Stdlib Require Import Ascii.
Import JsText Json Crypto Database Runtime Privy ApiAuth.

Module RoutesTrade.

Section Routes.
Context `{Env} `{Uuid} `{Schemas.Zod} `{WebKeys} `{Fetch} `{Sha256} `{Ids.LocaleCompare} `{StellarActions.SorobanRpc}.

Definition getRow (t idColumn : string) (id : string) : M Api Response :=
  row ← onStore (Store.getById t idColumn id); mret (reply (Store.optRow row)).
Definition did (ns : string) (parts : list string) : string := Ids.deterministicId (Ids.mkIdInput ns parts).

(** ** Proof jobs *)
Definition post_proof_request (r : Request) : M Api Response :=
  userId ← authedUser r;
  b ← parseM Schemas.proofRequestSchema (JObj (spread (entriesOf (body r)) [("proof_type", JStr (param r "kind"))]));
  idempotencyKey ← idem r;
  let inputsHash := Ids.hashJson (field b "public_inputs") in
  let proofJobId := did "proof" [idempotencyKey; strField b "proof_type"; inputsHash] in
  onStore (Store.insertGeneric "proof_jobs"
    [("proof_job_id", JStr proofJobId); ("idempotency_key", JStr idempotencyKey); ("proof_type", field b "proof_type");
     ("public_inputs_hash", JStr inputsHash); ("user_id", JStr userId); ("status", JStr "queued")]) ;;
  toState "proof_job" proofJobId "queued" ;;
  job ← enqueueJob JobQueue.prover (strField b "proof_type")
          (JObj (spread (entriesOf (field b "witness")) [("user_id", JStr userId)])) (Some ("proof:" +:+ proofJobId));
  mret (queued [("proof_job_id", JStr proofJobId)] job).
Definition get_proof_job (r : Request) : M Api Response :=
  userId ← authedUser r;
  pj ← onStore (Store.getById "proof_jobs" "proof_job_id" (param r "proof_job_id"));
  match pj with
  | Some row => guardM (negb (foreign userId row)) (Error (Some 403) "not your proof job")
  | None => mret tt
  end ;;
  mret (reply (Store.optRow pj)).

Definition queueText (q : JobQueue.QueueName) : string := match q with JobQueue.prover => "prover" | JobQueue.relayer => "relayer" end.
Definition eventJson (e : string * option string * Z) : json :=
  JObj [("status", JStr e.1.1); ("detail", strOrNull e.1.2); ("created_at", JNum e.2)].
Definition jobReply (job : JobQueue.ServiceJob) (events : list (string * option string * Z)) : json :=
  JObj [("job_id", JStr (JobQueue.job_id job)); ("type", JStr (JobQueue.job_type job));
        ("queue", JStr (queueText (JobQueue.queue job))); ("status", JStr (JobQueue.status job));
        ("attempts", JNum (JobQueue.attempts job)); ("result", orElse (JobQueue.job_result job) JNull);
        ("error", strOrNull (JobQueue.job_error job)); ("events", JArr (map eventJson events))].
Definition get_job (r : Request) : M Api Response :=
  authedUser r ;;
  job ← onStore (onQueue (JobQueue.getJob (param r "job_id")));
  match job with
  | None => httpM 404 "job not found"
  | Some job =>
      events ← onStore (onQueue (JobQueue.getEvents (param r "job_id")));
      mret (reply (jobReply job events))
  end.

(** ** Withdrawals *)
Definition createWithdrawal (userId : string) (r : Request) : M Api Response :=
  b ← parseM Schemas.withdrawalSchema (body r);
  idempotencyKey ← idem r;
  let withdrawalId := did "wd" [idempotencyKey; strField b "nullifier"] in
  onStore (Store.insertGeneric "withdrawals"
    [("withdrawal_id", JStr withdrawalId); ("idempotency_key", JStr idempotencyKey); ("nullifier", field b "nullifier");
     ("amount_usdc_7dp", field b "amount_public"); ("recipient", field b "recipient"); ("relayer_fee", field b "relayer_fee");
     ("deadline_ledger", field b "deadline_ledger"); ("user_id", JStr userId); ("state", JStr "prepared")]) ;;
  toState "withdrawal" withdrawalId "prepared" ;;
  logActivity (Some userId) "withdrawal.prepare" "withdrawal" withdrawalId ;;
  mret (reply (JObj [("withdrawal_id", JStr withdrawalId)])).
(** Authenticate, then refuse while a critical root mismatch is open. *)
Definition spending (k : string -> M Api Response) (r : Request) : M Api Response :=
  userId ← authedUser r; assertRootHealthy ;; k userId.
Definition post_withdrawals_prepare (r : Request) : M Api Response := spending (fun userId => createWithdrawal userId r) r.
Definition post_withdrawals_build_xdr (r : Request) : M Api Response := spending (fun _ =>
  let b := nullish (body r) (JObj []) in
  guardM (truthyJson (field b "to") && truthyJson (field b "proofHex") && truthyJson (field b "publicHex"))
    (Error (Some 400) "to, proofHex, publicHex required") ;;
  n ← onStore tick;
  xdr ← liftR (StellarActions.buildInvokeXdr n StellarActions.testnet (strField b "to") (orElse (env "SHIELDED_POOL_CONTRACT") "")
                 "withdraw" (StellarActions.withdrawParams (strField b "to") (strField b "proofHex") (strField b "publicHex")));
  mret (reply (JObj [("unsigned_xdr", JStr xdr); ("sign_with", JStr "stellar_wallet");
                     ("submit_to", JStr "/v1/withdrawals/submit (signedXdr)")]))) r.
(** [b.idempotency_key ? `prefix:${b.idempotency_key}` : undefined]. *)
Definition submitKey (prefix : string) (b : json) : option string :=
  if truthyJson (field b "idempotency_key") then Some (prefix +:+ ":" +:+ Cctp.stringOf (field b "idempotency_key")) else None.
Definition post_withdrawals_submit (r : Request) : M Api Response := spending (fun _ =>
  let b := nullish (body r) (JObj []) in
  job ← enqueueJob JobQueue.relayer "WITHDRAW_PUBLIC_SUBMIT" b (submitKey "wd-submit" b);
  mret (queued [] job)) r.
Definition get_withdrawal (r : Request) : M Api Response := getRow "withdrawals" "withdrawal_id" (param r "withdrawal_id").

(** ** Intents *)
Definition mpcUrl : string := orElse (env "MPC_COMMITTEE_URL") "http://localhost:8090".
Definition shareRow (intentHash : string) (share : json) : Row :=
  [("intent_id", JStr intentHash); ("node_id", field share "nodeId"); ("ciphertext", field share "ciphertext");
   ("nonce", field share "nonce"); ("sender_pubkey", field share "senderPubkey")].
Definition insertShare (intentHash : string) (share : json) : M DB unit :=
  insert schemaOf "mpc_intent_shares" (shareRow intentHash share) (DoNothing (Some ["intent_id"; "node_id"])) ;; mret tt.
(** The session row first (foreign key), then the intent, re-pointed to the
    new session when it exists. *)
Definition insertSession (sid : json) : M DB unit :=
  if truthyJson sid then insert schemaOf "mpc_sessions" [("session_id", sid)] (DoNothing None) ;; mret tt else mret tt.
Definition insertMpcIntent (row : Row) : M DB unit :=
  now ← dateNow;
  insert schemaOf "mpc_intents" row
    (DoUpdate ["intent_id"] (fun excluded => [("session_id", get excluded "session_id"); ("updated_at", JNum now)])) ;;
  mret tt.
Definition zeroRecipient : string := "0x" +:+ repeatString 64 "0"%char.
Definition mpcIntentJson (intentHash userId : string) (b : json) (now : Z) : json :=
  JObj [("intentId", JStr intentHash); ("userId", JStr userId); ("inputAsset", field b "input_asset");
        ("outputAsset", field b "output_asset"); ("expiryLedger", field b "expiry_ledger");
        ("policyId", field b "compliance_policy_id"); ("noteNullifier", field b "note_nullifier");
        ("noteCommitment", field b "note_commitment");
        ("recipientCommitment", nullish (field b "recipient_commitment") (JStr zeroRecipient));
        ("encryptedShares", field b "encrypted_shares"); ("submittedAt", JNum now)].
Definition sessionOf (data : json) : json := nullish (field data "sessionId") (field data "session_id").
Definition mpcIntentRow (intentHash userId : string) (b sid : json) : Row :=
  [("intent_id", JStr intentHash); ("session_id", nullish sid (JStr "unknown")); ("user_id", JStr userId);
   ("input_asset", field b "input_asset"); ("output_asset", field b "output_asset"); ("expiry_ledger", field b "expiry_ledger");
   ("policy_id", field b "compliance_policy_id"); ("note_nullifier", field b "note_nullifier");
   ("note_commitment", field b "note_commitment"); ("recipient_commitment", nullish (field b "recipient_commitment") (JStr ""));
   ("status", JStr "pending")].
Definition recordRouting (intentHash userId : string) (b sid : json) : M DB unit :=
  insertSession sid ;;
  insertMpcIntent (mpcIntentRow intentHash userId b sid) ;;
  foreachM (insertShare intentHash) (itemsOf (field b "encrypted_shares")) ;;
  update schemaOf "intents" (eqText "intent_hash" intentHash) [("mpc_session_id", sid)] ;;
  Store.logActivity (Some userId) (Store.mkActivity "mpc.intent.routed" (Some "intent") (Some intentHash) None
    (Some (JObj (match sid with JNull => [] | _ => [("mpcSessionId", sid)] end)))).
(** Errors are logged and dropped; the session stays assigned when a later
    statement fails. *)
Definition routeToMpc (intentHash userId : string) (b : json) : M Api json :=
  now ← onStore dateNow;
  n ← onStore tick;
  match fetch n "POST" (mpcUrl +:+ "/v1/mpc/intents") (JObj [("intent", mpcIntentJson intentHash userId b now)]) with
  | Throw _ => mret JNull
  | Ok (st, data) =>
      if respOk st then
        catchM (onStore (recordRouting intentHash userId b (sessionOf data))) (fun _ => mret tt) ;;
        mret (sessionOf data)
      else mret JNull
  end.
Definition hasMpcFields (b : json) : bool :=
  negb (bool_decide (itemsOf (field b "encrypted_shares") = [])) && truthyJson (field b "note_nullifier")
  && truthyJson (field b "note_commitment").
Definition placeholderPayload : string := stringify (JObj [("ciphertext", JStr "client-encrypted-payload-required")]).
Definition post_intents (r : Request) : M Api Response :=
  userId ← authedUser r;
  b ← parseM Schemas.intentSchema (body r);
  idempotencyKey ← idem r;
  let intentHash := Ids.hashJson b in
  onStore (Store.insertGeneric "intents"
    [("intent_hash", JStr intentHash); ("idempotency_key", JStr idempotencyKey); ("encrypted_payload", JStr placeholderPayload);
     ("public_commitment", b); ("expiry_ledger", field b "expiry_ledger"); ("policy_id", field b "compliance_policy_id");
     ("user_signature", field b "signature"); ("user_id", JStr userId); ("state", JStr "INTENT_CREATED")]) ;;
  toState "intent" intentHash "INTENT_CREATED" ;;
  logActivity (Some userId) "intent.create" "intent" intentHash ;;
  sid ← (if hasMpcFields b then routeToMpc intentHash userId b else mret JNull);
  mret (reply (JObj ([("intent_hash", JStr intentHash); ("mpc_routed", JBool (truthyJson sid))]
                     ++ (if truthyJson sid then [("mpc_session_id", sid)] else [])))).
Definition get_intent (r : Request) : M Api Response := getRow "intents" "intent_hash" (param r "intent_hash").
Definition get_intent_quotes (r : Request) : M Api Response :=
  qs ← onStore (Store.listQuotesByIntent (param r "intent_hash"));
  mret (reply (JObj [("quotes", Store.rowsJson qs)])).

(** ** Quotes *)
Definition post_request_quotes (r : Request) : M Api Response :=
  userId ← authedUser r;
  let intentHash := param r "intent_hash" in
  requireOwnedIntent userId intentHash ;;
  b ← parseM Schemas.requestQuotesSchema (body r);
  match truthyOpt (env "SOLVER_URL") with
  | None =>
      qs ← onStore (Store.listQuotesByIntent intentHash);
      mret (reply (JObj [("requested", JBool false); ("reason", JStr "SOLVER_URL not configured"); ("quotes", Store.rowsJson qs)]))
  | Some url =>
      n ← onStore tick;
      let rest := match field b "expiry_ledger" with JNull => [] | e => [("expiry_ledger", e)] end in
      match fetch n "POST" (url +:+ "/v1/quote") (JObj ([("intent_hash", JStr intentHash); ("amount", field b "amount")] ++ rest)) with
      | Throw e => throwM e
      | Ok (st, sq) =>
          if negb (respOk st) then httpM 502 ("solver responded " +:+ toString st)
          else
            let q := field sq "quote" in
            onStore (Store.insertGeneric "quotes"
              [("quote_id", field q "quote_id"); ("intent_hash", JStr intentHash); ("quote_hash", field sq "quote_hash");
               ("solver_id", field q "solver_id"); ("payload", q); ("quote_signature", field sq "solver_sig");
               ("valid_until_ledger", field q "valid_until_ledger"); ("state", JStr "QUOTE_RECEIVED")]) ;;
            mret (reply (JObj [("requested", JBool true); ("quote_id", field q "quote_id")]))
      end
  end.
Definition post_solver_quotes (r : Request) : M Api Response :=
  b ← parseM Schemas.quoteSchema (body r);
  let quoteHash := Ids.hashJson b in
  onStore (Store.insertGeneric "quotes"
    [("quote_id", field b "quote_id"); ("intent_hash", field b "intent_hash"); ("quote_hash", JStr quoteHash);
     ("solver_id", field b "solver_id"); ("payload", b); ("quote_signature", field b "quote_signature");
     ("valid_until_ledger", field b "valid_until_ledger"); ("state", JStr "QUOTE_RECEIVED")]) ;;
  toState "quote" (strField b "quote_id") "QUOTE_RECEIVED" ;;
  mret (reply (JObj [("quote_id", field b "quote_id"); ("quote_hash", JStr quoteHash)])).
Definition post_quote_accept (r : Request) : M Api Response :=
  userId ← authedUser r;
  b ← parseM Schemas.quoteAcceptanceSchema (body r);
  let quoteId := param r "quote_id" in
  let intentHash := strField b "intent_hash" in
  requireOwnedIntent userId intentHash ;;
  lc ← onStore (Store.rfqLifecycle intentHash quoteId);
  match Store.lc_quote lc with
  | None => httpM 404 "quote not found"
  | Some q =>
      guardM (get q "intent_hash" ==? JStr intentHash) (Error (Some 409) "quote does not belong to intent") ;;
      guardM (negb (Store.lc_accepted lc)) (Error (Some 409) "a quote is already accepted for this intent (immutable)") ;;
      let acceptanceId := did "accept" [quoteId; strField b "user_signature_hash"] in
      onStore (Store.insertGeneric "quote_acceptances"
        [("acceptance_id", JStr acceptanceId); ("quote_id", JStr quoteId); ("intent_hash", JStr intentHash);
         ("user_signature_hash", field b "user_signature_hash"); ("user_id", JStr userId)]) ;;
      toState "quote" quoteId "QUOTE_ACCEPTED" ;;
      mret (reply (JObj [("acceptance_id", JStr acceptanceId)]))
  end.
Definition post_quote_lock (r : Request) : M Api Response :=
  b ← parseM Schemas.lockSchema (body r);
  let quoteId := param r "quote_id" in
  let lockId := did "lock" [quoteId; strField b "lock_hash"] in
  onStore (Store.insertGeneric "solver_inventory_locks"
    (spread (spread [("lock_id", JStr lockId); ("quote_id", JStr quoteId)] (entriesOf b))
       [("state", JStr "SOLVER_INVENTORY_LOCKED")])) ;;
  toState "quote" quoteId "SOLVER_INVENTORY_LOCKED" ;;
  mret (reply (JObj [("lock_id", JStr lockId)])).
End Routes.
End RoutesTrade.
