(* ===== verification/RoutesSettle.v ===== *)
(** * Fill, settlement and exit routes (apps/api/src/routes.ts)

    Theorems: a settlement is recorded only when the whole RFQ lifecycle
    holds, and no spend route acts while the root auditor reports a critical
    mismatch. *)
From S2P Require Import Prelude JsText JsCollections Json Crypto Base64 Ids JobQueue Database Runtime NoteVault Store Privy Schemas ApiAuth Cctp StellarActions RoutesTrade.
From Stdlib Require Import Ascii.
Import JsText Json Crypto Database Runtime Privy ApiAuth RoutesTrade.

Module RoutesSettle.

Section Routes.
Context `{Env} `{Uuid} `{Schemas.Zod} `{WebKeys} `{Fetch} `{Sha256} `{Ids.LocaleCompare} `{StellarActions.SorobanRpc}.

(** ** Fills *)
Definition post_fills (r : Request) : M Api Response :=
  b ← parseM Schemas.fillSchema (body r);
  let fillId := did "fill" [strField b "quote_id"; strField b "fill_receipt_hash"] in
  onStore (Store.insertGeneric "fills"
    (spread (spread [("fill_id", JStr fillId)] (entriesOf b)) [("state", JStr "FILL_CREATED")])) ;;
  toState "fill" fillId "FILL_CREATED" ;;
  mret (reply (JObj [("fill_id", JStr fillId)])).
Definition post_fill_execute (r : Request) : M Api Response :=
  let fillId := param r "fill_id" in
  let b := nullish (body r) (JObj []) in
  if negb (truthyJson (field b "destination_tx_hash")) then mret (replyCode 400 (err "destination_tx_hash required"))
  else
    let tx := Cctp.stringOf (field b "destination_tx_hash") in
    ok ← onStore (Store.executeFill fillId tx);
    if negb ok then mret (replyCode 404 (err "fill not found"))
    else
      onStore (Store.transition (Ids.mkTransition "fill" fillId None "FILL_EXECUTED" None (Some tx) None)) ;;
      mret (reply (JObj [("fill_id", JStr fillId); ("state", JStr "EXECUTED"); ("destination_tx_hash", field b "destination_tx_hash")])).

(** ** Settlement *)
Definition reject (c : Z) (msg : string) : error := Error (Some c) msg.
Definition orReject {A} (o : option A) (e : error) : M Api A := match o with Some a => mret a | None => throwM e end.
(** The checks on the rows of the lifecycle, in order; the fill. *)
Definition checkLifecycle (userId : string) (b : json) (lc : Store.Lifecycle) : M Api unit :=
  i ← orReject (Store.lc_intent lc) (reject 404 "intent not found");
  guardM (negb (foreign userId i)) (reject 403 "authenticated user does not own this intent") ;;
  q ← orReject (Store.lc_quote lc) (reject 404 "quote not found");
  guardM (get q "intent_hash" ==? field b "intent_hash") (reject 409 "quote does not belong to intent") ;;
  guardM (Store.lc_accepted lc) (reject 409 "quote is not accepted") ;;
  f ← orReject (Store.lc_fill lc) (reject 409 "fill not found for quote");
  guardM (get f "state" ==? JStr "EXECUTED") (reject 409 "fill is not executed") ;;
  guardM (negb (truthyJson (field b "fill_receipt_hash")) || (get f "fill_receipt_hash" ==? field b "fill_receipt_hash"))
    (reject 409 "fill receipt hash mismatch").
Definition proofReady (row : option Row) : bool :=
  match row with Some row => get row "status" ==? JStr "ready" | None => false end.
(** An intent that was routed to the committee needs its match. *)
Definition mpcGate (intentHash : string) : M Api unit :=
  row ← onStore (Store.getById "intents" "intent_hash" intentHash);
  match row with
  | Some row =>
      if truthyJson (get row "mpc_session_id") then
        matched ← onStore (select schemaOf "mpc_intents" (Store.andB (eqText "intent_id" intentHash) (eqText "status" "matched")));
        guardM (negb (bool_decide (matched = []))) (reject 409 "MPC match not yet confirmed — intent is awaiting private committee matching")
      else mret tt
  | None => mret tt
  end.
Definition settleChecks (userId : string) (b : json) : M Api unit :=
  lc ← onStore (Store.rfqLifecycle (strField b "intent_hash") (strField b "quote_id"));
  checkLifecycle userId b lc ;;
  pj ← onStore (Store.getById "proof_jobs" "proof_job_id" (strField b "proof_job_id"));
  guardM (proofReady pj) (reject 409 "proof job is not ready") ;;
  used ← onStore (Store.isNullifierSpent (strField b "nullifier"));
  guardM (negb used) (reject 409 "nullifier already spent") ;;
  mpcGate (strField b "intent_hash").
Definition settlementId (b : json) : string := did "settle" [strField b "intent_hash"; strField b "quote_id"; strField b "nullifier"].
Definition recordSettlement (userId : string) (b : json) : M Api Response :=
  onStore (Store.insertGeneric "settlements"
    (spread (spread [("settlement_id", JStr (settlementId b))] (entriesOf b)) [("state", JStr "SETTLEMENT_SUBMITTED")])) ;;
  toState "settlement" (settlementId b) "SETTLEMENT_SUBMITTED" ;;
  onStore (Store.setRowUser "settlements" "settlement_id" (settlementId b) userId) ;;
  logActivity (Some userId) "rfq.settle" "settlement" (settlementId b) ;;
  mret (reply (JObj [("settlement_id", JStr (settlementId b)); ("lifecycle_verified", JBool true)])).
Definition post_rfq_settle (r : Request) : M Api Response := spending (fun userId =>
  b ← parseM Schemas.settlementSchema (body r);
  settleChecks userId b ;;
  recordSettlement userId b) r.
Definition get_settlement (r : Request) : M Api Response := getRow "settlements" "settlement_id" (param r "settlement_id").

(** ** CCTP exits *)
Definition post_outbound_prepare (r : Request) : M Api Response := spending (fun userId =>
  b ← parseM Schemas.cctpExitSchema (body r);
  idempotencyKey ← idem r;
  let exitId := did "exit" [idempotencyKey; strField b "nullifier"] in
  onStore (Store.insertGeneric "cctp_exits"
    (spread (spread [("exit_id", JStr exitId); ("idempotency_key", JStr idempotencyKey)] (entriesOf b))
       [("user_id", JStr userId); ("state", JStr "prepared")])) ;;
  toState "cctp_exit" exitId "prepared" ;;
  logActivity (Some userId) "cctp_exit.prepare" "cctp_exit" exitId ;;
  mret (reply (JObj [("exit_id", JStr exitId)]))) r.
Definition post_outbound_submit (r : Request) : M Api Response := spending (fun userId =>
  let b := nullish (body r) (JObj []) in
  (if truthyJson (field b "exit_id") then requireOwnedExit userId (Cctp.stringOf (field b "exit_id")) else mret tt) ;;
  job ← enqueueJob JobQueue.relayer "WITHDRAW_CCTP_BURN" b (submitKey "exit-submit" b);
  mret (queued [] job)) r.
(** The granular steps of an owned exit. *)
Definition outboundStep (jobType : string) (r : Request) : M Api Response :=
  userId ← authedUser r;
  let exitId := param r "exit_id" in
  requireOwnedExit userId exitId ;;
  job ← enqueueJob JobQueue.relayer jobType (JObj (spread [("exit_id", JStr exitId)] (entriesOf (body r))))
          (Some (jobType +:+ ":" +:+ exitId));
  mret (queued [("exit_id", JStr exitId)] job).
Definition post_outbound_fetch_attestation := outboundStep "CCTP_OUTBOUND_ATTESTATION".
Definition post_outbound_complete_mint := outboundStep "CCTP_OUTBOUND_MINT".
Definition get_outbound (r : Request) : M Api Response := getRow "cctp_exits" "exit_id" (param r "exit_id").

(** ** What the settlement checks ask of the tables *)
Definition firstRow (w : Api) (t c v : string) : option Row := head (selectWhere (eqText c v) (table (adb w) t)).
Definition latestFill (w : Api) (quoteId : string) : option Row :=
  head (orderDesc "created_at" (selectWhere (eqText "quote_id" quoteId) (table (adb w) "fills"))).
Record settleable (userId : string) (b : json) (w : Api) : Prop := {
  sl_intent : exists i, firstRow w "intents" "intent_hash" (strField b "intent_hash") = Some i /\ foreign userId i = false /\
    (truthyJson (get i "mpc_session_id") = true ->
       exists m, m ∈ table (adb w) "mpc_intents" /\ get m "intent_id" = JStr (strField b "intent_hash") /\
         get m "status" = JStr "matched");
  sl_quote : exists q, firstRow w "quotes" "quote_id" (strField b "quote_id") = Some q /\
    get q "intent_hash" = field b "intent_hash";
  sl_accepted : exists a, a ∈ table (adb w) "quote_acceptances" /\ get a "quote_id" = JStr (strField b "quote_id");
  sl_fill : exists f, latestFill w (strField b "quote_id") = Some f /\ get f "state" = JStr "EXECUTED" /\
    (truthyJson (field b "fill_receipt_hash") = true -> get f "fill_receipt_hash" = field b "fill_receipt_hash");
  sl_proof : exists p, firstRow w "proof_jobs" "proof_job_id" (strField b "proof_job_id") = Some p /\
    get p "status" = JStr "ready";
  sl_unspent : forall n, n ∈ table (adb w) "nullifier_spends" -> get n "nullifier" ≠ JStr (strField b "nullifier") }.

Lemma onStore_select t p w : schemaOf t ≠ None -> onStore (select schemaOf t p) w = (Ok (selectWhere p (table (adb w) t)), w).
Proof. intros Ht. unfold onStore, select. destruct (schemaOf t); [|done]. by destruct w. Qed.
Lemma onStore_lifecycle ih qid w :
  onStore (Store.rfqLifecycle ih qid) w =
    (Ok (Store.mkLifecycle (firstRow w "intents" "intent_hash" ih) (firstRow w "quotes" "quote_id" qid)
          (0 <? rowCount (eqText "quote_id" qid) (table (adb w) "quote_acceptances")) (latestFill w qid)), w).
Proof. by destruct w. Qed.
Lemma onStore_getById t c v w : t ∈ Store.readableTables -> schemaOf t ≠ None ->
  onStore (Store.getById t c v) w = (Ok (firstRow w t c v), w).
Proof.
  intros Ht Hs. unfold onStore, Store.getById. rewrite bool_decide_true by done. cbn [negb].
  unfold selectFirst, mbind, M_bind, select. destruct (schemaOf t); [|done]. by destruct w.
Qed.
Lemma onStore_nullifier n w :
  onStore (Store.isNullifierSpent n) w = (Ok (0 <? rowCount (eqText "nullifier" n) (table (adb w) "nullifier_spends")), w).
Proof. by destruct w. Qed.

(** The checks as a function of what they read. *)
Definition lifecycleResult (userId : string) (b : json) (w : Api) : result unit :=
  match firstRow w "intents" "intent_hash" (strField b "intent_hash") with
  | None => Throw (reject 404 "intent not found")
  | Some i =>
      if foreign userId i then Throw (reject 403 "authenticated user does not own this intent")
      else match firstRow w "quotes" "quote_id" (strField b "quote_id") with
           | None => Throw (reject 404 "quote not found")
           | Some q =>
               if negb (get q "intent_hash" ==? field b "intent_hash") then Throw (reject 409 "quote does not belong to intent")
               else if negb (0 <? rowCount (eqText "quote_id" (strField b "quote_id")) (table (adb w) "quote_acceptances"))
               then Throw (reject 409 "quote is not accepted")
               else match latestFill w (strField b "quote_id") with
                    | None => Throw (reject 409 "fill not found for quote")
                    | Some f =>
                        if negb (get f "state" ==? JStr "EXECUTED") then Throw (reject 409 "fill is not executed")
                        else if truthyJson (field b "fill_receipt_hash")
                                && negb (get f "fill_receipt_hash" ==? field b "fill_receipt_hash")
                        then Throw (reject 409 "fill receipt hash mismatch") else Ok tt
                    end
           end
  end.
Lemma checkLifecycle_run userId b w :
  checkLifecycle userId b (Store.mkLifecycle (firstRow w "intents" "intent_hash" (strField b "intent_hash"))
    (firstRow w "quotes" "quote_id" (strField b "quote_id"))
    (0 <? rowCount (eqText "quote_id" (strField b "quote_id")) (table (adb w) "quote_acceptances"))
    (latestFill w (strField b "quote_id"))) w = (lifecycleResult userId b w, w).
Proof.
  unfold checkLifecycle, lifecycleResult, mbind, M_bind, orReject, guardM. simpl.
  destruct (firstRow w "intents" _ _) as [i|]; [|done]. simpl. destruct (foreign userId i); [done|]. simpl.
  destruct (firstRow w "quotes" _ _) as [q|]; [|done]. simpl. destruct (get q "intent_hash" ==? _); [|done]. simpl.
  destruct (0 <? _); [|done]. simpl. destruct (latestFill w _) as [f|]; [|done]. simpl.
  destruct (get f "state" ==? _); [|done]. simpl. destruct (truthyJson _); [|done]. simpl. by destruct (_ ==? _).
Qed.

Lemma lifecycle_iff userId b w : lifecycleResult userId b w = Ok tt <->
  (exists i, firstRow w "intents" "intent_hash" (strField b "intent_hash") = Some i /\ foreign userId i = false) /\
  (exists q, firstRow w "quotes" "quote_id" (strField b "quote_id") = Some q /\ get q "intent_hash" = field b "intent_hash") /\
  (exists a, a ∈ table (adb w) "quote_acceptances" /\ get a "quote_id" = JStr (strField b "quote_id")) /\
  (exists f, latestFill w (strField b "quote_id") = Some f /\ get f "state" = JStr "EXECUTED" /\
    (truthyJson (field b "fill_receipt_hash") = true -> get f "fill_receipt_hash" = field b "fill_receipt_hash")).
Proof.
  assert (forall a, eqText "quote_id" (strField b "quote_id") a = true <-> get a "quote_id" = JStr (strField b "quote_id")) as Ha
    by (intros; apply eqText_true).
  setoid_rewrite <- Ha. rewrite <- rowCount_pos, <- Z.ltb_lt. unfold lifecycleResult. split.
  - destruct (firstRow w "intents" _ _) as [i|]; [|done]. destruct (foreign userId i) eqn:Ef; [done|].
    destruct (firstRow w "quotes" _ _) as [q|]; [|done]. destruct (bool_decide_reflect (get q "intent_hash" = field b "intent_hash")); [|done].
    destruct (0 <? _); [|done]. destruct (latestFill w _) as [f|]; [|done]. cbn [negb].
    destruct (bool_decide_reflect (get f "state" = JStr "EXECUTED")); [|done]. cbn [negb]. intros Hr.
    split_and!; [by exists i|by exists q|done|]. exists f. split_and!; [done|done|]. intros Ht. rewrite Ht in Hr. simpl in Hr.
    by destruct (bool_decide_reflect (get f "fill_receipt_hash" = field b "fill_receipt_hash")).
  - intros ((i & -> & ->) & (q & -> & Eq) & -> & f & -> & Es & Ehash). rewrite !bool_decide_true by done. cbn [negb].
    destruct (truthyJson _); [|done]. by rewrite bool_decide_true by (by apply Ehash).
Qed.
Lemma mpcGate_run ih w : mpcGate ih w = (match firstRow w "intents" "intent_hash" ih with
  | Some i => if truthyJson (get i "mpc_session_id") then
      if bool_decide (selectWhere (Store.andB (eqText "intent_id" ih) (eqText "status" "matched")) (table (adb w) "mpc_intents") = [])
      then Throw (reject 409 "MPC match not yet confirmed — intent is awaiting private committee matching") else Ok tt
      else Ok tt
  | None => Ok tt end, w).
Proof.
  unfold mpcGate, mbind, M_bind. rewrite onStore_getById by (unfold Store.readableTables; set_solver || done).
  destruct (firstRow _ _ _ _) as [i|]; [|done]. destruct (truthyJson _); [|done].
  rewrite onStore_select by done. unfold guardM. by destruct (bool_decide _).
Qed.

(** The checks change nothing, and pass exactly on a settleable request. *)
Lemma settleChecks_spec userId b w :
  exists res, settleChecks userId b w = (res, w) /\ (res = Ok tt <-> settleable userId b w).
Proof.
  unfold settleChecks, mbind, M_bind. rewrite onStore_lifecycle, checkLifecycle_run.
  destruct (lifecycleResult userId b w) as [[]|e] eqn:El.
  2:{ eexists. split; [done|]. split; [done|]. intros [Hi Hq Ha Hf _ _]. rewrite <- El. apply lifecycle_iff.
      split_and!; [naive_solver|done..]. }
  apply lifecycle_iff in El as ((i & Ei & Hi) & Hq & Ha & Hf).
  rewrite onStore_getById by (unfold Store.readableTables; set_solver || done). unfold guardM.
  destruct (proofReady _) eqn:Ep.
  2:{ eexists. split; [done|]. split; [done|]. intros [_ _ _ _ (p & Hp & Hs) _]. unfold proofReady in Ep. rewrite Hp in Ep.
      rewrite bool_decide_true in Ep; done. }
  unfold mret, M_ret. rewrite onStore_nullifier. destruct (0 <? rowCount _ _) eqn:En; cbn [negb].
  { eexists. split; [done|]. split; [done|]. intros [_ _ _ _ _ Hn]. apply Z.ltb_lt, rowCount_pos in En as (n & Hin & Ht%eqText_true).
    by destruct (Hn n Hin). }
  assert (forall n, n ∈ table (adb w) "nullifier_spends" -> get n "nullifier" ≠ JStr (strField b "nullifier")) as Hun.
  { intros n Hn E. apply not_true_iff_false in En as []. apply Z.ltb_lt, rowCount_pos. exists n. split; [done|by apply eqText_true]. }
  assert (exists p, firstRow w "proof_jobs" "proof_job_id" (strField b "proof_job_id") = Some p /\ get p "status" = JStr "ready") as Hp.
  { unfold proofReady in Ep. destruct (firstRow w "proof_jobs" _ _) as [p|]; [|done]. exists p. split; [done|].
    by apply bool_decide_eq_true in Ep. }
  rewrite mpcGate_run, Ei. eexists. split; [done|].
  assert (settleable userId b w <-> (truthyJson (get i "mpc_session_id") = true ->
       exists m, m ∈ table (adb w) "mpc_intents" /\ get m "intent_id" = JStr (strField b "intent_hash") /\
         get m "status" = JStr "matched")) as ->.
  { split; [intros [(i' & Ei' & _ & Hm) _ _ _ _ _]; assert (i' = i) as <- by congruence; exact Hm|].
    intros Hm. split; try done. by exists i. }
  destruct (truthyJson (get i "mpc_session_id")); [|split; [by intros _ ?|done]].
  assert (forall m, Store.andB (eqText "intent_id" (strField b "intent_hash")) (eqText "status" "matched") m = true <->
    get m "intent_id" = JStr (strField b "intent_hash") /\ get m "status" = JStr "matched") as Hm.
  { intros m. unfold Store.andB. by rewrite andb_true_iff, !eqText_true. }
  destruct (bool_decide_reflect (selectWhere (Store.andB (eqText "intent_id" (strField b "intent_hash")) (eqText "status" "matched"))
    (table (adb w) "mpc_intents") = [])) as [E|E].
  - split; [done|]. intros Hex. destruct (Hex eq_refl) as (m & Hin & Hmm). assert (m ∈ ([] : list Row)) as []%elem_of_nil.
    rewrite <- E. apply elem_of_selectWhere. split; [done|by apply Hm].
  - split; [|done]. intros _ _. destruct (selectWhere _ _) as [|m l] eqn:Es; [done|].
    assert (m ∈ m :: l) as Hin by left. rewrite <- Es in Hin. apply elem_of_selectWhere in Hin as [Hin Hmm]. exists m. split; [done|by apply Hm].
Qed.

(** ** What a recorded settlement looks like *)
Definition recorded (userId id : string) (w : Api) : Prop :=
  exists x, x ∈ table (adb w) "settlements" /\ get x "settlement_id" = JStr id /\
    (JsMap.get x "user_id" ≠ None -> get x "user_id" = JStr userId).
Lemma insertGeneric_found id given db u db' :
  Store.insertGeneric "settlements" given db = (Ok u, db') -> JsMap.get given "settlement_id" = Some (JStr id) ->
  exists o, o ∈ table db' "settlements" /\ get o "settlement_id" = JStr id.
Proof.
  intros Hi Hg. unfold Store.insertGeneric in Hi. rewrite bool_decide_true in Hi by (unfold Store.insertableTables; set_solver).
  cbn [negb] in Hi. bind_ok Hi as rows db1 E. apply ret_Ok in Hi as [_ ->].
  apply insert_DoNothing_found in E as (s & r & o & [= <-] & Eb & Ho & Hr). exists o. split; [done|].
  assert (get r "settlement_id" = JStr id) as Er.
  { unfold get. erewrite (buildRow_get _ _ _ _ _ "settlement_id"); [reflexivity|exact Eb|reflexivity|].
    unfold columnValue. cbn [col text]. by rewrite Hg. }
  destruct Hr as [->|Hr]; [done|]. cbn in Hr. rewrite !orb_false_r, andb_true_r in Hr.
  apply andb_true_iff in Hr as [_ E%bool_decide_eq_true]. by rewrite <- E.
Qed.
Lemma toState_keeps t rows a b c : t ≠ "state_transitions" -> preserves (fun w => table (adb w) t = rows) (toState a b c).
Proof.
  intros Ht. apply (preserves_onStore (fun db => table db t = rows)). unfold Store.transition.
  apply preserves_bind; [by apply keeps_insert|intros ?; apply preserves_ret].
Qed.
Lemma logActivity_keeps t rows u a b c : t ≠ "user_activity" -> preserves (fun w => table (adb w) t = rows) (logActivity u a b c).
Proof.
  intros Ht. apply (preserves_onStore (fun db => table db t = rows)). unfold Store.logActivity.
  apply preserves_bind; [by apply keeps_insert|intros ?; apply preserves_ret].
Qed.
Lemma setRowUser_recorded id userId db u db' :
  Store.setRowUser "settlements" "settlement_id" id userId db = (Ok u, db') ->
  (exists o, o ∈ table db "settlements" /\ get o "settlement_id" = JStr id) ->
  exists x, x ∈ table db' "settlements" /\ get x "settlement_id" = JStr id /\
    (JsMap.get x "user_id" ≠ None -> get x "user_id" = JStr userId).
Proof.
  intros Hs (o & Ho & Hid). unfold Store.setRowUser in Hs. rewrite bool_decide_true in Hs by set_solver. cbn [negb] in Hs.
  bind_ok Hs as rows db1 E. apply ret_Ok in Hs as [_ ->]. apply update_Ok in E as (s & sets & [= <-] & [= <-] & _ & ->).
  rewrite table_same. exists (assignRow [("user_id", JStr userId)] o). split_and!.
  - apply elem_of_updateWhere. exists o. split; [done|]. by rewrite (proj2 (eqText_true _ _ _) Hid).
  - unfold get. rewrite get_assignRow. simpl. unfold get in Hid. by destruct (JsMap.get o "settlement_id").
  - unfold get. rewrite get_assignRow. simpl. by destruct (JsMap.get o "user_id").
Qed.
Lemma recordSettlement_Ok `{!Schemas.ZodLaws} userId j b w resp w' :
  Schemas.parse Schemas.settlementSchema j = Ok b -> recordSettlement userId b w = (Ok resp, w') ->
  content resp = JObj [("settlement_id", JStr (settlementId b)); ("lifecycle_verified", JBool true)] /\
  recorded userId (settlementId b) w'.
Proof.
  intros Hb Hr. unfold recordSettlement in Hr. bind_ok Hr as u1 w1 E1. apply onStore_Ok in E1 as (db1 & E1 & ->).
  apply (insertGeneric_found (settlementId b)) in E1.
  2:{ rewrite !spread_get_other; [reflexivity| |].
      - eapply parse_keys; [exact Hb|]. vm_compute. set_solver.
      - vm_compute. set_solver. }
  bind_ok Hr as u2 w2 E2.
  pose proof (toState_keeps "settlements" _ "settlement" (settlementId b) "SETTLEMENT_SUBMITTED" ltac:(discriminate)
    (mkApi db1 (acache w)) eq_refl) as K2. rewrite E2 in K2. simpl in K2.
  bind_ok Hr as u3 w3 E3. apply onStore_Ok in E3 as (db3 & E3 & ->). apply setRowUser_recorded in E3; [|by rewrite K2].
  bind_ok Hr as u4 w4 E4.
  pose proof (logActivity_keeps "settlements" _ (Some userId) "rfq.settle" "settlement" (settlementId b) ltac:(discriminate)
    (mkApi db3 (acache w2)) eq_refl) as K4. rewrite E4 in K4. simpl in K4.
  apply ret_Ok in Hr as [-> ->]. split; [done|]. unfold recorded. by rewrite K4.
Qed.

(** ** When the record goes through *)
(** A body is an object with each member once and without a receipt, which the
    table has no column for; its fill, when it names one, exists; the user has
    an account; and the identifiers drawn for the two log rows are new. *)
Record recordable (userId : string) (b : json) (w : Api) : Prop := {
  rc_object : NoDup (entriesOf b).*1;
  rc_receipt : JsMap.get (entriesOf b) "fill_receipt_hash" = None;
  rc_fill : field b "fill_id" = JNull \/
    exists x f, field b "fill_id" = JStr x /\ f ∈ table (adb w) "fills" /\ get f "fill_id" = JStr x;
  rc_user : exists u, u ∈ table (adb w) "users" /\ get u "id" = JStr userId;
  rc_transition : forall o, o ∈ table (adb w) "state_transitions" -> get o "transition_id" ≠ JStr (uuidOf (ticks (adb w) + 1));
  rc_activity : forall o, o ∈ table (adb w) "user_activity" -> get o "id" ≠ JStr (uuidOf (ticks (adb w) + 2)) }.
Definition settlementGiven (b : json) : Row :=
  spread (spread [("settlement_id", JStr (settlementId b))] (entriesOf b)) [("state", JStr "SETTLEMENT_SUBMITTED")].
(** A statement on one table and the identifiers it draws. *)
Definition steps (t : string) (n : Z) (db db' : DB) : Prop :=
  ticks db' = ticks db + n /\ forall t', t' ≠ t -> table db' t' = table db t'.
Lemma settlementGiven_get b k : NoDup (entriesOf b).*1 -> k ≠ "state" -> k ≠ "settlement_id" ->
  JsMap.get (settlementGiven b) k = JsMap.get (entriesOf b) k.
Proof.
  intros Hn Hs Hi. unfold settlementGiven. rewrite spread_get_other by (intros Hk; apply list_elem_of_singleton in Hk; by apply Hs).
  rewrite spread_get by done. destruct (JsMap.get (entriesOf b) k); [done|]. cbn [JsMap.get]. by rewrite bool_decide_false.
Qed.
Lemma field_entries kvs k : field (JObj kvs) k = orElse (JsMap.get kvs k) JNull.
Proof. cbn [field]. by destruct (JsMap.get kvs k). Qed.
Lemma settlement_columns b kvs : b = JObj kvs -> (forall k, k ∈ kvs.*1 -> k ∈ ["intent_hash"; "quote_id"; "fill_id"; "fill_receipt_hash"; "proof_job_id"; "nullifier"]) ->
  JsMap.get kvs "fill_receipt_hash" = None -> forallb (fun kv => hasColumn settlements kv.1) (settlementGiven b) = true.
Proof.
  intros -> Hk Hr. apply forallb_forall. intros kv Hin%list_elem_of_In. unfold settlementGiven in Hin.
  apply spread_keys in Hin as [Hin|Hin%list_elem_of_singleton]; [|cbn in Hin; by rewrite Hin].
  apply list_elem_of_fmap in Hin as (kv' & E & Hin). rewrite E. apply spread_keys in Hin as [Hin%list_elem_of_singleton|Hin]; [cbn in Hin; by rewrite Hin|].
  cbn [entriesOf] in Hin. assert (kv'.1 ≠ "fill_receipt_hash") as Hne by (intros E'; rewrite E' in Hin; by apply JsMap.get_None in Hr).
  apply Hk in Hin. rewrite !elem_of_cons, elem_of_nil in Hin. destruct Hin as [E'|[E'|[E'|[E'|[E'|[E'|[]]]]]]]; [..|by rewrite E'|by rewrite E']; rewrite E' in Hne |- *; done.
Qed.
(** The row the statement inserts. *)
Definition settlementRow (b : json) (ih qid pj nf : string) (fill : json) (now : Z) : Row :=
  [("settlement_id", JStr (settlementId b)); ("intent_hash", JStr ih); ("quote_id", JStr qid); ("fill_id", fill); ("proof_job_id", JStr pj);
   ("nullifier", JStr nf); ("stellar_tx_hash", JNull); ("state", JStr "SETTLEMENT_SUBMITTED"); ("created_at", JNum now); ("user_id", JNull)].
Lemma buildRow_settlement b kvs ih qid pj nf fill now n : b = JObj kvs -> NoDup kvs.*1 ->
  (forall k, k ∈ kvs.*1 -> k ∈ ["intent_hash"; "quote_id"; "fill_id"; "fill_receipt_hash"; "proof_job_id"; "nullifier"]) ->
  field b "intent_hash" = JStr ih -> field b "quote_id" = JStr qid -> field b "proof_job_id" = JStr pj -> field b "nullifier" = JStr nf ->
  field b "fill_id" = fill -> (fill = JNull \/ exists x, fill = JStr x) ->
  buildRow now n (settlementGiven b) (columns settlements) = Some (settlementRow b ih qid pj nf fill now).
Proof.
  intros -> Hnd Hk E1 E2 E3 E4 E5 Hf.
  assert (forall k, k ≠ "state" -> k ≠ "settlement_id" -> JsMap.get (settlementGiven (JObj kvs)) k = JsMap.get kvs k) as Hg
    by (intros k ? ?; by rewrite settlementGiven_get).
  assert (forall k, k ∉ ["intent_hash"; "quote_id"; "fill_id"; "fill_receipt_hash"; "proof_job_id"; "nullifier"] -> JsMap.get kvs k = None) as Hno
    by (intros k Hx; apply JsMap.get_None; intros Hy; by apply Hx, Hk).
  assert (JsMap.get (settlementGiven (JObj kvs)) "state" = Some (JStr "SETTLEMENT_SUBMITTED")) as Hst
    by (unfold settlementGiven; rewrite spread_get; [done|apply NoDup_singleton]).
  assert (JsMap.get (settlementGiven (JObj kvs)) "settlement_id" = Some (JStr (settlementId (JObj kvs)))) as Hid.
  { unfold settlementGiven. rewrite spread_get_other by (vm_compute; set_solver). cbn [entriesOf]. rewrite spread_get by done.
    rewrite Hno by (vm_compute; set_solver). done. }
  assert (forall k x, field (JObj kvs) k = JStr x -> JsMap.get kvs k = Some (JStr x)) as Hx
    by (intros k x E; rewrite field_entries in E; destruct (JsMap.get kvs k); [by cbn in E; subst|done]).
  apply Hx in E1, E2, E3, E4. rewrite field_entries in E5.
  cbn [columns settlements buildRow]. unfold columnValue. unfold text, textN, timeD, checkNull. cbn [col ctype required default].
  rewrite Hid, Hst, !Hg, E1, E2, E3, E4, (Hno "stellar_tx_hash"), (Hno "created_at"), (Hno "user_id") by (done || vm_compute; set_solver).
  destruct (JsMap.get kvs "fill_id") as [v|]; cbn in E5; subst; [|done]. by destruct Hf as [->|[x ->]].
Qed.
Lemma existsb_row (t c x : string) (r : Row) w : r ∈ table (adb w) t -> get r c = JStr x ->
  existsb (fun o => get o c ==? JStr x) (table (adb w) t) = true.
Proof. intros Hin Hc. apply existsb_exists. exists r. split; [by apply list_elem_of_In|]. by apply bool_decide_eq_true. Qed.
Lemma firstRow_row w t c v r : firstRow w t c v = Some r -> r ∈ table (adb w) t /\ get r c = JStr v.
Proof. intros [Hr Hc%eqText_true]%head_selectWhere. done. Qed.
Lemma insert_settlement `{!Schemas.ZodLaws} `{!Schemas.ZodTexts} userId j b w :
  Schemas.parse Schemas.settlementSchema j = Ok b -> settleable userId b w -> recordable userId b w ->
  exists db, Store.insertGeneric "settlements" (settlementGiven b) (adb w) = (Ok tt, db) /\ steps "settlements" 1 (adb w) db.
Proof.
  intros Hb [(i & Hi & _) (q & Hq & _) _ _ (p & Hp & _) _] [Rn Rr Rf _ _ _].
  unfold Schemas.parse in Hb. destruct (Schemas.zodParse _ j) as [v|] eqn:Ez; [|done]. injection Hb as ->.
  pose proof Ez as (kvs & -> & Hk)%Schemas.zod_strips.
  assert (forall k checks, (k, Schemas.ZString checks) ∈ _ -> exists x, field (JObj kvs) k = JStr x) as Htx
    by (intros k checks Hin; destruct (Schemas.zod_texts _ _ _ _ _ Ez Hin) as (x & Hx & _); by exists x).
  destruct (Htx "intent_hash" [Schemas.Min 1] ltac:(set_solver)) as [ih E1].
  destruct (Htx "quote_id" [Schemas.UuidFormat] ltac:(set_solver)) as [qid E2].
  destruct (Htx "proof_job_id" [Schemas.Min 1] ltac:(set_solver)) as [pj E3].
  destruct (Htx "nullifier" [Schemas.Min 1] ltac:(set_solver)) as [nf E4].
  unfold strField in Hi, Hq, Hp. rewrite E1 in Hi. rewrite E2 in Hq. rewrite E3 in Hp. cbn [textOf] in Hi, Hq, Hp.
  apply firstRow_row in Hi as [Hi1 Hi2], Hq as [Hq1 Hq2], Hp as [Hp1 Hp2]. cbn [entriesOf] in Rn, Rr.
  pose proof (settlement_columns _ kvs eq_refl Hk Rr) as Hcols.
  assert (field (JObj kvs) "fill_id" = JNull \/ exists x, field (JObj kvs) "fill_id" = JStr x) as Hfill
    by (destruct Rf as [->|(x & f & -> & _)]; [by left|right; by exists x]).
  pose proof (buildRow_settlement _ kvs ih qid pj nf _ (clock (adb w)) (ticks (adb w)) eq_refl Rn Hk E1 E2 E3 E4 eq_refl Hfill) as Hrow.
  set (row := settlementRow _ _ _ _ _ _ _) in Hrow.
  assert (forallb (fkOk (ticked (adb w)) row) (fkeys settlements) = true) as Hfk.
  { cbn [fkeys settlements forallb]. unfold fkOk. cbn [fk_col fk_table fk_ref ref].
    change (get row "intent_hash") with (JStr ih). change (get row "quote_id") with (JStr qid). change (get row "proof_job_id") with (JStr pj).
    change (get row "fill_id") with (field (JObj kvs) "fill_id"). change (get row "user_id") with JNull.
    change (table (ticked (adb w))) with (table (adb w)).
    rewrite (existsb_row "intents" _ _ _ w Hi1 Hi2), (existsb_row "quotes" _ _ _ w Hq1 Hq2), (existsb_row "proof_jobs" _ _ _ w Hp1 Hp2).
    destruct Rf as [->|(x & f & -> & Hf1 & Hf2)]; [done|]. by rewrite (existsb_row "fills" _ _ _ w Hf1 Hf2). }
  unfold Store.insertGeneric. rewrite bool_decide_true by (unfold Store.insertableTables; set_solver). cbn [negb].
  unfold mbind, M_bind, insert. change (schemaOf "settlements") with (Some settlements). cbv beta iota. rewrite Hcols. cbn [negb]. rewrite Hrow. cbv zeta.
  change (mkDB (tables (adb w)) (queueDB (adb w)) (ticks (adb w) + 1)) with (ticked (adb w)).
  destruct (existsb _ _) eqn:Ex; [by eexists; split; [reflexivity|by split]|]. unfold addRow. rewrite Ex, Hfk.
  eexists. split; [reflexivity|]. split; [done|]. intros t' Ht'. rewrite table_setTable. by rewrite bool_decide_false.
Qed.
Lemma transition_ok w a b c : (forall o, o ∈ table (adb w) "state_transitions" -> get o "transition_id" ≠ JStr (uuidOf (ticks (adb w)))) ->
  exists db, toState a b c w = (Ok tt, mkApi db (acache w)) /\ steps "state_transitions" 1 (adb w) db.
Proof.
  intros Hnew. unfold toState, onStore, Store.transition, mbind, M_bind. erewrite (insert_appends schemaOf); [|reflexivity|reflexivity|reflexivity|..|reflexivity].
  - eexists. split; [reflexivity|]. split; [done|]. intros t' Ht'. rewrite table_setTable. by rewrite bool_decide_false.
  - intros o Ho. unfold clashes, agree. cbn [targetOf uniques state_transitions app existsb forallb]. rewrite orb_false_r, andb_true_r.
    apply bool_decide_eq_false. intros E. by apply (Hnew o).
Qed.
Lemma activity_ok w userId a b c : (exists u, u ∈ table (adb w) "users" /\ get u "id" = JStr userId) ->
  (forall o, o ∈ table (adb w) "user_activity" -> get o "id" ≠ JStr (uuidOf (ticks (adb w)))) ->
  exists db, logActivity (Some userId) a b c w = (Ok tt, mkApi db (acache w)) /\ steps "user_activity" 1 (adb w) db.
Proof.
  intros (u & Hu & Hid) Hnew. unfold logActivity, onStore, Store.logActivity, mbind, M_bind.
  erewrite (insert_appends schemaOf); [|reflexivity|reflexivity|reflexivity|..].
  - eexists. split; [reflexivity|]. split; [done|]. intros t' Ht'. rewrite table_setTable. by rewrite bool_decide_false.
  - intros o Ho. unfold clashes, agree. cbn [targetOf uniques user_activity app existsb forallb]. rewrite orb_false_r, andb_true_r.
    apply bool_decide_eq_false. intros E. by apply (Hnew o).
  - cbn [fkeys user_activity forallb]. unfold fkOk. cbn [fk_col fk_table fk_ref ref]. rewrite andb_true_r. apply orb_true_iff. right.
    exact (existsb_row "users" "id" userId u w Hu Hid).
Qed.
Lemma setRowUser_ok w id userId : (exists u, u ∈ table (adb w) "users" /\ get u "id" = JStr userId) ->
  exists db, onStore (Store.setRowUser "settlements" "settlement_id" id userId) w = (Ok tt, mkApi db (acache w)) /\ steps "settlements" 0 (adb w) db.
Proof.
  intros (u & Hu & Hid). unfold onStore, Store.setRowUser. rewrite bool_decide_true by set_solver. cbn [negb]. unfold mbind, M_bind, update.
  change (schemaOf "settlements") with (Some settlements). cbv beta iota. change (coerceSets settlements _) with (Some [("user_id", JStr userId)]). cbv beta iota zeta.
  assert (forall l : list Row, forallb (fun r => forallb (fkOk (adb w) (assignRow [("user_id", JStr userId)] r)) (fksOf settlements [("user_id", JStr userId)])) l = true) as ->.
  { intros l. apply forallb_forall. intros r _. change (fksOf settlements _) with [ref "user_id" "users" "id"]. cbn [forallb]. rewrite andb_true_r.
    unfold fkOk. cbn [fk_col fk_table fk_ref ref]. unfold get at 1. rewrite get_assignRow. destruct (JsMap.get r "user_id") eqn:Er; [|done]. cbn.
    replace (get (assignRow _ r) "user_id") with (JStr userId) by (unfold get; by rewrite get_assignRow, Er).
    exact (existsb_row "users" "id" userId u w Hu Hid). }
  eexists. split; [reflexivity|]. split; [cbn; lia|]. intros t' Ht'. rewrite table_setTable. by rewrite bool_decide_false.
Qed.
Lemma record_accepts `{!Schemas.ZodLaws} `{!Schemas.ZodTexts} userId j b w :
  Schemas.parse Schemas.settlementSchema j = Ok b -> settleable userId b w -> recordable userId b w ->
  exists resp w', recordSettlement userId b w = (Ok resp, w').
Proof.
  intros Hb Hs Hr. destruct (insert_settlement userId j b w Hb Hs Hr) as (db1 & E1 & T1 & K1). destruct Hr as [_ _ _ Ru Rt Ra].
  unfold recordSettlement. fold (settlementGiven b). unfold mbind, M_bind. unfold onStore at 1. rewrite E1.
  destruct (transition_ok (mkApi db1 (acache w)) "settlement" (settlementId b) "SETTLEMENT_SUBMITTED") as (db2 & E2 & T2 & K2).
  { cbn. rewrite T1, K1 by done. exact Rt. }
  rewrite E2. cbn [adb acache] in *.
  destruct (setRowUser_ok (mkApi db2 (acache w)) (settlementId b) userId) as (db3 & E3 & T3 & K3); [cbn; by rewrite K2, K1 by done|].
  rewrite E3. cbn [adb acache] in *.
  destruct (activity_ok (mkApi db3 (acache w)) userId "rfq.settle" "settlement" (settlementId b)) as (db4 & E4 & _);
    [cbn; by rewrite K3, K2, K1 by done|cbn; rewrite K3, K2, K1 by done; replace (ticks db3) with (ticks (adb w) + 2) by lia; exact Ra|].
  rewrite E4. by eexists _, _.
Qed.
(** The table has no column for the receipt. *)
Lemma receipt_refused userId b w : is_Some (JsMap.get (entriesOf b) "fill_receipt_hash") ->
  exists e, recordSettlement userId b w = (Throw e, w).
Proof.
  intros [x Hx]. unfold recordSettlement, Store.insertGeneric. rewrite bool_decide_true by (unfold Store.insertableTables; set_solver). cbn [negb].
  fold (settlementGiven b). unfold mbind, M_bind, onStore, insert. change (schemaOf "settlements") with (Some settlements). cbv beta iota.
  assert (forallb (fun kv => hasColumn settlements kv.1) (settlementGiven b) = false) as ->; [|cbn; eexists; by destruct w].
  apply not_true_iff_false. intros Hall. rewrite forallb_forall in Hall.
  assert (is_Some (JsMap.get (settlementGiven b) "fill_receipt_hash")) as [y Hy].
  { unfold settlementGiven. rewrite spread_get_other by (vm_compute; set_solver).
    assert (forall a l, is_Some (JsMap.get l "fill_receipt_hash") \/ is_Some (JsMap.get a "fill_receipt_hash") ->
      is_Some (JsMap.get (spread a l) "fill_receipt_hash")) as Hspread; [|apply Hspread; left; by eexists].
    clear. intros a l. revert a. unfold spread. induction l as [|[k v] l IH]; intros a; cbn [fold_left fst snd].
    - by intros [[? [=]]|Ha].
    - intros Hx. apply IH. cbn [JsMap.get] in Hx. rewrite JsMap.get_set. destruct (bool_decide_reflect (k = "fill_receipt_hash")); [right; by eexists|].
      rewrite bool_decide_false in Hx by (intros E; by subst). exact Hx. }
  apply JsMap.get_elem in Hy. apply list_elem_of_In in Hy. apply Hall in Hy. discriminate Hy.
Qed.


(** ** Spends stop while the root is in doubt *)
Definition spendRoutes : list (Request -> M Api Response) :=
  [post_withdrawals_prepare; post_withdrawals_build_xdr; post_withdrawals_submit; post_rfq_settle;
   post_outbound_prepare; post_outbound_submit].
Lemma spending_blocked k r w u w1 :
  authedUser r w = (Ok u, w1) -> ~ rootHealthy w1 -> exists msg, spending k r w = (Throw (Error (Some 409) msg), w1).
Proof.
  intros Ha Hr. apply assertRootHealthy_blocks in Hr as [msg Hr]. exists msg.
  unfold spending, mbind, M_bind. by rewrite Ha, Hr.
Qed.

(** C21. While the root auditor has an unresolved critical mismatch, every
    spend route - withdrawal prepare, unsigned XDR, withdrawal submit, RFQ
    settlement, CCTP exit prepare and submit - answers an authenticated
    request with 409 and leaves tables, queue and caches as authentication
    left them; an unauthenticated request gets the authentication error. *)
Theorem spends_blocked route r w :
  route ∈ spendRoutes ->
  (forall u w1, authedUser r w = (Ok u, w1) -> ~ rootHealthy w1 ->
     exists msg, route r w = (Throw (Error (Some 409) msg), w1) /\
       code (handle (route r) w).1 = 409 /\ (handle (route r) w).2 = w1) /\
  (forall e w1, authedUser r w = (Throw e, w1) -> route r w = (Throw e, w1)).
Proof.
  intros Hin. assert (exists k, route r = spending k r) as [k Hk].
  { unfold spendRoutes in Hin. rewrite !elem_of_cons, elem_of_nil in Hin.
    destruct Hin as [->|[->|[->|[->|[->|[->|[]]]]]]]; unfold post_withdrawals_prepare,
      post_withdrawals_build_xdr, post_withdrawals_submit, post_rfq_settle, post_outbound_prepare, post_outbound_submit;
      eexists; reflexivity. }
  unfold handle. rewrite Hk. clear. split.
  - intros u w1 Ha Hh. destruct (spending_blocked k r w u w1 Ha Hh) as [msg Hs]. exists msg. by rewrite Hs.
  - intros e w1 Ha. unfold spending, mbind, M_bind. by rewrite Ha.
Qed.
End Routes.

(** ** Witnesses: a settleable request, and one under a critical finding *)
Definition toyTable (t : string) : list Row :=
  if t ==? "intents" then [[("intent_hash", JStr "0xi"); ("user_id", JNull); ("mpc_session_id", JStr "s1")]]
  else if t ==? "quotes" then [[("quote_id", JStr "q1"); ("intent_hash", JStr "0xi")]]
  else if t ==? "quote_acceptances" then [[("quote_id", JStr "q1")]]
  else if t ==? "fills" then [[("quote_id", JStr "q1"); ("state", JStr "EXECUTED"); ("created_at", JNum 1)]]
  else if t ==? "proof_jobs" then [[("proof_job_id", JStr "p1"); ("status", JStr "ready")]]
  else if t ==? "mpc_intents" then [[("intent_id", JStr "0xi"); ("status", JStr "matched")]]
  else [].
Definition toySettleApi (finding : list Row) : Api :=
  mkApi (mkDB (<["root_audit_findings" := finding]>
                (list_to_map (map (fun t => (t, toyTable t))
                   ["intents"; "quotes"; "quote_acceptances"; "fills"; "proof_jobs"; "mpc_intents"])))
           (JobQueue.mkDB [] [] 5000) 0) (mkCache None []).
Definition toySettleBody : json :=
  JObj [("intent_hash", JStr "0xi"); ("quote_id", JStr "q1"); ("proof_job_id", JStr "p1"); ("nullifier", JStr "0xn")].
Definition toyAuth (finding : list Row) :=
  @authedUser toyPrivyEnv toyUuid toyKeys toyJwks Toy.toy_sha (toyRequest toySettleBody) (toySettleApi finding).
Definition toySettle (finding : list Row) :=
  @post_rfq_settle toyPrivyEnv toyUuid Schemas.toyZod toyKeys toyJwks Toy.toy_sha (toyRequest toySettleBody) (toySettleApi finding).
Lemma toyAuth_Ok finding : finding = [] \/ finding = [[("code", JStr "ROOT_MISMATCH_CRITICAL")]] ->
  toyAuth finding = (Ok "uuid-1", (toyAuth finding).2).
Proof. intros [->| ->]; vm_compute; reflexivity. Qed.
Definition strictSettle :=
  @post_rfq_settle toyPrivyEnv toyUuid Schemas.strictZod toyKeys toyJwks Toy.toy_sha (toyRequest toySettleBody) (toySettleApi []).
Definition toyFinding : list Row := [[("code", JStr "ROOT_MISMATCH_CRITICAL")]].
Lemma spends_blocked_witness : exists msg, toySettle toyFinding = (Throw (Error (Some 409) msg), (toyAuth toyFinding).2).
Proof.
  assert (~ rootHealthy (toyAuth toyFinding).2) as Hh.
  { intros Hh. refine (Hh [("code", JStr "ROOT_MISMATCH_CRITICAL")] _ eq_refl). vm_compute. apply list_elem_of_here. }
  assert (@post_rfq_settle toyPrivyEnv toyUuid Schemas.toyZod toyKeys toyJwks Toy.toy_sha ∈
    @spendRoutes toyPrivyEnv toyUuid Schemas.toyZod toyKeys toyJwks Toy.toy_sha
      (StellarActions.Build_SorobanRpc (fun _ _ _ _ _ _ => Ok "") (fun _ _ _ => Ok ("", "")) (fun _ _ _ => Ok ""))) as Hin
    by (apply list_elem_of_In; simpl; tauto).
  destruct (proj1 (@spends_blocked toyPrivyEnv toyUuid Schemas.toyZod toyKeys toyJwks Toy.toy_sha _ _
    (toyRequest toySettleBody) (toySettleApi toyFinding) Hin) "uuid-1" _
    (toyAuth_Ok toyFinding (or_intror eq_refl)) Hh) as (msg & Hr & _).
  exists msg. exact Hr.
Defined.
End RoutesSettle.
