(* ===== verification/RoutesReport.v ===== *)
(** * View-key report routes (apps/api/src/routes.ts)

    Theorem: apart from what the request itself gives, a report discloses only
    values of the requesting user's own rows, among those asked for. *)
From S2P Require Import Prelude JsText JsCollections Json Crypto Base64 Ids JobQueue Database Runtime NoteVault Store Privy Schemas ApiAuth Cctp ShadeView.
From Stdlib Require Import Ascii.
Import JsText Json Crypto Database Runtime Privy ApiAuth.

Module RoutesReport.

Section Routes.
Context `{Env} `{Uuid} `{Schemas.Zod} `{WebKeys} `{Fetch} `{Sha256} `{Keypair} `{Nacl} `{KeyGen} `{Random}.

Definition optText (j : json) : option string := match j with JStr s => Some s | _ => None end.
Definition textsOf (j : json) : list string := omap optText (itemsOf j).
(** [String(row.c)]. *)
Definition textCol (c : string) (r : Row) : string := match get r c with JNull => "null" | j => Cctp.stringOf j end.
Definition explorerLink (h : string) : string := "https://stellar.expert/explorer/testnet/tx/" +:+ h.
(** [a ?? b] on optional texts. *)
Definition orOpt (a b : option string) : option string := match a with Some _ => a | None => b end.
Definition firstCol (c : string) (rows : list Row) : option string := head rows ≫= fun r => optText (get r c).

(** The report's contents from the user's rows. *)
Definition reportInput (userId : string) (b : json) (settlements commitments : list Row) (anchorIds : list string) :
    ShadeView.ViewKeyReportInput :=
  ShadeView.mkInput userId (optText (field b "time_range_from")) (optText (field b "time_range_to"))
    (map (textCol "commitment") commitments)
    (selectWhere truthy (map (textCol "nullifier") settlements))
    (orOpt (optText (field b "quote_id")) (firstCol "quote_id" settlements))
    (orOpt (optText (field b "policy_id")) (firstCol "policy_id" commitments))
    (head anchorIds)
    (if truthyJson (field b "disclose_amounts")
     then Some (map (fun c => ShadeView.mkDisclosed (textCol "commitment" c) (textCol "amount_usdc_7dp" c) "USDC") commitments)
     else None)
    (map explorerLink (selectWhere truthy (omap (fun s => optText (get s "stellar_tx_hash")) settlements))).
Definition attachmentFor (b : json) (r : ShadeView.SignedViewKeyReport) : M Api (option json) :=
  match truthyOpt (optText (field b "attachment_recipient_pubkey")) with
  | None => mret None
  | Some pk =>
      k ← onStore tick; onStore tick ;;
      mret (Some (ShadeView.encryptReportAttachment k r pk))
  end.
Definition storeReport (userId : string) (b : json) (r : ShadeView.SignedViewKeyReport) (attachment : option json) : M DB unit :=
  let u := ShadeView.unsigned r in let i := ShadeView.input u in
  Store.insertViewKeyReport (Store.mkReport (ShadeView.reportId u) userId (optText (field b "time_range_from"))
    (optText (field b "time_range_to")) (ShadeView.noteCommitments i) (ShadeView.disclosedNullifiers i) (ShadeView.quoteId i)
    (ShadeView.policyId i) (ShadeView.anchorId i) (truthyJson (field b "disclose_amounts")) (ShadeView.proofLinks i)
    (ShadeView.servicePubkeyHex r) (ShadeView.serviceSignatureHex r) attachment).
Definition post_view_key (r : Request) : M Api Response :=
  userId ← authedUser r;
  b ← parseM Schemas.viewKeyReportSchema (body r);
  match truthyOpt (env "SHADE_VIEW_SIGNING_SECRET") with
  | None => mret (replyCode 503 (err "Shade View service not configured (SHADE_VIEW_SIGNING_SECRET unset)"))
  | Some serviceSecret =>
      settlements ← onStore (Store.getOwnedSettlements userId (textsOf (field b "settlement_ids")));
      commitments ← onStore (Store.getOwnedNoteCommitments userId (textsOf (field b "note_commitments")));
      anchorIds ← match truthyOpt (optText (field b "anchor_id")) with
                  | Some a => mret [a]
                  | None => onStore (Store.getAnchorIdsForSettlements (map (textCol "settlement_id") settlements))
                  end;
      reportId ← onStore randomUUID;
      now ← onStore dateNow;
      signed ← liftR (ShadeView.signViewKeyReport (reportInput userId b settlements commitments anchorIds) reportId
                        serviceSecret (toISOString now));
      attachment ← attachmentFor b signed;
      onStore (storeReport userId b signed attachment) ;;
      logActivity (Some userId) "shade_view.report.generate" "view_key_report" reportId ;;
      mret (reply (JObj [("report", ShadeView.reportJson signed); ("encrypted_attachment", orElse attachment JNull)]))
  end.
Definition get_view_key (r : Request) : M Api Response :=
  userId ← authedUser r;
  row ← onStore (Store.getViewKeyReport userId (param r "report_id"));
  mret (match row with Some row => reply (Store.rowJson row) | None => replyCode 404 (err "report not found") end).

(** ** Only the user's rows *)
Definition ownRow (userId t key : string) (requested : list string) (w : Api) (x : Row) : Prop :=
  x ∈ table (adb w) t /\ get x "user_id" = JStr userId /\ exists v, v ∈ requested /\ get x key = JStr v.
Lemma ownRow_select t key cols userId requested w y :
  y ∈ map (project cols) (selectWhere (Store.andB (eqText "user_id" userId) (anyText key requested)) (table (adb w) t)) ->
  exists x, ownRow userId t key requested w x /\ forall c, c ∈ cols -> textCol c y = textCol c x /\ get y c = get x c.
Proof.
  intros (x & -> & [Hx Hp]%elem_of_selectWhere)%list_elem_of_fmap. exists x. unfold Store.andB in Hp.
  apply andb_true_iff in Hp as [Hu%eqText_true Hk%anyText_true]. split; [done|].
  intros c Hc. unfold textCol. by rewrite !get_project.
Qed.
Lemma getOwnedSettlements_own userId ids w rows db' y :
  Store.getOwnedSettlements userId ids (adb w) = (Ok rows, db') -> y ∈ rows ->
  exists x, ownRow userId "settlements" "settlement_id" ids w x /\
    forall c, c ∈ ["settlement_id"; "quote_id"; "nullifier"; "stellar_tx_hash"] -> textCol c y = textCol c x /\ get y c = get x c.
Proof.
  unfold Store.getOwnedSettlements. destruct ids as [|id ids]; [intros [= <- <-] []%elem_of_nil|]. intros Hg Hy.
  bind_ok Hg as rs db1 E. apply select_Ok in E as [-> ->]. apply ret_Ok in Hg as [-> ->].
  apply ownRow_select in Hy as (x & Hx & Hc). exists x. split; [done|]. intros c Hin. apply Hc. set_solver.
Qed.
Lemma getOwnedNoteCommitments_own userId ids w rows db' y :
  Store.getOwnedNoteCommitments userId ids (adb w) = (Ok rows, db') -> y ∈ rows ->
  exists x, ownRow userId "note_commitments" "commitment" ids w x /\
    forall c, c ∈ ["commitment"; "policy_id"; "amount_usdc_7dp"] -> textCol c y = textCol c x /\ get y c = get x c.
Proof.
  unfold Store.getOwnedNoteCommitments. destruct ids as [|id ids]; [intros [= <- <-] []%elem_of_nil|]. intros Hg Hy.
  bind_ok Hg as rs db1 E. apply select_Ok in E as [-> ->]. apply ret_Ok in Hg as [-> ->].
  apply ownRow_select in Hy as (x & Hx & Hc). exists x. split; [done|]. intros c Hin. apply Hc. set_solver.
Qed.
Lemma getOwnedSettlements_state userId ids db rows db' :
  Store.getOwnedSettlements userId ids db = (Ok rows, db') -> db' = db.
Proof.
  unfold Store.getOwnedSettlements. destruct ids; [by intros [= _ <-]|]. intros Hg. bind_ok Hg as rs db1 E.
  apply select_Ok in E as [_ ->]. by apply ret_Ok in Hg as [_ ->].
Qed.
Lemma getOwnedNoteCommitments_state userId ids db rows db' :
  Store.getOwnedNoteCommitments userId ids db = (Ok rows, db') -> db' = db.
Proof.
  unfold Store.getOwnedNoteCommitments. destruct ids; [by intros [= _ <-]|]. intros Hg. bind_ok Hg as rs db1 E.
  apply select_Ok in E as [_ ->]. by apply ret_Ok in Hg as [_ ->].
Qed.
(** The anchor identifiers found are those of payouts of the settlements. *)
Lemma getAnchorIds_rows ids db anchors db' a :
  Store.getAnchorIdsForSettlements ids db = (Ok anchors, db') -> a ∈ anchors ->
  exists y, y ∈ table db "anchor_payouts" /\ (exists v, v ∈ ids /\ get y "settlement_id" = JStr v) /\
    get y "anchor_transaction_id" ≠ JNull /\ a = textOf (get y "anchor_transaction_id").
Proof.
  unfold Store.getAnchorIdsForSettlements. destruct ids as [|id ids]; [intros [= <- _] []%elem_of_nil|]. intros Hg Ha.
  bind_ok Hg as rs db1 E. apply select_Ok in E as [-> _]. apply ret_Ok in Hg as [-> _].
  assert (forall l acc, a ∈ fold_left JsSet.add l acc -> a ∈ acc \/ a ∈ l) as Hadd.
  { clear. induction l as [|x l IH]; intros acc; [by left|]. intros [Hin|Hin]%IH; [|right; set_solver]. apply JsSet.elem_of_add in Hin. set_solver. }
  apply Hadd in Ha as [Ha|Ha]; [by apply elem_of_nil in Ha|]. apply list_elem_of_fmap in Ha as (y & -> & [Hy Hp]%elem_of_selectWhere).
  unfold Store.andB in Hp. apply andb_true_iff in Hp as [Hk%anyText_true Hn]. exists y. split; [done|]. split; [done|]. split; [|done].
  intros E. by rewrite E in Hn.
Qed.

(** What a report may contain. *)
Record discloses (userId : string) (b : json) (w : Api) (i : ShadeView.ViewKeyReportInput) : Prop := {
  ds_user : ShadeView.userId i = userId;
  ds_from : ShadeView.timeRangeFrom i = optText (field b "time_range_from");
  ds_to : ShadeView.timeRangeTo i = optText (field b "time_range_to");
  ds_commitments c : c ∈ ShadeView.noteCommitments i -> exists x,
    ownRow userId "note_commitments" "commitment" (textsOf (field b "note_commitments")) w x /\ c = textCol "commitment" x;
  ds_nullifiers n : n ∈ ShadeView.disclosedNullifiers i -> exists x,
    ownRow userId "settlements" "settlement_id" (textsOf (field b "settlement_ids")) w x /\ n = textCol "nullifier" x;
  ds_links l : l ∈ ShadeView.proofLinks i -> exists x h,
    ownRow userId "settlements" "settlement_id" (textsOf (field b "settlement_ids")) w x /\
    get x "stellar_tx_hash" = JStr h /\ l = explorerLink h;
  ds_quote q : ShadeView.quoteId i = Some q -> field b "quote_id" = JStr q \/ exists x,
    ownRow userId "settlements" "settlement_id" (textsOf (field b "settlement_ids")) w x /\ get x "quote_id" = JStr q;
  ds_policy p : ShadeView.policyId i = Some p -> field b "policy_id" = JStr p \/ exists x,
    ownRow userId "note_commitments" "commitment" (textsOf (field b "note_commitments")) w x /\ get x "policy_id" = JStr p;
  ds_anchor a : ShadeView.anchorId i = Some a -> field b "anchor_id" = JStr a \/ exists x y,
    ownRow userId "settlements" "settlement_id" (textsOf (field b "settlement_ids")) w x /\
    y ∈ table (adb w) "anchor_payouts" /\ get y "settlement_id" = get x "settlement_id" /\
    get y "anchor_transaction_id" ≠ JNull /\ a = textOf (get y "anchor_transaction_id");
  ds_hidden : truthyJson (field b "disclose_amounts") = false -> ShadeView.amountsDisclosed i = None;
  ds_amounts d : d ∈ orElse (ShadeView.amountsDisclosed i) [] -> exists x,
    ownRow userId "note_commitments" "commitment" (textsOf (field b "note_commitments")) w x /\
    ShadeView.commitment d = textCol "commitment" x /\ ShadeView.amount7dp d = textCol "amount_usdc_7dp" x /\
    ShadeView.currency d = "USDC" }.
(** The anchor identifiers of the report's settlements, or the request's. *)
Definition anchorsOf (userId : string) (b : json) (w : Api) (anchorIds : list string) : Prop :=
  forall a, a ∈ anchorIds -> field b "anchor_id" = JStr a \/ exists x y,
    ownRow userId "settlements" "settlement_id" (textsOf (field b "settlement_ids")) w x /\
    y ∈ table (adb w) "anchor_payouts" /\ get y "settlement_id" = get x "settlement_id" /\
    get y "anchor_transaction_id" ≠ JNull /\ a = textOf (get y "anchor_transaction_id").
Lemma anchorIds_own userId b w settlements anchorIds db1 w4 :
  Store.getOwnedSettlements userId (textsOf (field b "settlement_ids")) (adb w) = (Ok settlements, db1) ->
  (match truthyOpt (optText (field b "anchor_id")) with
   | Some a => mret [a]
   | None => onStore (Store.getAnchorIdsForSettlements (map (textCol "settlement_id") settlements))
   end) w = (Ok anchorIds, w4) -> anchorsOf userId b w anchorIds.
Proof.
  intros Hs Hr a Ha. destruct (truthyOpt _) as [t|] eqn:Et.
  - apply ret_Ok in Hr as [-> _]. apply list_elem_of_singleton in Ha as ->. left. unfold truthyOpt, optText in Et.
    destruct (field b "anchor_id"); try done. destruct (truthy _); congruence.
  - apply onStore_Ok in Hr as (db2 & Hr & ->). right.
    destruct (getAnchorIds_rows _ _ _ _ _ Hr Ha) as (y & Hy & (v & (s & -> & Hin)%list_elem_of_fmap & Hv) & Hn & ->).
    destruct (getOwnedSettlements_own _ _ _ _ _ _ Hs Hin) as (x & Hx & Hc). exists x, y. split; [done|]. split; [done|].
    split; [|done]. rewrite Hv, (proj1 (Hc "settlement_id" ltac:(set_solver))). destruct Hx as (_ & _ & k & _ & Hk).
    unfold textCol. by rewrite Hk.
Qed.
Lemma firstCol_own (c q : string) rows : firstCol c rows = Some q -> exists y, y ∈ rows /\ get y c = JStr q.
Proof.
  unfold firstCol. destruct rows as [|y rows]; [done|]. cbn. unfold optText. destruct (get y c) eqn:E; try done. intros [= ->].
  exists y. split; [set_solver|done].
Qed.
Lemma optText_Some j s : optText j = Some s -> j = JStr s.
Proof. unfold optText. destruct j; congruence. Qed.
Lemma reportInput_discloses userId b w settlements commitments anchorIds db1 db2 :
  Store.getOwnedSettlements userId (textsOf (field b "settlement_ids")) (adb w) = (Ok settlements, db1) ->
  Store.getOwnedNoteCommitments userId (textsOf (field b "note_commitments")) (adb w) = (Ok commitments, db2) ->
  anchorsOf userId b w anchorIds -> discloses userId b w (reportInput userId b settlements commitments anchorIds).
Proof.
  intros Hs Hc Hanc.
  assert (forall y, y ∈ settlements -> _) as Hset by (intros y; apply (getOwnedSettlements_own _ _ _ _ _ y Hs)).
  assert (forall y, y ∈ commitments -> _) as Hcom by (intros y; apply (getOwnedNoteCommitments_own _ _ _ _ _ y Hc)).
  split; simpl; try done.
  - intros c (y & -> & (x & Hx & E)%Hcom)%list_elem_of_fmap. exists x. split; [done|]. apply E. set_solver.
  - intros n [(y & -> & (x & Hx & E)%Hset)%list_elem_of_fmap _]%elem_of_selectWhere. exists x. split; [done|]. apply E. set_solver.
  - intros l (h & -> & [(y & (x & Hx & E)%Hset & Hh)%list_elem_of_omap _]%elem_of_selectWhere)%list_elem_of_fmap.
    exists x, h. split; [done|]. split; [|done]. rewrite <- (proj2 (E "stellar_tx_hash" ltac:(set_solver))). by apply optText_Some.
  - intros q Hq. destruct (optText (field b "quote_id")) as [t|] eqn:Et; [injection Hq as ->; left; by apply optText_Some|right].
    apply firstCol_own in Hq as (y & (x & Hx & E)%Hset & Hy). exists x. split; [done|]. by rewrite <- (proj2 (E "quote_id" ltac:(set_solver))).
  - intros q Hq. destruct (optText (field b "policy_id")) as [t|] eqn:Et; [injection Hq as ->; left; by apply optText_Some|right].
    apply firstCol_own in Hq as (y & (x & Hx & E)%Hcom & Hy). exists x. split; [done|]. by rewrite <- (proj2 (E "policy_id" ltac:(set_solver))).
  - intros a Ha. apply Hanc. destruct anchorIds; [done|]. injection Ha as ->. set_solver.
  - by intros ->.
  - intros d Hd. destruct (truthyJson _); [|by apply elem_of_nil in Hd]. simpl in Hd.
    apply list_elem_of_fmap in Hd as (y & -> & (x & Hx & E)%Hcom). exists x. split; [done|].
    split; [apply E; set_solver|]. split; [apply E; set_solver|done].
Qed.

(** C26. A report that is returned discloses, of the rows of the user the
    request was authenticated as, only those asked for: their commitments,
    nullifiers and transaction links, and their amounts only on request.  Its
    quote, policy and anchor identifiers are the request's own or come from
    those rows: the quote of such a settlement, the policy of such a note, the
    anchor transaction of a payout of such a settlement. *)
Theorem report_discloses_own r w resp w' :
  post_view_key r w = (Ok resp, w') -> code resp = 200 ->
  exists userId w1 b signed, authedUser r w = (Ok userId, w1) /\ Schemas.parse Schemas.viewKeyReportSchema (body r) = Ok b /\
    field (content resp) "report" = ShadeView.reportJson signed /\
    discloses userId b w1 (ShadeView.input (ShadeView.unsigned signed)).
Proof.
  intros Hr Hcode. unfold post_view_key in Hr. bind_ok Hr as userId w1 Ea. unfold parseM in Hr. lift_ok Hr as b Eb.
  destruct (truthyOpt (env "SHADE_VIEW_SIGNING_SECRET")) as [secret|]; [|by apply ret_Ok in Hr as [-> _]].
  bind_ok Hr as settlements w2 Es. apply onStore_Ok in Es as (db1 & Es & ->).
  pose proof (getOwnedSettlements_state _ _ _ _ _ Es) as ->.
  bind_ok Hr as commitments w3 Ec. apply onStore_Ok in Ec as (db2 & Ec & ->). cbn [adb] in Ec.
  pose proof (getOwnedNoteCommitments_state _ _ _ _ _ Ec) as ->. replace (mkApi _ _) with w1 in * by (by destruct w1).
  bind_ok Hr as anchorIds w4 En. bind_ok Hr as reportId w5 Ei. bind_ok Hr as now w6 Et. lift_ok Hr as signed Esig.
  assert (anchorsOf userId b w1 anchorIds) as Hanc by (by eapply anchorIds_own).
  bind_ok Hr as attachment w7 Eat. bind_ok Hr as u1 w8 Est. bind_ok Hr as u2 w9 El. apply ret_Ok in Hr as [-> _].
  exists userId, w1, b, signed. split_and!; [done|done|done|].
  unfold ShadeView.signViewKeyReport in Esig. destruct (fromSecret secret) as [pk|]; [|done]. injection Esig as <-. simpl.
  by eapply reportInput_discloses.
Qed.
End Routes.

(** ** Witness: a report over one settlement *)
Definition toyReportEnv : Env := fun v =>
  if v ==? "SHADE_VIEW_SIGNING_SECRET" then Some "seed" else toyPrivyEnv v.
Definition toyReportApi : Api :=
  mkApi (mkDB (list_to_map
    [("users", [[("id", JStr "u1"); ("privy_user_id", JStr "did:privy:1")]]);
     ("settlements", [[("settlement_id", JStr "s1"); ("user_id", JStr "u1"); ("nullifier", JStr "0xn");
                       ("stellar_tx_hash", JStr "0xt")];
                      [("settlement_id", JStr "s2"); ("user_id", JStr "u2"); ("nullifier", JStr "0xm")]])])
    (JobQueue.mkDB [] [] 5000) 0) (mkCache None []).
Definition toyReportBody : json :=
  JObj [("settlement_ids", JArr [JStr "s1"; JStr "s2"]); ("note_commitments", JArr []); ("disclose_amounts", JBool false)].
Definition toyReport :=
  @post_view_key toyReportEnv toyUuid Schemas.toyZod toyKeys toyJwks Toy.toy_sha ToyRuntime.toy_keypair Toy.toy_nacl
    ToyRuntime.toy_keygen ToyRuntime.toy_random (toyRequest toyReportBody) toyReportApi.
Lemma report_discloses_own_witness :
  match toyReport with
  | (Ok resp, _) => exists signed, field (content resp) "report" = ShadeView.reportJson signed /\
      exists w1, discloses "u1" toyReportBody w1 (ShadeView.input (ShadeView.unsigned signed))
  | _ => False
  end.
Proof.
  destruct toyReport as [[resp|e] w'] eqn:E; [|exfalso; revert E; vm_compute; discriminate].
  assert (code resp = 200) as Hc by (revert E; vm_compute; by intros [= <- _]).
  destruct (@report_discloses_own toyReportEnv toyUuid Schemas.toyZod toyKeys toyJwks Toy.toy_sha ToyRuntime.toy_keypair
    Toy.toy_nacl ToyRuntime.toy_keygen ToyRuntime.toy_random (toyRequest toyReportBody) toyReportApi resp w' E Hc)
    as (userId & w1 & b & signed & Ha & Hb & Hs & Hd).
  exists signed. split; [exact Hs|]. exists w1.
  assert (userId = "u1") as <- by (revert Ha; vm_compute; by intros [= <- _]).
  assert (b = toyReportBody) as <- by (revert Hb; vm_compute; by intros [= <-]). exact Hd.
Defined.
End RoutesReport.
