(* ===== verification/RoutesProxy.v ===== *)
(** * Committee and anchor proxies (apps/api/src/routes.ts)

    Routes that forward to the MPC committee service and to the anchor
    adapter, and what they persist.  Theorem: the anchor payout routes cannot
    read or keep a payout. *)
From S2P Require Import Prelude JsText JsCollections Json Crypto Base64 Ids JobQueue Database Runtime NoteVault Store Privy Schemas ApiAuth Cctp RoutesTrade.
From Stdlib Require Import Ascii.
Import JsText Json Crypto Database Runtime Privy ApiAuth RoutesTrade.

Module RoutesProxy.

Section Routes.
Context `{Env} `{Uuid} `{Schemas.Zod} `{WebKeys} `{Fetch} `{Sha256}.

(** [fetch] inside [try]: the answer, or [None] on a network error. *)
Definition tryFetch (method url : string) (b : json) : M Api (option (Z * json)) :=
  n ← onStore tick;
  mret (match fetch n method url b with Ok a => Some a | Throw _ => None end).
Definition unreachable : Response := replyCode 503 (err "MPC committee unreachable").
(** [badJson] is the reply to a status outside 200-299. *)
Definition forward (down : Response) (bad : Z -> json -> Response) (method path : string) (b : json) : M Api Response :=
  a ← tryFetch method (mpcUrl +:+ path) b;
  mret (match a with
        | None => down
        | Some (st, j) => if respOk st then reply j else bad st j
        end).
Definition unavailable (st : Z) (j : json) : Response := replyCode 502 (err "committee unavailable").
Definition get_mpc_committee (r : Request) : M Api Response :=
  forward (replyCode 503 (err "MPC_COMMITTEE_URL not reachable — is mpc:dev running?")) unavailable "GET" "/v1/mpc/committee" JNull.

(** [a ?? b ?? ... ?? d]. *)
Fixpoint firstOf (js : list json) (d : json) : json := match js with [] => d | j :: js => nullish j (firstOf js d) end.
Definition either (b : json) (camel snake : string) (d : json) : json := firstOf [field b camel; field b snake] d.
Definition mpcRow (intentId : json) (userId : option string) (b sid : json) : Row :=
  [("intent_id", intentId); ("session_id", nullish sid (JStr "unknown")); ("user_id", strOrNull userId);
   ("input_asset", either b "inputAsset" "input_asset" JNull); ("output_asset", either b "outputAsset" "output_asset" JNull);
   ("expiry_ledger", either b "expiryLedger" "expiry_ledger" (JNum 0)); ("policy_id", either b "policyId" "policy_id" (JStr "default"));
   ("note_nullifier", either b "noteNullifier" "note_nullifier" (JStr ""));
   ("note_commitment", either b "noteCommitment" "note_commitment" (JStr ""));
   ("recipient_commitment", either b "recipientCommitment" "recipient_commitment" (JStr "")); ("status", JStr "pending")].
Definition post_mpc_intents (r : Request) : M Api Response :=
  let b := body r in
  let intentId := either b "intentId" "intent_id" JNull in
  if negb (truthyJson intentId) then mret (replyCode 400 (err "intentId required"))
  else
    userId ← optionalUser r;
    a ← tryFetch "POST" (mpcUrl +:+ "/v1/mpc/intents") (JObj [("intent", b)]);
    match a with
    | None => mret unreachable
    | Some (st, data) =>
        if negb (respOk st) then mret (replyCode 502 data)
        else
          onStore (insertSession (sessionOf data)) ;;
          onStore (insertMpcIntent (mpcRow intentId userId b (sessionOf data))) ;;
          onStore (foreachM (insertShare (Cctp.stringOf intentId)) (itemsOf (field b "encryptedShares"))) ;;
          (match truthyOpt userId with
           | Some u => logActivity (Some u) "mpc.intent.submit" "mpc_intent" (Cctp.stringOf intentId)
           | None => mret tt
           end) ;;
          mret (reply data)
    end.
Definition get_mpc_intent (r : Request) : M Api Response :=
  row ← onStore (selectFirst schemaOf "mpc_intents" (eqText "intent_id" (param r "intent_id")));
  mret (match row with Some row => reply (Store.rowJson row) | None => replyCode 404 (err "intent not found") end).
Definition sessionPath (r : Request) : string := "/v1/mpc/sessions/" +:+ param r "session_id".
Definition get_mpc_session (r : Request) : M Api Response := forward unreachable (fun st j => replyCode st j) "GET" (sessionPath r) JNull.
Definition post_mpc_match (r : Request) : M Api Response :=
  forward unreachable (fun _ j => replyCode 502 j) "POST" (sessionPath r +:+ "/match") JNull.
Definition get_mpc_batches (r : Request) : M Api Response := forward unreachable unavailable "GET" "/v1/mpc/batches" JNull.
Definition post_mpc_batches_verify (r : Request) : M Api Response :=
  forward unreachable unavailable "POST" "/v1/mpc/verify" (body r).

(** ** Anchors *)
Definition anchorBase : string := orElse (env "ANCHOR_API_BASE") "".
Definition proxyAnchor (path method : string) (b : json) : M Api Response :=
  if negb (truthy anchorBase) then mret (replyCode 501 (err "no anchor adapter configured (set ANCHOR_API_BASE)"))
  else
    n ← onStore tick;
    match fetch n method (anchorBase +:+ path) b with
    | Throw e => throwM e
    | Ok (st, j) => mret (replyCode st j)
    end.
Definition get_anchors_discovery (r : Request) : M Api Response := proxyAnchor "/info" "GET" JNull.
(** [String(x ?? d)]. *)
Definition textOr (j : json) (d : string) : json := JStr (Cctp.stringOf (nullish j (JStr d))).
(** [insertGeneric(...).catch(() => {})]. *)
Definition insertQuietly (t : string) (row : Row) : M Api unit :=
  onStore (catchM (Store.insertGeneric t row) (fun _ => mret tt)).
Definition withClient (b : json) (userId : string) : json := JObj (spread (entriesOf b) [("client_id", JStr userId)]).
Definition post_anchors_quotes (r : Request) : M Api Response :=
  userId ← authedUser r;
  let b := body r in
  quoteId ← onStore randomUUID;
  a ← proxyAnchor "/quotes" "POST" (withClient b userId);
  (if code a <? 300 then
     insertQuietly "anchor_quotes"
       [("quote_id", JStr quoteId); ("user_id", JStr userId); ("asset", textOr (field b "asset") "");
        ("amount_7dp", textOr (field b "amount7dp") "0"); ("destination_currency", textOr (field b "destination_currency") "");
        ("destination_country", textOr (field b "destination_country") "");
        ("anchor_quote_id", field (content a) "id"); ("status", JStr "quoted"); ("raw", content a)]
   else mret tt) ;;
  mret a.
Definition post_anchors_payouts (r : Request) : M Api Response :=
  userId ← authedUser r;
  let b := body r in
  payoutId ← onStore randomUUID;
  a ← proxyAnchor "/transactions" "POST" (withClient b userId);
  (if code a <? 300 then
     insertQuietly "anchor_payouts"
       [("payout_id", JStr payoutId); ("user_id", JStr userId); ("quote_id", textOr (field b "quote_id") "");
        ("settlement_id", textOr (field b "settlement_id") ""); ("anchor_transaction_id", field (content a) "id");
        ("status", JStr "pending"); ("raw", content a)]
   else mret tt) ;;
  mret (replyCode (code a) (JObj (spread [("payout_id", JStr payoutId)] (entriesOf (content a))))).
Definition txPath (row : Row) : string := "/transactions/" +:+ Cctp.stringOf (get row "anchor_transaction_id").
Definition get_anchors_payout (r : Request) : M Api Response :=
  authedUser r ;;
  row ← onStore (Store.getById "anchor_payouts" "payout_id" (param r "payout_id"));
  match row with
  | None => mret (replyCode 404 (err "payout not found"))
  | Some row =>
      if truthyJson (get row "anchor_transaction_id") then proxyAnchor (txPath row) "GET" JNull
      else mret (reply (Store.rowJson row))
  end.
Definition post_compliance_package (r : Request) : M Api Response :=
  authedUser r ;;
  let b := body r in
  row ← onStore (Store.getById "anchor_payouts" "payout_id" (Cctp.stringOf (nullish (field b "payout_id") (JStr ""))));
  match row with
  | None => mret (replyCode 404 (err "payout not found"))
  | Some row =>
      if negb (truthyJson (get row "anchor_transaction_id")) then mret (replyCode 400 (err "payout has no anchor transaction"))
      else proxyAnchor (txPath row +:+ "/kyc_documents") "POST" (JObj [("encrypted_package", field b "encrypted_package_hex")])
  end.

(** The tables of the anchor routes are in neither allow-list of the store:
    a read throws and an insert is dropped. *)
Lemma anchor_payouts_unreadable id w :
  onStore (Store.getById "anchor_payouts" "payout_id" id) w = (Throw (Error None "unsafe table anchor_payouts"), w).
Proof. by destruct w. Qed.
Lemma anchor_inserts_dropped t row w : t = "anchor_quotes" \/ t = "anchor_payouts" -> insertQuietly t row w = (Ok tt, w).
Proof. by intros [-> | ->]; destruct w. Qed.
Theorem payout_routes_broken r w u w1 :
  authedUser r w = (Ok u, w1) ->
  get_anchors_payout r w = (Throw (Error None "unsafe table anchor_payouts"), w1) /\
  post_compliance_package r w = (Throw (Error None "unsafe table anchor_payouts"), w1).
Proof.
  intros Ha. unfold get_anchors_payout, post_compliance_package, mbind, M_bind. rewrite Ha.
  by rewrite !anchor_payouts_unreadable.
Qed.
End Routes.
End RoutesProxy.
