(* ===== verification/ApiTypes.v ===== *)
(** * What every request keeps

    A property of the database that single statements keep, in the sense of
    [Records], is kept by every method of the store, by authentication, and so
    by every route of the API, whether the request succeeds or fails half
    way. *)
From S2P Require Import Prelude JsText JsCollections Json Crypto Ids JobQueue Database WellTyped Records Runtime NoteVault Store Privy Schemas ApiAuth Cctp NoteCrypto RoutesAccount RoutesVault StellarActions RoutesTrade RoutesSettle ShadeView RoutesReport RoutesProxy.
Import JsText Json Crypto Database Records Runtime Privy ApiAuth.

Module ApiTypes.

(** ** The store *)
Create HintDb types discriminated.
#[export] Hint Constants Opaque : types.
Section StoreTypes.
Context `{Uuid} {I : DB -> Prop} {inv : RowInvariant I}.

Lemma types_transition t : preserves I (Store.transition t).
Proof. unfold Store.transition. keeps_inv. Qed.
Lemma types_upsertDeposit i : preserves I (Store.upsertDeposit i).
Proof. unfold Store.upsertDeposit. keeps_inv. Qed.
Lemma types_createUserDeposit i : preserves I (Store.createUserDeposit i).
Proof. unfold Store.createUserDeposit. keeps_inv. Qed.
Lemma types_setDepositBurnTx d x : preserves I (Store.setDepositBurnTx d x).
Proof. unfold Store.setDepositBurnTx. keeps_inv. Qed.
Lemma types_getById t c v : preserves I (Store.getById t c v).
Proof. unfold Store.getById, selectFirst. keeps_inv. Qed.
Lemma types_insertGeneric t row : preserves I (Store.insertGeneric t row).
Proof.
  unfold Store.insertGeneric. destruct (bool_decide_reflect (t ∈ Store.insertableTables)) as [Ht|]; [|by apply preserves_throw].
  unfold Store.insertableTables in Ht. rewrite !elem_of_cons, elem_of_nil in Ht. cbn [negb].
  repeat (destruct Ht as [->|Ht]; [keeps_inv|]). done.
Qed.
Lemma types_upsertUserByPrivyId d e m : preserves I (Store.upsertUserByPrivyId d e m).
Proof. unfold Store.upsertUserByPrivyId, selectFirst, Store.touchLogin, Store.createProfile, Store.returnedId. keeps_inv. Qed.
Lemma types_createNoteVault u p v i : preserves I (Store.createNoteVault u p v i).
Proof. unfold Store.createNoteVault. keeps_inv. Qed.
Lemma types_updateNoteVault u v i : preserves I (Store.updateNoteVault u v i).
Proof. unfold Store.updateNoteVault. keeps_inv. Qed.
Lemma types_setVaultBackupStatus u v s : preserves I (Store.setVaultBackupStatus u v s).
Proof. unfold Store.setVaultBackupStatus. destruct (s ==? "verified"); [keeps_inv|]. destruct (s ==? "restored"); keeps_inv. Qed.
Lemma types_setVaultBackupVerified u v x : preserves I (Store.setVaultBackupVerified u v x).
Proof. unfold Store.setVaultBackupVerified. keeps_inv. Qed.
Lemma types_addVaultWrapper u v t m : preserves I (Store.addVaultWrapper u v t m).
Proof. unfold Store.addVaultWrapper, Store.returnedId. keeps_inv. Qed.
Lemma types_deleteVaultWrapper u v w : preserves I (Store.deleteVaultWrapper u v w).
Proof. unfold Store.deleteVaultWrapper. keeps_inv. Qed.
Lemma types_createNonce a b c d e : preserves I (Store.createNonce a b c d e).
Proof. unfold Store.createNonce. keeps_inv. Qed.
Lemma types_consumeNonce a b c : preserves I (Store.consumeNonce a b c).
Proof. unfold Store.consumeNonce. keeps_inv. Qed.
Lemma types_upsertUserByWallet a b c : preserves I (Store.upsertUserByWallet a b c).
Proof. unfold Store.upsertUserByWallet, selectFirst, Store.touchLogin, Store.createProfile, Store.returnedId. keeps_inv. Qed.
Lemma types_createSession a b c : preserves I (Store.createSession a b c).
Proof. unfold Store.createSession. keeps_inv. Qed.
Lemma types_revokeSession a : preserves I (Store.revokeSession a).
Proof. unfold Store.revokeSession. keeps_inv. Qed.
Lemma types_syncPrivyWallets a b c : preserves I (Store.syncPrivyWallets a b c).
Proof. unfold Store.syncPrivyWallets, Store.syncPrivyWallet. keeps_inv. Qed.
(** The assigned columns are among the three of the profile. *)
Lemma types_updateUser u fs : preserves I (Store.updateUser u fs).
Proof.
  unfold Store.updateUser. cbn [omap list_omap].
  destruct (JsMap.get fs "display_name"), (JsMap.get fs "email"), (JsMap.get fs "avatar_url"); cbn; keeps_inv.
Qed.
Lemma types_addWallet a b c d : preserves I (Store.addWallet a b c d).
Proof. unfold Store.addWallet, Store.returnedId. keeps_inv. Qed.
Lemma types_deleteWallet a b : preserves I (Store.deleteWallet a b).
Proof. unfold Store.deleteWallet. keeps_inv. Qed.
Lemma types_logActivity a b : preserves I (Store.logActivity a b).
Proof. unfold Store.logActivity. keeps_inv. Qed.
Lemma types_addNoteBackup a b c d : preserves I (Store.addNoteBackup a b c d).
Proof. unfold Store.addNoteBackup. keeps_inv. Qed.
Lemma types_executeFill a b : preserves I (Store.executeFill a b).
Proof. unfold Store.executeFill. keeps_inv. Qed.
(** The only table whose owner a route sets. *)
Lemma types_setRowUser c i u : preserves I (Store.setRowUser "settlements" c i u).
Proof. unfold Store.setRowUser. rewrite bool_decide_true by set_solver. keeps_inv. Qed.
Lemma types_insertViewKeyReport r : preserves I (Store.insertViewKeyReport r).
Proof. unfold Store.insertViewKeyReport. keeps_inv. Qed.
End StoreTypes.
#[export] Hint Resolve types_transition types_upsertDeposit types_createUserDeposit types_setDepositBurnTx types_getById
  types_insertGeneric types_upsertUserByPrivyId types_createNoteVault types_updateNoteVault types_setVaultBackupStatus
  types_setVaultBackupVerified types_addVaultWrapper types_deleteVaultWrapper types_createNonce types_consumeNonce
  types_upsertUserByWallet types_createSession types_revokeSession types_syncPrivyWallets types_updateUser types_addWallet
  types_deleteWallet types_logActivity types_addNoteBackup types_executeFill types_setRowUser types_insertViewKeyReport : types.

(** The queries of the store. *)
Ltac reads :=
  unfold Store.health, Store.criticalRootMismatchCount, Store.getDepositForUser, Store.userOwnsWallet, Store.userOwnsVault,
    Store.listNoteVaults, Store.getNoteVault, Store.vaultDepositReady, Store.listVaultWrappers, Store.userIdForSession,
    Store.getUser, Store.listWallets, Store.listActivity, Store.listByUser, Store.listNoteVaultsForRecovery, Store.rfqLifecycle,
    Store.isNullifierSpent, Store.listQuotesByIntent, Store.getOwnedSettlements, Store.getOwnedNoteCommitments,
    Store.getAnchorIdsForSettlements, Store.getViewKeyReport, selectFirst; keeps_inv.
Section Reads.
Context `{Uuid} {I : DB -> Prop} {inv : RowInvariant I}.
Lemma types_getJob id : preserves I (onQueue (JobQueue.getJob id)).
Proof. by apply inv_read. Qed.
Lemma types_getEvents id : preserves I (onQueue (JobQueue.getEvents id)).
Proof. by apply inv_read. Qed.
Lemma types_randomUUID : preserves I randomUUID.
Proof. unfold randomUUID. keeps_inv. Qed.
End Reads.
#[export] Hint Resolve types_getJob types_getEvents types_randomUUID inv_tick preserves_dateNow preserves_select : types.

(** ** Authentication *)
Definition held (I : DB -> Prop) (w : Api) : Prop := I (adb w).
Lemma held_onStore {A} I (m : M DB A) : preserves I m -> preserves (held I) (onStore m).
Proof. apply preserves_onStore. Qed.
Ltac route :=
  repeat first
    [ solve [eauto with types] | apply preserves_bind; [|intros ?] | apply preserves_ret | apply preserves_throw
    | apply preserves_lift | apply preserves_guard | apply preserves_catch; [|intros ?] | apply preserves_foreach; intros ?
    | apply held_onStore; solve [eauto with types | reads] | progress case_match ].
Section Auth.
Context `{Env} `{Uuid} `{Schemas.Zod} `{WebKeys} `{Fetch} `{Sha256} `{Random} `{Wallets}.
Context {I : DB -> Prop} {inv : RowInvariant I}.
Lemma held_cache c : preserves (held I) (putCache c).
Proof. by intros w Hw. Qed.
Lemma held_getCache : preserves (held I) getCache.
Proof. by intros w Hw. Qed.
#[local] Hint Resolve held_cache held_getCache : types.
Lemma held_verify token : preserves (held I) (verifyPrivyAccessToken token).
Proof. unfold verifyPrivyAccessToken, verificationKey, fetchJwk. route. Qed.
#[local] Hint Resolve held_verify : types.
Lemma held_requirePrivyUser r : preserves (held I) (requirePrivyUser r).
Proof. unfold requirePrivyUser, upsertUserByPrivyId, storePrivyDb. route. Qed.
Lemma held_optionalPrivyUser r : preserves (held I) (optionalPrivyUser r).
Proof. unfold optionalPrivyUser, upsertUserByPrivyId, storePrivyDb. route. Qed.
#[local] Hint Resolve held_requirePrivyUser held_optionalPrivyUser : types.
Lemma held_optionalUser r : preserves (held I) (optionalUser r).
Proof. unfold optionalUser. route. Qed.
#[local] Hint Resolve held_optionalUser : types.
Lemma held_authedUser r : preserves (held I) (authedUser r).
Proof. unfold authedUser, requireUser. route. Qed.
Lemma held_authedUserOptional r : preserves (held I) (authedUserOptional r).
Proof. unfold authedUserOptional. route. Qed.
Lemma held_requireOwned t c what u id : preserves (held I) (requireOwned t c what u id).
Proof. unfold requireOwned. route. Qed.
Lemma held_assertRootHealthy : preserves (held I) assertRootHealthy.
Proof. unfold assertRootHealthy. route. Qed.
Lemma held_logActivity u a b c : preserves (held I) (logActivity u a b c).
Proof. unfold logActivity. route. Qed.
Lemma held_toState a b c : preserves (held I) (toState a b c).
Proof. unfold toState. route. Qed.
Lemma held_parseM s j : preserves (held I) (parseM s j).
Proof. unfold parseM. route. Qed.
End Auth.
Lemma held_enqueueJob `{Uuid} {I : DB -> Prop} {inv : DbInvariant I} q t p k : otherJob q t = true -> preserves (held I) (enqueueJob q t p k).
Proof.
  intros Ho. unfold enqueueJob. apply preserves_bind; [apply held_onStore, types_randomUUID|intros u]. by apply held_onStore, inv_enqueue.
Qed.
#[export] Hint Resolve held_verify held_requirePrivyUser held_optionalPrivyUser held_optionalUser held_authedUser
  held_authedUserOptional held_requireOwned held_assertRootHealthy held_logActivity held_toState
  held_parseM : types.
#[export] Hint Extern 1 (RowInvariant _) => apply _ : types.
#[export] Hint Extern 2 (preserves _ (enqueueJob _ _ _ _)) => apply held_enqueueJob; reflexivity : types.
End ApiTypes.
