(* ===== verification/Api.v ===== *)
(** * The API's route table (apps/api/src/routes.ts, server.ts)

    [registerRoutes] as the list of its routes.  Theorem: whatever requests
    arrive, in whatever order, the database stays well typed, and
    rows stay where they are, but for the tables and columns the API erases
    and rewrites. *)
From S2P Require Import Prelude JsText JsCollections Json Crypto Ids JobQueue Database WellTyped Records Runtime NoteVault Store Privy Schemas ApiAuth Cctp NoteCrypto RoutesAccount RoutesVault StellarActions RoutesTrade RoutesSettle ShadeView RoutesReport RoutesProxy ApiTypes.
Import JsText Json Crypto Database WellTyped Records Runtime Privy ApiAuth ApiTypes.
Import RoutesAccount RoutesVault RoutesTrade RoutesSettle RoutesReport RoutesProxy.

Module Api.

Section Routes.
Context `{Env} `{Uuid} `{Schemas.Zod} `{WebKeys} `{Fetch} `{Sha256} `{Random} `{Wallets} `{Ids.LocaleCompare} `{Cctp.StrKey}
  `{NoteCrypto.Poseidon} `{StellarActions.SorobanRpc} `{Keypair} `{Nacl} `{KeyGen}.

Definition Handler : Type := Request -> M Api Response.
Definition accountRoutes : list (string * Handler) :=
  [("GET /health", get_health); ("GET /v1/config", get_config); ("GET /v1/contracts", get_contracts);
   ("GET /v1/balances/testnet", get_balances_testnet); ("POST /v1/setup/validate", post_setup_validate);
   ("GET /v1/health/full", get_health_full); ("POST /v1/auth/nonce", post_auth_nonce);
   ("POST /v1/auth/evm/verify", post_auth_evm_verify); ("POST /v1/auth/stellar/verify", post_auth_stellar_verify);
   ("GET /v1/auth/session", get_auth_session); ("POST /v1/auth/logout", post_auth_logout); ("GET /v1/me", get_me);
   ("PATCH /v1/me", patch_me); ("GET /v1/me/wallets", get_me_wallets);
   ("POST /v1/me/wallets/sync-privy", post_me_wallets_sync_privy); ("POST /v1/me/wallets", post_me_wallets);
   ("DELETE /v1/me/wallets/:wallet_id", delete_me_wallet); ("GET /v1/me/deposits", get_me_deposits);
   ("GET /v1/me/notes", get_me_notes); ("GET /v1/me/withdrawals", get_me_withdrawals); ("GET /v1/me/rfq", get_me_rfq);
   ("GET /v1/me/cctp-exits", get_me_cctp_exits); ("GET /v1/me/note-backups", get_me_note_backups);
   ("GET /v1/activity", get_activity); ("GET /v1/test-report/latest", get_test_report_latest)].
Definition vaultRoutes : list (string * Handler) :=
  [("POST /v1/deposits/prepare", post_deposits_prepare); ("POST /v1/deposits/:deposit_id/burn-submitted", post_burn_submitted);
   ("GET /v1/deposits/:deposit_id", get_deposit)]
  ++ map (fun s => ("POST /v1/deposits/:deposit_id/" +:+ s.1, depositStep s.2)) depositSteps
  ++ [("POST /v1/notes/commitment", post_notes_commitment); ("GET /v1/notes/:commitment/status", get_note_status);
      ("POST /v1/notes/encrypted-backup", post_encrypted_backup); ("POST /v1/notes/recover", post_notes_recover);
      ("POST /v1/note-vaults", post_note_vaults); ("GET /v1/note-vaults", get_note_vaults);
      ("GET /v1/note-vaults/:vault_id", get_note_vault); ("PUT /v1/note-vaults/:vault_id", put_note_vault);
      ("POST /v1/note-vaults/:vault_id/verify-backup", post_verify_backup);
      ("POST /v1/note-vaults/:vault_id/mark-restored", post_mark_restored);
      ("POST /v1/note-vaults/:vault_id/wrappers", post_wrappers);
      ("DELETE /v1/note-vaults/:vault_id/wrappers/:wrapper_id", delete_wrapper)].
Definition tradeRoutes : list (string * Handler) :=
  [("POST /v1/proofs/:kind/request", post_proof_request); ("GET /v1/proofs/:proof_job_id", get_proof_job);
   ("GET /v1/jobs/:job_id", get_job); ("POST /v1/withdrawals/prepare", post_withdrawals_prepare);
   ("POST /v1/withdrawals/build-xdr", post_withdrawals_build_xdr); ("POST /v1/withdrawals/submit", post_withdrawals_submit);
   ("GET /v1/withdrawals/:withdrawal_id", get_withdrawal); ("POST /v1/intents", post_intents);
   ("GET /v1/intents/:intent_hash", get_intent); ("GET /v1/intents/:intent_hash/quotes", get_intent_quotes);
   ("POST /v1/intents/:intent_hash/request-quotes", post_request_quotes); ("POST /v1/solver/quotes", post_solver_quotes);
   ("POST /v1/quotes/:quote_id/accept", post_quote_accept); ("POST /v1/quotes/:quote_id/lock", post_quote_lock)].
Definition settleRoutes : list (string * Handler) :=
  [("POST /v1/fills", post_fills); ("POST /v1/fills/:fill_id/execute", post_fill_execute); ("POST /v1/rfq/settle", post_rfq_settle);
   ("GET /v1/settlements/:settlement_id", get_settlement); ("POST /v1/reports/view-key", post_view_key);
   ("GET /v1/reports/view-key/:report_id", get_view_key); ("POST /v1/cctp/outbound/prepare", post_outbound_prepare);
   ("POST /v1/cctp/outbound/submit", post_outbound_submit);
   ("POST /v1/cctp/outbound/:exit_id/fetch-attestation", post_outbound_fetch_attestation);
   ("POST /v1/cctp/outbound/:exit_id/complete-mint", post_outbound_complete_mint);
   ("GET /v1/cctp/outbound/:exit_id", get_outbound)].
Definition proxyRoutes : list (string * Handler) :=
  [("GET /v1/mpc/committee", get_mpc_committee); ("POST /v1/mpc/intents", post_mpc_intents);
   ("GET /v1/mpc/intents/:intent_id", get_mpc_intent); ("GET /v1/mpc/sessions/:session_id", get_mpc_session);
   ("POST /v1/mpc/sessions/:session_id/match", post_mpc_match); ("GET /v1/mpc/batches", get_mpc_batches);
   ("POST /v1/mpc/batches/verify", post_mpc_batches_verify); ("GET /v1/anchors/discovery", get_anchors_discovery);
   ("POST /v1/anchors/quotes", post_anchors_quotes); ("POST /v1/anchors/payouts", post_anchors_payouts);
   ("GET /v1/anchors/payouts/:payout_id", get_anchors_payout);
   ("POST /v1/anchors/compliance-package", post_compliance_package)].
Definition routes : list (string * Handler) := accountRoutes ++ vaultRoutes ++ tradeRoutes ++ settleRoutes ++ proxyRoutes.

(** ** What the routes keep

    Any property that statements keep; what a burn's submission does to it is
    shown apart, because the job it queues is about a row. *)
Section Keeps.
Context {I : DB -> Prop} {inv : DbInvariant I} (burnKept : forall r, preserves (held I) (post_burn_submitted r)).
Definition keeps (h : Handler) : Prop := forall r, preserves (held I) (h r).
Lemma keeps_list (l : list (string * Handler)) : Forall keeps l.*2 -> forall n h, (n, h) ∈ l -> keeps h.
Proof. intros Hl n h Hin. rewrite Forall_forall in Hl. apply Hl. by apply (list_elem_of_fmap_2 snd _ (n, h)). Qed.
Ltac each_route := repeat (apply Forall_cons; split; [intros ?|]); try apply Forall_nil.

Lemma account_keep : Forall keeps accountRoutes.*2.
Proof.
  cbn [accountRoutes fmap list_fmap]. each_route.
  all: unfold get_health, get_config, get_contracts, get_balances_testnet, post_setup_validate, get_health_full, post_auth_nonce,
    post_auth_evm_verify, post_auth_stellar_verify, verifyHandler, login, get_auth_session, post_auth_logout, get_me, patch_me,
    get_me_wallets, post_me_wallets_sync_privy, post_me_wallets, delete_me_wallet, get_me_deposits, get_me_notes, get_me_withdrawals,
    get_me_rfq, get_me_cctp_exits, get_me_note_backups, history, get_activity, get_test_report_latest, randomNonce, newSessionToken.
  all: cbv beta iota delta [snd]; route.
Qed.
Lemma vault_keep : Forall keeps vaultRoutes.*2.
Proof.
  unfold vaultRoutes. rewrite !fmap_app. repeat apply Forall_app_2; cbn [fmap list_fmap map depositSteps]; each_route.
  all: unfold post_deposits_prepare, depositGuards, get_deposit, RoutesVault.getRow, depositStep,
    post_notes_commitment, get_note_status, post_encrypted_backup, post_notes_recover, noPlaintext, ingestEnvelope, post_note_vaults,
    get_note_vaults, get_note_vault, put_note_vault, post_verify_backup, post_mark_restored, post_wrappers, delete_wrapper, idem.
  all: cbv beta iota delta [snd]; first [apply burnKept|route].
Qed.
Lemma types_insertSession sid : preserves I (insertSession sid).
Proof. unfold insertSession. keeps_inv. Qed.
Lemma types_insertMpcIntent row : preserves I (insertMpcIntent row).
Proof. unfold insertMpcIntent. keeps_inv. Qed.
Lemma types_insertShares ih l : preserves I (foreachM (insertShare ih) l).
Proof. unfold insertShare. keeps_inv. Qed.
Lemma types_recordRouting ih u b sid : preserves I (recordRouting ih u b sid).
Proof.
  unfold recordRouting.
  apply preserves_bind; [apply types_insertSession|intros ?]. apply preserves_bind; [apply types_insertMpcIntent|intros ?].
  apply preserves_bind; [apply types_insertShares|intros ?].
  apply preserves_bind; [eapply inv_update; reflexivity|intros ?; apply types_logActivity].
Qed.
Lemma types_insertQuietly t row : preserves I (catchM (Store.insertGeneric t row) (fun _ => mret tt)).
Proof. apply preserves_catch; [apply types_insertGeneric|intros ?; apply preserves_ret]. Qed.
#[local] Hint Resolve types_insertSession types_insertMpcIntent types_insertShares types_recordRouting types_insertQuietly : types.
Lemma trade_keep : Forall keeps tradeRoutes.*2.
Proof.
  cbn [tradeRoutes fmap list_fmap]. each_route.
  all: unfold post_proof_request, get_proof_job, get_job, post_withdrawals_prepare, spending, createWithdrawal,
    post_withdrawals_build_xdr, post_withdrawals_submit, get_withdrawal, post_intents, routeToMpc, get_intent, get_intent_quotes,
    post_request_quotes, requireOwnedIntent, post_solver_quotes, post_quote_accept, post_quote_lock, RoutesTrade.getRow, idem.
  all: cbv beta iota delta [snd]; route.
Qed.
Lemma held_settleChecks u b : preserves (held I) (settleChecks u b).
Proof. intros w Hw. by destruct (settleChecks_spec u b w) as (res & -> & _). Qed.
Lemma held_recordSettlement u b : preserves (held I) (recordSettlement u b).
Proof. unfold recordSettlement. route. Qed.
Lemma held_storeReport u b r a : preserves (held I) (onStore (storeReport u b r a)).
Proof. apply held_onStore, types_insertViewKeyReport. Qed.
#[local] Hint Resolve held_settleChecks held_recordSettlement held_storeReport : types.
Lemma settle_keep : Forall keeps settleRoutes.*2.
Proof.
  cbn [settleRoutes fmap list_fmap]. each_route.
  all: unfold post_fills, post_fill_execute, post_rfq_settle, spending, get_settlement, post_view_key, attachmentFor, get_view_key, post_outbound_prepare,
    post_outbound_submit, requireOwnedExit, post_outbound_fetch_attestation, post_outbound_complete_mint, outboundStep, get_outbound,
    RoutesTrade.getRow, idem.
  all: cbv beta iota delta [snd]; route.
Qed.
Lemma held_proxyAnchor path method b : preserves (held I) (proxyAnchor path method b).
Proof. unfold proxyAnchor. route. Qed.
#[local] Hint Resolve held_proxyAnchor : types.
Lemma proxy_keep : Forall keeps proxyRoutes.*2.
Proof.
  cbn [proxyRoutes fmap list_fmap]. each_route.
  all: unfold get_mpc_committee, forward, tryFetch, post_mpc_intents, get_mpc_intent, get_mpc_session, post_mpc_match,
    get_mpc_batches, post_mpc_batches_verify, get_anchors_discovery, post_anchors_quotes, insertQuietly,
    post_anchors_payouts, get_anchors_payout, post_compliance_package.
  all: cbv beta iota delta [snd]; route.
Qed.
Lemma routes_keep n h r : (n, h) ∈ routes -> preserves (held I) (h r).
Proof.
  unfold routes. rewrite !elem_of_app.
  intros [Hin|[Hin|[Hin|[Hin|Hin]]]];
    [eapply keeps_list in Hin|eapply keeps_list in Hin|eapply keeps_list in Hin|eapply keeps_list in Hin|eapply keeps_list in Hin];
    eauto using account_keep, vault_keep, trade_keep, settle_keep, proxy_keep.
Qed.

End Keeps.

(** A history of the API: requests to routes, one after the other. *)
Inductive serves : Api -> Api -> Prop :=
| serves_none w : serves w w
| serves_one w n h r w' : (n, h) ∈ routes -> serves (handle (h r) w).2 w' -> serves w w'.
Lemma serves_eq w w' : w = w' -> serves w w'.
Proof. intros ->. constructor. Qed.
Lemma serves_trans w w1 w2 : serves w w1 -> serves w1 w2 -> serves w w2.
Proof. induction 1; [done|]. intros. econstructor; eauto. Qed.
Lemma serves_keeps (I : DB -> Prop) {inv : DbInvariant I} w w' :
  (forall r, preserves (held I) (post_burn_submitted r)) -> serves w w' -> held I w -> held I w'.
Proof.
  intros Hb. induction 1 as [w|w n h r w' Hin _ IH]; [done|]. intros Hw. apply IH.
  pose proof (routes_keep Hb n h r Hin w Hw) as Hk. unfold handle. by destruct (h r w) as [[]].
Qed.
(** The submission of a burn, for properties that every new job keeps. *)
Lemma burn_submitted_keeps (I : DB -> Prop) {inv : DbInvariant I} r :
  (forall uuid q jt pl key, preserves I (onQueue (JobQueue.enqueue uuid q jt pl key))) -> preserves (held I) (post_burn_submitted r).
Proof.
  intros Hq. assert (forall q t p k, preserves (held I) (enqueueJob q t p k)) as He.
  { intros q t p k. unfold enqueueJob. apply preserves_bind; [apply held_onStore; eauto with types|intros u]. by apply held_onStore. }
  unfold post_burn_submitted. repeat first [apply He | progress route].
Qed.
Lemma any_queue (I : DB -> Prop) : (forall d q, I d -> I (mkDB (tables d) q (ticks d))) ->
  forall uuid q jt pl key, preserves I (onQueue (JobQueue.enqueue uuid q jt pl key)).
Proof. intros Hq uuid q jt pl key d Hd. unfold onQueue. destruct (JobQueue.enqueue uuid q jt pl key (queueDB d)). by apply Hq. Qed.

(** Whatever a request does, the records go on. *)
Lemma request_kept n h r w : (n, h) ∈ routes -> kept (adb w) (adb (handle (h r) w).2).
Proof.
  intros Hin. assert (held (kept (adb w)) (h r w).2) as Hk.
  { eapply routes_keep; [|exact Hin|by red]. intros r'. apply (burn_submitted_keeps (kept (adb w))), any_queue. intros d q Hd. exact Hd. }
  unfold handle. by destruct (h r w) as [[]].
Qed.

(** C12. No history of requests, to any route, well-formed or not, succeeding
    or failing half way, leaves the database ill typed: every row has its
    table's columns with values of their types, required columns are set, and
    no two rows share a unique key.  From any point of it on, rows of the
    tables that are not erasable stay where they are and keep every column
    that is not rewritable, whoever asks.  And no route is registered twice. *)
Theorem database_stays_typed now c w :
  serves (mkApi (emptyDB now) c) w ->
  wellTyped (adb w) /\ (forall w', serves w w' -> kept (adb w) (adb w')) /\ NoDup routes.*1.
Proof.
  intros Hs. split; [|split].
  - eapply (serves_keeps wellTyped); [|exact Hs|apply wellTyped_empty]. intros r. apply (burn_submitted_keeps wellTyped), any_queue. intros d q Hd. exact Hd.
  - intros w' Hs'. eapply (serves_keeps (kept (adb w))); [|exact Hs'|by red]. intros r. apply (burn_submitted_keeps (kept (adb w))), any_queue. intros d q Hd. exact Hd.
  - apply (bool_decide_unpack (NoDup routes.*1)). vm_compute. exact Logic.I.
Qed.
End Routes.

(** ** Witness: a nonce and the login that consumes it *)
Lemma database_stays_typed_witness : wellTyped (adb toyLoggedIn.2).
Proof.
  refine (proj1 (@database_stays_typed toyPrivyEnv toyUuid Schemas.toyZod toyKeys toyJwks Toy.toy_sha ToyRuntime.toy_random
    toyWallets (fun _ _ => 0) RoutesVault.toyStrKey (fun _ => 0)
    (StellarActions.Build_SorobanRpc (fun _ _ _ _ _ _ => Ok "") (fun _ _ _ => Ok ("", "")) (fun _ _ _ => Ok ""))
    ToyRuntime.toy_keypair Toy.toy_nacl ToyRuntime.toy_keygen 5000 (mkCache None []) toyLoggedIn.2 _)).
  eapply (serves_one _ "POST /v1/auth/nonce" _ toyNonceRequest).
  { unfold routes. apply elem_of_app. left. unfold accountRoutes. do 6 right. left. }
  eapply (serves_one _ "POST /v1/auth/evm/verify" _ (toyVerify "uuid0")).
  { unfold routes. apply elem_of_app. left. unfold accountRoutes. do 7 right. left. }
  apply serves_eq. vm_compute. reflexivity.
Defined.
End Api.
