(* ===== verification/Shamir.v ===== *)
(** * Shamir secret sharing over the BN254 scalar field
      (packages/mpc-crypto/src/shamir.ts)

    The arithmetic is the code's: JavaScript [%] and [/] on BigInt truncate
    ([Z.rem], [Z.quot]), the modular inverse is the extended Euclidean loop,
    and the random coefficients come from 256-bit draws with rejection.  The
    theorems: enough distinct shares reconstruct the secret, fewer are
    consistent with every secret, and the rejection sampling is uniform. *)
From S2P Require Import Prelude JsText.
Import JsText.

Module Shamir.

Record Share := mkShare { x : Z; y : Z }.
#[export] Instance Share_eq_dec : EqDecision Share.
Proof. solve_decision. Defined.

Definition P : Z := 21888242871839275222246405745257275088548364400416034343698204186575808495617.

Definition modp (a : Z) : Z := Z.rem (Z.rem a P + P) P.

(** The loop of [modinv], on [old_r], [r], [old_s], [s]; [None] when the fuel
    runs out. *)
Fixpoint egcd (fuel : nat) (old_r r old_s s : Z) : option Z :=
  if r =? 0 then Some old_s else
  match fuel with
  | O => None
  | S fuel =>
      let q := Z.quot old_r r in
      egcd fuel r (old_r - q * r) s (old_s - q * s)
  end.

(** Twice the bit length of [P], and the first swap. *)
Definition egcdFuel : nat := S (2 * 254).
Definition modinv (a : Z) : option Z := modp <$> egcd egcdFuel (modp a) P 1 0.

Definition REJECTION_LIMIT : Z := Z.quot (2 ^ 256) P * P.

(** The [do .. while] on the 256-bit draws of [randomBytes(32)]: the element
    and the draws that are left; [None] when all the draws are rejected. *)
Fixpoint randomFieldElement (draws : list Z) : option (Z * list Z) :=
  match draws with
  | [] => None
  | raw :: rest =>
      if REJECTION_LIMIT <=? raw then randomFieldElement rest
      else Some (Z.rem raw P, rest)
  end.

Fixpoint drawCoeffs (n : nat) (draws : list Z) : option (list Z) :=
  match n with
  | O => Some []
  | S n =>
      '(c, rest) ← randomFieldElement draws;
      cs ← drawCoeffs n rest;
      Some (c :: cs)
  end.

(** The loop from [coeffs.length - 1] down to [0]. *)
Definition evalPoly (coeffs : list Z) (a : Z) : Z :=
  foldr (fun c acc => modp (acc * a + c)) 0 coeffs.

Definition shareAt (coeffs : list Z) (i : nat) : Share :=
  let a := Z.of_nat i + 1 in mkShare a (evalPoly coeffs a).

Definition shamirSplit (secret threshold total : Z) (draws : list Z) : option (result (list Share)) :=
  if (threshold <? 2) || (total <? threshold) then Some (Throw (Error None "invalid threshold"))
  else
    cs ← drawCoeffs (Z.to_nat (threshold - 1)) draws;
    Some (Ok (map (shareAt (modp secret :: cs)) (seq 0 (Z.to_nat total)))).

(** One round of the inner loop, for share [i] with abscissa [xi]. *)
Definition lagrangeStep (i : nat) (xi : Z) (acc : Z * Z) (k : nat * Share) : Z * Z :=
  if Nat.eqb i k.1 then acc
  else (modp (acc.1 * modp (- x k.2)), modp (acc.2 * (xi - x k.2))).

Definition indexed (shares : list Share) : list (nat * Share) :=
  combine (seq 0 (length shares)) shares.

Definition reconstructStep (shares : list Share) (acc : option Z) (k : nat * Share) : option Z :=
  match acc with
  | None => None
  | Some secret =>
      let nd := fold_left (lagrangeStep k.1 (x k.2)) (indexed shares) (1, 1) in
      match modinv nd.2 with
      | None => None
      | Some inv => Some (modp (secret + modp (y k.2 * modp (nd.1 * inv))))
      end
  end.

Definition shamirReconstruct (shares : list Share) : option Z :=
  fold_left (reconstructStep shares) (indexed shares) (Some 0).

(** The transport form of a share. *)
Record EncodedShare := mkEncoded { ex : string; ey : string }.
Definition encodeShare (s : Share) : EncodedShare := mkEncoded (toString (x s)) (toString (y s)).
Definition decodeShare (e : EncodedShare) : result Share :=
  a ← BigInt (ex e); b ← BigInt (ey e); mret (mkShare a b).

(** Two of three: the shares of nodes 1 and 3 give the secret back. *)
Example split_2_of_3 :
  option_map (fun r => match r with Ok l => map encodeShare l | Throw _ => [] end)
    (shamirSplit 42 2 3 [7]) = Some [mkEncoded "1" "49"; mkEncoded "2" "56"; mkEncoded "3" "63"].
Proof. vm_compute. reflexivity. Qed.
Example reconstruct_1_3 : shamirReconstruct [mkShare 3 63; mkShare 1 49] = Some 42.
Proof. vm_compute. reflexivity. Qed.

(** ** Arithmetic modulo [P] *)

Record eqP (a b : Z) : Prop := eqP_intro { eqP_mod : a mod P = b mod P }.
Infix "≡F" := eqP (at level 70).

Lemma P_pos : 0 < P.
Proof. reflexivity. Qed.
Lemma modp_mod a : modp a = a mod P.
Proof.
  unfold modp. pose proof P_pos. pose proof (Z.rem_bound_abs a P).
  rewrite (Z.rem_mod_nonneg (Z.rem a P + P)) by lia.
  rewrite <- (Z.mul_1_l P) at 2. rewrite Z.mod_add by lia.
  rewrite (Z.quot_rem' a P) at 2. rewrite Z.add_comm, Z.mul_comm, Z.mod_add by lia. done.
Qed.
Lemma modp_range a : 0 <= modp a < P.
Proof. rewrite modp_mod. apply Z.mod_pos_bound, P_pos. Qed.

#[export] Instance eqP_equivalence : Equivalence eqP.
Proof. split; repeat intros []; constructor; congruence. Qed.
#[export] Instance add_eqP : Proper (eqP ==> eqP ==> eqP) Z.add.
Proof. intros a b [H] c d [H']. split. by rewrite (Z.add_mod a), (Z.add_mod b), H, H' by done. Qed.
#[export] Instance mul_eqP : Proper (eqP ==> eqP ==> eqP) Z.mul.
Proof. intros a b [H] c d [H']. split. by rewrite (Z.mul_mod a), (Z.mul_mod b), H, H' by done. Qed.
#[export] Instance opp_eqP : Proper (eqP ==> eqP) Z.opp.
Proof. intros a b H. rewrite <- (Z.mul_1_l a), <- (Z.mul_1_l b), <- !Z.mul_opp_l. by rewrite H. Qed.
#[export] Instance sub_eqP : Proper (eqP ==> eqP ==> eqP) Z.sub.
Proof. intros a b H c d H'. rewrite <- !Z.add_opp_r. by rewrite H, H'. Qed.
Lemma modp_eqP a : modp a ≡F a.
Proof. split. by rewrite modp_mod, Z.mod_mod. Qed.
Lemma eq_eqP a b : a = b -> a ≡F b.
Proof. by intros ->. Qed.
Lemma modp_eq a b : a ≡F b -> modp a = modp b.
Proof. intros [H]. by rewrite !modp_mod. Qed.
Lemma P_eqP a : a * P ≡F 0.
Proof. split. by rewrite Z.mod_mul. Qed.
Lemma modp_small a : 0 <= a < P -> modp a = a.
Proof. intros H. rewrite modp_mod. by apply Z.mod_small. Qed.
(** A factor that has an inverse can be cancelled. *)
Lemma eqP_cancel c v a b : c * v ≡F 1 -> c * a ≡F c * b -> a ≡F b.
Proof.
  intros Hv H. rewrite <- (Z.mul_1_l a), <- (Z.mul_1_l b), <- Hv.
  transitivity (v * (c * a)); [apply eq_eqP; ring|]. rewrite H. apply eq_eqP; ring.
Qed.

(** ** The extended Euclidean loop *)

Lemma quot_step a b : 0 <= a -> 0 < b -> a - Z.quot a b * b = a mod b.
Proof. intros Ha Hb. rewrite Z.quot_div_nonneg by lia. pose proof (Z.div_mod a b). lia. Qed.
Lemma mod_half a b : 0 < b <= a -> 2 * (a mod b) < a.
Proof.
  intros H. pose proof (Z.mod_pos_bound a b). pose proof (Z.div_mod a b).
  assert (1 <= a / b) by (apply Z.div_le_lower_bound; lia). nia.
Qed.

(** Two rounds halve [r]: [2 k] rounds are enough below [2 ^ k]. *)
Lemma egcd_total k fuel a b s t :
  0 <= b < a -> b < 2 ^ Z.of_nat k -> (2 * k <= fuel)%nat -> is_Some (egcd fuel a b s t).
Proof.
  revert fuel a b s t. induction k as [|k IH]; intros fuel a b s t Hb Hk Hf.
  - assert (b = 0) as -> by (simpl in Hk; lia). destruct fuel; simpl; eauto.
  - destruct fuel as [|[|fuel]]; [lia..|]. cbn [egcd].
    destruct (b =? 0) eqn:E; [eauto|]. apply Z.eqb_neq in E.
    rewrite quot_step by lia. pose proof (Z.mod_pos_bound a b).
    destruct (a mod b =? 0) eqn:E'; [eauto|]. apply Z.eqb_neq in E'.
    rewrite quot_step by lia. pose proof (Z.mod_pos_bound b (a mod b)).
    pose proof (mod_half b (a mod b)).
    apply IH; [lia| |lia]. rewrite Nat2Z.inj_succ, Z.pow_succ_r in Hk by lia. lia.
Qed.

Lemma egcd_spec n fuel a b s t v :
  0 <= a -> 0 <= b -> a ≡F s * n -> b ≡F t * n -> Z.gcd a b = 1 ->
  egcd fuel a b s t = Some v -> v * n ≡F 1.
Proof.
  revert a b s t. induction fuel as [|fuel IH]; intros a b s t Ha Hb Hs Ht Hg; simpl;
    destruct (b =? 0) eqn:E.
  1,3: apply Z.eqb_eq in E as ->; intros [= <-]; rewrite Z.gcd_0_r, Z.abs_eq in Hg by done;
    rewrite <- Hs; by subst.
  - done.
  - apply Z.eqb_neq in E. intros Hv.
    apply (IH _ _ _ _) in Hv; auto.
    + rewrite quot_step by lia. apply Z.mod_pos_bound. lia.
    + generalize (Z.quot a b) as q. intros q.
      rewrite Z.mul_sub_distr_r, <- Z.mul_assoc. by rewrite <- Hs, <- Ht.
    + rewrite quot_step, Z.gcd_comm, Z.gcd_mod by lia. by rewrite Z.gcd_comm.
Qed.

(** The first round swaps the arguments. *)
Lemma egcd_swap fuel a : 0 <= a < P -> egcd (S fuel) a P 1 0 = egcd fuel P a 0 1.
Proof.
  intros H. cbn [egcd]. change (P =? 0) with false. cbv iota.
  by rewrite Z.quot_small, Z.mul_0_l, Z.sub_0_r by lia.
Qed.
Lemma modinv_total a : exists v, egcd egcdFuel (modp a) P 1 0 = Some v /\ modinv a = Some (modp v).
Proof.
  unfold modinv, egcdFuel. pose proof (modp_range a) as H. rewrite egcd_swap by done.
  destruct (egcd_total 254 (2 * 254) P (modp a) 0 1) as [v ->]; [done| |lia|by exists v].
  etransitivity; [apply H|reflexivity].
Qed.
Lemma modinv_spec a : Z.gcd a P = 1 -> exists v, modinv a = Some v /\ a * v ≡F 1.
Proof.
  intros Hg. destruct (modinv_total a) as (v & Hv & ->). exists (modp v). split; [done|].
  rewrite modp_eqP, Z.mul_comm. eapply egcd_spec; [..|exact Hv].
  - apply modp_range.
  - by pose proof P_pos.
  - rewrite modp_eqP. apply eq_eqP. ring.
  - rewrite <- (Z.mul_1_l P) at 1. rewrite P_eqP. apply eq_eqP. ring.
  - by rewrite modp_mod, Z.gcd_mod, Z.gcd_comm.
Qed.

#[global] Opaque modinv.

(** No number below 1000 has a factor in common with [P], so the differences
    of the abscissae of a committee of at most 1000 nodes are invertible. *)
Lemma small_coprime d : d ≠ 0 -> Z.abs d <= 1000 -> Z.gcd d P = 1.
Proof.
  intros Hd Hb.
  assert (forallb (fun i => Z.gcd (Z.of_nat i + 1) P =? 1) (seq 0 1000) = true) as H
    by (vm_compute; reflexivity).
  rewrite forallb_forall in H. specialize (H (Z.to_nat (Z.abs d - 1))).
  rewrite Z2Nat.id, Z.sub_add, Z.gcd_abs_l, Z.eqb_eq in H by lia.
  apply H, in_seq. lia.
Qed.
Lemma coprime_of_inverse a v : a * v ≡F 1 -> Z.gcd a P = 1.
Proof.
  intros [H]. apply Z.bezout_1_gcd. exists v, (- (a * v / P)).
  pose proof (Z.div_mod (a * v) P). change (1 mod P) with 1 in H.
  unfold P in *. lia.
Qed.

(** ** Interpolation modulo [P]

    [w iv a xs] is the Lagrange weight of the node [a] among [xs] at 0, for a
    function [iv] that inverts the differences of the nodes. *)
Section Interpolation.
Context (iv : Z -> Z).

Definition sumZ (l : list Z) : Z := foldr Z.add 0 l.
Definition prodZ (l : list Z) : Z := foldr Z.mul 1 l.
Definition q (a b : Z) : Z := if decide (b = a) then 1 else - b * iv (a - b).
Definition w (a : Z) (xs : list Z) : Z := prodZ (map (q a) xs).
(** The interpolation at 0 of the values [f] on [xs]. *)
Definition T (f : Z -> Z) (xs : list Z) : Z := sumZ (map (fun a => f a * w a xs) xs).

Definition apart (xs : list Z) : Prop :=
  forall a b, a ∈ xs -> b ∈ xs -> a ≠ b -> (a - b) * iv (a - b) ≡F 1.
Lemma apart_sub xs ys : ys ⊆ xs -> apart xs -> apart ys.
Proof. intros H Ha a b ?%H ?%H. by apply Ha. Qed.

#[local] Instance sumZ_perm : Proper ((≡ₚ) ==> (=)) sumZ.
Proof. induction 1; simpl; lia. Qed.
#[local] Instance prodZ_perm : Proper ((≡ₚ) ==> (=)) prodZ.
Proof. induction 1; simpl; lia. Qed.
Lemma prodZ_cons a l : prodZ (a :: l) = a * prodZ l.
Proof. done. Qed.
Lemma T_perm f xs ys : xs ≡ₚ ys -> T f xs = T f ys.
Proof.
  intros H. unfold T. rewrite H. f_equal. apply map_ext. intros a. unfold w. by rewrite H.
Qed.
Lemma sumZ_ext (f g : Z -> Z) xs :
  (forall a, a ∈ xs -> f a ≡F g a) -> sumZ (map f xs) ≡F sumZ (map g xs).
Proof.
  induction xs as [|a xs IH]; intros H; simpl; [done|].
  rewrite IH by (intros; apply H; by right). rewrite (H a) by left. done.
Qed.
Lemma sumZ_scale c (f : Z -> Z) xs : sumZ (map (fun a => c * f a) xs) = c * sumZ (map f xs).
Proof. induction xs; simpl; lia. Qed.
Lemma sumZ_add (f g : Z -> Z) xs : sumZ (map (fun a => f a + g a) xs) = sumZ (map f xs) + sumZ (map g xs).
Proof. induction xs; simpl; lia. Qed.

(** Multiplying by [a - b] removes the node [b]. *)
Lemma T_drop f b xs :
  NoDup (b :: xs) -> apart (b :: xs) -> T (fun a => f a * (a - b)) (b :: xs) ≡F - b * T f xs.
Proof.
  intros [Hb Hnd]%NoDup_cons Hap. unfold T. cbn [map sumZ foldr].
  rewrite Z.sub_diag, Z.mul_0_r, Z.mul_0_l, Z.add_0_l, <- sumZ_scale.
  apply sumZ_ext. intros a Ha. unfold w. cbn [map prodZ foldr]. unfold q at 1.
  assert (b ≠ a) as Hne by congruence. rewrite decide_False by done. fold (prodZ (map (q a) xs)).
  transitivity ((a - b) * iv (a - b) * (f a * (- b) * prodZ (map (q a) xs))); [apply eq_eqP; ring|].
  rewrite Hap; [apply eq_eqP; ring|right; done|left|done].
Qed.

Lemma T_unity xs : NoDup xs -> apart xs -> xs ≠ [] -> T (fun _ => 1) xs ≡F 1.
Proof.
  remember (length xs) as n eqn:En. revert xs En.
  induction n as [|n IH]; intros xs En Hnd Hap Hne; [by destruct xs|].
  destruct xs as [|a [|b l]]; [done| |].
  - unfold T, w. simpl. unfold q. rewrite decide_True by done. done.
  - assert (a ≠ b) as Hab by (apply NoDup_cons in Hnd as [H _]; set_solver).
    assert (NoDup (b :: a :: l)) as Hnd' by (by rewrite (Permutation_swap a b)).
    assert (apart (b :: a :: l)) as Hap' by (eapply apart_sub; [|exact Hap]; set_solver).
    apply (eqP_cancel (a - b) (iv (a - b))); [apply Hap; set_solver|].
    pose proof (T_drop (fun _ => 1) a (b :: l) Hnd Hap) as Ha.
    pose proof (T_drop (fun _ => 1) b (a :: l) Hnd' Hap') as Hb.
    rewrite (IH (b :: l)) in Ha; [|simpl in *; lia|by apply NoDup_cons in Hnd as []| |done].
    2:{ eapply apart_sub; [|exact Hap]; set_solver. }
    rewrite (IH (a :: l)) in Hb; [|simpl in *; lia|by apply NoDup_cons in Hnd' as []| |done].
    2:{ eapply apart_sub; [|exact Hap]; set_solver. }
    rewrite (T_perm _ (b :: a :: l) (a :: b :: l)) in Hb by apply Permutation_swap.
    transitivity (T (fun c => 1 * (c - b)) (a :: b :: l) + -1 * T (fun c => 1 * (c - a)) (a :: b :: l)).
    + apply eq_eqP. unfold T. rewrite <- !sumZ_scale, <- sumZ_add. f_equal. apply map_ext.
      intros c. ring.
    + rewrite Ha, Hb. apply eq_eqP. ring.
Qed.

(** Horner evaluation without the reductions, and division by [X - a]. *)
Definition horner (cs : list Z) (a : Z) : Z := foldr (fun c acc => acc * a + c) 0 cs.
Fixpoint synthetic (a : Z) (cs : list Z) : list Z :=
  match cs with
  | [] => []
  | _ :: cs' => match cs' with [] => [] | _ => horner cs' a :: synthetic a cs' end
  end.
Lemma horner_cons c cs a : horner (c :: cs) a = horner cs a * a + c.
Proof. done. Qed.
Lemma synthetic_length a cs : length (synthetic a cs) = pred (length cs).
Proof. induction cs as [|c [|c' cs] IH]; [done..|]. cbn [synthetic length] in *. lia. Qed.
Lemma synthetic_spec a cs b : horner cs b = horner cs a + (b - a) * horner (synthetic a cs) b.
Proof.
  induction cs as [|c [|c' cs] IH]; [simpl; lia..|].
  remember (c' :: cs) as ds eqn:E.
  replace (synthetic a (c :: ds)) with (horner ds a :: synthetic a ds) by by subst.
  rewrite !horner_cons, IH. ring.
Qed.

(** A polynomial with at most as many coefficients as there are nodes is
    interpolated exactly. *)
Lemma interpolation xs cs :
  NoDup xs -> apart xs -> (length cs <= length xs)%nat -> T (horner cs) xs ≡F horner cs 0.
Proof.
  revert cs. induction xs as [|a xs IH]; intros cs Hnd Hap Hlen; [by destruct cs; [|simpl in *; lia]|].
  transitivity (horner cs a * T (fun _ => 1) (a :: xs)
    + T (fun b => horner (synthetic a cs) b * (b - a)) (a :: xs)).
  - apply eq_eqP. unfold T. rewrite <- sumZ_scale, <- sumZ_add. f_equal. apply map_ext.
    intros b. rewrite (synthetic_spec a cs b). ring.
  - rewrite T_unity, T_drop by done. rewrite IH.
    + rewrite (synthetic_spec a cs 0). apply eq_eqP. ring.
    + by apply NoDup_cons in Hnd as [].
    + eapply apart_sub; [|exact Hap]. set_solver.
    + rewrite synthetic_length. simpl in Hlen. lia.
Qed.

(** The numerator and denominator the code builds, and the inverse of the
    denominator. *)
Definition N (a : Z) (xs : list Z) : Z := prodZ (map (fun b => if decide (b = a) then 1 else - b) xs).
Definition D (a : Z) (xs : list Z) : Z := prodZ (map (fun b => if decide (b = a) then 1 else a - b) xs).
Definition V (a : Z) (xs : list Z) : Z := prodZ (map (fun b => if decide (b = a) then 1 else iv (a - b)) xs).
Lemma w_split a xs : w a xs = N a xs * V a xs.
Proof.
  unfold w, N, V, q. induction xs as [|b xs IH]; simpl; [done|].
  rewrite IH. case_decide; ring.
Qed.
Lemma D_V a xs : a ∈ xs -> apart xs -> D a xs * V a xs ≡F 1.
Proof.
  intros Ha Hap. assert (forall ys, ys ⊆ xs -> D a ys * V a ys ≡F 1) as H; [|by apply H].
  unfold D, V. induction ys as [|b ys IH]; intros Hs; [done|]. cbn [map]. rewrite !prodZ_cons.
  specialize (IH ltac:(set_solver)). revert IH.
  generalize (prodZ (map (fun c => if decide (c = a) then 1 else a - c) ys)) as d.
  generalize (prodZ (map (fun c => if decide (c = a) then 1 else iv (a - c)) ys)) as v.
  intros v d Hdv. case_decide.
  - rewrite !Z.mul_1_l. done.
  - transitivity ((a - b) * iv (a - b) * (d * v)); [apply eq_eqP; ring|].
    rewrite Hdv, (Hap a b) by set_solver. done.
Qed.
End Interpolation.

(** ** The loops of [shamirReconstruct] *)

Lemma elem_of_indexed i s l : (i, s) ∈ indexed l <-> l !! i = Some s.
Proof.
  unfold indexed. assert (forall k n, (k, s) ∈ combine (seq n (length l)) l <->
    exists m, k = (n + m)%nat /\ l !! m = Some s) as H; [|rewrite H; naive_solver].
  induction l as [|t l IH]; intros k n; simpl.
  - rewrite elem_of_nil. naive_solver.
  - rewrite elem_of_cons, (IH k (S n)). split.
    + intros [[= -> ->]|(m & -> & Hm)]; [exists 0%nat|exists (S m)]; simpl; split; [lia|done|lia|done].
    + intros ([|m] & -> & Hm); simpl in Hm; [left|right].
      * injection Hm as ->. f_equal. lia.
      * exists m. split; [lia|done].
Qed.
Lemma indexed_snd l : (indexed l).*2 = l.
Proof. unfold indexed. apply snd_zip. by rewrite length_seq. Qed.
Lemma indexed_same l i j s t :
  NoDup (x <$> l) -> (i, s) ∈ indexed l -> (j, t) ∈ indexed l -> i = j <-> x t = x s.
Proof.
  rewrite !elem_of_indexed. intros Hnd Hi Hj. split; [intros ->; congruence|].
  intros E. eapply (NoDup_lookup (x <$> l)); [done|..]; rewrite list_lookup_fmap.
  - by rewrite Hi.
  - rewrite Hj. simpl. congruence.
Qed.

Lemma lagrange_fold i a l acc :
  (forall j t, (j, t) ∈ l -> i = j <-> x t = a) ->
  let nd := fold_left (lagrangeStep i a) l acc in
  nd.1 ≡F acc.1 * N a (x <$> l.*2) /\ nd.2 ≡F acc.2 * D a (x <$> l.*2).
Proof.
  revert acc. induction l as [|[j t] l IH]; intros acc H; cbn [fold_left].
  - simpl. rewrite !Z.mul_1_r. done.
  - destruct (IH (lagrangeStep i a acc (j, t))) as [E1 E2]; [intros; apply H; by right|].
    rewrite E1, E2. specialize (H j t ltac:(left)). unfold lagrangeStep, N, D.
    change (x <$> ((j, t) :: l).*2) with (x t :: (x <$> l.*2)). cbn [fst snd map]. rewrite !prodZ_cons.
    destruct (Nat.eqb_spec i j) as [Ei|Ei]; simpl.
    + rewrite !decide_True by tauto. split; apply eq_eqP; ring.
    + rewrite !decide_False by tauto. rewrite !modp_eqP. split; apply eq_eqP; ring.
Qed.

(** The weight the theorems use inverts with [modinv] itself. *)
Definition ivP (a : Z) : Z := default 0 (modinv a).
Definition close (xs : list Z) : Prop := forall a b, a ∈ xs -> b ∈ xs -> Z.abs (a - b) <= 1000.
Lemma apart_close xs : close xs -> apart ivP xs.
Proof.
  intros Hc a b Ha Hb Hne. destruct (modinv_spec (a - b)) as (v & Hv & E).
  - apply small_coprime; [lia|by apply Hc].
  - unfold ivP. by rewrite Hv.
Qed.

Lemma reconstructStep_eq l a i s num den v :
  fold_left (lagrangeStep i (x s)) (indexed l) (1, 1) = (num, den) -> modinv den = Some v ->
  reconstructStep l (Some a) (i, s) = Some (modp (a + modp (y s * modp (num * v)))).
Proof. intros E H. unfold reconstructStep. cbn [fst snd]. rewrite E. cbn [fst snd]. by rewrite H. Qed.
Lemma reconstruct_step l i s u :
  NoDup (x <$> l) -> close (x <$> l) -> (i, s) ∈ indexed l ->
  reconstructStep l (Some (modp u)) (i, s) = Some (modp (u + y s * w ivP (x s) (x <$> l))).
Proof.
  intros Hnd Hc Hi.
  destruct (lagrange_fold i (x s) (indexed l) (1, 1)) as [E1 E2].
  { intros j t Ht. by apply (indexed_same l). }
  rewrite indexed_snd in E1, E2.
  destruct (fold_left _ _ (1, 1)) as [num den] eqn:Efold. cbn [fst snd] in E1, E2.
  rewrite Z.mul_1_l in E1, E2.
  assert (x s ∈ x <$> l) as Hx.
  { apply list_elem_of_fmap_2. apply elem_of_indexed in Hi. by eapply list_elem_of_lookup_2. }
  pose proof (D_V ivP (x s) _ Hx (apart_close _ Hc)) as HV. rewrite <- E2 in HV.
  destruct (modinv_spec den) as (v & Ev & Hv); [by eapply coprime_of_inverse|].
  rewrite (reconstructStep_eq _ _ _ _ num den v Efold Ev). f_equal. apply modp_eq.
  rewrite !modp_eqP.
  assert (v ≡F V ivP (x s) (x <$> l)) as -> by (apply (eqP_cancel den v); [done|by rewrite Hv, HV]).
  by rewrite E1, w_split.
Qed.

Lemma fold_left_cons {A B} (f : A -> B -> A) b l a : fold_left f (b :: l) a = fold_left f l (f a b).
Proof. done. Qed.
Lemma sumZ_map_snd (f : Share -> Z) i s k :
  sumZ (map f ((i, s) :: k : list (nat * Share)).*2) = f s + sumZ (map f k.*2).
Proof. done. Qed.
Lemma reconstruct_fold l k u :
  NoDup (x <$> l) -> close (x <$> l) -> k ⊆ indexed l ->
  fold_left (reconstructStep l) k (Some (modp u)) =
    Some (modp (u + sumZ (map (fun s => y s * w ivP (x s) (x <$> l)) k.*2))).
Proof.
  intros Hnd Hc. revert u. induction k as [|[i s] k IH]; intros u Hk.
  - simpl. by rewrite Z.add_0_r.
  - rewrite fold_left_cons, reconstruct_step; [|done..|set_solver].
    rewrite IH by set_solver. by rewrite sumZ_map_snd, Z.add_assoc.
Qed.

Lemma modp_0 : modp 0 = 0.
Proof. by rewrite modp_mod. Qed.
Lemma reconstruct_sum l :
  NoDup (x <$> l) -> close (x <$> l) ->
  shamirReconstruct l = Some (modp (sumZ (map (fun s => y s * w ivP (x s) (x <$> l)) l))).
Proof.
  intros Hnd Hc. pose proof (reconstruct_fold l (indexed l) 0 Hnd Hc (reflexivity _)) as H.
  rewrite modp_0, indexed_snd, Z.add_0_l in H. exact H.
Qed.
Lemma sum_shares f g (l k : list Share) :
  (forall s, s ∈ l -> y s ≡F f (x s)) -> k ⊆ l ->
  sumZ (map (fun s => y s * g (x s)) k) ≡F sumZ (map (fun a => f a * g a) (x <$> k)).
Proof.
  intros Hy. induction k as [|s k IH]; intros Hk; [done|].
  change (y s * g (x s) + sumZ (map (fun s => y s * g (x s)) k) ≡F
    f (x s) * g (x s) + sumZ (map (fun a => f a * g a) (x <$> k))).
  rewrite (Hy s) by set_solver. rewrite IH by set_solver. done.
Qed.
(** [shamirReconstruct] on shares of a polynomial that is not too long. *)
Lemma reconstruct_poly l cs :
  NoDup (x <$> l) -> close (x <$> l) -> (length cs <= length l)%nat ->
  (forall s, s ∈ l -> y s ≡F horner cs (x s)) ->
  shamirReconstruct l = Some (modp (horner cs 0)).
Proof.
  intros Hnd Hc Hlen Hy. rewrite reconstruct_sum by done. f_equal. apply modp_eq.
  rewrite (sum_shares (horner cs) (fun a => w ivP a (x <$> l)) l l Hy (reflexivity _)).
  apply (interpolation ivP (x <$> l)); [done|by apply apart_close|by rewrite length_fmap].
Qed.

(** ** Polynomials through given points *)

Fixpoint addPoly (f g : list Z) : list Z :=
  match f, g with
  | [], _ => g
  | _, [] => f
  | a :: f, b :: g => a + b :: addPoly f g
  end.
Lemma horner_addPoly f g a : horner (addPoly f g) a = horner f a + horner g a.
Proof.
  revert g. induction f as [|b f IH]; intros [|c g]; simpl; [lia..|].
  rewrite IH. ring.
Qed.
Lemma addPoly_length f g : length (addPoly f g) = Nat.max (length f) (length g).
Proof. revert g. induction f as [|b f IH]; intros [|c g]; simpl; auto. Qed.
Lemma horner_scale c f a : horner (map (Z.mul c) f) a = c * horner f a.
Proof. induction f as [|b f IH]; simpl; [lia|]. rewrite IH. ring. Qed.

Lemma poly_through iv (pts : list (Z * Z)) :
  NoDup pts.*1 -> apart iv pts.*1 ->
  exists cs, length cs = length pts /\ forall a b, (a, b) ∈ pts -> horner cs a ≡F b.
Proof.
  remember (length pts) as n eqn:En. revert pts En.
  induction n as [|n IH]; intros [|[a b] pts]; try done; intros En Hnd Hap.
  - exists []. split; [done|]. intros ? ? H. by apply elem_of_nil in H.
  - cbn [fmap list_fmap fst] in Hnd, Hap. apply NoDup_cons in Hnd as [Ha Hnd].
    set (pts' := map (fun p => (p.1, (p.2 - b) * iv (p.1 - a))) pts).
    assert (pts'.*1 = pts.*1) as E1 by (unfold pts'; rewrite <- list_fmap_compose; done).
    destruct (IH pts') as (h & Hl & Hh).
    + unfold pts'. rewrite length_map. simpl in En. lia.
    + by rewrite E1.
    + rewrite E1. eapply apart_sub; [|exact Hap]. set_solver.
    + exists (addPoly (b :: h) (map (Z.mul (- a)) h)). split.
      { rewrite addPoly_length, length_map. simpl. lia. }
      intros a' b' Hin. rewrite horner_addPoly, horner_scale, horner_cons.
      apply elem_of_cons in Hin as [[= -> ->]|Hin]; [apply eq_eqP; ring|].
      assert (a' ∈ pts.*1) as Ha' by (apply list_elem_of_fmap; by exists (a', b')).
      specialize (Hh a' ((b' - b) * iv (a' - a))). rewrite Hh.
      * transitivity ((a' - a) * iv (a' - a) * (b' - b) + b); [apply eq_eqP; ring|].
        rewrite (Hap a' a); [apply eq_eqP; ring|by right|left|]. intros ->. done.
      * unfold pts'. apply list_elem_of_In, in_map_iff. exists (a', b').
        split; [done|]. by apply list_elem_of_In.
Qed.

(** ** The shares of a split *)

Lemma evalPoly_horner cs a : evalPoly cs a ≡F horner cs a.
Proof. induction cs as [|c cs IH]; simpl; [done|]. by rewrite modp_eqP, IH. Qed.
Lemma evalPoly_range c cs a : 0 <= evalPoly (c :: cs) a < P.
Proof. apply modp_range. Qed.
Lemma drawCoeffs_length n draws cs : drawCoeffs n draws = Some cs -> length cs = n.
Proof.
  revert draws cs. induction n as [|n IH]; intros draws cs; simpl; [by intros [= <-]|].
  destruct (randomFieldElement draws) as [[c rest]|]; simpl; [|done].
  destruct (drawCoeffs n rest) as [cs'|] eqn:E; simpl; [|done].
  intros [= <-]. simpl. f_equal. by eapply IH.
Qed.
Lemma split_shares secret t total draws shares :
  shamirSplit secret t total draws = Some (Ok shares) ->
  2 <= t <= total /\ exists cs, length cs = Z.to_nat (t - 1) /\
    shares = map (shareAt (modp secret :: cs)) (seq 0 (Z.to_nat total)).
Proof.
  unfold shamirSplit. destruct (_ || _) eqn:E; [done|].
  apply orb_false_iff in E as [E1%Z.ltb_ge E2%Z.ltb_ge].
  destruct (drawCoeffs _ draws) as [cs|] eqn:Ec; simpl; [|done]. intros [= <-].
  split; [lia|]. exists cs. split; [by eapply drawCoeffs_length|done].
Qed.
Lemma elem_of_shares cs n s :
  s ∈ map (shareAt cs) (seq 0 n) <-> exists i, (i < n)%nat /\ s = shareAt cs i.
Proof.
  rewrite list_elem_of_In, in_map_iff. split.
  - intros (i & <- & Hi%in_seq). exists i. split; [lia|done].
  - intros (i & Hi & ->). exists i. rewrite in_seq. split; [done|lia].
Qed.
(** The abscissae of distinct shares of one polynomial. *)
Lemma shares_abscissae cs n sel :
  Z.of_nat n <= 1000 -> sel ⊆ map (shareAt cs) (seq 0 n) -> NoDup sel ->
  NoDup (x <$> sel) /\ close (0 :: (x <$> sel)) /\ (forall s, s ∈ sel -> 1 <= x s).
Proof.
  intros Hn Hsel Hnd.
  assert (forall s, s ∈ sel -> 1 <= x s <= 1000 /\ s = mkShare (x s) (evalPoly cs (x s))) as Hx.
  { intros s Hs. apply Hsel, elem_of_shares in Hs as (i & Hi & ->). unfold shareAt. simpl. split; [lia|done]. }
  split; [|split].
  - apply NoDup_fmap_2_strong; [|done]. intros s t Hs Ht E.
    destruct (Hx s Hs) as [_ ->], (Hx t Ht) as [_ ->]. simpl in E. by rewrite E.
  - assert (forall a, a ∈ 0 :: (x <$> sel) -> 0 <= a <= 1000) as H.
    { intros a [->|Ha]%elem_of_cons; [lia|]. apply list_elem_of_fmap in Ha as (s & -> & Hs).
      destruct (Hx s Hs). lia. }
    intros a b ?%H ?%H. lia.
  - intros s Hs. by apply Hx.
Qed.

(** Draws that are field elements are accepted as they are. *)
Lemma drawCoeffs_accept cs : Forall (fun c => 0 <= c < P) cs -> drawCoeffs (length cs) cs = Some cs.
Proof.
  assert (P <= REJECTION_LIMIT) as HP by (vm_compute; discriminate).
  induction cs as [|c cs IH]; [done|]. intros [Hc Hcs]%Forall_cons. simpl.
  destruct (Z.leb_spec REJECTION_LIMIT c); [lia|]. simpl. rewrite IH by done. simpl.
  by rewrite Z.rem_small.
Qed.
Lemma split_of_coeffs secret t total cs :
  2 <= t <= total -> length cs = Z.to_nat (t - 1) -> Forall (fun c => 0 <= c < P) cs ->
  shamirSplit secret t total cs =
    Some (Ok (map (shareAt (modp secret :: cs)) (seq 0 (Z.to_nat total)))).
Proof.
  intros Ht Hl Hcs. unfold shamirSplit.
  rewrite (proj2 (Z.ltb_ge t 2)), (proj2 (Z.ltb_ge total t)) by lia. simpl.
  by rewrite <- Hl, drawCoeffs_accept.
Qed.
Lemma map_modp_range cs : Forall (fun c => 0 <= c < P) (map modp cs).
Proof. apply Forall_forall. intros c (d & <- & _)%list_elem_of_In%in_map_iff. apply modp_range. Qed.
Lemma horner_modp cs a : horner (map modp cs) a ≡F horner cs a.
Proof. induction cs as [|c cs IH]; simpl; [done|]. by rewrite IH, modp_eqP. Qed.
(** Two reduced values that are congruent are equal. *)
Lemma eqP_range a b : 0 <= a < P -> 0 <= b < P -> a ≡F b -> a = b.
Proof. intros Ha Hb [H]. by rewrite !Z.mod_small in H. Qed.

(** A polynomial through the given shares with the given constant. *)
Lemma poly_with_secret secret sel :
  NoDup (x <$> sel) -> close (0 :: (x <$> sel)) -> (forall s, s ∈ sel -> 1 <= x s) ->
  exists cs, length cs = length sel /\ Forall (fun c => 0 <= c < P) cs /\
    forall s, s ∈ sel -> horner (modp secret :: cs) (x s) ≡F y s.
Proof.
  intros Hnd Hc Hx. set (pts := (0, secret) :: map (fun s => (x s, y s)) sel).
  assert (pts.*1 = 0 :: (x <$> sel)) as E by (unfold pts; simpl; f_equal; by rewrite <- list_fmap_compose).
  destruct (poly_through ivP pts) as ([|c cs] & Hl & Hcs).
  - rewrite E. apply NoDup_cons. split; [|done]. intros (s & Hs & Hin)%list_elem_of_fmap.
    specialize (Hx s Hin). lia.
  - rewrite E. by apply apart_close.
  - done.
  - exists (map modp cs). simpl in Hl. rewrite !length_map in *. split_and!; [lia|apply map_modp_range|].
    assert (c ≡F secret) as H0.
    { rewrite <- (Hcs 0 secret) by left. rewrite horner_cons. apply eq_eqP. ring. }
    intros s Hs. assert ((x s, y s) ∈ pts) as Hin.
    { right. apply list_elem_of_In, in_map_iff. exists s. by rewrite <- list_elem_of_In. }
    rewrite horner_cons, horner_modp, <- (Hcs _ _ Hin), horner_cons, modp_eqP, H0. done.
Qed.

Lemma reconstruct_shares secret t total draws shares sel :
  total <= 1000 -> shamirSplit secret t total draws = Some (Ok shares) ->
  sel ⊆ shares -> NoDup sel -> t <= Z.of_nat (length sel) ->
  shamirReconstruct sel = Some (modp secret).
Proof.
  intros Hn Hs Hsel Hnd Ht. apply split_shares in Hs as (Ht2 & cs & Hl & ->).
  destruct (shares_abscissae (modp secret :: cs) (Z.to_nat total) sel) as (Hx & Hc & _); [lia|done..|].
  rewrite (reconstruct_poly sel (modp secret :: cs)).
  - rewrite horner_cons, Z.mul_0_r, Z.add_0_l. f_equal. apply modp_eq, modp_eqP.
  - done.
  - intros a b Ha Hb. apply Hc; by right.
  - simpl. lia.
  - intros s Hin. apply Hsel, elem_of_shares in Hin as (i & _ & ->). apply evalPoly_horner.
Qed.

(** ** Properties *)

(** C2. Any [threshold] or more distinct shares of a split, in any order,
    reconstruct the secret (reduced into the field), whatever the random
    draws were; committees of up to 1000 nodes. *)
Theorem split_reconstruct secret t total draws shares sel :
  total <= 1000 -> shamirSplit secret t total draws = Some (Ok shares) ->
  sel ⊆ shares -> NoDup sel -> t <= Z.of_nat (length sel) ->
  shamirReconstruct sel = Some (modp secret).
Proof. apply reconstruct_shares. Qed.

(** C3. Fewer than [threshold] shares say nothing about the secret: for every
    other secret there are coefficients with which the split of that secret
    contains the very same [threshold - 1] shares. *)
Theorem split_secrecy secret t total draws shares sel secret' :
  total <= 1000 -> shamirSplit secret t total draws = Some (Ok shares) ->
  sel ⊆ shares -> NoDup sel -> Z.of_nat (length sel) = t - 1 ->
  exists draws' shares', shamirSplit secret' t total draws' = Some (Ok shares') /\ sel ⊆ shares'.
Proof.
  intros Hn Hs Hsel Hnd Hl. apply split_shares in Hs as (Ht2 & cs & _ & ->).
  destruct (shares_abscissae (modp secret :: cs) (Z.to_nat total) sel) as (Hx & Hc & Hx1); [lia|done..|].
  destruct (poly_with_secret secret' sel Hx Hc Hx1) as (cs' & Hl' & Hr & Hy).
  exists cs'. eexists. split; [apply split_of_coeffs; [done|lia|done]|].
  intros s Hin. specialize (Hy s Hin). apply Hsel, elem_of_shares in Hin as (i & Hi & ->).
  apply elem_of_shares. exists i. split; [done|]. unfold shareAt in *. simpl in Hy. f_equal.
  apply eqP_range; [apply evalPoly_range..|]. symmetry. etransitivity; [apply evalPoly_horner|exact Hy].
Qed.

(** The rejection sampling is uniform: each field element is the result
    of exactly the same number of accepted 256-bit draws, [2^256 / P] = 5. *)
Theorem randomFieldElement_uniform v :
  0 <= v < P ->
  (forall raw rest, 0 <= raw < 2 ^ 256 ->
     randomFieldElement (raw :: rest) = Some (v, rest) /\ raw < REJECTION_LIMIT <->
     raw ∈ map (fun k => v + Z.of_nat k * P) (seq 0 5)) /\
  (forall raw rest, REJECTION_LIMIT <= raw -> randomFieldElement (raw :: rest) = randomFieldElement rest).
Proof.
  assert (REJECTION_LIMIT = 5 * P) as HL by (vm_compute; reflexivity).
  pose proof P_pos as HP. intros Hv. split; [intros raw rest Hr; split|].
  - intros [H Hlt]. simpl in H. rewrite (proj2 (Z.leb_gt _ _) Hlt) in H. injection H as H.
    rewrite Z.rem_mod_nonneg in H by lia. apply list_elem_of_In, in_map_iff.
    exists (Z.to_nat (raw / P)). pose proof (Z.div_pos raw P).
    assert (raw / P < 5) by (apply Z.div_lt_upper_bound; lia).
    rewrite in_seq, Z2Nat.id by lia. pose proof (Z.div_mod raw P). lia.
  - intros (k & <- & Hk%in_seq)%list_elem_of_In%in_map_iff.
    assert (v + Z.of_nat k * P < REJECTION_LIMIT) as Hlt by nia.
    split; [|done]. simpl. rewrite (proj2 (Z.leb_gt _ _) Hlt). do 2 f_equal.
    rewrite Z.rem_mod_nonneg, Z.mod_add by lia. by apply Z.mod_small.
  - intros raw rest H. simpl. by rewrite (proj2 (Z.leb_le _ _) H).
Qed.

(** ** Witnesses *)

Definition shares42 : list Share := [mkShare 1 49; mkShare 2 56; mkShare 3 63].
Lemma split_reconstruct_witness : shamirReconstruct [mkShare 3 63; mkShare 1 49] = Some (modp 42).
Proof.
  apply (split_reconstruct 42 2 3 [7] shares42).
  - done.
  - vm_compute; reflexivity.
  - unfold shares42; set_solver.
  - vm_compute; repeat constructor; set_solver.
  - done.
Defined.
Lemma split_secrecy_witness : exists draws' shares',
  shamirSplit 1000 2 3 draws' = Some (Ok shares') /\ [mkShare 2 56] ⊆ shares'.
Proof.
  apply (split_secrecy 42 2 3 [7] shares42 [mkShare 2 56] 1000).
  - done.
  - vm_compute; reflexivity.
  - unfold shares42; set_solver.
  - apply NoDup_singleton.
  - done.
Defined.
Lemma randomFieldElement_uniform_witness :
  randomFieldElement (REJECTION_LIMIT :: [8]) = randomFieldElement [8].
Proof. apply (randomFieldElement_uniform 8); vm_compute; done. Defined.
End Shamir.
