(* ===== verification/Committee.v ===== *)
(** * The committee's cryptography
      (packages/mpc-crypto/src/types.ts, packages/mpc-crypto/src/committee.ts)

    The messages of the matching committee, the split of an amount into
    encrypted shares, the batch hash, and the check of a signed batch.
    Theorems: the round trip of an amount through the committee, the order
    independence and the binding of the batch hash, and what a verified batch
    guarantees. *)
From S2P Require Import Prelude JsText Json JsCollections Crypto Shamir.
From Stdlib Require Import Ascii Permutation Sorted.
Import JsText Json JsArray Crypto Shamir.

Module Committee.

(** ** Messages *)
Record CommitteeNodeInfo := mkNodeInfo {
  nodeId : string; encryptionPubkey : string; signingPubkey : string }.
Record EncryptedShare := mkEncryptedShare {
  es_nodeId : string; ciphertext : string; nonce : string; senderPubkey : string }.
Record MpcIntent := mkMpcIntent {
  intentId : string;
  userId : string;
  inputAsset : string;
  outputAsset : string;
  expiryLedger : Z;
  policyId : string;
  noteNullifier : string;
  noteCommitment : string;
  recipientCommitment : string;
  encryptedShares : list EncryptedShare;
  submittedAt : Z
}.
(** The last three fields are the optional ones of a cross-asset match. *)
Record MatchResult := mkMatch {
  intentAId : string;
  intentBId : string;
  matchedAmount7dp : string;
  m_inputAsset : string;
  m_outputAsset : string;
  priceScaled : option string;
  assetIn : option string;
  assetOut : option string
}.
Record NodeSignature := mkSignature { s_nodeId : string; s_signingPubkey : string; signature : string }.
Record SignedMatchBatch := mkBatch {
  batchId : string;
  sessionId : string;
  matches : list MatchResult;
  batchHash : string;
  signatures : list NodeSignature
}.
#[export] Instance EncryptedShare_eq_dec : EqDecision EncryptedShare.
Proof. solve_decision. Defined.
#[export] Instance MpcIntent_eq_dec : EqDecision MpcIntent.
Proof. solve_decision. Defined.
#[export] Instance MatchResult_eq_dec : EqDecision MatchResult.
Proof. solve_decision. Defined.
#[export] Instance NodeSignature_eq_dec : EqDecision NodeSignature.
Proof. solve_decision. Defined.

Record CommitteeNodeKeyPair := mkKeyPair {
  kp_nodeId : string;
  boxPublic : bytes; boxSecret : bytes;
  signPublic : bytes; signSecret : bytes
}.
(** [generateNodeKeyPair], on the key pairs tweetnacl generates. *)
Definition generateNodeKeyPair (id : string) (boxKp signKp : bytes * bytes) : CommitteeNodeKeyPair :=
  mkKeyPair id boxKp.1 boxKp.2 signKp.1 signKp.2.
Definition nodePublicInfo (kp : CommitteeNodeKeyPair) : CommitteeNodeInfo :=
  mkNodeInfo (kp_nodeId kp) (hexEncode (boxPublic kp)) (hexEncode (signPublic kp)).

(** ** The batch hash *)

Record Row := mkRow {
  r_a : string; r_b : string; r_amt : string; r_in : string; r_out : string;
  r_price : string; r_assetIn : string; r_assetOut : string
}.
Definition toRow (m : MatchResult) : Row :=
  mkRow (intentAId m) (intentBId m) (matchedAmount7dp m) (m_inputAsset m) (m_outputAsset m)
    (orElse (priceScaled m) "") (orElse (assetIn m) "") (orElse (assetOut m) "").
Definition rowKey (r : Row) : string :=
  join " " [r_a r; r_b r; r_amt r; r_in r; r_out r; r_price r; r_assetIn r; r_assetOut r].
Definition rowCmp (x y : Row) : Z := compareStr (rowKey x) (rowKey y).
Definition rowJson (r : Row) : json :=
  JObj [("a", JStr (r_a r)); ("b", JStr (r_b r)); ("amt", JStr (r_amt r)); ("in", JStr (r_in r));
        ("out", JStr (r_out r)); ("price", JStr (r_price r)); ("assetIn", JStr (r_assetIn r));
        ("assetOut", JStr (r_assetOut r))].
Definition batchRows (ms : list MatchResult) : list Row := sortBy rowCmp (map toRow ms).
Definition canonical (id : string) (ms : list MatchResult) : json :=
  JObj [("batchId", JStr id); ("matches", JArr (map rowJson (batchRows ms)))].

Section Crypto.
Context `{Sha256} `{Nacl}.

Definition computeBatchHash (id : string) (ms : list MatchResult) : string :=
  sha256 (stringify (canonical id ms)).

Definition signBatch (id : string) (ms : list MatchResult) (kp : CommitteeNodeKeyPair) : NodeSignature :=
  let msg := hexDecode (computeBatchHash id ms) in
  mkSignature (kp_nodeId kp) (hexEncode (signPublic kp)) (hexEncode (signDetached msg (signSecret kp))).

Definition verifyNodeSignature (id : string) (ms : list MatchResult) (s : NodeSignature) : result bool :=
  let msg := hexDecode (computeBatchHash id ms) in
  verifyDetached msg (hexDecode (signature s)) (hexDecode (s_signingPubkey s)).

(** The loop over the signatures: the signers seen, or [None] on a [return
    false]; a signature or key of a wrong size throws. *)
Fixpoint verifySignatures (batch : SignedMatchBatch) (expected seen : list string)
    (sigs : list NodeSignature) : result (option (list string)) :=
  match sigs with
  | [] => Ok (Some seen)
  | sig :: sigs =>
      if negb (JsSet.has expected (s_signingPubkey sig)) then Ok None
      else if JsSet.has seen (s_signingPubkey sig) then Ok None
      else match verifyNodeSignature (batchId batch) (matches batch) sig with
           | Throw e => Throw e
           | Ok false => Ok None
           | Ok true => verifySignatures batch expected (JsSet.add seen (s_signingPubkey sig)) sigs
           end
  end.
(** [Math.ceil(n * 2 / 3)]. *)
Definition threshold (n : nat) : Z := (Z.of_nat n * 2 + 2) / 3.
Definition verifySignedBatch (batch : SignedMatchBatch) (committee : list CommitteeNodeInfo) : result bool :=
  let expected := fold_left JsSet.add (map signingPubkey committee) [] in
  r ← verifySignatures batch expected [] (signatures batch);
  mret (match r with
        | Some seen => threshold (length committee) <=? Z.of_nat (length seen)
        | None => false
        end).

(** ** Shares for the nodes *)

Definition shareJson (s : EncodedShare) : json := JObj [("x", JStr (ex s)); ("y", JStr (ey s))].
(** [eph] is the fresh key pair and [n] the fresh nonce of the call. *)
Definition encryptShareForNode (share : EncodedShare) (recipientPubkeyHex id : string)
    (eph : bytes * bytes) (n : bytes) : EncryptedShare :=
  let c := box (stringify (shareJson share)) n (hexDecode recipientPubkeyHex) eph.2 in
  mkEncryptedShare id (hexEncode c) (hexEncode n) (hexEncode eph.1).

(** The randomness of one call: the coefficient draws and, per node, the
    ephemeral key pair and the nonce. *)
Record Randomness := mkRandomness {
  rnd_draws : list Z; rnd_eph : nat -> bytes * bytes; rnd_nonce : nat -> bytes }.

Definition zeroShare : Share := mkShare 0 0.
Definition splitAmountForCommittee (amount7dpStr : string) (nodes : list CommitteeNodeInfo)
    (thr : Z) (rnd : Randomness) : option (result (list EncryptedShare)) :=
  match BigInt amount7dpStr with
  | Throw e => Some (Throw e)
  | Ok amount =>
      match shamirSplit amount thr (Z.of_nat (length nodes)) (rnd_draws rnd) with
      | None => None
      | Some (Throw e) => Some (Throw e)
      | Some (Ok rawShares) =>
          Some (Ok (imap (fun i node =>
            encryptShareForNode (encodeShare (nth i rawShares zeroShare)) (encryptionPubkey node)
              (nodeId node) (rnd_eph rnd i) (rnd_nonce rnd i)) nodes))
      end
  end.

(** What [JSON.parse] gives back for a share: its members are only cast to
    strings, so they may be absent or of another type. *)
Record PlainShare := mkPlain { px : option json; py : option json }.
Definition plainShare (s : EncodedShare) : PlainShare :=
  mkPlain (Some (JStr (ex s))) (Some (JStr (ey s))).

(** Callers test a share for truth before they use it, so a falsy value, such
    as [null], is no share. *)
Definition decryptShare (e : EncryptedShare) (sk : bytes) : result (option PlainShare) :=
  match boxOpen (hexDecode (ciphertext e)) (hexDecode (nonce e)) (hexDecode (senderPubkey e)) sk with
  | None => Throw (Error None "decryptShare: authentication failed — tampered ciphertext")
  | Some plaintext =>
      match parse plaintext with
      | None => Throw (Error None "SyntaxError")
      | Some j => Ok (if truthyJson j then Some (mkPlain (field "x" j) (field "y" j)) else None)
      end
  end.

Fixpoint mapResult {A B} (f : A -> result B) (l : list A) : result (list B) :=
  match l with
  | [] => Ok []
  | a :: l => b ← f a; bs ← mapResult f l; Ok (b :: bs)
  end.
(** [BigInt(v)] on a member: numbers and booleans convert too. *)
Definition BigIntOf (v : option json) : result Z :=
  match v with
  | Some (JStr s) => BigInt s
  | Some (JNum z) => Ok z
  | Some (JBool b) => Ok (if b then 1 else 0)
  | _ => Throw (Error None "Cannot convert to a BigInt")
  end.
Definition decodePlain (s : PlainShare) : result Share :=
  a ← BigIntOf (px s); b ← BigIntOf (py s); mret (mkShare a b).
Definition reconstructAmount (shares : list PlainShare) : option (result Z) :=
  match mapResult decodePlain shares with
  | Throw e => Some (Throw e)
  | Ok l => Ok <$> shamirReconstruct l
  end.

(** ** Lemmas *)

Lemma elem_of_expected (l acc : list string) x :
  x ∈ fold_left JsSet.add l acc <-> x ∈ acc \/ x ∈ l.
Proof.
  revert acc. induction l as [|y l IH]; intros acc; simpl; [set_solver|].
  rewrite IH, JsSet.elem_of_add. set_solver.
Qed.

(** A signature the loop accepts. *)
Definition sigOk (batch : SignedMatchBatch) (expected : list string) (s : NodeSignature) : Prop :=
  s_signingPubkey s ∈ expected /\ verifyNodeSignature (batchId batch) (matches batch) s = Ok true.

Lemma JsSet_has_true (l : list string) k : JsSet.has l k = true <-> k ∈ l.
Proof. unfold JsSet.has. apply bool_decide_eq_true. Qed.

Lemma verifySignatures_iff batch expected seen sigs r :
  verifySignatures batch expected seen sigs = Ok (Some r) <->
  r = seen ++ (s_signingPubkey <$> sigs) /\ NoDup (s_signingPubkey <$> sigs) /\
  Forall (fun s => sigOk batch expected s /\ s_signingPubkey s ∉ seen) sigs.
Proof.
  revert seen. induction sigs as [|s sigs IH]; intros seen; simpl.
  - rewrite app_nil_r. split; [intros [= ->]; split_and!; constructor|by intros (-> & _)].
  - rewrite NoDup_cons, Forall_cons. unfold sigOk at 1.
    destruct (JsSet.has expected (s_signingPubkey s)) eqn:E1; simpl.
    2:{ split; [done|]. intros (_ & _ & [[H1 _] _] & _). apply JsSet_has_true in H1. congruence. }
    destruct (JsSet.has seen (s_signingPubkey s)) eqn:E2; simpl.
    { split; [done|]. intros (_ & _ & [_ H1] & _). apply JsSet_has_true in E2. done. }
    destruct (verifyNodeSignature _ _ s) as [[]|e3] eqn:E3; simpl; [|split; [done|naive_solver congruence]..].
    apply JsSet_has_true in E1. assert (s_signingPubkey s ∉ seen) as Hn by (rewrite <- JsSet_has_true; congruence).
    unfold JsSet.add. rewrite E2, IH, <- app_assoc. simpl.
    rewrite !Forall_forall. setoid_rewrite not_elem_of_app. setoid_rewrite list_elem_of_singleton.
    split.
    + intros (-> & Hnd & Hf). split; [done|]. split; [split; [|done]|split; [done|]].
      * intros (s' & Hs & Hin)%list_elem_of_fmap. by destruct (Hf s' Hin) as [_ [_ ?]].
      * intros s' Hin. destruct (Hf s' Hin) as [? [? ?]]. done.
    + intros (-> & [Hin Hnd] & _ & Hf). split; [done|]. split; [done|].
      intros s' Hs'. destruct (Hf s' Hs') as [? ?]. split; [done|]. split; [done|].
      intros E. apply Hin. rewrite <- E. by apply list_elem_of_fmap_2.
Qed.
Lemma threshold_le n m : threshold n <= m <-> 2 * Z.of_nat n <= 3 * m.
Proof. unfold threshold. pose proof (Z.div_mod (Z.of_nat n * 2 + 2) 3).
  pose proof (Z.mod_pos_bound (Z.of_nat n * 2 + 2) 3). lia. Qed.

(** What the check of a batch amounts to. *)
Definition verified (batch : SignedMatchBatch) (committee : list CommitteeNodeInfo) : Prop :=
  NoDup (s_signingPubkey <$> signatures batch) /\
  Forall (sigOk batch (signingPubkey <$> committee)) (signatures batch) /\
  2 * Z.of_nat (length committee) <= 3 * Z.of_nat (length (signatures batch)).

Lemma verified_iff batch committee : verifySignedBatch batch committee = Ok true <-> verified batch committee.
Proof.
  unfold verifySignedBatch, verified.
  assert (forall s, sigOk batch (fold_left JsSet.add (map signingPubkey committee) []) s <->
    sigOk batch (signingPubkey <$> committee) s) as Hs.
  { intros s. unfold sigOk. rewrite elem_of_expected. set_solver. }
  split.
  - destruct (verifySignatures _ _ _ _) as [[r|]|e] eqn:E; [|done..]. intros [= Hl]. revert Hl. rewrite Z.leb_le, threshold_le.
    apply verifySignatures_iff in E as (-> & Hnd & Hf). simpl. rewrite length_fmap. intros Hl.
    split; [done|]. split; [|done]. eapply Forall_impl; [exact Hf|]. intros s [H1 _]. by apply Hs.
  - intros (Hnd & Hf & Hl).
    assert (verifySignatures batch (fold_left JsSet.add (map signingPubkey committee) []) []
      (signatures batch) = Ok (Some (s_signingPubkey <$> signatures batch))) as ->.
    { apply verifySignatures_iff. split; [done|]. split; [done|].
      eapply Forall_impl; [exact Hf|]. intros s H1. split; [by apply Hs|]. by apply not_elem_of_nil. }
    cbn. f_equal. rewrite Z.leb_le, threshold_le, length_fmap. done.
Qed.

(** Two duplicate-free lists from a small set must meet. *)
Lemma pigeonhole (l1 l2 l : list string) :
  NoDup l1 -> NoDup l2 -> l1 ⊆ l -> l2 ⊆ l -> (length l < length l1 + length l2)%nat ->
  exists k, k ∈ l1 /\ k ∈ l2.
Proof.
  intros H1 H2 S1 S2 Hl. destruct (decide (Exists (fun k => k ∈ l2) l1)) as [He|Hn].
  - apply Exists_exists in He. naive_solver.
  - exfalso. assert (NoDup (l1 ++ l2)) as Hnd.
    { apply NoDup_app. split; [done|]. split; [|done]. intros k Hk Hk2. apply Hn, Exists_exists. eauto. }
    assert (l1 ++ l2 ⊆ l) as Hsub by set_solver.
    assert (length (l1 ++ l2) <= length l)%nat by by apply submseteq_length, NoDup_submseteq.
    rewrite length_app in *. lia.
Qed.

(** The comparison of rows is a total preorder. *)
#[export] Instance rowCmp_total : TotalCmp rowCmp.
Proof.
  split; unfold rowCmp.
  - intros x y z H1 H2. rewrite compareStr_antisym in H1, H2 |- *.
    pose proof (compareStr_trans (rowKey x) (rowKey y) (rowKey z)). lia.
  - intros x y H1. rewrite compareStr_antisym. lia.
Qed.

(** Rows whose fields hold no space, so that the sort key separates them. *)
Definition fields (r : Row) : list string :=
  [r_a r; r_b r; r_amt r; r_in r; r_out r; r_price r; r_assetIn r; r_assetOut r].
Definition noSpace (m : MatchResult) : bool := forallb (noChar " "%char) (fields (toRow m)).
Lemma fields_inj r r' : fields r = fields r' -> r = r'.
Proof. destruct r, r'. unfold fields. simpl. congruence. Qed.
Lemma rowKey_inj m m' :
  noSpace m = true -> noSpace m' = true -> rowKey (toRow m) = rowKey (toRow m') -> toRow m = toRow m'.
Proof.
  intros H1 H2 E. apply fields_inj. unfold rowKey in E.
  rewrite <- (splitOn_join " "%char (fields (toRow m))), <- (splitOn_join " "%char (fields (toRow m'))) by done.
  unfold fields in *. by rewrite E.
Qed.
Lemma batchRows_order ms ms' :
  Forall (fun m => noSpace m = true) ms -> ms ≡ₚ ms' -> batchRows ms = batchRows ms'.
Proof.
  intros Hs Hp. unfold batchRows. apply sortBy_perm_eq; [by apply _| |by rewrite Hp].
  intros x y (m & <- & Hm)%list_elem_of_In%in_map_iff (m' & <- & Hm')%list_elem_of_In%in_map_iff H1 H2.
  rewrite Forall_forall in Hs. apply rowKey_inj; [apply Hs; by apply list_elem_of_In..|].
  apply compareStr_0. unfold leq, rowCmp in *. rewrite compareStr_antisym in H1. lia.
Qed.
#[export] Instance rowJson_inj : Inj (=) (=) rowJson.
Proof. intros [] [] H1. unfold rowJson in H1. simpl in H1. congruence. Qed.
Lemma canonical_inj id ms id' ms' :
  canonical id ms = canonical id' ms' -> id = id' /\ (toRow <$> ms) ≡ₚ (toRow <$> ms').
Proof.
  unfold canonical. intros [= -> E]. split; [done|].
  apply (inj (map rowJson)) in E. change (toRow <$> ms) with (map toRow ms).
  change (toRow <$> ms') with (map toRow ms').
  rewrite <- (sortBy_perm rowCmp (map toRow ms)), <- (sortBy_perm rowCmp (map toRow ms')).
  unfold batchRows in E. by rewrite E.
Qed.

(** ** The round trip of an amount *)

(** A node whose key pairs come from the generators. *)
Definition goodKeys (kp : CommitteeNodeKeyPair) : Prop :=
  boxKeyPair (boxPublic kp) (boxSecret kp) /\ signKeyPair (signPublic kp) (signSecret kp).
Definition goodRandomness (rnd : Randomness) : Prop :=
  forall i, boxKeyPair (rnd_eph rnd i).1 (rnd_eph rnd i).2.

(** What node [i] recovers from the encrypted shares. *)
Definition nodeDecrypt (encs : list EncryptedShare) (kps : list CommitteeNodeKeyPair) (i : nat) :
    result PlainShare :=
  match encs !! i, kps !! i with
  | Some e, Some kp => p ← decryptShare e (boxSecret kp); match p with Some p => Ok p | None => Throw (Error None "no share") end
  | _, _ => Throw (Error None "no share")
  end.

Lemma decrypt_encrypt `{!NaclLaws} sh kp id eph n :
  goodKeys kp -> boxKeyPair eph.1 eph.2 ->
  decryptShare (encryptShareForNode sh (encryptionPubkey (nodePublicInfo kp)) id eph n) (boxSecret kp)
    = Ok (Some (plainShare sh)).
Proof.
  intros [Hk _] He. unfold decryptShare, encryptShareForNode, nodePublicInfo.
  cbn [ciphertext nonce senderPubkey encryptionPubkey].
  rewrite !hexDecode_encode, box_open by done. by rewrite parse_stringify.
Qed.
Lemma decodePlain_encode s : decodePlain (plainShare (encodeShare s)) = Ok s.
Proof. destruct s. unfold decodePlain, plainShare, encodeShare. simpl. by rewrite !BigInt_toString. Qed.
Lemma mapResult_Ok {A B} (f : A -> result B) (g : A -> B) l :
  (forall a, a ∈ l -> f a = Ok (g a)) -> mapResult f l = Ok (map g l).
Proof.
  induction l as [|a l IH]; intros H1; simpl; [done|]. rewrite H1 by left. simpl.
  rewrite IH; [done|]. intros b Hb. apply H1. by right.
Qed.
Lemma reconstruct_plain l :
  reconstructAmount (map (fun s => plainShare (encodeShare s)) l) = Ok <$> shamirReconstruct l.
Proof.
  unfold reconstructAmount. rewrite <- (map_id l) at 2.
  replace (mapResult decodePlain _) with (Ok (map id l)); [done|].
  symmetry. induction l as [|s l IH]; [done|]. cbn [map mapResult].
  rewrite decodePlain_encode. simpl. by rewrite IH.
Qed.
(** The shares of a split are the shares of the model, encrypted for each node. *)
Lemma split_encs amount nodes thr rnd encs :
  splitAmountForCommittee (toString amount) nodes thr rnd = Some (Ok encs) ->
  exists raw, shamirSplit amount thr (Z.of_nat (length nodes)) (rnd_draws rnd) = Some (Ok raw) /\
    forall i node, nodes !! i = Some node -> encs !! i =
      Some (encryptShareForNode (encodeShare (nth i raw zeroShare)) (encryptionPubkey node) (nodeId node)
        (rnd_eph rnd i) (rnd_nonce rnd i)).
Proof.
  unfold splitAmountForCommittee. rewrite BigInt_toString.
  destruct (shamirSplit _ _ _ _) as [[raw|e]|]; [|done..]. intros [= <-].
  exists raw. split; [done|]. intros i node Hi. by rewrite list_lookup_imap, Hi.
Qed.
Lemma split_ids amount nodes thr rnd encs :
  splitAmountForCommittee amount nodes thr rnd = Some (Ok encs) ->
  es_nodeId <$> encs = nodeId <$> nodes.
Proof.
  unfold splitAmountForCommittee. destruct (BigInt amount); [|done].
  destruct (shamirSplit _ _ _ _) as [[raw|e]|]; [|done..]. intros [= <-].
  apply list_eq. intros i. rewrite !list_lookup_fmap, list_lookup_imap. by destruct (nodes !! i).
Qed.
Lemma nth_shares cs n i : (i < n)%nat -> nth i (map (shareAt cs) (seq 0 n)) zeroShare = shareAt cs i.
Proof.
  intros Hi. rewrite (nth_indep _ _ (shareAt cs 0)) by (by rewrite length_map, length_seq).
  by rewrite map_nth, seq_nth.
Qed.
(** Distinct indices select distinct shares. *)
Lemma select_shares cs n idx :
  NoDup idx -> Forall (fun i => i < n)%nat idx ->
  let l := map (fun i => nth i (map (shareAt cs) (seq 0 n)) zeroShare) idx in
  l ⊆ map (shareAt cs) (seq 0 n) /\ NoDup l.
Proof.
  intros Hnd Hf l. rewrite Forall_forall in Hf.
  assert (l = map (shareAt cs) idx) as ->.
  { subst l. apply map_ext_in. intros i Hi. apply nth_shares, Hf. by apply list_elem_of_In. }
  split.
  - intros s (i & <- & Hi)%list_elem_of_In%in_map_iff. apply list_elem_of_In, in_map, in_seq.
    apply list_elem_of_In, Hf in Hi. lia.
  - apply (NoDup_fmap_2_strong (shareAt cs)); [|done]. intros i j _ _ [= E _]. lia.
Qed.

Lemma roundtrip_shares `{!NaclLaws} amount kps thr rnd encs idx :
  Forall goodKeys kps -> goodRandomness rnd -> Z.of_nat (length kps) <= 1000 ->
  splitAmountForCommittee (toString amount) (nodePublicInfo <$> kps) thr rnd = Some (Ok encs) ->
  NoDup idx -> Forall (fun i => i < length kps)%nat idx -> thr <= Z.of_nat (length idx) ->
  exists shares, mapResult (nodeDecrypt encs kps) idx = Ok shares /\
    reconstructAmount shares = Some (Ok (modp amount)).
Proof.
  intros Hk Hr Hn Hsplit Hnd Hidx Hthr.
  apply split_encs in Hsplit as (raw & Hraw & Henc). rewrite length_fmap in Hraw.
  exists (map (fun s => plainShare (encodeShare s)) (map (fun i => nth i raw zeroShare) idx)). split.
  - rewrite map_map. apply mapResult_Ok. intros i Hi. rewrite Forall_forall in Hidx. rewrite Forall_forall in Hk.
    apply Hidx in Hi. destruct (lookup_lt_is_Some_2 kps i Hi) as [kp Hkp].
    unfold nodeDecrypt. rewrite Hkp, (Henc i (nodePublicInfo kp)) by (by rewrite list_lookup_fmap, Hkp).
    rewrite decrypt_encrypt; [done| |apply Hr]. apply Hk. by eapply list_elem_of_lookup_2.
  - rewrite reconstruct_plain. pose proof (split_shares _ _ _ _ _ Hraw) as (Ht & cs & Hl & E).
    destruct (select_shares (modp amount :: cs) (length kps) idx Hnd Hidx) as [Hsub Hnds].
    rewrite Nat2Z.id in E. rewrite <- E in Hsub, Hnds.
    rewrite (reconstruct_shares amount thr (Z.of_nat (length kps)) (rnd_draws rnd) raw); [done|lia|done..|].
    by rewrite length_map.
Qed.

Lemma signers_verify `{!NaclLaws} id session ms h kps signers :
  Forall goodKeys kps -> NoDup (signPublic <$> kps) -> signers ⊆ kps -> NoDup signers ->
  2 * Z.of_nat (length kps) <= 3 * Z.of_nat (length signers) ->
  verifySignedBatch (mkBatch id session ms h (signBatch id ms <$> signers)) (nodePublicInfo <$> kps) = Ok true.
Proof.
  intros Hk Hnd Hsub Hs Hl. apply verified_iff. unfold verified. simpl.
  rewrite !length_fmap, <- !list_fmap_compose. split_and!; [| |done].
  - assert (NoDup (signPublic <$> signers)) as Hn.
    { apply NoDup_fmap_2_strong; [|done]. intros a b Ha%Hsub Hb%Hsub E.
      apply list_elem_of_lookup in Ha as [i Hi], Hb as [j Hj].
      assert (i = j) as ->; [|congruence]. eapply (NoDup_lookup _ i j (signPublic a)); [exact Hnd|..];
        rewrite list_lookup_fmap; [by rewrite Hi|rewrite Hj; simpl; congruence]. }
    change (NoDup ((fun kp => hexEncode (signPublic kp)) <$> signers)).
    rewrite (list_fmap_compose signPublic hexEncode). by apply (NoDup_fmap_2 hexEncode).
  - apply Forall_fmap, Forall_forall. intros kp Hkp. rewrite Forall_forall in Hk.
    pose proof (Hk kp (Hsub kp Hkp)) as [_ Hsk]. unfold sigOk, verifyNodeSignature, signBatch. simpl. split.
    + apply list_elem_of_fmap. exists kp. split; [done|by apply Hsub].
    + rewrite !hexDecode_encode. by apply verifyDetached_signed.
Qed.

(** ** Properties *)

(** An amount split for the committee comes back (reduced into the field)
    from any [threshold] or more nodes that decrypt their own shares, whatever
    the random draws and nonces were. *)
Theorem amount_roundtrip `{!NaclLaws} amount kps thr rnd encs idx :
  Forall goodKeys kps -> goodRandomness rnd -> Z.of_nat (length kps) <= 1000 ->
  splitAmountForCommittee (toString amount) (nodePublicInfo <$> kps) thr rnd = Some (Ok encs) ->
  NoDup idx -> Forall (fun i => i < length kps)%nat idx -> thr <= Z.of_nat (length idx) ->
  exists shares, mapResult (nodeDecrypt encs kps) idx = Ok shares /\
    reconstructAmount shares = Some (Ok (modp amount)).
Proof. apply roundtrip_shares. Qed.

(** C19. [verifySignedBatch] accepts exactly the batches whose signers are
    pairwise distinct members of the committee, whose every signature
    verifies on the hash of these matches, and whose number is at least two
    thirds of the committee, rounded up. *)
Theorem verifySignedBatch_iff batch committee :
  verifySignedBatch batch committee = Ok true <->
  NoDup (s_signingPubkey <$> signatures batch) /\
  Forall (fun s => s_signingPubkey s ∈ signingPubkey <$> committee /\
    verifyNodeSignature (batchId batch) (matches batch) s = Ok true) (signatures batch) /\
  2 * Z.of_nat (length committee) <= 3 * Z.of_nat (length (signatures batch)).
Proof. apply verified_iff. Qed.

(** C29. Two batches accepted for one committee have a signer in common, and
    that signer's signature verifies on both: conflicting batches need a
    committee key that signs both. *)
Theorem verified_batches_intersect b1 b2 committee :
  committee ≠ [] -> verifySignedBatch b1 committee = Ok true -> verifySignedBatch b2 committee = Ok true ->
  exists s1 s2, s1 ∈ signatures b1 /\ s2 ∈ signatures b2 /\
    s_signingPubkey s1 = s_signingPubkey s2 /\ s_signingPubkey s1 ∈ signingPubkey <$> committee /\
    verifyNodeSignature (batchId b1) (matches b1) s1 = Ok true /\
    verifyNodeSignature (batchId b2) (matches b2) s2 = Ok true.
Proof.
  intros Hne (N1 & F1 & L1)%verified_iff (N2 & F2 & L2)%verified_iff. rewrite Forall_forall in F1, F2.
  destruct (pigeonhole _ _ (signingPubkey <$> committee) N1 N2) as (k & Hk1 & Hk2).
  - intros k (s & -> & Hs)%list_elem_of_fmap. by apply F1.
  - intros k (s & -> & Hs)%list_elem_of_fmap. by apply F2.
  - rewrite !length_fmap. destruct committee; [done|]. simpl length in *. lia.
  - apply list_elem_of_fmap in Hk1 as (s1 & -> & Hs1), Hk2 as (s2 & E & Hs2).
    exists s1, s2. destruct (F1 s1 Hs1), (F2 s2 Hs2). done.
Qed.

(** The batch hash does not depend on the order of the matches when no
    signed field contains a space (the separator of the sort key). *)
Theorem computeBatchHash_order id ms ms' :
  Forall (fun m => noSpace m = true) ms -> ms ≡ₚ ms' ->
  computeBatchHash id ms = computeBatchHash id ms'.
Proof. intros Hs Hp. unfold computeBatchHash, canonical. by rewrite (batchRows_order ms ms'). Qed.

(** C30. The batch hash binds the batch id and every signed field of every
    match: equal hashes mean the same id and the same rows up to order, or an
    explicit SHA-256 collision. *)
Theorem computeBatchHash_binds id ms id' ms' :
  computeBatchHash id ms = computeBatchHash id' ms' ->
  (id = id' /\ (toRow <$> ms) ≡ₚ (toRow <$> ms')) \/ Collision.
Proof.
  unfold computeBatchHash. intros [E|Hc]%sha256_binds; [left|by right]. apply (inj stringify) in E. by apply canonical_inj.
Qed.

(** A batch whose matches are signed by distinct committee members, at
    least two thirds of them, with the keys they published, is accepted. *)
Theorem signed_batch_verifies `{!NaclLaws} id session ms h kps signers :
  Forall goodKeys kps -> NoDup (signPublic <$> kps) -> signers ⊆ kps -> NoDup signers ->
  2 * Z.of_nat (length kps) <= 3 * Z.of_nat (length signers) ->
  verifySignedBatch (mkBatch id session ms h (signBatch id ms <$> signers)) (nodePublicInfo <$> kps) = Ok true.
Proof. apply signers_verify. Qed.
End Crypto.

(** ** Witnesses: a committee of three, with the toy primitives *)
Import Toy.

Definition node (id : string) : CommitteeNodeKeyPair := mkKeyPair id id id (fit id) (fit id).
Definition nodes3 : list CommitteeNodeKeyPair := [node "n1"; node "n2"; node "n3"].
Definition rnd3 : Randomness := mkRandomness [12345] (fun _ => ("e", "e")) (fun _ => "nonce").
Definition matchAB : MatchResult := mkMatch "a" "b" "500" "USDC" "EURC" None None None.
Definition matchCD : MatchResult := mkMatch "c" "d" "700" "USDC" "EURC" None None None.
Definition signedBatch : SignedMatchBatch :=
  mkBatch "batch-1" "s" [matchAB; matchCD] "h" (signBatch "batch-1" [matchAB; matchCD] <$> [node "n1"; node "n3"]).

Lemma amount_roundtrip_witness : exists encs shares,
  splitAmountForCommittee "10000000" (nodePublicInfo <$> nodes3) 2 rnd3 = Some (Ok encs) /\
  mapResult (nodeDecrypt encs nodes3) [2%nat; 0%nat] = Ok shares /\
  reconstructAmount shares = Some (Ok (modp 10000000)).
Proof.
  destruct (splitAmountForCommittee "10000000" (nodePublicInfo <$> nodes3) 2 rnd3)
    as [[encs|e]|] eqn:E; [|vm_compute in E; discriminate E..].
  exists encs. edestruct (amount_roundtrip 10000000 nodes3 2 rnd3 encs [2%nat; 0%nat]) as (sh & H1 & H2).
  - repeat constructor.
  - intros i. reflexivity.
  - vm_compute. discriminate.
  - exact E.
  - repeat constructor; set_solver.
  - repeat constructor.
  - vm_compute. discriminate.
  - exists sh. split; [reflexivity|]. split; [exact H1|exact H2].
Defined.
Lemma verified_batches_intersect_witness :
  verifySignedBatch signedBatch (nodePublicInfo <$> nodes3) = Ok true /\
  exists s1 s2, s1 ∈ signatures signedBatch /\ s2 ∈ signatures signedBatch /\
    s_signingPubkey s1 = s_signingPubkey s2.
Proof.
  split; [vm_compute; reflexivity|].
  destruct (verified_batches_intersect signedBatch signedBatch (nodePublicInfo <$> nodes3))
    as (s1 & s2 & H1 & H2 & H3 & _); [discriminate|vm_compute; reflexivity..|].
  exists s1, s2. split; [exact H1|]. split; [exact H2|exact H3].
Defined.
Lemma computeBatchHash_order_witness :
  computeBatchHash "batch-1" [matchAB; matchCD] = computeBatchHash "batch-1" [matchCD; matchAB].
Proof.
  apply (computeBatchHash_order "batch-1" [matchAB; matchCD]); [repeat constructor|apply Permutation_swap].
Defined.
Lemma computeBatchHash_binds_witness :
  ("batch-1" = "batch-1" /\ (toRow <$> [matchAB; matchCD]) ≡ₚ (toRow <$> [matchCD; matchAB])) \/ Collision.
Proof. apply (computeBatchHash_binds "batch-1" _ "batch-1"). vm_compute. reflexivity. Defined.
Lemma signed_batch_verifies_witness :
  verifySignedBatch (mkBatch "batch-1" "s" [matchAB] "h" (signBatch "batch-1" [matchAB] <$> [node "n3"; node "n1"]))
    (nodePublicInfo <$> nodes3) = Ok true.
Proof.
  apply (signed_batch_verifies "batch-1" "s" [matchAB] "h" nodes3 [node "n3"; node "n1"]).
  - repeat constructor.
  - unfold nodes3; simpl; repeat constructor; set_solver.
  - unfold nodes3; set_solver.
  - repeat constructor; set_solver.
  - vm_compute. discriminate.
Defined.

(** The sort key does not separate fields that contain spaces: here two
    different matches get one key, and the canonical text depends on their
    order. *)
Example order_matters_with_spaces :
  let m1 := mkMatch "a b" "c" "1" "X" "Y" None None None in
  let m2 := mkMatch "a" "b c" "1" "X" "Y" None None None in
  rowKey (toRow m1) = rowKey (toRow m2) /\
  stringify (canonical "batch" [m1; m2]) ≠ stringify (canonical "batch" [m2; m1]).
Proof. split; [vm_compute; reflexivity|vm_compute; discriminate]. Qed.
End Committee.
