(* ===== verification/Matching.v ===== *)
(** * Matching intents (apps/mpc-committee/src/coordinator.ts, first half)

    [matchIntents] nets intents of complementary asset pairs, smallest amounts
    first; [matchPricedPair] and [matchPricedIntents] cross two different
    assets at a limit price, without partial fills.  Theorems: every match is
    between two different intents of complementary assets and for the smaller
    amount, no intent is matched twice, no complementary pair is left over;
    a priced match respects both parties' limits. *)
From S2P Require Import Prelude JsText JsCollections Committee.
From Stdlib Require Import Ascii Permutation Sorted.
Import JsText JsArray Committee.

Module Matching.

Record Intent := mkIntent { id : string; amount7dp : Z; inAsset : string; outAsset : string }.
#[export] Instance Intent_eq_dec : EqDecision Intent.
Proof. solve_decision. Defined.

Definition bar : ascii := "|"%char.
Definition pairKey (a b : string) : string := join (String bar "") [a; b].
Definition keyOf (i : Intent) : string := pairKey (inAsset i) (outAsset i).

Definition Groups := JsMap.t string (list Intent).
Definition addToGroup (gs : Groups) (i : Intent) : Groups :=
  let key := keyOf i in
  let gs := if JsMap.has gs key then gs else JsMap.set gs key [] in
  JsMap.set gs key (orElse (JsMap.get gs key) [] ++ [i]).
Definition groupIntents (intents : list Intent) : Groups := fold_left addToGroup intents [].

(** [(a, b) => (a.amount7dp < b.amount7dp ? -1 : 1)]. *)
Definition byAmount (a b : Intent) : Z := if amount7dp a <? amount7dp b then -1 else 1.

Definition mkNetMatch (inA outA : string) (a b : Intent) : MatchResult :=
  mkMatch (id a) (id b)
    (toString (if amount7dp a <? amount7dp b then amount7dp a else amount7dp b)) inA outA None None None.

(** The [while] loop on the two sorted groups; the lists are the parts from
    [ai] and from [bi] on, so each round drops the head of one or of both. *)
Fixpoint pairLoop (inA outA : string) (l : list Intent) {struct l} :
    list Intent -> list MatchResult * list string -> list MatchResult * list string :=
  fix inner (r : list Intent) (st : list MatchResult * list string) {struct r} :=
    match l, r with
    | a :: l', b :: r' =>
        if JsSet.has st.2 (id a) then pairLoop inA outA l' (b :: r') st
        else if JsSet.has st.2 (id b) || (id a ==? id b) then inner r' st
        else pairLoop inA outA l' r'
               (st.1 ++ [mkNetMatch inA outA a b], JsSet.add (JsSet.add st.2 (id a)) (id b))
    | _, _ => st
    end.

(** [const [inAsset, outAsset] = key.split("|")]. *)
Definition splitKey (key : string) : string * string :=
  let ps := splitOn bar key in (nth 0 ps "undefined", nth 1 ps "undefined").
Definition processGroup (gs : Groups) (st : list MatchResult * list string)
    (kg : string * list Intent) : list MatchResult * list string :=
  let '(inA, outA) := splitKey kg.1 in
  match JsMap.get gs (pairKey outA inA) with
  | None => st
  | Some reverseGroup =>
      pairLoop inA outA (sortBy byAmount kg.2) (sortBy byAmount reverseGroup) st
  end.
Definition matchIntents (intents : list Intent) : list MatchResult :=
  let gs := groupIntents intents in
  (fold_left (processGroup gs) gs ([], [])).1.

Example netting :
  matchIntents [mkIntent "i1" 500 "USDC" "EURC"; mkIntent "i2" 300 "USDC" "EURC";
                mkIntent "i3" 400 "EURC" "USDC"]
  = [mkMatch "i2" "i3" "300" "USDC" "EURC" None None None].
Proof. vm_compute. reflexivity. Qed.

(** ** The groups *)

Definition noBar (i : Intent) : bool := noChar bar (inAsset i) && noChar bar (outAsset i).

Lemma splitKey_pair a b : noChar bar a = true -> noChar bar b = true -> splitKey (pairKey a b) = (a, b).
Proof.
  intros Ha Hb. unfold splitKey, pairKey. rewrite (splitOn_join bar [a; b]); [done..|].
  simpl. by rewrite Ha, Hb.
Qed.
Lemma splitKey_keyOf i : noBar i = true -> splitKey (keyOf i) = (inAsset i, outAsset i).
Proof. unfold noBar. rewrite andb_true_iff. intros [Ha Hb]. by apply splitKey_pair. Qed.

Definition groupOf (k : string) (intents : list Intent) : list Intent :=
  filter (fun i => keyOf i = k) intents.

Lemma addToGroup_get gs i k :
  JsMap.get (addToGroup gs i) k =
    if keyOf i ==? k then Some (orElse (JsMap.get gs k) [] ++ [i]) else JsMap.get gs k.
Proof.
  unfold addToGroup. rewrite JsMap.get_set. case_bool_decide as E.
  - subst k. unfold JsMap.has. destruct (JsMap.get gs (keyOf i)) eqn:Eg; simpl; [by rewrite Eg|].
    by rewrite JsMap.get_set_eq.
  - unfold JsMap.has. destruct (JsMap.get gs (keyOf i)); [done|]. by rewrite JsMap.get_set_ne.
Qed.
Lemma addToGroup_keys gs i : NoDup (JsMap.keys gs) -> NoDup (JsMap.keys (addToGroup gs i)).
Proof. intros H. unfold addToGroup. apply JsMap.NoDup_set. destruct (JsMap.has _ _); [done|by apply JsMap.NoDup_set]. Qed.

Lemma groupIntents_spec intents :
  NoDup (JsMap.keys (groupIntents intents)) /\
  forall k, JsMap.get (groupIntents intents) k =
    match groupOf k intents with [] => None | g => Some g end.
Proof.
  unfold groupIntents. induction intents as [|i intents IH] using rev_ind.
  - split; [constructor|done].
  - rewrite fold_left_app. destruct IH as [IH1 IH2]. split; [by apply addToGroup_keys|].
    intros k. simpl. rewrite addToGroup_get, IH2. unfold groupOf.
    rewrite filter_app, filter_cons, filter_nil. case_bool_decide as E.
    + rewrite decide_True by done. by destruct (filter _ intents).
    + rewrite decide_False by done. by rewrite app_nil_r.
Qed.

(** ** The loop *)

Definition idsOf (ms : list MatchResult) : list string := flat_map (fun m => [intentAId m; intentBId m]) ms.
Lemma idsOf_app ms ms' : idsOf (ms ++ ms') = idsOf ms ++ idsOf ms'.
Proof. apply flat_map_app. Qed.

(** A match made of one intent of each list. *)
Definition madeOf (inA outA : string) (l r : list Intent) (m : MatchResult) : Prop :=
  exists a b, a ∈ l /\ b ∈ r /\ id a ≠ id b /\ m = mkNetMatch inA outA a b.
(** The loop state: the used set lists the ids of the matches so far. *)
Definition consistent (st : list MatchResult * list string) : Prop := st.2 = idsOf st.1 /\ NoDup st.2.
Definition allUsed (l : list Intent) (used : list string) : Prop := forall a, a ∈ l -> id a ∈ used.

Lemma has_true (l : list string) k : JsSet.has l k = true <-> k ∈ l.
Proof. unfold JsSet.has. apply bool_decide_eq_true. Qed.
Lemma has_false (l : list string) k : JsSet.has l k = false <-> k ∉ l.
Proof. unfold JsSet.has. apply bool_decide_eq_false. Qed.

Lemma pairLoop_spec inA outA l r st st' :
  pairLoop inA outA l r st = st' -> consistent st ->
  consistent st' /\ (exists new, st'.1 = st.1 ++ new /\ Forall (madeOf inA outA l r) new) /\
  ((forall a b, a ∈ l -> b ∈ r -> id a ≠ id b) -> allUsed l st'.2 \/ allUsed r st'.2).
Proof.
  revert r st. induction l as [|a l IHl]; intros r st.
  { destruct r; simpl; intros <- Hc; (split; [done|]; split; [exists []; by rewrite app_nil_r|]);
      intros _; left; intros x Hx; by apply elem_of_nil in Hx. }
  revert st. induction r as [|b r IHr]; intros st.
  { simpl. intros <- Hc. split; [done|]. split; [exists []; by rewrite app_nil_r|].
    intros _. right. intros x Hx. by apply elem_of_nil in Hx. }
  cbn [pairLoop]. destruct (JsSet.has st.2 (id a)) eqn:Ea.
  { intros Hrun Hc. destruct (IHl (b :: r) st Hrun Hc) as (Hc' & (new & En & Hf) & Hm).
    split; [done|]. split.
    - exists new. split; [done|]. eapply Forall_impl; [exact Hf|]. intros m (x & y & Hx & H). exists x, y.
      split; [by right|done].
    - intros Hd. destruct Hm as [Hm|Hm]; [intros; apply Hd; [by right|done]| |by right].
      left. intros x [->|Hx]%elem_of_cons; [|by apply Hm]. apply has_true in Ea.
      destruct Hc as [E1 _], Hc' as [E2 _]. rewrite E2, En, idsOf_app, elem_of_app, <- E1. by left. }
  destruct (_ || _) eqn:Eb.
  { intros Hrun Hc. destruct (IHr st Hrun Hc) as (Hc' & (new & En & Hf) & Hm). split; [done|]. split.
    - exists new. split; [done|]. eapply Forall_impl; [exact Hf|]. intros m (x & y & Hx & Hy & H). exists x, y.
      split; [done|]. split; [by right|done].
    - intros Hd. destruct Hm as [Hm|Hm]; [intros; apply Hd; [done|by right]|by left|].
      right. intros x [->|Hx]%elem_of_cons; [|by apply Hm].
      apply orb_true_iff in Eb as [Eb|Eb%bool_decide_eq_true]; [|by destruct (Hd a b); [left|left|]].
      apply has_true in Eb. destruct Hc as [E1 _], Hc' as [E2 _].
      rewrite E2, En, idsOf_app, elem_of_app, <- E1. by left. }
  apply orb_false_iff in Eb as [Eb Hab%bool_decide_eq_false].
  set (st1 := (st.1 ++ [mkNetMatch inA outA a b], JsSet.add (JsSet.add st.2 (id a)) (id b))).
  intros Hrun Hc. assert (consistent st1 /\ id a ∈ st1.2 /\ id b ∈ st1.2) as (Hc1 & Ha1 & Hb1).
  { destruct Hc as [E1 Hnd]. apply has_false in Ea, Eb. split_and!; [split|..]; unfold st1; simpl.
    - rewrite idsOf_app, <- E1. unfold JsSet.add, JsSet.has. rewrite (bool_decide_false (id a ∈ _)) by done.
      rewrite bool_decide_false by set_solver. by rewrite <- app_assoc.
    - by apply JsSet.NoDup_add, JsSet.NoDup_add.
    - rewrite !JsSet.elem_of_add. auto.
    - rewrite !JsSet.elem_of_add. auto. }
  destruct (IHl r st1 Hrun Hc1) as (Hc' & (new & En & Hf) & Hm). split; [done|].
  assert (forall k, k ∈ st1.2 -> k ∈ st'.2) as Hgrow.
  { destruct Hc1 as [E1 _], Hc' as [E2 _]. intros k. rewrite E2, En, idsOf_app, elem_of_app, <- E1. by left. }
  split.
  - exists (mkNetMatch inA outA a b :: new). split; [rewrite En; unfold st1; simpl; by rewrite <- app_assoc|].
    constructor; [exists a, b; split_and!; auto using list_elem_of_here|].
    eapply Forall_impl; [exact Hf|]. intros m (x & y & Hx & Hy & H). exists x, y. split_and!; [by right..| |]; apply H.
  - intros Hd. destruct Hm as [Hm|Hm]; [intros; apply Hd; by right|left|right];
      (intros x [->|Hx]%elem_of_cons; [by apply Hgrow|by apply Hm]).
Qed.

(** ** All the groups *)

(** A match the algorithm may produce. *)
Definition goodMatch (intents : list Intent) (m : MatchResult) : Prop :=
  exists a b, a ∈ intents /\ b ∈ intents /\ id a ≠ id b /\
    outAsset a = inAsset b /\ inAsset a = outAsset b /\
    m = mkNetMatch (inAsset a) (outAsset a) a b.
Definition complementary (a b : Intent) : Prop := inAsset a = outAsset b /\ outAsset a = inAsset b.

Lemma elem_of_groupOf k intents i : i ∈ groupOf k intents <-> i ∈ intents /\ keyOf i = k.
Proof. unfold groupOf. rewrite list_elem_of_filter. tauto. Qed.
Lemma elem_of_sort l (i : Intent) : i ∈ sortBy byAmount l <-> i ∈ l.
Proof. by rewrite sortBy_perm. Qed.
Lemma group_get intents k g : JsMap.get (groupIntents intents) k = Some g <-> g = groupOf k intents /\ g ≠ [].
Proof.
  destruct (groupIntents_spec intents) as [_ ->].
  destruct (groupOf k intents); [naive_solver|]. naive_solver congruence.
Qed.
Lemma keyOf_inj i a b : noBar i = true -> noChar bar a = true -> noChar bar b = true ->
  keyOf i = pairKey a b -> inAsset i = a /\ outAsset i = b.
Proof.
  intros Hi Ha Hb E. pose proof (splitKey_keyOf i Hi) as H1. rewrite E, splitKey_pair in H1 by done.
  by injection H1 as -> ->.
Qed.
Lemma noBar_both i : noBar i = true -> noChar bar (inAsset i) = true /\ noChar bar (outAsset i) = true.
Proof. unfold noBar. by rewrite andb_true_iff. Qed.

Section Groups.
Context (intents : list Intent).
Context (Hbar : Forall (fun i => noBar i = true) intents).
Context (Hids : NoDup (id <$> intents)).

Lemma id_unique a b : a ∈ intents -> b ∈ intents -> id a = id b -> a = b.
Proof using Hids.
  intros [i Hi]%list_elem_of_lookup [j Hj]%list_elem_of_lookup E.
  assert (i = j) as ->; [|congruence].
  eapply (NoDup_lookup _ i j (id a)); [exact Hids|..]; rewrite list_lookup_fmap; [by rewrite Hi|by rewrite Hj, E].
Qed.
Lemma barOk i : i ∈ intents -> noBar i = true.
Proof using Hbar. intros H. rewrite Forall_forall in Hbar. by apply Hbar. Qed.

(** The members of a group and of its reverse group, and where the
    counterparties of a group are. *)
Lemma same_group i0 : i0 ∈ intents -> forall a, a ∈ intents -> keyOf a = keyOf i0 ->
  inAsset a = inAsset i0 /\ outAsset a = outAsset i0.
Proof using Hbar.
  intros Hi0 a Ha E. destruct (noBar_both i0 (barOk i0 Hi0)). apply keyOf_inj; auto. by apply barOk.
Qed.
Lemma reverse_group i0 : i0 ∈ intents -> forall b, b ∈ intents ->
  keyOf b = pairKey (outAsset i0) (inAsset i0) -> inAsset b = outAsset i0 /\ outAsset b = inAsset i0.
Proof using Hbar.
  intros Hi0 b Hb E. destruct (noBar_both i0 (barOk i0 Hi0)). apply keyOf_inj; auto. by apply barOk.
Qed.
Lemma complementary_key i0 : i0 ∈ intents -> forall a b, keyOf a = keyOf i0 -> a ∈ intents ->
  complementary a b -> keyOf b = pairKey (outAsset i0) (inAsset i0).
Proof using Hbar.
  intros Hi0 a b Ea Ha [E1 E2]. destruct (same_group i0 Hi0 a Ha Ea) as [E3 E4]. unfold keyOf. congruence.
Qed.

(** What is known after a group was processed: one side of every
    complementary cross-asset pair is used up. *)
Definition settledFor (k : string) (used : list string) : Prop :=
  forall a b, a ∈ intents -> keyOf a = k -> b ∈ intents -> complementary a b ->
    inAsset a ≠ outAsset a -> id a ∈ used \/ id b ∈ used.

Lemma processGroup_spec st kg :
  kg ∈ groupIntents intents -> consistent st -> Forall (goodMatch intents) st.1 ->
  let st' := processGroup (groupIntents intents) st kg in
  consistent st' /\ Forall (goodMatch intents) st'.1 /\ st.2 ⊆ st'.2 /\ settledFor kg.1 st'.2.
Proof using Hbar Hids.
  destruct kg as [k g]. intros Hin Hc Hg. destruct (groupIntents_spec intents) as [Hnd _].
  apply (JsMap.elem_get _ k g Hnd) in Hin. apply group_get in Hin as [-> Hne].
  destruct (groupOf k intents) as [|i0 rest] eqn:Eg; [done|]. rewrite <- Eg.
  assert (i0 ∈ groupOf k intents) as [Hi0 Hk]%elem_of_groupOf by (rewrite Eg; left).
  subst k. unfold processGroup. cbn [fst snd].
  rewrite splitKey_keyOf by by apply barOk.
  pose proof (same_group i0 Hi0) as Hsame. pose proof (reverse_group i0 Hi0) as Hrev.
  pose proof (complementary_key i0 Hi0) as Hcomp.
  destruct (JsMap.get (groupIntents intents) (pairKey (outAsset i0) (inAsset i0))) as [rg|] eqn:Er.
  - apply group_get in Er as [-> _].
    destruct (pairLoop_spec (inAsset i0) (outAsset i0) (sortBy byAmount (groupOf (keyOf i0) intents))
      (sortBy byAmount (groupOf (pairKey (outAsset i0) (inAsset i0)) intents)) st _ eq_refl Hc)
      as (Hc' & (new & En & Hf) & Hm).
    split; [exact Hc'|]. rewrite En. split_and!.
    + apply Forall_app. split; [done|]. eapply Forall_impl; [exact Hf|].
      intros m (a & b & [Ha Ea]%elem_of_sort%elem_of_groupOf & [Hb Eb]%elem_of_sort%elem_of_groupOf & Hab & ->).
      destruct (Hsame a Ha Ea) as [E1 E2], (Hrev b Hb Eb) as [E3 E4].
      exists a, b. rewrite E1, E2, E3, E4. done.
    + destruct Hc as [E1 _], Hc' as [E2 _]. intros x. rewrite E2, En, idsOf_app, elem_of_app, <- E1. by left.
    + intros a b Ha Ea Hb Hcp Hcross. destruct Hm as [Hm|Hm].
      * intros x y [Hx Ex]%elem_of_sort%elem_of_groupOf [Hy Ey]%elem_of_sort%elem_of_groupOf Exy.
        assert (x = y) as -> by by apply id_unique.
        destruct (Hsame y Hx Ex), (Hrev y Hy Ey), (Hsame a Ha Ea). congruence.
      * left. apply Hm, elem_of_sort, elem_of_groupOf. done.
      * right. apply Hm, elem_of_sort, elem_of_groupOf. split; [done|]. by apply (Hcomp a).
  - split; [done|]. split; [done|]. split; [done|]. intros a b Ha Ea Hb Hcp _. exfalso.
    destruct (groupIntents_spec intents) as [_ Hget]. rewrite Hget in Er.
    assert (b ∈ groupOf (pairKey (outAsset i0) (inAsset i0)) intents) as Hbg.
    { apply elem_of_groupOf. split; [done|]. by apply (Hcomp a). }
    destruct (groupOf (pairKey (outAsset i0) (inAsset i0)) intents); [by apply elem_of_nil in Hbg|done].
Qed.

Lemma processGroups_spec ks st :
  ks ⊆ groupIntents intents -> consistent st -> Forall (goodMatch intents) st.1 ->
  let st' := fold_left (processGroup (groupIntents intents)) ks st in
  consistent st' /\ Forall (goodMatch intents) st'.1 /\ st.2 ⊆ st'.2 /\
  forall kg, kg ∈ ks -> settledFor kg.1 st'.2.
Proof using Hbar Hids.
  revert st. induction ks as [|kg ks IH]; intros st Hks Hc Hg; cbn [fold_left].
  - split_and!; try done. intros kg H. by apply elem_of_nil in H.
  - destruct (processGroup_spec st kg) as (Hc1 & Hg1 & Hs1 & Hd1); [set_solver|done..|].
    destruct (IH (processGroup (groupIntents intents) st kg)) as (Hc2 & Hg2 & Hs2 & Hd2); [set_solver|done..|].
    split_and!; [done|done|set_solver|]. intros kg' [->|Hin]%elem_of_cons; [|by apply Hd2].
    intros a b Ha Ea Hb Hcp Hx. destruct (Hd1 a b Ha Ea Hb Hcp Hx); [left|right]; by apply Hs2.
Qed.

Lemma matchIntents_all :
  Forall (goodMatch intents) (matchIntents intents) /\ NoDup (idsOf (matchIntents intents)) /\
  forall a b, a ∈ intents -> b ∈ intents -> complementary a b -> inAsset a ≠ outAsset a ->
    id a ∈ idsOf (matchIntents intents) \/ id b ∈ idsOf (matchIntents intents).
Proof using Hbar Hids.
  destruct (processGroups_spec (groupIntents intents) ([], [])) as ([E Hnd] & Hg & _ & Hd);
    [done|split; [done|constructor]|constructor|].
  unfold matchIntents. rewrite <- E. split_and!; [done|done|]. intros a b Ha Hb Hcp Hx.
  assert (exists g, (keyOf a, g) ∈ groupIntents intents) as [g Hin].
  { exists (groupOf (keyOf a) intents). apply JsMap.get_elem, group_get. split; [done|].
    assert (a ∈ groupOf (keyOf a) intents) as H by by apply elem_of_groupOf.
    destruct (groupOf (keyOf a) intents); [by apply elem_of_nil in H|done]. }
  by apply (Hd _ Hin a b).
Qed.
End Groups.

(** ** Priced matching *)

Record PricedIntent := mkPriced {
  p_id : string; p_in : string; p_out : string; amount : Z; minOutput : Z; limitPriceScaled : Z }.
Record PricedMatch := mkPricedMatch {
  pm_A : string; pm_B : string;
  inputAssetA : string; outputAssetA : string; inputAssetB : string; outputAssetB : string;
  matchedAmountA : string; matchedAmountB : string; pm_price : string;
  minOutputA : string; minOutputB : string }.
#[export] Instance PricedMatch_eq_dec : EqDecision PricedMatch.
Proof. solve_decision. Defined.

Definition PRICE_SCALE : Z := 1000000000.

(** Division by [0n] is a [RangeError]. *)
Definition matchPricedPair (a b : PricedIntent) : result (option PricedMatch) :=
  if negb (p_in a ==? p_out b) then Ok None
  else if negb (p_out a ==? p_in b) then Ok None
  else if p_in a ==? p_out a then Ok None
  else
    let priceScaled := limitPriceScaled a in
    let outputForA := Z.quot (amount a * priceScaled) PRICE_SCALE in
    let outputForB := amount a in
    if negb (amount b ==? outputForA) then Ok None
    else if outputForA <? minOutput a then Ok None
    else if outputForB <? minOutput b then Ok None
    else if amount b ==? 0 then Throw (Error None "Division by zero")
    else
      let rateForB := Z.quot (outputForB * PRICE_SCALE) (amount b) in
      if rateForB <? limitPriceScaled b then Ok None
      else Ok (Some (mkPricedMatch (p_id a) (p_id b) (p_in a) (p_out a) (p_in b) (p_out b)
             (toString (amount a)) (toString outputForA) (toString priceScaled)
             (toString (minOutput a)) (toString (minOutput b)))).

(** The inner loop, from index [j] on, until the [break]. *)
Fixpoint pricedInner (i : nat) (a : PricedIntent) (js : list (nat * PricedIntent))
    (st : list PricedMatch * list string) : result (list PricedMatch * list string) :=
  match js with
  | [] => Ok st
  | (j, b) :: js =>
      if Nat.eqb i j || JsSet.has st.2 (p_id b) || JsSet.has st.2 (p_id a) then pricedInner i a js st
      else
        m ← matchPricedPair a b;
        match m with
        | Some m => Ok (st.1 ++ [m], JsSet.add (JsSet.add st.2 (p_id a)) (p_id b))
        | None => pricedInner i a js st
        end
  end.
Definition enumerate {A} (l : list A) : list (nat * A) := combine (seq 0 (length l)) l.
Fixpoint pricedOuter (all rest : list (nat * PricedIntent)) (st : list PricedMatch * list string) :
    result (list PricedMatch * list string) :=
  match rest with
  | [] => Ok st
  | (i, a) :: rest =>
      if JsSet.has st.2 (p_id a) then pricedOuter all rest st
      else st ← pricedInner i a all st; pricedOuter all rest st
  end.
Definition matchPricedIntents (intents : list PricedIntent) : result (list PricedMatch) :=
  st ← pricedOuter (enumerate intents) (enumerate intents) ([], []);
  mret st.1.

Example priced_crossing :
  matchPricedPair (mkPriced "a" "XLM" "USDC" 1000 100 120000000) (mkPriced "b" "USDC" "XLM" 120 900 8000000000)
  = Ok (Some (mkPricedMatch "a" "b" "XLM" "USDC" "USDC" "XLM" "1000" "120" "120000000" "100" "900")).
Proof. vm_compute. reflexivity. Qed.
(** A zero amount on the other side makes the pair throw. *)
Example priced_zero_throws :
  matchPricedPair (mkPriced "a" "XLM" "USDC" 1 0 0) (mkPriced "b" "USDC" "XLM" 0 0 0)
  = Throw (Error None "Division by zero").
Proof. vm_compute. reflexivity. Qed.

(** *** The priced loops *)
Definition positive (i : PricedIntent) : Prop := 0 < amount i /\ 0 <= limitPriceScaled i.

Lemma priced_price_iff x p y :
  0 <= x * p -> y = Z.quot (x * p) PRICE_SCALE <-> y * PRICE_SCALE <= x * p < (y + 1) * PRICE_SCALE.
Proof.
  intros H. rewrite Z.quot_div_nonneg by done. pose proof (Z.div_mod (x * p) PRICE_SCALE).
  pose proof (Z.mod_pos_bound (x * p) PRICE_SCALE). unfold PRICE_SCALE in *. split; nia.
Qed.

(** When a pair crosses, in terms of inequalities without division. *)
Definition crosses (a b : PricedIntent) : Prop :=
  p_in a = p_out b /\ p_out a = p_in b /\ p_in a ≠ p_out a /\
  amount b * PRICE_SCALE <= amount a * limitPriceScaled a < (amount b + 1) * PRICE_SCALE /\
  minOutput a <= amount b /\ minOutput b <= amount a /\
  limitPriceScaled b * amount b <= amount a * PRICE_SCALE.
Definition pricedMatchOf (a b : PricedIntent) : PricedMatch :=
  mkPricedMatch (p_id a) (p_id b) (p_in a) (p_out a) (p_in b) (p_out b)
    (toString (amount a)) (toString (amount b)) (toString (limitPriceScaled a))
    (toString (minOutput a)) (toString (minOutput b)).

Lemma matchPricedPair_cases a b : positive a -> positive b ->
  (crosses a b /\ matchPricedPair a b = Ok (Some (pricedMatchOf a b))) \/
  (~ crosses a b /\ matchPricedPair a b = Ok None).
Proof.
  intros [Ha Hla] [Hb Hlb]. unfold matchPricedPair, crosses, pricedMatchOf.
  case_bool_decide as E1; simpl; [|right; split; [tauto|done]].
  case_bool_decide as E2; simpl; [|right; split; [tauto|done]].
  case_bool_decide as E3; [right; split; [tauto|done]|].
  pose proof (priced_price_iff (amount a) (limitPriceScaled a) (amount b) ltac:(nia)) as Hp.
  case_bool_decide as E4; cbn [negb]; [|right; split; [tauto|done]].
  rewrite <- E4. destruct (Z.ltb_spec (amount b) (minOutput a)); [right; split; [lia|done]|].
  destruct (Z.ltb_spec (amount a) (minOutput b)); [right; split; [lia|done]|].
  rewrite (bool_decide_false (amount b = 0)) by lia. rewrite Z.quot_div_nonneg by (unfold PRICE_SCALE; lia).
  destruct (Z.ltb_spec (amount a * PRICE_SCALE / amount b) (limitPriceScaled b)) as [Hlt|Hge].
  - right. split; [|done]. intros (_ & _ & _ & _ & _ & _ & Hle).
    assert (limitPriceScaled b <= amount a * PRICE_SCALE / amount b); [|lia].
    apply Z.div_le_lower_bound; lia.
  - left. split; [|done]. split_and!; try done; try tauto.
    pose proof (Z.mul_div_le (amount a * PRICE_SCALE) (amount b)). nia.
Qed.

(** The state of the priced loops: the used set lists the matched ids. *)
Definition pricedIds (ms : list PricedMatch) : list string := flat_map (fun m => [pm_A m; pm_B m]) ms.
Definition pricedOk (intents : list PricedIntent) (st : list PricedMatch * list string) : Prop :=
  st.2 = pricedIds st.1 /\ NoDup st.2 /\
  Forall (fun m => exists a b, a ∈ intents /\ b ∈ intents /\ crosses a b /\ m = pricedMatchOf a b) st.1.

Lemma crosses_ids_differ intents a b :
  NoDup (p_id <$> intents) -> a ∈ intents -> b ∈ intents -> crosses a b -> p_id a ≠ p_id b.
Proof.
  intros Hnd [i Hi]%list_elem_of_lookup [j Hj]%list_elem_of_lookup (E1 & E2 & E3 & _) E.
  assert (i = j) as ->; [|congruence].
  eapply (NoDup_lookup _ i j (p_id a)); [exact Hnd|..]; rewrite list_lookup_fmap; [by rewrite Hi|by rewrite Hj, E].
Qed.

Section Priced.
Context (intents : list PricedIntent).
Context (Hpos : Forall positive intents) (Hids : NoDup (p_id <$> intents)).

Lemma pricedInner_spec i a js st :
  a ∈ intents -> js.*2 ⊆ intents -> pricedOk intents st -> p_id a ∉ st.2 ->
  exists st', pricedInner i a js st = Ok st' /\ pricedOk intents st' /\ st.2 ⊆ st'.2 /\
    (p_id a ∈ st'.2 \/ st' = st /\ forall j b, (j, b) ∈ js -> i ≠ j -> p_id b ∉ st.2 -> ~ crosses a b).
Proof using Hpos Hids.
  intros Ha Hjs Hst Hua. induction js as [|[j b] js IH]; cbn [pricedInner].
  - exists st. split_and!; try done. right. split; [done|]. intros j b H. by apply elem_of_nil in H.
  - destruct IH as (st' & E & Hok & Hsub & Hcase); [set_solver|].
    assert (b ∈ intents) as Hb by set_solver.
    destruct (Nat.eqb i j || JsSet.has st.2 (p_id b) || JsSet.has st.2 (p_id a)) eqn:Eskip.
    { exists st'. split_and!; try done. destruct Hcase as [Hcase|[-> Hcase]]; [by left|right].
      split; [done|]. intros j' b' [[= -> ->]|Hin]%elem_of_cons Hij Hub; [|by apply (Hcase j')].
      rewrite !orb_true_iff, !has_true, Nat.eqb_eq in Eskip. tauto. }
    rewrite !orb_false_iff, !has_false in Eskip. destruct Eskip as [[_ Hub] _].
    rewrite Forall_forall in Hpos.
    destruct (matchPricedPair_cases a b (Hpos a Ha) (Hpos b Hb)) as [[Hx ->]|[Hx ->]]; simpl.
    + eexists. split; [done|]. pose proof (crosses_ids_differ intents a b Hids Ha Hb Hx) as Hne.
      destruct Hst as (E1 & E2 & E3). split_and!; simpl.
      * split_and!; simpl.
        -- unfold pricedIds. rewrite flat_map_app. fold (pricedIds st.1). rewrite <- E1. unfold JsSet.add, JsSet.has.
           rewrite (bool_decide_false (p_id a ∈ st.2)), bool_decide_false by set_solver. by rewrite <- app_assoc.
        -- by apply JsSet.NoDup_add, JsSet.NoDup_add.
        -- apply Forall_app. split; [done|]. constructor; [|done]. by exists a, b.
      * intros k Hk. rewrite !JsSet.elem_of_add. auto.
      * left. rewrite !JsSet.elem_of_add. auto.
    + exists st'. split_and!; try done. destruct Hcase as [Hcase|[-> Hcase]]; [by left|right].
      split; [done|]. intros j' b' [[= -> ->]|Hin]%elem_of_cons; [done|by apply (Hcase j')].
Qed.

Lemma pricedOuter_spec all rest st :
  all.*2 ⊆ intents -> rest ⊆ all -> pricedOk intents st ->
  exists st', pricedOuter all rest st = Ok st' /\ pricedOk intents st' /\ st.2 ⊆ st'.2 /\
    forall i a j b, (i, a) ∈ rest -> (j, b) ∈ all -> i ≠ j -> crosses a b -> p_id a ∈ st'.2 \/ p_id b ∈ st'.2.
Proof using Hpos Hids.
  intros Hall. revert st. induction rest as [|[i a] rest IH]; intros st Hr Hst; cbn [pricedOuter].
  - exists st. split_and!; try done. intros i a j b H. by apply elem_of_nil in H.
  - assert (a ∈ intents) as Ha.
    { apply Hall. apply list_elem_of_fmap. exists (i, a). split; [done|]. apply Hr. left. }
    assert (rest ⊆ all) as Hr' by (intros x Hx; apply Hr; by right).
    destruct (JsSet.has st.2 (p_id a)) eqn:Ea.
    + apply has_true in Ea. destruct (IH st Hr' Hst) as (st' & E & Hok & Hsub & Hmax).
      exists st'. split_and!; try done. intros i' a' j b [[= -> ->]|Hin]%elem_of_cons; [auto|by apply Hmax].
    + apply has_false in Ea. destruct (pricedInner_spec i a all st Ha Hall Hst Ea) as (st1 & -> & Hok1 & Hs1 & Hc1).
      simpl. destruct (IH st1 Hr' Hok1) as (st' & E & Hok & Hsub & Hmax).
      exists st'. split_and!; try done; [set_solver|].
      intros i' a' j b [[= -> ->]|Hin]%elem_of_cons Hb Hij Hx; [|by apply (Hmax i' a' j b)].
      destruct Hc1 as [Hc1|[-> Hc1]]; [left; by apply Hsub|right].
      destruct (decide (p_id b ∈ st.2)) as [Hub|Hub]; [by apply Hsub|].
      by destruct (Hc1 j b Hb Hij Hub).
Qed.
End Priced.

Lemma enumerate_spec {A} (l : list A) i a : (i, a) ∈ enumerate l <-> l !! i = Some a.
Proof.
  unfold enumerate. assert (forall k n, (k, a) ∈ combine (seq n (length l)) l <->
    exists m, k = (n + m)%nat /\ l !! m = Some a) as H; [|rewrite H; naive_solver].
  induction l as [|t l IH]; intros k n; simpl.
  - rewrite elem_of_nil. naive_solver.
  - rewrite elem_of_cons, (IH k (S n)). split.
    + intros [[= -> ->]|(m & -> & Hm)]; [exists 0%nat|exists (S m)]; simpl; split; [lia|done|lia|done].
    + intros ([|m] & -> & Hm); simpl in Hm; [left|right].
      * injection Hm as ->. f_equal. lia.
      * exists m. split; [lia|done].
Qed.
Lemma enumerate_snd {A} (l : list A) : (enumerate l).*2 = l.
Proof. unfold enumerate. apply snd_zip. by rewrite length_seq. Qed.

(** ** Properties *)

(** C34. [matchIntents] pairs only two different intents of complementary
    assets, for the smaller of the two amounts and with the assets of the
    first, and no intent occurs in two matches. *)
Theorem matchIntents_sound intents :
  Forall (fun i => noBar i = true) intents -> NoDup (id <$> intents) ->
  NoDup (idsOf (matchIntents intents)) /\
  Forall (fun m => exists a b, a ∈ intents /\ b ∈ intents /\ id a ≠ id b /\
    outAsset a = inAsset b /\ inAsset a = outAsset b /\
    m = mkMatch (id a) (id b) (toString (Z.min (amount7dp a) (amount7dp b))) (inAsset a) (outAsset a)
          None None None) (matchIntents intents).
Proof.
  intros Hb Hn. destruct (matchIntents_all intents Hb Hn) as (Hg & Hnd & _). split; [done|].
  eapply Forall_impl; [exact Hg|]. intros m (a & b & H1 & H2 & H3 & H4 & H5 & ->).
  exists a, b. split_and!; try done. unfold mkNetMatch. do 2 f_equal.
  destruct (Z.ltb_spec (amount7dp a) (amount7dp b)); lia.
Qed.

(** C35. [matchIntents] leaves no crossing behind: of two intents with
    complementary (and different) assets at least one is matched. *)
Theorem matchIntents_maximal intents a b :
  Forall (fun i => noBar i = true) intents -> NoDup (id <$> intents) ->
  a ∈ intents -> b ∈ intents -> inAsset a = outAsset b -> outAsset a = inAsset b ->
  inAsset a ≠ outAsset a ->
  id a ∈ idsOf (matchIntents intents) \/ id b ∈ idsOf (matchIntents intents).
Proof.
  intros Hb Hn Ha Hbin E1 E2 Hx. destruct (matchIntents_all intents Hb Hn) as (_ & _ & Hm).
  by apply Hm.
Qed.

(** For positive amounts a priced pair is matched exactly when the assets
    are complementary and different, B's amount is A's amount times A's limit
    price rounded down, both minimum outputs are met and B's limit price is
    met; the match then carries the two full amounts.  Otherwise the pair is
    refused; nothing throws. *)
Theorem matchPricedPair_spec a b :
  0 < amount a -> 0 < amount b -> 0 <= limitPriceScaled a -> 0 <= limitPriceScaled b ->
  (p_in a = p_out b /\ p_out a = p_in b /\ p_in a ≠ p_out a /\
   amount b * PRICE_SCALE <= amount a * limitPriceScaled a < (amount b + 1) * PRICE_SCALE /\
   minOutput a <= amount b /\ minOutput b <= amount a /\
   limitPriceScaled b * amount b <= amount a * PRICE_SCALE <->
   matchPricedPair a b = Ok (Some (mkPricedMatch (p_id a) (p_id b) (p_in a) (p_out a) (p_in b) (p_out b)
     (toString (amount a)) (toString (amount b)) (toString (limitPriceScaled a))
     (toString (minOutput a)) (toString (minOutput b))))) /\
  (exists r, matchPricedPair a b = Ok r).
Proof.
  intros Ha Hb Hla Hlb. fold (pricedMatchOf a b). fold (crosses a b).
  destruct (matchPricedPair_cases a b) as [[Hx E]|[Hx E]]; [done..| |]; rewrite E;
    (split; [by split|by eexists]).
Qed.

(** C36. [matchPricedIntents] on positive amounts returns, uses every intent at
    most once, only makes crossing pairs, and leaves no crossing pair of two
    unused intents. *)
Theorem matchPricedIntents_spec intents :
  Forall (fun i => 0 < amount i /\ 0 <= limitPriceScaled i) intents -> NoDup (p_id <$> intents) ->
  exists ms, matchPricedIntents intents = Ok ms /\ NoDup (flat_map (fun m => [pm_A m; pm_B m]) ms) /\
    Forall (fun m => exists a b, a ∈ intents /\ b ∈ intents /\ matchPricedPair a b = Ok (Some m)) ms /\
    (forall a b m, a ∈ intents -> b ∈ intents -> matchPricedPair a b = Ok (Some m) ->
       p_id a ∈ flat_map (fun m => [pm_A m; pm_B m]) ms \/ p_id b ∈ flat_map (fun m => [pm_A m; pm_B m]) ms).
Proof.
  intros Hp Hn. destruct (pricedOuter_spec intents Hp Hn (enumerate intents) (enumerate intents) ([], []))
    as ([ms used] & E & (E1 & Hnd & Hf) & _ & Hmax); [by rewrite enumerate_snd|done|by split_and!; [|constructor|]|].
  simpl in *. subst used. exists ms. unfold matchPricedIntents. rewrite E. split; [done|]. split; [done|].
  rewrite Forall_forall in Hp. split.
  - eapply Forall_impl; [exact Hf|]. intros m (a & b & Ha & Hb & Hx & ->). exists a, b. split_and!; try done.
    destruct (matchPricedPair_cases a b (Hp a Ha) (Hp b Hb)) as [[_ ?]|[? _]]; done.
  - intros a b m Ha Hb Hm.
    destruct (matchPricedPair_cases a b (Hp a Ha) (Hp b Hb)) as [[Hx _]|[_ Hx]]; [|congruence].
    apply list_elem_of_lookup in Ha as [i Hi], Hb as [j Hj].
    apply (Hmax i a j b); [by apply enumerate_spec..| |done]. intros ->.
    destruct Hx as (E2 & E3 & E4 & _). congruence.
Qed.

(** ** Witnesses *)
Definition threeIntents : list Intent :=
  [mkIntent "i1" 500 "USDC" "EURC"; mkIntent "i2" 300 "USDC" "EURC"; mkIntent "i3" 400 "EURC" "USDC"].
Lemma matchIntents_sound_witness : NoDup (idsOf (matchIntents threeIntents)).
Proof.
  apply (matchIntents_sound threeIntents); [repeat constructor|].
  apply (bool_decide_unpack _). vm_compute. exact I.
Defined.
Lemma matchIntents_maximal_witness :
  "i1" ∈ idsOf (matchIntents threeIntents) \/ "i3" ∈ idsOf (matchIntents threeIntents).
Proof.
  apply (matchIntents_maximal threeIntents (mkIntent "i1" 500 "USDC" "EURC") (mkIntent "i3" 400 "EURC" "USDC")).
  - repeat constructor.
  - apply (bool_decide_unpack _). vm_compute. exact I.
  - left.
  - right. right. left.
  - reflexivity.
  - reflexivity.
  - discriminate.
Defined.
Definition pricedA : PricedIntent := mkPriced "a" "XLM" "USDC" 1000 100 120000000.
Definition pricedB : PricedIntent := mkPriced "b" "USDC" "XLM" 120 900 8000000000.
Lemma matchPricedPair_spec_witness : exists r, matchPricedPair pricedA pricedB = Ok r.
Proof. apply (matchPricedPair_spec pricedA pricedB); vm_compute; try reflexivity; discriminate. Defined.
Lemma matchPricedIntents_spec_witness : exists ms, matchPricedIntents [pricedA; pricedB] = Ok ms.
Proof.
  destruct (matchPricedIntents_spec [pricedA; pricedB]) as (ms & E & _).
  - repeat constructor; vm_compute; try reflexivity; discriminate.
  - apply (bool_decide_unpack _). vm_compute. exact I.
  - exists ms. exact E.
Defined.
End Matching.
