(* ===== verification/CommitteeKeys.v ===== *)
(** * The committee's persistent keys (apps/mpc-committee/src/keys.ts)

    Secret keys are stored encrypted under a key of the environment.
    Theorem: the key pairs a start returns are the ones every later start
    loads, and a restart writes nothing. *)
From S2P Require Import Prelude JsText JsCollections Json Crypto Committee Database Runtime.
Import JsText Json JsArray Crypto Committee Database Runtime.

Module CommitteeKeys.

Section Keys.
Context `{Env} `{Random} `{Aes} `{KeyGen} `{Uuid}.

Definition tableName : string := "mpc_committee_keys".

Definition loadEncryptionKey : result bytes :=
  match env "MPC_KEY_ENCRYPTION_SECRET" with
  | Some hex =>
      if (String.length hex =? 64)%nat then Ok (hexDecode hex)
      else Throw (Error None "MPC_KEY_ENCRYPTION_SECRET must be set to a 32-byte (64 hex char) key")
  | None => Throw (Error None "MPC_KEY_ENCRYPTION_SECRET must be set to a 32-byte (64 hex char) key")
  end.

(** [createCipheriv] and [createDecipheriv] refuse a key that is not 32 bytes. *)
Definition invalidKey : error := Error None "Invalid key length".
Definition encryptSecret (iv : bytes) (plainHex : string) (key : bytes) : result string :=
  if negb (String.length key =? 32)%nat then Throw invalidKey
  else
    let '(ciphertext, authTag) := aesSeal key iv "" (hexDecode plainHex) in
    Ok (hexEncode (iv +:+ authTag +:+ ciphertext)).
Definition decryptSecret (encHex : string) (key : bytes) : result string :=
  if negb (String.length key =? 32)%nat then Throw invalidKey
  else
    let raw := hexDecode encHex in
    let iv := sliceTo 12 raw in
    let authTag := sliceTo 16 (sliceFrom 12 raw) in
    let ciphertext := sliceFrom 28 raw in
    match aesOpen key iv "" ciphertext authTag with
    | Some plaintext => Ok (hexEncode plaintext)
    | None => Throw (Error None "Unsupported state or unable to authenticate data")
    end.

Definition rowToKeyPair (row : Database.Row) (encKey : bytes) : result CommitteeNodeKeyPair :=
  match decryptSecret (textOf (get row "encryption_secret")) encKey with
  | Throw e => Throw e
  | Ok encSk =>
      match decryptSecret (textOf (get row "signing_secret")) encKey with
      | Throw e => Throw e
      | Ok signSk =>
          Ok (mkKeyPair (textOf (get row "node_id"))
                (hexDecode (textOf (get row "encryption_pubkey"))) (hexDecode encSk)
                (hexDecode (textOf (get row "signing_pubkey"))) (hexDecode signSk))
      end
  end.
(** [iv1] and [iv2] are the two draws of [encryptSecret]. *)
Definition keyPairToRow (kp : CommitteeNodeKeyPair) (iv1 iv2 encKey : bytes) : result Database.Row :=
  match encryptSecret iv1 (hexEncode (boxSecret kp)) encKey with
  | Throw e => Throw e
  | Ok encSecret =>
      match encryptSecret iv2 (hexEncode (signSecret kp)) encKey with
      | Throw e => Throw e
      | Ok signSecret =>
          Ok [("node_id", JStr (kp_nodeId kp)); ("encryption_pubkey", JStr (hexEncode (boxPublic kp)));
              ("encryption_secret", JStr encSecret); ("signing_pubkey", JStr (hexEncode (signPublic kp)));
              ("signing_secret", JStr signSecret)]
      end
  end.

Definition nodeIdOf (r : Database.Row) : string := textOf (get r "node_id").
Definition selectKeys (nodeIds : list string) : M DB (list Database.Row) :=
  rows ← select schemaOf tableName (anyText "node_id" nodeIds);
  mret (sortBy (fun a b => compareStr (nodeIdOf a) (nodeIdOf b)) rows).
(** [new Map(rows.map(r => [r.node_id, r]))]. *)
Definition byNodeId {A} (l : list (string * A)) : JsMap.t string A :=
  fold_left (fun m kv => JsMap.set m kv.1 kv.2) l [].

Fixpoint collectR {A B} (f : A -> result B) (l : list A) : result (list B) :=
  match l with
  | [] => Ok []
  | x :: l =>
      match f x with
      | Throw e => Throw e
      | Ok y => match collectR f l with Ok ys => Ok (y :: ys) | Throw e => Throw e end
      end
  end.
(** A node without a row is a [TypeError]. *)
Definition loadOne (byId : JsMap.t string Database.Row) (encKey : bytes) (id : string) : result CommitteeNodeKeyPair :=
  match JsMap.get byId id with
  | Some r => rowToKeyPair r encKey
  | None => Throw (Error None "Cannot read properties of undefined")
  end.

Definition freshKeyPair (id : string) : M DB CommitteeNodeKeyPair :=
  n1 ← tick; n2 ← tick; mret (generateNodeKeyPair id (genBox n1) (genSign n2)).
Definition persistKeyPair (kp : CommitteeNodeKeyPair) (encKey : bytes) : M DB unit :=
  n1 ← tick; n2 ← tick;
  row ← liftR (keyPairToRow kp (randomBytes n1 12) (randomBytes n2 12) encKey);
  insert schemaOf tableName row (DoNothing (Some ["node_id"])) ;;
  mret tt.
Fixpoint generateKeys (existing : JsMap.t string CommitteeNodeKeyPair) (encKey : bytes) (nodeIds : list string) :
    M DB (list CommitteeNodeKeyPair) :=
  match nodeIds with
  | [] => mret []
  | id :: nodeIds =>
      match JsMap.get existing id with
      | Some kp => rest ← generateKeys existing encKey nodeIds; mret (kp :: rest)
      | None =>
          kp ← freshKeyPair id;
          persistKeyPair kp encKey ;;
          rest ← generateKeys existing encKey nodeIds;
          mret (kp :: rest)
      end
  end.

Definition existingKeys (rows : list Database.Row) (encKey : bytes) : result (JsMap.t string CommitteeNodeKeyPair) :=
  match collectR (fun r => rowToKeyPair r encKey) rows with
  | Ok kps => Ok (byNodeId (zip (map nodeIdOf rows) kps))
  | Throw e => Throw e
  end.
Definition loadOrGenerateKeys (nodeIds : list string) : M DB (list CommitteeNodeKeyPair) :=
  encKey ← liftR loadEncryptionKey;
  rows ← selectKeys nodeIds;
  if (length rows =? length nodeIds)%nat then
    liftR (collectR (loadOne (byNodeId (map (fun r => (nodeIdOf r, r)) rows)) encKey) nodeIds)
  else
    existing ← liftR (existingKeys rows encKey);
    generateKeys existing encKey nodeIds.

(** ** Lemmas *)

Context {aesLaws : AesLaws} {randomLaws : RandomLaws}.

Lemma sliceTo_append n a b : String.length a = n -> sliceTo n (a +:+ b) = a.
Proof.
  revert n. induction a as [|c a IH]; intros n; simpl; [intros <-; by destruct b|].
  destruct n as [|n]; [done|]. intros [= Hn]. simpl. f_equal. by apply IH.
Qed.
Lemma sliceFrom_append n a b : String.length a = n -> sliceFrom n (a +:+ b) = b.
Proof.
  revert n. induction a as [|c a IH]; intros n; simpl; [intros <-; by destruct b|].
  destruct n as [|n]; [done|]. intros [= Hn]. simpl. by apply IH.
Qed.
Lemma sliceFrom_add n k s : sliceFrom (n + k) s = sliceFrom k (sliceFrom n s).
Proof. revert s. induction n as [|n IH]; intros s; [done|]. destruct s as [|c s]; simpl; [by destruct k|apply IH]. Qed.

Lemma decrypt_encryptSecret iv m key enc :
  String.length iv = 12%nat -> encryptSecret iv (hexEncode m) key = Ok enc ->
  decryptSecret enc key = Ok (hexEncode m).
Proof using aesLaws.
  intros Hiv. unfold encryptSecret, decryptSecret. destruct (negb _) eqn:E; [done|].
  rewrite hexDecode_encode. destruct (aesSeal key iv "" m) as [ct tag] eqn:Es. intros [= <-].
  rewrite hexDecode_encode.
  pose proof (aes_tag key iv "" m) as Ht. rewrite Es in Ht. simpl in Ht.
  rewrite sliceTo_append by done. change 28%nat with (12 + 16)%nat. rewrite sliceFrom_add.
  rewrite (sliceFrom_append 12) by done. rewrite sliceTo_append, sliceFrom_append by done.
  pose proof (aes_open key iv "" m) as Ho. rewrite Es in Ho. simpl in Ho. by rewrite Ho.
Qed.
(** The stored form of a key pair decrypts to the pair; columns the database
    adds do not matter. *)
Lemma rowToKeyPair_keyPairToRow kp iv1 iv2 key row (more : Database.Row) :
  String.length iv1 = 12%nat -> String.length iv2 = 12%nat ->
  keyPairToRow kp iv1 iv2 key = Ok row -> rowToKeyPair (row ++ more) key = Ok kp.
Proof using aesLaws.
  intros H1' H2'. unfold keyPairToRow.
  destruct (encryptSecret iv1 _ key) as [e1|] eqn:E1; [|done].
  destruct (encryptSecret iv2 _ key) as [e2|] eqn:E2; [|done]. intros [= <-].
  unfold rowToKeyPair, get. simpl.
  rewrite (decrypt_encryptSecret iv1 (boxSecret kp) key e1), (decrypt_encryptSecret iv2 (signSecret kp) key e2) by done.
  rewrite !hexDecode_encode. by destruct kp.
Qed.

(** ** The table *)
Definition rowsOf (db : DB) : list Database.Row := table db tableName.
Record keysOk (db : DB) : Prop := {
  keys_text : Forall (fun r => get r "node_id" = JStr (nodeIdOf r)) (rowsOf db);
  keys_nodup : NoDup (nodeIdOf <$> rowsOf db)
}.
Definition stored (encKey : bytes) (db : DB) (id : string) (kp : CommitteeNodeKeyPair) : Prop :=
  exists r, r ∈ rowsOf db /\ nodeIdOf r = id /\ rowToKeyPair r encKey = Ok kp.
Definition keyRows (nodeIds : list string) (db : DB) : list Database.Row :=
  sortBy (fun a b => compareStr (nodeIdOf a) (nodeIdOf b)) (selectWhere (anyText "node_id" nodeIds) (rowsOf db)).

Lemma selectKeys_rows ids db : selectKeys ids db = (Ok (keyRows ids db), db).
Proof. done. Qed.
Lemma elem_keyRows ids db r : keysOk db -> r ∈ keyRows ids db <-> r ∈ rowsOf db /\ nodeIdOf r ∈ ids.
Proof.
  intros Hok. unfold keyRows. rewrite sortBy_perm, elem_of_selectWhere.
  split; intros [Hr Hi]; (split; [done|]); pose proof (keys_text db Hok) as Ht; rewrite Forall_forall in Ht;
    specialize (Ht r Hr); unfold anyText in *.
  - apply existsb_exists in Hi as (id & Hin & E). unfold eqText, eqCol in E. rewrite Ht in E. simpl in E.
    apply bool_decide_eq_true in E. injection E as ->. by apply list_elem_of_In.
  - apply existsb_exists. exists (nodeIdOf r). split; [by apply list_elem_of_In|].
    unfold eqText, eqCol. rewrite Ht. by apply bool_decide_eq_true.
Qed.
Lemma keyRows_nodup ids db : keysOk db -> NoDup (nodeIdOf <$> keyRows ids db).
Proof.
  intros Hok. unfold keyRows. rewrite sortBy_perm. unfold selectWhere.
  pose proof (keys_nodup db Hok) as Hn. induction (rowsOf db) as [|r l IH]; [constructor|].
  rewrite fmap_cons in Hn. apply NoDup_cons in Hn as [Hr Hn]. rewrite filter_cons.
  case_decide; [|by apply IH]. rewrite fmap_cons. apply NoDup_cons. split; [|by apply IH].
  rewrite list_elem_of_fmap. intros (y & E & [_ Hy]%list_elem_of_filter). apply Hr. rewrite E.
  by apply list_elem_of_fmap_2.
Qed.

Lemma byNodeId_get {A} (l : list (string * A)) k v :
  NoDup l.*1 -> JsMap.get (byNodeId l) k = Some v <-> (k, v) ∈ l.
Proof.
  unfold byNodeId. assert (forall m : JsMap.t string A, NoDup l.*1 ->
    JsMap.get (fold_left (fun m kv => JsMap.set m kv.1 kv.2) l m) k = Some v <->
    (k, v) ∈ l \/ (k ∉ l.*1 /\ JsMap.get m k = Some v)) as Hx.
  { induction l as [|[k' v'] l IH]; intros m Hn; cbn [fold_left fst snd].
    - split; [intros; right; split; [apply not_elem_of_nil|done]|intros [Hx%elem_of_nil|[_ Hx]]; done].
    - rewrite fmap_cons in Hn. apply NoDup_cons in Hn as [Hk Hn]. rewrite IH by done.
      rewrite JsMap.get_set, fmap_cons, not_elem_of_cons, elem_of_cons. cbn [fst].
      case_bool_decide as E; [subst k'|]; split.
      + intros [Hin|[Hni [= ->]]]; [by left; right|left; by left].
      + intros [[[= ->]|Hin]|[[? _] _]]; [by right|by left|done].
      + intros [Hin|[Hni Hg]]; [by left; right|right]. split; [|done]. split; [|done]. by intros ->.
      + intros [[[= -> ->]|Hin]|[[_ Hni] Hg]]; [done|by left|by right]. }
  intros Hn. rewrite Hx by done. split; [intros [?|[_ ?]]; done|by left].
Qed.
Lemma collectR_Forall2 {A B} (f : A -> result B) l ys :
  collectR f l = Ok ys <-> Forall2 (fun x y => f x = Ok y) l ys.
Proof.
  revert ys. induction l as [|x l IH]; intros ys; simpl.
  - split; [intros [= <-]; constructor|by inversion 1].
  - destruct (f x) as [y|e] eqn:E.
    + destruct (collectR f l) as [ys'|e].
      * split; [intros [= <-]; constructor; [done|by apply IH]|].
        inversion 1 as [|? y' ? l' Hy Hl]; subst. apply IH in Hl. congruence.
      * split; [done|]. inversion 1 as [|? y' ? l' Hy Hl]; subst. apply IH in Hl. done.
    + split; [done|]. inversion 1; subst. congruence.
Qed.
Lemma keyMap_get ids db r :
  keysOk db -> r ∈ keyRows ids db ->
  JsMap.get (byNodeId (map (fun r => (nodeIdOf r, r)) (keyRows ids db))) (nodeIdOf r) = Some r.
Proof.
  intros Hok Hr. apply byNodeId_get.
  - change (NoDup (fst <$> ((fun r => (nodeIdOf r, r)) <$> keyRows ids db))). rewrite <- list_fmap_compose.
    by apply keyRows_nodup.
  - apply list_elem_of_fmap. by exists r.
Qed.
Lemma rowToKeyPair_id r key kp : rowToKeyPair r key = Ok kp -> kp_nodeId kp = nodeIdOf r.
Proof. unfold rowToKeyPair. intros H'. split_matches. done. Qed.

(** When every requested pair is stored, a start loads them and writes nothing. *)
Lemma load_stored encKey ids kps db :
  loadEncryptionKey = Ok encKey -> keysOk db -> NoDup ids -> Forall2 (stored encKey db) ids kps ->
  loadOrGenerateKeys ids db = (Ok kps, db).
Proof.
  intros Henc Hok Hnd Hst. unfold loadOrGenerateKeys. rewrite Henc.
  unfold mbind at 1, M_bind at 1, liftR at 1. unfold mbind at 1, M_bind at 1. rewrite selectKeys_rows.
  assert (nodeIdOf <$> keyRows ids db ≡ₚ ids) as Hp.
  { apply NoDup_Permutation; [by apply keyRows_nodup|done|]. intros id. rewrite list_elem_of_fmap. split.
    - intros (r & -> & Hr). by apply (elem_keyRows ids db r Hok) in Hr as [_ ?].
    - intros Hid. apply list_elem_of_lookup in Hid as [i Hi].
      destruct (Forall2_lookup_l _ _ _ _ _ Hst Hi) as (kp & _ & r & Hr & Hid & _).
      exists r. split; [done|]. apply elem_keyRows; [done|]. rewrite Hid. split; [done|]. by eapply list_elem_of_lookup_2. }
  apply Permutation_length in Hp. rewrite length_fmap in Hp. rewrite Hp, Nat.eqb_refl. unfold liftR. f_equal.
  apply collectR_Forall2. apply Forall2_same_length_lookup in Hst as [Hl Hst]. apply Forall2_same_length_lookup.
  split; [done|]. intros i id kp Hi Hkp. destruct (Hst i id kp Hi Hkp) as (r & Hr & <- & Hrow).
  unfold loadOne. rewrite keyMap_get; [done|done|]. apply elem_keyRows; [done|]. split; [done|].
  by eapply list_elem_of_lookup_2.
Qed.

(** One new node: the row is appended. *)
Lemma persist_stored kp encKey db db' :
  keysOk db -> kp_nodeId kp ∉ nodeIdOf <$> rowsOf db -> persistKeyPair kp encKey db = (Ok tt, db') ->
  keysOk db' /\ stored encKey db' (kp_nodeId kp) kp /\
  exists r, rowsOf db' = rowsOf db ++ [r] /\ nodeIdOf r = kp_nodeId kp.
Proof using aesLaws randomLaws.
  intros Hok Hn. unfold persistKeyPair, mbind, M_bind, tick, liftR. simpl.
  destruct (keyPairToRow kp (randomBytes (ticks db) 12) (randomBytes (ticks db + 1) 12) encKey) as [row|] eqn:E; [|done].
  pose proof (fun more => rowToKeyPair_keyPairToRow kp _ _ _ _ more
    (randomBytes_length _ _) (randomBytes_length _ _) E) as Hrow.
  assert (exists e1 e2, row = [("node_id", JStr (kp_nodeId kp)); ("encryption_pubkey", JStr (hexEncode (boxPublic kp)));
    ("encryption_secret", JStr e1); ("signing_pubkey", JStr (hexEncode (signPublic kp))); ("signing_secret", JStr e2)])
    as (e1 & e2 & ->).
  { unfold keyPairToRow in E. split_matches. eauto. }
  clear E. erewrite (insert_appends schemaOf); [|reflexivity..| |reflexivity]; cycle 1.
  { intros o Ho. apply not_true_iff_false. unfold clashes, agree, get at 1 2. simpl.
    rewrite !orb_false_r, !andb_true_r, orb_diag. intros Hc%bool_decide_eq_true. apply Hn.
    apply list_elem_of_fmap. exists o. split; [|done]. unfold nodeIdOf. by rewrite <- Hc. }
  unfold mret, M_ret. intros [= <-].
  match goal with |- context [table _ _ ++ [?x]] => set (r := x) end.
  assert (rowToKeyPair r encKey = Ok kp) as Hr by exact (Hrow [("created_at", JNum _)]).
  assert (nodeIdOf r = kp_nodeId kp) as Hid by done. assert (get r "node_id" = JStr (nodeIdOf r)) as Ht by done.
  unfold stored, rowsOf. clearbody r. rewrite table_same. split_and!; [split| |].
  - unfold rowsOf. rewrite table_same. apply Forall_app. split; [apply Hok|by constructor].
  - unfold rowsOf. rewrite table_same, fmap_app. apply NoDup_app. split; [apply Hok|].
    split; [|apply NoDup_singleton]. intros x Hx ->%list_elem_of_singleton. apply Hn. by rewrite <- Hid.
  - exists r. split; [|done]. apply elem_of_app. right. by left.
  - by exists r.
Qed.

Lemma stored_grow encKey db db' id kp :
  (forall r, r ∈ rowsOf db -> r ∈ rowsOf db') -> stored encKey db id kp -> stored encKey db' id kp.
Proof. intros Hsub (r & Hr & Hx). exists r. auto. Qed.

Lemma generateKeys_stored existing encKey ids : forall db kps db',
  keysOk db -> NoDup ids ->
  (forall id kp, JsMap.get existing id = Some kp -> stored encKey db id kp) ->
  (forall id, id ∈ ids -> JsMap.get existing id = None -> id ∉ nodeIdOf <$> rowsOf db) ->
  generateKeys existing encKey ids db = (Ok kps, db') ->
  keysOk db' /\ (forall r, r ∈ rowsOf db -> r ∈ rowsOf db') /\ Forall2 (stored encKey db') ids kps.
Proof using aesLaws randomLaws.
  induction ids as [|id ids IH]; intros db kps db' Hok Hnd Hst Hnew; cbn [generateKeys].
  { intros [= <- <-]. split_and!; [done|done|constructor]. }
  apply NoDup_cons in Hnd as [Hid Hnd]. destruct (JsMap.get existing id) as [kp|] eqn:Ee.
  - unfold mbind, M_bind. destruct (generateKeys existing encKey ids db) as [[rest|e] db1] eqn:Eg; [|done].
    intros [= <- <-]. destruct (IH db rest db1) as (H1' & H2' & H3'); try done.
    { intros id' Hin. apply Hnew. by right. }
    split_and!; [done|done|]. constructor; [|done]. eapply stored_grow; [exact H2'|]. by apply Hst.
  - unfold freshKeyPair, mbind, M_bind, tick, mret, M_ret.
    set (kp := generateNodeKeyPair id (genBox _) (genSign _)).
    set (db0 := {| ticks := _ |}).
    destruct (persistKeyPair kp encKey db0) as [[[]|e] db1] eqn:Ep; [|done].
    destruct (persist_stored kp encKey db0 db1) as (Hok1 & Hs1 & r & Hr1 & Hr2); [destruct Hok; by split| |done|].
    { apply Hnew; [by left|done]. }
    change (rowsOf db0) with (rowsOf db) in Hr1.
    destruct (generateKeys existing encKey ids db1) as [[rest|e] db2] eqn:Eg; [|done].
    intros [= <- <-]. destruct (IH db1 rest db2) as (H1' & H2' & H3'); try done.
    + intros id' kp' Hg. eapply stored_grow; [|by apply Hst]. intros r' Hr'. rewrite Hr1. apply elem_of_app. by left.
    + intros id' Hin Hg. rewrite Hr1, fmap_app, not_elem_of_app. split; [apply Hnew; [by right|done]|].
      simpl. rewrite Hr2, list_elem_of_singleton. intros ->. by apply Hid.
    + split_and!; [done| |].
      * intros r' Hr'. apply H2'. rewrite Hr1. apply elem_of_app. by left.
      * constructor; [|done]. eapply stored_grow; [exact H2'|exact Hs1].
Qed.
Lemma stored_id encKey db id kp : stored encKey db id kp -> kp_nodeId kp = id.
Proof. intros (r & _ & <- & Hr). by eapply rowToKeyPair_id. Qed.

Lemma existing_stored ids db encKey existing :
  keysOk db -> existingKeys (keyRows ids db) encKey = Ok existing ->
  (forall id kp, JsMap.get existing id = Some kp -> stored encKey db id kp) /\
  (forall id, id ∈ ids -> JsMap.get existing id = None -> id ∉ nodeIdOf <$> rowsOf db).
Proof.
  intros Hok. unfold existingKeys.
  destruct (collectR _ (keyRows ids db)) as [kps|] eqn:E; [|done]. intros [= <-].
  apply collectR_Forall2, Forall2_same_length_lookup in E as [Hl Hk].
  assert ((zip (map nodeIdOf (keyRows ids db)) kps).*1 = nodeIdOf <$> keyRows ids db) as Hf.
  { apply fst_zip. rewrite length_map. lia. }
  split.
  - intros id kp. rewrite byNodeId_get by (rewrite Hf; by apply keyRows_nodup).
    intros [i Hi]%list_elem_of_lookup. apply lookup_zip_with_Some in Hi as (? & ? & [= <- <-] & Hi1 & Hi2).
    change (map nodeIdOf (keyRows ids db)) with (nodeIdOf <$> keyRows ids db) in Hi1.
    apply list_lookup_fmap_Some in Hi1 as (r & -> & Hr).
    exists r. split; [|split; [done|by eapply Hk]]. apply (elem_keyRows ids db r Hok). by eapply list_elem_of_lookup_2.
  - intros id Hid Hg (r & -> & Hr)%list_elem_of_fmap. apply JsMap.get_None in Hg. unfold JsMap.keys in Hg.
    assert (r ∈ keyRows ids db) as Hin by by apply elem_keyRows.
    apply list_elem_of_lookup in Hin as [i Hi]. destruct (lookup_lt_is_Some_2 kps i) as [kp Hkp].
    { rewrite <- Hl. by eapply lookup_lt_Some. }
    destruct (JsMap.get (byNodeId (zip (map nodeIdOf (keyRows ids db)) kps)) (nodeIdOf r)) as [kp'|] eqn:Eg.
    + apply JsMap.get_elem in Eg. apply Hg. by apply (list_elem_of_fmap_2 fst) in Eg.
    + enough (JsMap.get (byNodeId (zip (map nodeIdOf (keyRows ids db)) kps)) (nodeIdOf r) = Some kp) by congruence.
      apply byNodeId_get; [rewrite Hf; by apply keyRows_nodup|]. apply list_elem_of_lookup. exists i.
      apply lookup_zip_with_Some. exists (nodeIdOf r), kp. split_and!; [done| |done].
      change (map nodeIdOf (keyRows ids db)) with (nodeIdOf <$> keyRows ids db). by rewrite list_lookup_fmap, Hi.
Qed.

Lemma Forall2_map_eq {A B} (f : B -> A) l k : Forall2 (fun x y => f y = x) l k -> f <$> k = l.
Proof. induction 1 as [|x y l k Hxy Hl IH]; [done|]. rewrite fmap_cons. by rewrite Hxy, IH. Qed.
Lemma loadOne_id ids db encKey id kp :
  keysOk db -> loadOne (byNodeId (map (fun r => (nodeIdOf r, r)) (keyRows ids db))) encKey id = Ok kp -> kp_nodeId kp = id.
Proof.
  intros Hok. unfold loadOne. destruct (JsMap.get _ id) as [r|] eqn:E; [|done]. intros Hr%rowToKeyPair_id.
  apply byNodeId_get in E.
  - apply list_elem_of_fmap in E as (r' & [= -> ->] & _). done.
  - change (NoDup (fst <$> ((fun r => (nodeIdOf r, r)) <$> keyRows ids db))). rewrite <- list_fmap_compose.
    by apply keyRows_nodup.
Qed.

(** The committee's identity survives restarts: whatever the table held
    before, the key pairs a successful start returns are one per requested
    node, and the next start with the same environment returns the same key
    pairs and leaves the database unchanged. *)
Theorem keys_survive_restart ids db kps db' :
  NoDup ids -> keysOk db -> loadOrGenerateKeys ids db = (Ok kps, db') ->
  kp_nodeId <$> kps = ids /\ keysOk db' /\ loadOrGenerateKeys ids db' = (Ok kps, db').
Proof using aesLaws randomLaws.
  intros Hnd Hok Hrun. pose proof Hrun as Hrun'. unfold loadOrGenerateKeys in Hrun.
  destruct loadEncryptionKey as [encKey|e] eqn:Henc; [|done].
  unfold mbind at 1, M_bind at 1, liftR at 1 in Hrun. unfold mbind at 1, M_bind at 1 in Hrun.
  rewrite selectKeys_rows in Hrun. destruct (_ =? _)%nat eqn:El.
  - assert (db' = db) as -> by (unfold liftR in Hrun; congruence). split; [|done].
    unfold liftR in Hrun. injection Hrun as Hrun. apply collectR_Forall2 in Hrun.
    apply Forall2_map_eq. eapply Forall2_impl; [exact Hrun|]. intros id kp. by apply loadOne_id.
  - unfold mbind, M_bind, liftR in Hrun. destruct (existingKeys _ encKey) as [existing|] eqn:Ee; [|done].
    destruct (existing_stored _ _ _ _ Hok Ee) as [He1 He2].
    destruct (generateKeys_stored existing encKey ids db kps db') as (Hok' & _ & Hst); try done.
    split_and!; [|done|by eapply load_stored].
    apply Forall2_map_eq. eapply Forall2_impl; [exact Hst|]. intros id kp. apply stored_id.
Qed.
End Keys.

(** ** Witness: two nodes, a first start on an empty database *)
Definition toyEnv : Env := fun v =>
  if v ==? "MPC_KEY_ENCRYPTION_SECRET" then Some (repeatString 64 (chr 49)) else None.
Definition firstStart : result (list CommitteeNodeKeyPair) * DB :=
  @loadOrGenerateKeys toyEnv ToyRuntime.toy_random ToyRuntime.toy_aes ToyRuntime.toy_keygen toyUuid
    ["node-1"; "node-2"] (emptyDB 0).
Definition firstKeys : list CommitteeNodeKeyPair :=
  [mkKeyPair "node-1" "pk0" "sk0" "spk1" "ssk1"; mkKeyPair "node-2" "pk5" "sk5" "spk6" "ssk6"].
Lemma keys_survive_restart_witness :
  @loadOrGenerateKeys toyEnv ToyRuntime.toy_random ToyRuntime.toy_aes ToyRuntime.toy_keygen toyUuid
    ["node-1"; "node-2"] firstStart.2 = (Ok firstKeys, firstStart.2).
Proof.
  refine (proj2 (proj2 (@keys_survive_restart toyEnv ToyRuntime.toy_random ToyRuntime.toy_aes
    ToyRuntime.toy_keygen toyUuid ToyRuntime.toy_aes_laws ToyRuntime.toy_random_laws
    ["node-1"; "node-2"] (emptyDB 0) firstKeys firstStart.2 _ _ _))).
  - apply (bool_decide_unpack _). vm_compute. exact I.
  - split; constructor.
  - vm_compute. reflexivity.
Defined.
End CommitteeKeys.
