(* ===== verification/Settler.v ===== *)
(** * From a signed batch to settlement jobs
      (apps/mpc-committee/src/persist.ts, settler.ts)

    [persistSignedBatch] writes a batch and marks its session and intents;
    [settleOnce] turns the pending batches into [MPC_SETTLE_SUBMIT] jobs.
    Theorems: a match with an intent of the RFQ lifecycle is never queued, any
    other is queued exactly once with its notes, and a second run over the
    same batch queues nothing. *)
From S2P Require Import Prelude JsText JsCollections Json Jsonb Crypto JobQueue Database Runtime Committee.
Import JsText Json Database Runtime.

Module Settler.

(** The wire form of a match: optional fields are left out when undefined. *)
Definition optField (k : string) (o : option string) : list (string * json) :=
  match o with Some s => [(k, JStr s)] | None => [] end.
Definition matchJson (m : Committee.MatchResult) : json :=
  JObj ([("intentAId", JStr (Committee.intentAId m)); ("intentBId", JStr (Committee.intentBId m));
         ("matchedAmount7dp", JStr (Committee.matchedAmount7dp m));
         ("inputAsset", JStr (Committee.m_inputAsset m)); ("outputAsset", JStr (Committee.m_outputAsset m))]
        ++ optField "priceScaled" (Committee.priceScaled m) ++ optField "assetIn" (Committee.assetIn m)
        ++ optField "assetOut" (Committee.assetOut m)).
Definition signatureJson (s : Committee.NodeSignature) : json :=
  JObj [("nodeId", JStr (Committee.s_nodeId s)); ("signingPubkey", JStr (Committee.s_signingPubkey s));
        ("signature", JStr (Committee.signature s))].

Section Persist.
Context `{Uuid}.

Definition persistSignature (batchId : string) (sig : Committee.NodeSignature) : M DB unit :=
  insert schemaOf "mpc_batch_signatures"
    [("batch_id", JStr batchId); ("node_id", JStr (Committee.s_nodeId sig));
     ("signing_pubkey", JStr (Committee.s_signingPubkey sig)); ("signature", JStr (Committee.signature sig))]
    (DoNothing (Some ["batch_id"; "node_id"])) ;;
  mret tt.
Definition markMatched (intentId withId : string) : M DB unit :=
  now ← dateNow;
  update schemaOf "mpc_intents" (eqText "intent_id" intentId)
    [("status", JStr "matched"); ("matched_with", JStr withId); ("updated_at", JNum now)] ;;
  mret tt.
Definition persistSignedBatch (sessionId : string) (batch : Committee.SignedMatchBatch) : M DB unit :=
  insert schemaOf "mpc_batches"
    [("batch_id", JStr (Committee.batchId batch)); ("session_id", JStr sessionId);
     ("batch_hash", JStr (Committee.batchHash batch));
     ("match_count", JNum (Z.of_nat (length (Committee.matches batch))));
     ("matches_json", JStr (stringify (JArr (map matchJson (Committee.matches batch)))));
     ("signatures_json", JStr (stringify (JArr (map signatureJson (Committee.signatures batch)))))]
    (DoNothing None) ;;
  foreachM (persistSignature (Committee.batchId batch)) (Committee.signatures batch) ;;
  now ← dateNow;
  update schemaOf "mpc_sessions" (eqText "session_id" sessionId)
    [("status", JStr "signed"); ("match_count", JNum (Z.of_nat (length (Committee.matches batch))));
     ("closed_at", JNum now); ("updated_at", JNum now)] ;;
  foreachM (fun m => markMatched (Committee.intentAId m) (Committee.intentBId m) ;;
                     markMatched (Committee.intentBId m) (Committee.intentAId m)) (Committee.matches batch).

Definition batchRow (sessionId : string) (batch : Committee.SignedMatchBatch) (now : Z) : Row :=
  [("batch_id", JStr (Committee.batchId batch)); ("session_id", JStr sessionId);
   ("batch_hash", JStr (Committee.batchHash batch));
   ("match_count", JNum (Z.of_nat (length (Committee.matches batch))));
   ("matches_json", Jsonb.store (JArr (map matchJson (Committee.matches batch))));
   ("signatures_json", Jsonb.store (JArr (map signatureJson (Committee.signatures batch))));
   ("settlement_status", JStr "pending"); ("settled_at", JNull); ("created_at", JNum now); ("updated_at", JNum now)].

Lemma buildRow_batch' b sid h mc ms sigs j1 j2 now n :
  int4 mc = true -> parse ms = Some (JArr j1) -> parse sigs = Some (JArr j2) ->
  buildRow now n
    [("batch_id", JStr b); ("session_id", JStr sid); ("batch_hash", JStr h); ("match_count", JNum mc);
     ("matches_json", JStr ms); ("signatures_json", JStr sigs)] (columns mpc_batches) =
  Some [("batch_id", JStr b); ("session_id", JStr sid); ("batch_hash", JStr h); ("match_count", JNum mc);
        ("matches_json", Jsonb.store (JArr j1)); ("signatures_json", Jsonb.store (JArr j2)); ("settlement_status", JStr "pending");
        ("settled_at", JNull); ("created_at", JNum now); ("updated_at", JNum now)].
Proof. intros H0 H1 H2. cbv -[parse Jsonb.store int4]. by rewrite H0, H1, H2. Qed.
Lemma buildRow_batch sid batch now n :
  Z.of_nat (length (Committee.matches batch)) < 2 ^ 31 ->
  buildRow now n
    [("batch_id", JStr (Committee.batchId batch)); ("session_id", JStr sid);
     ("batch_hash", JStr (Committee.batchHash batch));
     ("match_count", JNum (Z.of_nat (length (Committee.matches batch))));
     ("matches_json", JStr (stringify (JArr (map matchJson (Committee.matches batch)))));
     ("signatures_json", JStr (stringify (JArr (map signatureJson (Committee.signatures batch)))))]
    (columns mpc_batches) = Some (batchRow sid batch now).
Proof.
  intros Hc. apply buildRow_batch'; try apply parse_stringify. unfold int4. apply andb_true_iff. split; [apply Z.leb_le; lia|by apply Z.ltb_lt].
Qed.

(** A signed batch, of less than 2^31 matches, is never half persisted: with its session known to the
    database and its id new, the batch is stored as pending, in the form the
    settler reads, whatever happens to the statements after the first; with
    the session unknown, the run throws and no table changes. *)
Theorem persist_pending sid batch db :
  Z.of_nat (length (Committee.matches batch)) < 2 ^ 31 ->
  (forall r, r ∈ table db "mpc_batches" -> get r "batch_id" ≠ JStr (Committee.batchId batch)) ->
  let run := persistSignedBatch sid batch db in
  if existsb (fun o => get o "session_id" ==? JStr sid) (table db "mpc_sessions")
  then table run.2 "mpc_batches" = table db "mpc_batches" ++ [batchRow sid batch (clock db)]
  else (exists e, run.1 = Throw e) /\ forall t, table run.2 t = table db t.
Proof.
  intros Hm Hnew. unfold persistSignedBatch.
  set (given := [("batch_id", _); _; _; _; _; _]).
  assert (forall o, o ∈ table db "mpc_batches" -> clashes (targetOf mpc_batches (DoNothing None) ++ uniques mpc_batches)
    (batchRow sid batch (clock db)) o = false) as Hclash.
  { intros o Ho. unfold clashes, agree. cbn [targetOf uniques mpc_batches app existsb forallb].
    rewrite orb_false_r, andb_true_r, orb_diag. apply bool_decide_eq_false. intros E. by apply (Hnew o). }
  assert (forallb (fkOk db (batchRow sid batch (clock db))) (fkeys mpc_batches) =
    existsb (fun o => get o "session_id" ==? JStr sid) (table db "mpc_sessions")) as Hfk.
  { cbn [forallb fkeys mpc_batches]. by rewrite andb_true_r. }
  destruct (existsb _ _) eqn:Es; simpl.
  - unfold mbind at 1, M_bind at 1. rewrite (insert_appends schemaOf "mpc_batches" mpc_batches given _
      (batchRow sid batch (clock db)) db); [|done|done|by apply buildRow_batch|exact Hclash|exact Hfk].
    set (db1 := setTable _ _ _). assert (table db1 "mpc_batches" = table db "mpc_batches" ++ [batchRow sid batch (clock db)])
      as H1 by apply table_same. clearbody db1. revert db1 H1.
    match goal with |- forall db1, _ -> table (?m db1).2 _ = ?rows =>
      change (preserves (fun db => table db "mpc_batches" = rows) m) end.
    unfold persistSignature, markMatched.
    repeat first [apply preserves_bind; [|intros ?]|apply preserves_foreach; intros ?|auto with preserve].
  - unfold mbind, M_bind, insert. change (schemaOf "mpc_batches") with (Some mpc_batches). cbn [negb].
    change (forallb (fun kv => hasColumn mpc_batches kv.1) given) with true. cbn [negb].
    unfold given. rewrite buildRow_batch by done. cbv zeta.
    assert (existsb (clashes (uniques mpc_batches) (batchRow sid batch (clock db))) (table db "mpc_batches") = false) as Hc.
    { apply not_true_iff_false. intros (o & Ho%list_elem_of_In & E)%existsb_exists. specialize (Hclash o Ho).
      unfold clashes in *. rewrite existsb_app, E in Hclash. by rewrite orb_true_r in Hclash. }
    set (db1 := mkDB _ _ _). change (table db1 "mpc_batches") with (table db "mpc_batches"). rewrite Hc.
    unfold addRow. change (table db1 "mpc_batches") with (table db "mpc_batches"). rewrite Hc.
    change (forallb (fkOk db1 (batchRow sid batch (clock db))) (fkeys mpc_batches)) with
      (forallb (fkOk db (batchRow sid batch (clock db))) (fkeys mpc_batches)). rewrite Hfk. simpl.
    split; [by eexists|done].
Qed.
End Persist.

Section Settle.
Context `{Uuid}.

Definition fetchIntentNote (intentId : json) : M DB (option Row) :=
  selectFirst schemaOf "mpc_intents" (eqCol "intent_id" intentId).
Definition isRfqRouted (intentId : json) : M DB bool :=
  rows ← select schemaOf "intents" (eqCol "intent_hash" intentId);
  mret (0 <? Z.of_nat (length rows)).

Definition noteField (note : option Row) (c : string) : json :=
  match note with Some r => get r c | None => JNull end.
Definition settleKey (batchId : string) (i : nat) : string :=
  "mpc_settle:" +:+ batchId +:+ ":" +:+ toString (Z.of_nat i).
Definition settlePayload (batch : Row) (sigs : json) (i : nat) (m : json) (noteA noteB : option Row) : json :=
  JObj [("batchId", get batch "batch_id"); ("batchHash", get batch "batch_hash"); ("signatures", sigs);
        ("matchIndex", JNum (Z.of_nat i)); ("sessionId", get batch "session_id");
        ("intentAId", field m "intentAId"); ("intentBId", field m "intentBId");
        ("matchedAmount7dp", field m "matchedAmount7dp"); ("inputAsset", field m "inputAsset");
        ("outputAsset", field m "outputAsset");
        ("nullifierA", noteField noteA "note_nullifier"); ("nullifierB", noteField noteB "note_nullifier");
        ("outputCommitmentA", noteField noteA "recipient_commitment");
        ("outputCommitmentB", noteField noteB "recipient_commitment")].

(** A jsonb array; [JSON.parse] of the elements of anything else fails on
    [.map], which objects and scalars do not have. *)
Definition asArray (j : json) : result (list json) :=
  match j with JArr l => Ok l | _ => Throw (Error None "map is not a function") end.

(** The loop over the matches: how many were queued and skipped. *)
Fixpoint queueMatches (batch : Row) (sigs : list json) (i : nat) (ms : list json) : M DB (Z * Z) :=
  match ms with
  | [] => mret (0, 0)
  | m :: ms =>
      aRfqRouted ← isRfqRouted (field m "intentAId");
      bRfqRouted ← isRfqRouted (field m "intentBId");
      if aRfqRouted || bRfqRouted then
        r ← queueMatches batch sigs (S i) ms;
        mret (r.1, r.2 + 1)
      else
        noteA ← fetchIntentNote (field m "intentAId");
        noteB ← fetchIntentNote (field m "intentBId");
        uuid ← randomUUID;
        onQueue (JobQueue.enqueue uuid JobQueue.relayer "MPC_SETTLE_SUBMIT"
          (settlePayload batch (JArr sigs) i m noteA noteB)
          (Some (settleKey (textOf (get batch "batch_id")) i))) ;;
        r ← queueMatches batch sigs (S i) ms;
        mret (r.1 + 1, r.2)
  end.

Definition queueSettlementJobs (batch : Row) : M DB unit :=
  matches ← liftR (asArray (get batch "matches_json"));
  sigs ← liftR (asArray (get batch "signatures_json"));
  r ← queueMatches batch sigs 0 matches;
  now ← dateNow;
  update schemaOf "mpc_batches" (eqCol "batch_id" (get batch "batch_id"))
    [("settlement_status", JStr (if 0 <? r.1 then "queued" else "rfq_routed")); ("updated_at", JNum now)] ;;
  mret tt.

Definition settleOnce : M DB Z :=
  rows ← select schemaOf "mpc_batches" (eqText "settlement_status" "pending");
  let batches := take 50 (orderAsc "created_at" rows) in
  foreachM queueSettlementJobs batches ;;
  mret (Z.of_nat (length batches)).
(** One turn of [runSettlerLoop]: an error is logged and the loop goes on. *)
Definition settlerTurn : M DB unit := catchM (settleOnce ;; mret tt) (fun _ => mret tt).

(** ** What a run queues *)

(** Either side of the match has a row in [intents]. *)
Definition routed (db : DB) (m : json) : bool :=
  existsb (eqCol "intent_hash" (field m "intentAId")) (table db "intents")
  || existsb (eqCol "intent_hash" (field m "intentBId")) (table db "intents").
Definition noteOf (db : DB) (id : json) : option Row :=
  head (selectWhere (eqCol "intent_id" id) (table db "mpc_intents")).
Definition jobsOf (db : DB) : list JobQueue.ServiceJob := JobQueue.jobs (queueDB db).
(** Identifiers still to be drawn are not in use. *)
Definition freshIds (db : DB) : Prop :=
  forall n, ticks db <= n -> uuidOf n ∉ JobQueue.job_id <$> jobsOf db.
Definition settleJob (db : DB) (batch : Row) (sigs : list json) (i : nat) (m : json) (uuid : string) : JobQueue.ServiceJob :=
  JobQueue.newJob uuid JobQueue.relayer "MPC_SETTLE_SUBMIT"
    (settlePayload batch (JArr sigs) i m (noteOf db (field m "intentAId")) (noteOf db (field m "intentBId")))
    (Some (settleKey (textOf (get batch "batch_id")) i)) (clock db).

Lemma isRfqRouted_run id db :
  isRfqRouted id db = (Ok (existsb (eqCol "intent_hash" id) (table db "intents")), db).
Proof.
  unfold isRfqRouted, select. simpl. unfold mbind, M_bind, mret, M_ret. do 2 f_equal.
  change (0 <? Z.of_nat (length (selectWhere (eqCol "intent_hash" id) (table db "intents"))))
    with (0 <? rowCount (eqCol "intent_hash" id) (table db "intents")).
  destruct (existsb _ _) eqn:E.
  - apply Z.ltb_lt, rowCount_pos. apply existsb_exists in E as (r & Hr & Hp). exists r.
    by rewrite list_elem_of_In.
  - apply Z.ltb_ge. apply Z.le_ngt. intros (r & Hr & Hp)%rowCount_pos. apply not_true_iff_false in E as [].
    apply existsb_exists. exists r. by rewrite <- list_elem_of_In.
Qed.
Lemma fetchIntentNote_run id db : fetchIntentNote id db = (Ok (noteOf db id), db).
Proof. done. Qed.
Lemma truthy_settleKey b i : truthy (settleKey b i) = true.
Proof. done. Qed.

Context {uuid_inj : Inj (=) (=) uuidOf}.

Record queued (db db' : DB) (batch : Row) (sigs : list json) (i : nat) (ms : list json)
    (new : list JobQueue.ServiceJob) : Prop := {
  q_tables : tables db' = tables db;
  q_clock : clock db' = clock db;
  q_ids : freshIds db';
  q_jobs : jobsOf db' = jobsOf db ++ new;
  q_new : forall j, j ∈ new -> exists n m uuid, ms !! n = Some m /\ routed db m = false /\
    j = settleJob db batch sigs (i + n) m uuid /\
    settleKey (textOf (get batch "batch_id")) (i + n) ∉ JobQueue.keyOf (jobsOf db);
  q_all : forall n m, ms !! n = Some m -> routed db m = false ->
    settleKey (textOf (get batch "batch_id")) (i + n) ∈ JobQueue.keyOf (jobsOf db')
}.

Lemma queueMatches_run batch sigs ms : forall i db, freshIds db ->
  exists r db' new, queueMatches batch sigs i ms db = (Ok r, db') /\ queued db db' batch sigs i ms new /\
    0 <= r.1 /\ (0 < r.1 <-> exists m, m ∈ ms /\ routed db m = false).
Proof using uuid_inj.
  induction ms as [|m ms IH]; intros i db Hf; cbn [queueMatches].
  { exists (0, 0), db, []. split_and!; [done| |done|].
    - split; try done; [by rewrite app_nil_r|intros j Hj; by apply elem_of_nil in Hj].
    - split; [intros Hx; simpl in Hx; lia|]. intros (m & Hm & _). by apply elem_of_nil in Hm. }
  unfold mbind at 1, M_bind at 1. rewrite isRfqRouted_run.
  unfold mbind at 1, M_bind at 1. rewrite isRfqRouted_run.
  fold (routed db m). destruct (routed db m) eqn:Er.
  - unfold mbind, M_bind. destruct (IH (S i) db Hf) as (r & db' & new & -> & Hq & H0 & Hr).
    exists (r.1, r.2 + 1), db', new. split_and!; [done| |done|].
    + destruct Hq as [H1 H2 H3 H4 H5 H6]. split; try done.
      * intros j Hj. destruct (H5 j Hj) as (n & m' & uuid & Hn & Hx). exists (S n), m', uuid.
        split; [done|]. by rewrite <- plus_n_Sm.
      * intros [|n] m' Hn Hm'; [simpl in Hn; congruence|]. rewrite <- plus_n_Sm. by eapply H6.
    + simpl. rewrite Hr. split; intros (m' & Hm & Hx); exists m'; (split; [|done]); [by right|].
      apply elem_of_cons in Hm as [->|?]; [congruence|done].
  - unfold mbind at 1, M_bind at 1. rewrite fetchIntentNote_run.
    unfold mbind at 1, M_bind at 1. rewrite fetchIntentNote_run.
    unfold randomUUID, tick, onQueue, mbind, M_bind, mret, M_ret. cbn [queueDB ticks tables].
    set (pl := settlePayload _ _ _ _ _ _). set (k := settleKey _ _).
    assert (uuidOf (ticks db) ∉ JobQueue.job_id <$> JobQueue.jobs (queueDB db)) as Hu by (apply Hf; lia).
    destruct (JobQueue.enqueue_cases (queueDB db) (uuidOf (ticks db)) JobQueue.relayer "MPC_SETTLE_SUBMIT" pl k
      (truthy_settleKey _ _) Hu) as [(Hk & row & ->)|(Hk & ->)].
    + destruct (IH (S i) (mkDB (tables db) (queueDB db) (ticks db + 1))) as (r & db' & new & -> & Hq & H0 & Hr).
      { intros n Hn. apply Hf. simpl in Hn. lia. }
      exists (r.1 + 1, r.2), db', new. split_and!; [done| |simpl; lia|].
      * destruct Hq as [H1 H2 H3 H4 H5 H6]. split; try done.
        -- intros j Hj. destruct (H5 j Hj) as (n & m' & uuid & Hn & Hx). exists (S n), m', uuid.
           split; [done|]. by rewrite <- plus_n_Sm.
        -- intros [|n] m' Hn Hm'; [|rewrite <- plus_n_Sm; by eapply H6]. rewrite Nat.add_0_r. rewrite H4.
           unfold JobQueue.keyOf. rewrite omap_app, elem_of_app. by left.
      * split; [|simpl; lia]. intros _. exists m. split; [by left|done].
    + set (j0 := JobQueue.newJob _ _ _ _ _ _). set (q1 := JobQueue.mkDB _ _ _).
      destruct (IH (S i) (mkDB (tables db) q1 (ticks db + 1))) as (r & db' & new & -> & Hq & H0 & Hr).
      { intros n Hn. simpl in Hn. unfold jobsOf. simpl. rewrite fmap_app, not_elem_of_app. split; [apply Hf; lia|].
        simpl. rewrite list_elem_of_singleton. intros E%(inj uuidOf). lia. }
      exists (r.1 + 1, r.2), db', (j0 :: new). split_and!; [done| |simpl; lia|].
      * destruct Hq as [H1 H2 H3 H4 H5 H6]. split; try done.
        -- rewrite H4. unfold jobsOf. simpl. by rewrite <- app_assoc.
        -- intros j [->|Hj]%elem_of_cons.
           ++ exists O, m, (uuidOf (ticks db)). rewrite Nat.add_0_r. by split_and!.
           ++ destruct (H5 j Hj) as (n & m' & uuid & Hn & Hr' & -> & Hnk). exists (S n), m', uuid.
              rewrite <- plus_n_Sm. split_and!; try done. intros Hin. apply Hnk. unfold jobsOf. simpl.
              unfold JobQueue.keyOf in *. rewrite omap_app, elem_of_app. by left.
        -- intros [|n] m' Hn Hm'; [|rewrite <- plus_n_Sm; by eapply H6]. rewrite Nat.add_0_r. rewrite H4.
           unfold JobQueue.keyOf, jobsOf. simpl. rewrite !omap_app, !elem_of_app. left. right. simpl. by left.
      * split; [|simpl; lia]. intros _. exists m. split; [by left|done].
Qed.

Lemma queueSettlementJobs_run batch sigs ms db :
  freshIds db -> get batch "matches_json" = JArr ms -> get batch "signatures_json" = JArr sigs ->
  exists db1 db' new, queued db db1 batch sigs 0 ms new /\
    queueSettlementJobs batch db = (Ok tt, db') /\ queueDB db' = queueDB db1 /\ ticks db' = ticks db1 /\
    (forall t, t ≠ "mpc_batches" -> table db' t = table db t) /\
    table db' "mpc_batches" = updateWhere (eqCol "batch_id" (get batch "batch_id"))
      (assignRow [("settlement_status", JStr (if existsb (fun m => negb (routed db m)) ms then "queued" else "rfq_routed"));
                  ("updated_at", JNum (clock db))]) (table db "mpc_batches").
Proof using uuid_inj.
  intros Hf Hm Hs. unfold queueSettlementJobs. rewrite Hm, Hs. unfold asArray, liftR.
  destruct (queueMatches_run batch sigs ms 0 db Hf) as (r & db1 & new & E & Hq & H0 & Hr).
  unfold mbind, M_bind. rewrite E.
  assert ((if 0 <? r.1 then "queued" else "rfq_routed") =
    (if existsb (fun m => negb (routed db m)) ms then "queued" else "rfq_routed")) as ->.
  { destruct (existsb _ ms) eqn:Ex.
    - apply existsb_exists in Ex as (m & Hin & Hm'). rewrite (proj2 (Z.ltb_lt 0 r.1)); [done|]. apply Hr.
      exists m. split; [by apply list_elem_of_In|by apply negb_true_iff].
    - rewrite (proj2 (Z.ltb_ge 0 r.1)); [done|]. apply Z.le_ngt. intros (m & Hin & Hm')%Hr.
      apply not_true_iff_false in Ex as []. apply existsb_exists. exists m.
      split; [by apply list_elem_of_In|by apply negb_true_iff]. }
  unfold dateNow. rewrite (q_clock _ _ _ _ _ _ _ Hq).
  erewrite (update_ok schemaOf); [|reflexivity..].
  exists db1. eexists. exists new. split_and!; [done|reflexivity|done|done| |].
  - intros t Ht. rewrite table_other by done. unfold table. by rewrite (q_tables _ _ _ _ _ _ _ Hq).
  - rewrite table_same. unfold table. by rewrite (q_tables _ _ _ _ _ _ _ Hq).
Qed.

(** C16. The two settlement paths exclude each other: for a stored batch the
    settler queues exactly one [MPC_SETTLE_SUBMIT] job per match of which no
    side belongs to the RFQ lifecycle, carrying both notes, and nothing for
    any other match; it touches no table but the batch's own row. *)
Theorem settle_exclusive batch sigs ms db :
  freshIds db -> get batch "matches_json" = JArr ms -> get batch "signatures_json" = JArr sigs ->
  exists db' new, queueSettlementJobs batch db = (Ok tt, db') /\ jobsOf db' = jobsOf db ++ new /\
    (forall j, j ∈ new -> exists i m uuid, ms !! i = Some m /\ routed db m = false /\
       j = settleJob db batch sigs i m uuid) /\
    (forall i m, ms !! i = Some m -> routed db m = false ->
       exists j, j ∈ jobsOf db' /\ JobQueue.idempotency_key j = Some (settleKey (textOf (get batch "batch_id")) i)) /\
    (forall t, t ≠ "mpc_batches" -> table db' t = table db t).
Proof using uuid_inj.
  intros Hf Hm Hs. destruct (queueSettlementJobs_run batch sigs ms db Hf Hm Hs)
    as (db1 & db' & new & Hq & Hrun & Hqq & _ & Ht & _).
  exists db', new. unfold jobsOf. rewrite Hqq. split_and!; [done|by apply Hq| | |done].
  - intros j Hj. destruct (q_new _ _ _ _ _ _ _ Hq j Hj) as (n & m & uuid & Hn & Hr & Hj' & _). eauto 10.
  - intros i m Hi Hr. apply JobQueue.elem_of_keyOf. by apply (q_all _ _ _ _ _ _ _ Hq i m).
Qed.

(** Settling a batch again, for example after a crash between the jobs and
    the status update, queues nothing new; and a batch row the settler has
    handled is no longer pending. *)
Theorem settle_once batch sigs ms db db' :
  freshIds db -> get batch "matches_json" = JArr ms -> get batch "signatures_json" = JArr sigs ->
  queueSettlementJobs batch db = (Ok tt, db') ->
  (exists db'', queueSettlementJobs batch db' = (Ok tt, db'') /\ jobsOf db'' = jobsOf db') /\
  (forall r, r ∈ table db' "mpc_batches" -> eqCol "batch_id" (get batch "batch_id") r = true ->
     JsMap.has r "settlement_status" = true -> eqText "settlement_status" "pending" r = false).
Proof using uuid_inj.
  intros Hf Hm Hs Hrun0. destruct (queueSettlementJobs_run batch sigs ms db Hf Hm Hs)
    as (db1 & db2 & new & Hq & Hrun & Hqq & Htk & Ht & Hb).
  assert (db2 = db') as -> by congruence. split.
  - assert (freshIds db') as Hf'.
    { intros n. unfold jobsOf. rewrite Hqq, Htk. apply (q_ids _ _ _ _ _ _ _ Hq). }
    assert (forall m, routed db' m = routed db m) as Hrt by (intros m; unfold routed; by rewrite Ht by done).
    destruct (queueSettlementJobs_run batch sigs ms db' Hf' Hm Hs)
      as (db3 & db4 & new' & Hq' & Hrun' & Hqq' & _). exists db4. split; [done|].
    unfold jobsOf at 1. rewrite Hqq'. fold (jobsOf db3). rewrite (q_jobs _ _ _ _ _ _ _ Hq').
    destruct new' as [|j new']; [by rewrite app_nil_r|]. exfalso.
    destruct (q_new _ _ _ _ _ _ _ Hq' j) as (n & m & uuid & Hn & Hr & _ & Hk); [by left|].
    apply Hk. unfold jobsOf. rewrite Hqq. apply (q_all _ _ _ _ _ _ _ Hq n m Hn). by rewrite <- Hrt.
  - intros r. rewrite Hb. intros (r0 & Hr0 & ->)%elem_of_updateWhere He Hh.
    destruct (eqCol "batch_id" (get batch "batch_id") r0) eqn:E0; [|congruence].
    unfold eqText, eqCol, get. unfold JsMap.has in Hh. rewrite get_assignRow in *.
    destruct (JsMap.get r0 "settlement_status"); [|done]. simpl. by destruct (existsb _ ms).
Qed.
End Settle.

(** ** Witness: a batch with one RFQ-routed and one direct match *)
#[local] Existing Instance toyUuid.
Definition directMatch : json := JObj [("intentAId", JStr "a"); ("intentBId", JStr "b")].
Definition rfqMatch : json := JObj [("intentAId", JStr "c"); ("intentBId", JStr "rfq-1")].
Definition batch1 : Row :=
  [("batch_id", JStr "batch-1"); ("matches_json", JArr [rfqMatch; directMatch]); ("signatures_json", JArr [])].
Definition settleDB : DB := setTable "intents" [[("intent_hash", JStr "rfq-1")]] (emptyDB 7).
Lemma settleDB_fresh : freshIds settleDB.
Proof. intros n _. apply not_elem_of_nil. Qed.
Lemma toyUuid_inj : Inj (=) (=) (@uuidOf toyUuid).
Proof. intros x y E. unfold uuidOf, toyUuid in E. apply append_inj_length in E as [_ E]; [|done]. by apply (inj toString). Qed.
Lemma settle_exclusive_witness :
  exists db' new, queueSettlementJobs batch1 settleDB = (Ok tt, db') /\ jobsOf db' = jobsOf settleDB ++ new.
Proof.
  destruct (@settle_exclusive toyUuid toyUuid_inj batch1 [] [rfqMatch; directMatch] settleDB) as (db' & new & E1 & E2 & _);
    [exact settleDB_fresh|reflexivity|reflexivity|].
  exists db', new. split; [exact E1|exact E2].
Defined.
Lemma settle_once_witness :
  exists db'', queueSettlementJobs batch1 (queueSettlementJobs batch1 settleDB).2 = (Ok tt, db'') /\
    jobsOf db'' = jobsOf (queueSettlementJobs batch1 settleDB).2.
Proof.
  refine (proj1 (@settle_once toyUuid toyUuid_inj batch1 [] [rfqMatch; directMatch] settleDB _ _ _ _ _));
    [exact settleDB_fresh|reflexivity|reflexivity|]. vm_compute. reflexivity.
Defined.
(** One job, for the direct match, under its index. *)
Example settle_one_job :
  JobQueue.idempotency_key <$> jobsOf (queueSettlementJobs batch1 settleDB).2 = [Some "mpc_settle:batch-1:1"].
Proof. vm_compute. reflexivity. Qed.
Definition batch0 : Committee.SignedMatchBatch :=
  Committee.mkBatch "batch-1" "s-1" [Committee.mkMatch "a" "b" "10" "USDC" "EURC" None None None] "h" [].
Definition sessionDB : DB := setTable "mpc_sessions" [[("session_id", JStr "s-1")]] (emptyDB 7).
Lemma persist_pending_witness :
  table (persistSignedBatch "s-1" batch0 sessionDB).2 "mpc_batches" = [batchRow "s-1" batch0 7].
Proof.
  refine (persist_pending "s-1" batch0 sessionDB _ _); [reflexivity|]. intros r Hr. by apply elem_of_nil in Hr.
Defined.
End Settler.
