(* ===== verification/CommitteeState.v ===== *)
(** * The committee's in-memory state (apps/mpc-committee/src/state.ts)

    Sessions collect intents while they are open.  A session object is shared
    by reference between the [sessions] map and its users; here every change
    goes through the map under the session's key.  Theorem: at most one session
    is open, and an intent only ever joins the open one. *)
From S2P Require Import Prelude JsText JsCollections Json Crypto Shamir Committee.
Import JsText Committee.

Module CommitteeState.

Record NodeShareEntry := mkEntry {
  e_intentId : string; e_nodeId : string;
  e_ciphertext : string; e_nonce : string; e_senderPubkey : string;
  decryptedShare : option PlainShare }.
Inductive SessionStatus := open | matching | signed | failed.
#[export] Instance SessionStatus_eq_dec : EqDecision SessionStatus.
Proof. solve_decision. Defined.
Definition statusText (s : SessionStatus) : string :=
  match s with open => "open" | matching => "matching" | signed => "signed" | failed => "failed" end.

Definition NodeShares := JsMap.t string NodeShareEntry.
Record SessionState := mkSession {
  sessionId : string;
  startedAt : Z;
  status : SessionStatus;
  intents : JsMap.t string MpcIntent;
  shares : JsMap.t string NodeShares;
  signedBatch : option SignedMatchBatch }.
Record State := mkState {
  sessions : JsMap.t string SessionState;
  intentToSession : JsMap.t string string }.

Definition setStatus (s : SessionState) (st : SessionStatus) : SessionState :=
  mkSession (sessionId s) (startedAt s) st (intents s) (shares s) (signedBatch s).
Definition setShares (s : SessionState) (m : JsMap.t string NodeShares) : SessionState :=
  mkSession (sessionId s) (startedAt s) (status s) (intents s) m (signedBatch s).

Definition isOpen (s : SessionState) : bool := status s ==? open.

Definition createSession (now : Z) (sid : string) (st : State) : SessionState * State :=
  let s := mkSession sid now open [] [] None in
  (s, mkState (JsMap.set (sessions st) sid s) (intentToSession st)).

Definition getOpenSessions (st : State) : list SessionState :=
  selectWhere isOpen (JsMap.values (sessions st)).
Definition getOrCreateOpenSession (now : Z) (st : State) : SessionState * State :=
  match getOpenSessions st with
  | s :: _ => (s, st)
  | [] => createSession now ("session-" +:+ toString now) st
  end.

(** One round of the loop of [addIntent] over the encrypted shares. *)
Definition addShare (intentId : string) (m : JsMap.t string NodeShares) (e : EncryptedShare) :
    JsMap.t string NodeShares :=
  let m := if JsMap.has m (es_nodeId e) then m else JsMap.set m (es_nodeId e) [] in
  JsMap.set m (es_nodeId e)
    (JsMap.set (orElse (JsMap.get m (es_nodeId e)) []) intentId
       (mkEntry intentId (es_nodeId e) (ciphertext e) (nonce e) (senderPubkey e) None)).
Definition addToSession (intent : MpcIntent) (s : SessionState) : SessionState :=
  mkSession (sessionId s) (startedAt s) (status s)
    (JsMap.set (intents s) (intentId intent) intent)
    (fold_left (addShare (intentId intent)) (encryptedShares intent) (shares s))
    (signedBatch s).
Definition addIntent (now : Z) (intent : MpcIntent) (st : State) : string * State :=
  let '(s, st) := getOrCreateOpenSession now st in
  let s' := addToSession intent s in
  (sessionId s, mkState (JsMap.set (sessions st) (sessionId s) s')
                  (JsMap.set (intentToSession st) (intentId intent) (sessionId s))).

Definition getSession (sid : string) (st : State) : option SessionState := JsMap.get (sessions st) sid.
(** [sid ? ... : undefined]: an empty session id counts as none. *)
Definition getSessionForIntent (iid : string) (st : State) : option SessionState :=
  match truthyOpt (JsMap.get (intentToSession st) iid) with
  | Some sid => JsMap.get (sessions st) sid
  | None => None
  end.
Definition allSessions (st : State) : list SessionState := JsMap.values (sessions st).
(** The session object is changed in place. *)
Definition putSession (s : SessionState) (st : State) : State :=
  mkState (JsMap.set (sessions st) (sessionId s) s) (intentToSession st).

(** ** Invariant: keys are the session ids, and at most one session is open *)
Record wf (st : State) : Prop := {
  wf_keys : NoDup (JsMap.keys (sessions st));
  wf_ids : forall k s, JsMap.get (sessions st) k = Some s -> sessionId s = k;
  wf_open : forall s1 s2, s1 ∈ allSessions st -> s2 ∈ allSessions st ->
    isOpen s1 = true -> isOpen s2 = true -> sessionId s1 = sessionId s2
}.

Lemma elem_allSessions st s : wf st -> s ∈ allSessions st <-> JsMap.get (sessions st) (sessionId s) = Some s.
Proof.
  intros [H1 H2 _]. unfold allSessions, JsMap.values. rewrite list_elem_of_fmap. split.
  - intros ([k s'] & -> & Hin). simpl. apply (JsMap.elem_get _ k s' H1) in Hin. by rewrite (H2 k s' Hin).
  - intros H. exists (sessionId s, s). split; [done|]. by apply JsMap.get_elem.
Qed.
Lemma allSessions_get st k s : wf st -> JsMap.get (sessions st) k = Some s -> s ∈ allSessions st /\ sessionId s = k.
Proof.
  intros Hwf H. pose proof (wf_ids st Hwf k s H) as E. split; [|done].
  apply elem_allSessions; [done|]. by rewrite E.
Qed.
Lemma getOpenSessions_elem st s : s ∈ getOpenSessions st <-> s ∈ allSessions st /\ isOpen s = true.
Proof. unfold getOpenSessions, allSessions. apply elem_of_selectWhere. Qed.

(** Replacing a session keeps the invariant when it opens none. *)
Lemma wf_set st its s :
  wf st -> (isOpen s = true -> forall s', s' ∈ allSessions st -> isOpen s' = true -> sessionId s' = sessionId s) ->
  wf (mkState (JsMap.set (sessions st) (sessionId s) s) its).
Proof.
  intros [H1 H2 H3] Ho.
  assert (forall x, x ∈ JsMap.values (JsMap.set (sessions st) (sessionId s) s) -> x = s \/ x ∈ allSessions st) as Hv.
  { intros x ([k x'] & -> & Hin)%list_elem_of_fmap. apply JsMap.elem_get in Hin; [|by apply JsMap.NoDup_set].
    rewrite JsMap.get_set in Hin. case_bool_decide; simpl; [left; congruence|right].
    by apply (allSessions_get st k x'). }
  split; simpl.
  - by apply JsMap.NoDup_set.
  - intros k s'. rewrite JsMap.get_set. case_bool_decide; [by intros [= <-]|]. apply H2.
  - intros s1 s2 [->|Hs1]%Hv [->|Hs2]%Hv Ho1 Ho2; [done|symmetry; by apply Ho|by apply Ho|by apply H3].
Qed.

Lemma getOrCreate_spec now st s st' :
  wf st -> getOrCreateOpenSession now st = (s, st') ->
  wf st' /\ isOpen s = true /\ JsMap.get (sessions st') (sessionId s) = Some s.
Proof.
  intros Hwf. unfold getOrCreateOpenSession. destruct (getOpenSessions st) as [|s0 l] eqn:E.
  - unfold createSession. intros [= <- <-]. split_and!; simpl; [|done|by rewrite JsMap.get_set_eq].
    apply (wf_set st (intentToSession st) (mkSession ("session-" +:+ toString now) now open [] [] None)); [done|].
    intros _ s' Hs' Ho. exfalso. assert (s' ∈ getOpenSessions st) as H by by apply getOpenSessions_elem.
    rewrite E in H. by apply elem_of_nil in H.
  - intros [= <- <-]. assert (s0 ∈ getOpenSessions st) as [Hs Ho]%getOpenSessions_elem by (rewrite E; left).
    split_and!; [done|done|]. by apply elem_allSessions.
Qed.

Lemma addIntent_wf now intent st : wf st -> wf (addIntent now intent st).2.
Proof.
  intros Hwf. unfold addIntent. destruct (getOrCreateOpenSession now st) as [s st'] eqn:E.
  destruct (getOrCreate_spec _ _ _ _ Hwf E) as (Hwf' & Ho & Hg). simpl.
  apply (wf_set st' _ (addToSession intent s)); [done|]. intros _ s' Hs' Ho'. simpl.
  apply (wf_open st' Hwf' s' s); [done| |done|done]. by apply elem_allSessions.
Qed.
(** Sessions other than the open one are not touched. *)
Lemma addIntent_closed now intent st s :
  wf st -> getSession (sessionId s) st = Some s -> isOpen s = false ->
  sessionId s ≠ "session-" +:+ toString now ->
  getSession (sessionId s) (addIntent now intent st).2 = Some s.
Proof.
  intros Hwf Hs Hc Hfresh. unfold addIntent, getSession in *.
  unfold getOrCreateOpenSession. destruct (getOpenSessions st) as [|s0 l] eqn:E; simpl.
  - by rewrite !JsMap.get_set_ne.
  - assert (s0 ∈ getOpenSessions st) as [Hs0 Ho]%getOpenSessions_elem by (rewrite E; left).
    rewrite JsMap.get_set_ne; [done|]. intros Eid. apply elem_allSessions in Hs0; [|done].
    rewrite Eid in Hs0. congruence.
Qed.

(** ** The share maps [addIntent] builds *)
Definition newEntry (iid : string) (e : EncryptedShare) : NodeShareEntry :=
  mkEntry iid (es_nodeId e) (ciphertext e) (nonce e) (senderPubkey e) None.
Lemma addShare_get iid m e nid :
  JsMap.get (addShare iid m e) nid =
    if es_nodeId e ==? nid then Some (JsMap.set (orElse (JsMap.get m nid) []) iid (newEntry iid e))
    else JsMap.get m nid.
Proof.
  unfold addShare. rewrite JsMap.get_set. unfold JsMap.has. case_bool_decide as E.
  - subst nid. destruct (JsMap.get m (es_nodeId e)) eqn:Em; [by rewrite Em|]. by rewrite JsMap.get_set_eq.
  - destruct (JsMap.get m (es_nodeId e)); [done|]. by rewrite JsMap.get_set_ne.
Qed.
Lemma addShares_other iid es m nid :
  nid ∉ es_nodeId <$> es -> JsMap.get (fold_left (addShare iid) es m) nid = JsMap.get m nid.
Proof.
  revert m. induction es as [|e es IH]; intros m H; [done|]. simpl.
  rewrite fmap_cons, not_elem_of_cons in H. destruct H as [H1 H2].
  rewrite IH, addShare_get by done. by rewrite bool_decide_false by congruence.
Qed.
Lemma addShares_get iid es m e :
  NoDup (es_nodeId <$> es) -> e ∈ es ->
  JsMap.get (fold_left (addShare iid) es m) (es_nodeId e) =
    Some (JsMap.set (orElse (JsMap.get m (es_nodeId e)) []) iid (newEntry iid e)).
Proof.
  revert m. induction es as [|e' es IH]; intros m Hnd He; [by apply elem_of_nil in He|]. simpl.
  rewrite fmap_cons in Hnd. apply NoDup_cons in Hnd as [Hn Hnd]. apply elem_of_cons in He as [->|He].
  - rewrite addShares_other by done. rewrite addShare_get. by rewrite bool_decide_true.
  - rewrite IH, addShare_get by done. rewrite bool_decide_false; [done|].
    intros E. apply Hn. rewrite E. by apply list_elem_of_fmap_2.
Qed.
End CommitteeState.
