(* ===== verification/Round.v ===== *)
(** * A matching round
      (apps/mpc-committee/src/coordinator.ts second half, remote-coordinator.ts)

    [runMatchingRound] decrypts every node's shares, reconstructs the amounts
    from the first two available shares of each intent, matches and signs.
    The main theorem refines it to the plaintext algorithm: on a session of
    honestly split intents the round succeeds, its matches are those of
    [matchIntents] on the amounts, its batch verifies against the committee,
    and no decrypted share is left in the session.  [runMatchingRoundRemote]
    is the same with nodes that may not answer. *)
From S2P Require Import Prelude JsText JsCollections Json Crypto Shamir Committee Matching CommitteeState.
Import JsText Crypto Committee CommitteeState.

Module Round.

Inductive CoordinatorResult :=
| RoundOk (batch : SignedMatchBatch)
| RoundFailed (reason : string).

Section Round.
Context `{Sha256} `{Nacl}.

Definition setDecrypted (e : NodeShareEntry) (d : option PlainShare) : NodeShareEntry :=
  mkEntry (e_intentId e) (e_nodeId e) (e_ciphertext e) (e_nonce e) (e_senderPubkey e) d.
Definition entryShare (e : NodeShareEntry) : EncryptedShare :=
  mkEncryptedShare (e_nodeId e) (e_ciphertext e) (e_nonce e) (e_senderPubkey e).

(** Step 1, one node: the entries decrypted so far are kept on a failure. *)
Fixpoint decryptEntries (sk : bytes) (es : NodeShares) : NodeShares * option (string * error) :=
  match es with
  | [] => ([], None)
  | (k, e) :: es =>
      match decryptShare (entryShare e) sk with
      | Throw err => ((k, e) :: es, Some (e_intentId e, err))
      | Ok p => let '(es', r) := decryptEntries sk es in ((k, setDecrypted e p) :: es', r)
      end
  end.
Definition decryptReason (kp : CommitteeNodeKeyPair) (f : string * error) : string :=
  "node " +:+ kp_nodeId kp +:+ " failed to decrypt share for " +:+ f.1 +:+ ": Error: " +:+ message f.2.
Fixpoint decryptNodes (nodes : list CommitteeNodeKeyPair) (m : JsMap.t string NodeShares) :
    JsMap.t string NodeShares * option string :=
  match nodes with
  | [] => (m, None)
  | kp :: nodes =>
      match JsMap.get m (kp_nodeId kp) with
      | None => decryptNodes nodes m
      | Some ns =>
          let '(ns', r) := decryptEntries (boxSecret kp) ns in
          let m' := JsMap.set m (kp_nodeId kp) ns' in
          match r with
          | Some f => (m', Some (decryptReason kp f))
          | None => decryptNodes nodes m'
          end
      end
  end.

(** Step 2: the first two decrypted shares in the order of the nodes. *)
Definition nodeShare (m : JsMap.t string NodeShares) (iid nid : string) : option PlainShare :=
  ns ← JsMap.get m nid; e ← JsMap.get ns iid; decryptedShare e.
Definition availableShares (nodeIds : list string) (m : JsMap.t string NodeShares) (iid : string) :
    list PlainShare :=
  take 2 (omap (nodeShare m iid) nodeIds).
Inductive Reconstruction :=
| RAmounts (l : list Matching.Intent)
| RShort (iid : string)
| RThrow (e : error).
Fixpoint reconstructAll (nodeIds : list string) (m : JsMap.t string NodeShares)
    (todo : list (string * MpcIntent)) : Reconstruction :=
  match todo with
  | [] => RAmounts []
  | (iid, intent) :: todo =>
      let avail := availableShares nodeIds m iid in
      if (length avail <? 2)%nat then RShort iid
      else match reconstructAmount avail with
           | Some (Ok amount) =>
               match reconstructAll nodeIds m todo with
               | RAmounts l => RAmounts (Matching.mkIntent iid amount (inputAsset intent) (outputAsset intent) :: l)
               | r => r
               end
           | Some (Throw e) => RThrow e
           | None => RThrow (Error None "egcd")
           end
  end.

Definition clearNode (m : JsMap.t string NodeShares) (nid : string) : JsMap.t string NodeShares :=
  match JsMap.get m nid with
  | None => m
  | Some ns => JsMap.set m nid (map (fun ke => (ke.1, setDecrypted ke.2 None)) ns)
  end.
Definition clearShares (nodeIds : list string) (m : JsMap.t string NodeShares) : JsMap.t string NodeShares :=
  fold_left clearNode nodeIds m.

Definition finish (s : SessionState) (batch : SignedMatchBatch) : SessionState :=
  mkSession (sessionId s) (startedAt s) signed (intents s) (shares s) (Some batch).

(** [batchId] is the uuid the round draws. *)
Definition runMatchingRound (uuid : string) (nodes : list CommitteeNodeKeyPair) (s : SessionState) :
    result CoordinatorResult * SessionState :=
  if JsMap.size (intents s) <? 2 then (Ok (RoundFailed "need at least 2 intents to match"), s)
  else
    let s := setStatus s matching in
    let '(m, r) := decryptNodes nodes (shares s) in
    let s := setShares s m in
    match r with
    | Some reason => (Ok (RoundFailed reason), setStatus s failed)
    | None =>
        match reconstructAll (map kp_nodeId nodes) m (intents s) with
        | RThrow e => (Throw e, s)
        | RShort iid => (Ok (RoundFailed ("not enough shares for intent " +:+ iid)), setStatus s failed)
        | RAmounts reconstructed =>
            let s := setShares s (clearShares (map kp_nodeId nodes) m) in
            let ms := Matching.matchIntents reconstructed in
            let batch := mkBatch uuid (sessionId s) ms (computeBatchHash uuid ms) (map (signBatch uuid ms) nodes) in
            (Ok (RoundOk batch), finish s batch)
        end
    end.

(** ** The remote coordinator

    [decryptAnswers] and [signAnswers] are what the nodes answered, in the
    order of the endpoints; [None] is an unreachable node, a timeout or an
    error status ([postJson] returns null). *)
Record NodeEndpoint := mkEndpoint { ep_nodeId : string; ep_url : string }.
Record DecryptAnswer := mkAnswer { ans_nodeId : string; ans_shares : list (string * option PlainShare) }.

Definition applyShare (ns : NodeShares) (p : string * option PlainShare) : NodeShares :=
  match JsMap.get ns p.1 with
  | None => ns
  | Some e => JsMap.set ns p.1 (setDecrypted e p.2)
  end.
Definition applyAnswer (m : JsMap.t string NodeShares) (a : DecryptAnswer) : JsMap.t string NodeShares :=
  match JsMap.get m (ans_nodeId a) with
  | None => m
  | Some ns => JsMap.set m (ans_nodeId a) (fold_left applyShare (ans_shares a) ns)
  end.
Definition remoteReason (got total : nat) (what : string) (need : Z) : string :=
  "only " +:+ toString (Z.of_nat got) +:+ "/" +:+ toString (Z.of_nat total) +:+ " nodes " +:+ what
    +:+ " (need " +:+ toString need +:+ ")".

Definition runMatchingRoundRemote (uuid : string) (endpoints : list NodeEndpoint)
    (decryptAnswers : list (option DecryptAnswer))
    (signAnswers : string -> list MatchResult -> list (option NodeSignature)) (s : SessionState) :
    result CoordinatorResult * SessionState :=
  if JsMap.size (intents s) <? 2 then (Ok (RoundFailed "need at least 2 intents to match"), s)
  else
    let need := threshold (length endpoints) in
    let s := setStatus s matching in
    let responding := omap (fun a => a) decryptAnswers in
    if Z.of_nat (length responding) <? need then
      (Ok (RoundFailed (remoteReason (length responding) (length endpoints) "responded to decrypt" need)),
       setStatus s failed)
    else
      let s := setShares s (fold_left applyAnswer responding (shares s)) in
      match reconstructAll (map ep_nodeId endpoints) (shares s) (intents s) with
      | RThrow e => (Throw e, s)
      | RShort iid => (Ok (RoundFailed ("not enough shares for intent " +:+ iid)), setStatus s failed)
      | RAmounts reconstructed =>
          let s := setShares s (clearShares (map ep_nodeId endpoints) (shares s)) in
          let ms := Matching.matchIntents reconstructed in
          let signatures := omap (fun a => a) (signAnswers uuid ms) in
          if Z.of_nat (length signatures) <? need then
            (Ok (RoundFailed (remoteReason (length signatures) (length endpoints) "signed" need)),
             setStatus s failed)
          else
            let batch := mkBatch uuid (sessionId s) ms (computeBatchHash uuid ms) signatures in
            (Ok (RoundOk batch), finish s batch)
      end.

(** ** Lemmas on the share maps *)

Lemma get_map (f : NodeShareEntry -> NodeShareEntry) (ns : NodeShares) k :
  JsMap.get (map (fun ke => (ke.1, f ke.2)) ns) k = f <$> JsMap.get ns k.
Proof. induction ns as [|[k' e] ns IH]; [done|]. simpl. by case_bool_decide. Qed.

Definition decryptEntry (sk : bytes) (e : NodeShareEntry) : NodeShareEntry :=
  setDecrypted e match decryptShare (entryShare e) sk with Ok p => p | Throw _ => None end.
Definition decryptMap (sk : bytes) (ns : NodeShares) : NodeShares :=
  map (fun ke => (ke.1, decryptEntry sk ke.2)) ns.
Definition decryptable (sk : bytes) (ns : NodeShares) : Prop :=
  Forall (fun ke => exists p, decryptShare (entryShare ke.2) sk = Ok p) ns.

Lemma decryptEntries_ok sk ns : decryptable sk ns -> decryptEntries sk ns = (decryptMap sk ns, None).
Proof.
  unfold decryptable. induction ns as [|[k e] ns IH]; [done|]. intros [[p Hp] Hns]%Forall_cons.
  simpl in *. unfold decryptEntry. rewrite Hp, IH by done. done.
Qed.
Lemma decryptNodes_ok nodes m :
  NoDup (kp_nodeId <$> nodes) ->
  (forall kp ns, kp ∈ nodes -> JsMap.get m (kp_nodeId kp) = Some ns -> decryptable (boxSecret kp) ns) ->
  exists m', decryptNodes nodes m = (m', None) /\
    (forall kp, kp ∈ nodes -> JsMap.get m' (kp_nodeId kp) = decryptMap (boxSecret kp) <$> JsMap.get m (kp_nodeId kp)) /\
    (forall nid, nid ∉ kp_nodeId <$> nodes -> JsMap.get m' nid = JsMap.get m nid).
Proof.
  revert m. induction nodes as [|kp nodes IH]; intros m Hnd Hd; cbn [decryptNodes].
  - exists m. split_and!; [done| |done]. intros kp Hkp. by apply elem_of_nil in Hkp.
  - rewrite fmap_cons in Hnd. apply NoDup_cons in Hnd as [Hkp Hnd].
    destruct (JsMap.get m (kp_nodeId kp)) as [ns|] eqn:E.
    + rewrite decryptEntries_ok by (by apply (Hd kp ns); [left|]).
      destruct (IH (JsMap.set m (kp_nodeId kp) (decryptMap (boxSecret kp) ns))) as (m' & -> & H1 & H2); [done| |].
      { intros kp' ns' Hin. rewrite JsMap.get_set_ne; [intros E'; by apply (Hd kp' ns'); [right|]|].
        intros Eid. apply Hkp. rewrite Eid. by apply list_elem_of_fmap_2. }
      exists m'. split; [done|]. split.
      * intros kp' [->|Hin]%elem_of_cons.
        -- rewrite H2, JsMap.get_set_eq, E by done. done.
        -- rewrite H1, JsMap.get_set_ne; [done| |done]. intros Eid. apply Hkp. rewrite Eid.
           by apply list_elem_of_fmap_2.
      * intros nid. rewrite fmap_cons, not_elem_of_cons. intros [Hne Hn]. rewrite H2 by done.
        by rewrite JsMap.get_set_ne.
    + destruct (IH m) as (m' & -> & H1 & H2); [done| |].
      { intros kp' ns' Hin. apply Hd. by right. }
      exists m'. split; [done|]. split.
      * intros kp' [->|Hin]%elem_of_cons; [|by apply H1]. by rewrite H2, E by done.
      * intros nid. rewrite fmap_cons, not_elem_of_cons. intros [Hne Hn]. by apply H2.
Qed.

(** Clearing leaves no decrypted share at the given nodes. *)
Definition cleared (m : JsMap.t string NodeShares) (nid : string) : Prop :=
  forall iid, nodeShare m iid nid = None.
Lemma clearNode_cleared m nid nid' : nid' = nid \/ cleared m nid' -> cleared (clearNode m nid) nid'.
Proof.
  intros Hc iid. unfold clearNode, nodeShare. destruct (JsMap.get m nid) as [ns|] eqn:E.
  - rewrite JsMap.get_set. case_bool_decide as Eid.
    + simpl. rewrite (get_map (fun e => setDecrypted e None)). by destruct (JsMap.get ns iid).
    + destruct Hc as [->|Hc]; [done|]. apply Hc.
  - destruct Hc as [->|Hc]; [by rewrite E|]. apply Hc.
Qed.
Lemma clearShares_cleared nids m nid : nid ∈ nids -> cleared (clearShares nids m) nid.
Proof.
  unfold clearShares. assert (forall m, nid ∈ nids \/ cleared m nid -> cleared (fold_left clearNode nids m) nid) as Hx.
  { clear m. induction nids as [|n nids IH]; intros m Hc; simpl.
    - destruct Hc as [Hc|]; [by apply elem_of_nil in Hc|done].
    - apply IH. destruct Hc as [[->|Hin]%elem_of_cons|Hc]; [right|by left|right];
        apply clearNode_cleared; auto. }
  intros Hin. apply Hx. by left.
Qed.

(** ** Honest sessions *)

Section Honest.
Context `{!NaclLaws} (kps : list CommitteeNodeKeyPair) (amt : string -> Z).
Context (Hkeys : Forall goodKeys kps) (Hnids : NoDup (kp_nodeId <$> kps)).
Context (Hsize : (2 <= length kps)%nat /\ Z.of_nat (length kps) <= 1000).

(** The encrypted shares of an intent come from the client's split of its
    amount, with the committee's published keys and threshold two. *)
Definition honestIntent (intent : MpcIntent) : Prop :=
  exists rnd, goodRandomness rnd /\
    splitAmountForCommittee (toString (amt (intentId intent))) (nodePublicInfo <$> kps) 2 rnd
      = Some (Ok (encryptedShares intent)).

Definition triple (e : NodeShareEntry) := (e_ciphertext e, e_nonce e, e_senderPubkey e).
Definition shareTriple (e : EncryptedShare) := (ciphertext e, nonce e, senderPubkey e).
Record honest (s : SessionState) : Prop := {
  h_keys : NoDup (JsMap.keys (intents s));
  h_intents : forall iid intent, JsMap.get (intents s) iid = Some intent ->
    intentId intent = iid /\ honestIntent intent;
  h_nodes : forall kp ns, kp ∈ kps -> JsMap.get (shares s) (kp_nodeId kp) = Some ns -> NoDup (JsMap.keys ns);
  h_shares : forall i kp iid, kps !! i = Some kp ->
    (ns ← JsMap.get (shares s) (kp_nodeId kp); triple <$> JsMap.get ns iid) =
    (intent ← JsMap.get (intents s) iid; shareTriple <$> encryptedShares intent !! i)
}.

Lemma honest_fresh now sid : honest (mkSession sid now open [] [] None).
Proof. split; simpl; [constructor|done|done|done]. Qed.

Lemma decrypt_triple e e' sk :
  triple e = shareTriple e' -> decryptShare (entryShare e) sk = decryptShare e' sk.
Proof. unfold triple, shareTriple, decryptShare, entryShare. simpl. by intros [= -> -> ->]. Qed.

(** Node [i] decrypts its share of an honest intent. *)
Lemma honest_decrypt intent i kp e :
  honestIntent intent -> kps !! i = Some kp -> encryptedShares intent !! i = Some e ->
  exists p, decryptShare e (boxSecret kp) = Ok (Some p).
Proof using All.
  intros (rnd & Hr & Hsplit) Hi He. apply split_encs in Hsplit as (raw & _ & Henc).
  rewrite (Henc i (nodePublicInfo kp)) in He by (by rewrite list_lookup_fmap, Hi). injection He as <-.
  eexists. apply decrypt_encrypt; [|apply Hr]. rewrite Forall_forall in Hkeys.
  apply Hkeys. by eapply list_elem_of_lookup_2.
Qed.
Lemma honest_share_exists intent i kp :
  honestIntent intent -> kps !! i = Some kp -> is_Some (encryptedShares intent !! i).
Proof using All.
  intros (rnd & _ & Hsplit) Hi. apply split_encs in Hsplit as (raw & _ & Henc).
  rewrite (Henc i (nodePublicInfo kp)) by (by rewrite list_lookup_fmap, Hi). eauto.
Qed.

Lemma honest_entry s i kp ns iid e :
  honest s -> kps !! i = Some kp -> JsMap.get (shares s) (kp_nodeId kp) = Some ns ->
  JsMap.get ns iid = Some e ->
  exists intent e', JsMap.get (intents s) iid = Some intent /\ honestIntent intent /\
    encryptedShares intent !! i = Some e' /\ triple e = shareTriple e'.
Proof using All.
  intros Hh Hi Hns He. pose proof (h_shares s Hh i kp iid Hi) as E. rewrite Hns in E. simpl in E.
  rewrite He in E. simpl in E. destruct (JsMap.get (intents s) iid) as [intent|] eqn:Eint; [|done].
  simpl in E. destruct (encryptedShares intent !! i) as [e'|] eqn:Ee; [|done]. injection E as E.
  exists intent, e'. split_and!; try done; [by apply (h_intents s Hh iid)|].
  unfold triple, shareTriple. congruence.
Qed.
Lemma honest_decryptable s kp ns :
  honest s -> kp ∈ kps -> JsMap.get (shares s) (kp_nodeId kp) = Some ns -> decryptable (boxSecret kp) ns.
Proof using All.
  intros Hh Hkp Hns. apply Forall_forall. intros [iid e] Hin. simpl.
  apply JsMap.elem_get in Hin; [|by apply (h_nodes s Hh kp)].
  apply list_elem_of_lookup in Hkp as [i Hi].
  destruct (honest_entry s i kp ns iid e Hh Hi Hns Hin) as (intent & e' & _ & Hint & He' & Et).
  rewrite (decrypt_triple e e') by done. destruct (honest_decrypt intent i kp e' Hint Hi He') as [p Hp]. by exists (Some p).
Qed.

(** After step 1, node [i]'s share of every intent is the one it decrypts. *)
Lemma honest_nodeShare s m' i kp iid intent :
  honest s -> kps !! i = Some kp -> JsMap.get (intents s) iid = Some intent ->
  JsMap.get m' (kp_nodeId kp) = decryptMap (boxSecret kp) <$> JsMap.get (shares s) (kp_nodeId kp) ->
  exists p, nodeShare m' iid (kp_nodeId kp) = Some p /\ nodeDecrypt (encryptedShares intent) kps i = Ok p.
Proof using All.
  intros Hh Hi Hint Hm. destruct (h_intents s Hh iid intent Hint) as [_ Hhi].
  destruct (honest_share_exists intent i kp Hhi Hi) as [e' He'].
  pose proof (h_shares s Hh i kp iid Hi) as E. rewrite Hint in E. simpl in E. rewrite He' in E. simpl in E.
  destruct (JsMap.get (shares s) (kp_nodeId kp)) as [ns|] eqn:Ens; [|done]. simpl in E.
  destruct (JsMap.get ns iid) as [e|] eqn:Ee; [|done]. injection E as E1 E2 E3.
  destruct (honest_decrypt intent i kp e' Hhi Hi He') as [p Hp]. exists p.
  unfold nodeShare, nodeDecrypt. rewrite Hm, Hi, He'. simpl. rewrite Hp. split; [|done].
  unfold decryptMap. rewrite (get_map (decryptEntry (boxSecret kp))), Ee. simpl.
  rewrite (decrypt_triple e e'), Hp; [done|]. unfold triple, shareTriple. congruence.
Qed.

Definition plainIntents (s : SessionState) : list Matching.Intent :=
  map (fun kv => Matching.mkIntent kv.1 (Shamir.modp (amt kv.1)) (inputAsset kv.2) (outputAsset kv.2)) (intents s).

Lemma honest_available s m' iid intent :
  honest s -> JsMap.get (intents s) iid = Some intent ->
  (forall kp, kp ∈ kps ->
    JsMap.get m' (kp_nodeId kp) = decryptMap (boxSecret kp) <$> JsMap.get (shares s) (kp_nodeId kp)) ->
  let avail := availableShares (map kp_nodeId kps) m' iid in
  length avail = 2%nat /\ reconstructAmount avail = Some (Ok (Shamir.modp (amt iid))).
Proof using All.
  intros Hh Hint Hm. destruct (h_intents s Hh iid intent Hint) as [Eid (rnd & Hr & Hsplit)].
  rewrite Eid in Hsplit.
  destruct (roundtrip_shares (amt iid) kps 2 rnd (encryptedShares intent) [0%nat; 1%nat])
    as (sh & Hsh & Hrec); try done.
  - apply Hsize.
  - apply (bool_decide_unpack _). vm_compute. exact I.
  - repeat constructor; lia.
  - assert (exists a b l, kps = a :: b :: l) as (a & b & l & E).
    { destruct Hsize as [Hge _]. destruct kps as [|a [|b l]]; simpl in Hge; [lia..|]. by exists a, b, l. }
    assert (kps !! 0%nat = Some a /\ kps !! 1%nat = Some b) as [Ha Hb] by (by rewrite E).
    destruct (honest_nodeShare s m' 0 a iid intent Hh Ha Hint) as (p & Hp & Dp).
    { apply Hm. by eapply list_elem_of_lookup_2. }
    destruct (honest_nodeShare s m' 1 b iid intent Hh Hb Hint) as (p' & Hp' & Dp').
    { apply Hm. by eapply list_elem_of_lookup_2. }
    cbn [mapResult] in Hsh. rewrite Dp, Dp' in Hsh. simpl in Hsh. injection Hsh as <-.
    unfold availableShares. rewrite E. cbn [map omap list_omap]. rewrite Hp, Hp'. simpl.
    rewrite take_0. done.
Qed.
Lemma honest_reconstruct s m' todo :
  honest s -> (forall iid intent, (iid, intent) ∈ todo -> JsMap.get (intents s) iid = Some intent) ->
  (forall kp, kp ∈ kps ->
    JsMap.get m' (kp_nodeId kp) = decryptMap (boxSecret kp) <$> JsMap.get (shares s) (kp_nodeId kp)) ->
  reconstructAll (map kp_nodeId kps) m' todo =
    RAmounts (map (fun kv => Matching.mkIntent kv.1 (Shamir.modp (amt kv.1)) (inputAsset kv.2) (outputAsset kv.2)) todo).
Proof using All.
  intros Hh Htodo Hm. induction todo as [|[iid intent] todo IH]; [done|]. cbn [reconstructAll].
  destruct (honest_available s m' iid intent Hh) as [Hl Hrec]; [by apply Htodo; left|done|].
  rewrite Hl, Hrec. simpl. rewrite IH; [done|]. intros iid' intent' Hin. apply Htodo. by right.
Qed.

(** [addIntent] keeps a session honest. *)
Lemma honest_add s intent : honest s -> honestIntent intent -> honest (addToSession intent s).
Proof using All.
  intros Hh Hi. pose proof Hi as (rnd & Hr & Hsplit). pose proof (split_ids _ _ _ _ _ Hsplit) as Hids.
  rewrite <- list_fmap_compose in Hids. change (nodeId ∘ nodePublicInfo) with kp_nodeId in Hids.
  assert (NoDup (es_nodeId <$> encryptedShares intent)) as Hnd by by rewrite Hids.
  assert (forall i kp, kps !! i = Some kp -> exists e, encryptedShares intent !! i = Some e /\
    e ∈ encryptedShares intent /\ es_nodeId e = kp_nodeId kp) as Hnode.
  { intros i kp Hkp. destruct (honest_share_exists intent i kp Hi Hkp) as [e He]. exists e.
    split_and!; [done|by eapply list_elem_of_lookup_2|].
    pose proof (f_equal (fun l => l !! i) Hids) as E. simpl in E.
    rewrite !list_lookup_fmap, He, Hkp in E. by injection E. }
  assert (forall i kp, kps !! i = Some kp -> exists e, encryptedShares intent !! i = Some e /\
    JsMap.get (shares (addToSession intent s)) (kp_nodeId kp) =
      Some (JsMap.set (orElse (JsMap.get (shares s) (kp_nodeId kp)) []) (intentId intent)
              (newEntry (intentId intent) e))) as Hget.
  { intros i kp Hkp. destruct (Hnode i kp Hkp) as (e & He & Hin & Eid). exists e. split; [done|].
    simpl. rewrite <- Eid. by apply addShares_get. }
  split; simpl.
  - apply JsMap.NoDup_set, Hh.
  - intros iid intent'. rewrite JsMap.get_set. case_bool_decide; [by intros [= <-]|]. apply Hh.
  - intros kp ns Hkp Hns. apply list_elem_of_lookup in Hkp as [i Hkp].
    destruct (Hget i kp Hkp) as (e & _ & E). simpl in E. rewrite E in Hns. injection Hns as <-.
    apply JsMap.NoDup_set. destruct (JsMap.get (shares s) (kp_nodeId kp)) as [ns|] eqn:Ens; simpl.
    + apply (h_nodes s Hh kp); [by eapply list_elem_of_lookup_2|done].
    + constructor.
  - intros i kp iid Hkp. destruct (Hget i kp Hkp) as (e & He & E). simpl in E. rewrite E. simpl.
    rewrite !JsMap.get_set. case_bool_decide as Eid; simpl; [by rewrite He|].
    rewrite <- (h_shares s Hh i kp iid Hkp). by destruct (JsMap.get (shares s) (kp_nodeId kp)).
Qed.

(** C1. A matching round on a session of honestly split intents (at least
    two) refines the plaintext algorithm: it succeeds, its matches are those
    of [matchIntents] on the users' amounts, its batch is accepted by
    [verifySignedBatch] for this committee, and no node's decrypted share is
    left in the session. *)
Theorem round_refines_matching uuid s :
  honest s -> 2 <= JsMap.size (intents s) -> NoDup (signPublic <$> kps) ->
  (forall iid, 0 <= amt iid < Shamir.P) ->
  exists s' batch, runMatchingRound uuid kps s = (Ok (RoundOk batch), s') /\
    matches batch = Matching.matchIntents (map (fun kv =>
      Matching.mkIntent kv.1 (amt kv.1) (inputAsset kv.2) (outputAsset kv.2)) (intents s)) /\
    verifySignedBatch batch (nodePublicInfo <$> kps) = Ok true /\
    status s' = signed /\ signedBatch s' = Some batch /\ intents s' = intents s /\
    forall kp iid, kp ∈ kps -> nodeShare (shares s') iid (kp_nodeId kp) = None.
Proof using All.
  intros Hh Hsz Hsig Hamt. unfold runMatchingRound. rewrite (proj2 (Z.ltb_ge _ _)) by lia. simpl.
  destruct (decryptNodes_ok kps (shares s) Hnids) as (m & -> & Hm & _).
  { intros kp ns. by apply honest_decryptable. }
  rewrite (honest_reconstruct s m); [|done| |done].
  2:{ intros iid intent Hin. apply JsMap.elem_get; [apply Hh|done]. }
  eexists _, _. split; [done|]. cbn [matches]. split_and!; try done.
  - f_equal. apply map_ext. intros kv. by rewrite Shamir.modp_small.
  - apply signers_verify; [done|done|done|by eapply NoDup_fmap_1|lia].
  - intros kp iid Hkp. simpl. apply clearShares_cleared. by apply (list_elem_of_fmap_2 kp_nodeId).
Qed.

(** Submitting honest intents keeps every open session honest, keeps at
    most one session open, and adds the intent to that open session. *)
Theorem addIntent_honest now intent st :
  wf st -> (forall s, s ∈ allSessions st -> isOpen s = true -> honest s) -> honestIntent intent ->
  let '(sid, st') := addIntent now intent st in
  wf st' /\ (forall s, s ∈ allSessions st' -> isOpen s = true -> honest s) /\
  exists s', getSession sid st' = Some s' /\ isOpen s' = true /\ sessionId s' = sid /\
    JsMap.get (intents s') (intentId intent) = Some intent /\
    getSessionForIntent (intentId intent) st' = (if truthy sid then Some s' else None).
Proof using All.
  intros Hwf Hst Hi. pose proof (addIntent_wf now intent st Hwf) as Hwf'. revert Hwf'. unfold addIntent.
  destruct (getOrCreateOpenSession now st) as [s st1] eqn:E.
  destruct (getOrCreate_spec _ _ _ _ Hwf E) as (Hwf1 & Ho & Hg). simpl. intros Hwf'.
  assert (honest s) as Hs.
  { unfold getOrCreateOpenSession in E. destruct (getOpenSessions st) as [|s0 l] eqn:Eo.
    - injection E as <- _. apply honest_fresh.
    - injection E as <- <-. apply Hst; [|done]. by apply elem_allSessions. }
  assert (JsMap.get (JsMap.set (sessions st1) (sessionId s) (addToSession intent s)) (sessionId s) =
    Some (addToSession intent s)) as Hget by apply JsMap.get_set_eq.
  split; [done|]. split.
  - intros s' Hs' Ho'. assert (s' = addToSession intent s) as ->; [|by apply honest_add].
    assert (sessionId s' = sessionId s) as Eid.
    { apply (wf_open _ Hwf' s' (addToSession intent s)); [done| |done|done].
      apply elem_allSessions; [done|]. simpl. by rewrite JsMap.get_set_eq. }
    apply elem_allSessions in Hs'; [|done]. simpl in Hs'. rewrite Eid, JsMap.get_set_eq in Hs'. congruence.
  - exists (addToSession intent s). unfold getSession, getSessionForIntent. simpl.
    rewrite !JsMap.get_set_eq. unfold truthyOpt. split_and!; try done.
    destruct (truthy (sessionId s)); [|done]. by rewrite JsMap.get_set_eq.
Qed.
End Honest.

(** Every round, on any session, either leaves it unchanged (fewer than
    two intents) or moves it out of [open]: to [signed] exactly when
    it answers with a batch, whose hash and signatures are over its own
    matches; intents are never changed. *)
Theorem round_transitions uuid kps s r s' :
  runMatchingRound uuid kps s = (r, s') ->
  sessionId s' = sessionId s /\ intents s' = intents s /\
  match r with
  | Ok (RoundOk batch) => status s' = signed /\ signedBatch s' = Some batch /\
      batchHash batch = computeBatchHash (batchId batch) (matches batch) /\
      signatures batch = map (signBatch (batchId batch) (matches batch)) kps
  | Ok (RoundFailed _) => s' = s /\ JsMap.size (intents s) < 2 \/
      status s' = failed /\ signedBatch s' = signedBatch s
  | Throw _ => status s' = matching /\ signedBatch s' = signedBatch s
  end.
Proof.
  unfold runMatchingRound. destruct (Z.ltb_spec (JsMap.size (intents s)) 2).
  - intros [= <- <-]. auto.
  - simpl. destruct (decryptNodes kps (shares s)) as [m [reason|]]; simpl.
    + intros [= <- <-]. auto.
    + destruct (reconstructAll _ m (intents s)); intros [= <- <-]; simpl; split_and!; auto.
Qed.
End Round.

(** ** Witnesses: three nodes, two users *)
Import Toy.

Definition sharesOf (amount : string) : list EncryptedShare :=
  match splitAmountForCommittee amount (nodePublicInfo <$> nodes3) 2 rnd3 with
  | Some (Ok encs) => encs
  | _ => []
  end.
Definition intent1 : MpcIntent :=
  mkMpcIntent "i1" "alice" "USDC" "EURC" 100 "p" "n1" "c1" "r1" (sharesOf "500") 0.
Definition intent2 : MpcIntent :=
  mkMpcIntent "i2" "bob" "EURC" "USDC" 100 "p" "n2" "c2" "r2" (sharesOf "300") 0.
Definition amounts (iid : string) : Z := if iid ==? "i1" then 500 else 300.
Definition emptyState : State := mkState [] [].
Definition session2 : SessionState :=
  addToSession intent2 (addToSession intent1 (mkSession "session-7" 7 open [] [] None)).

Lemma goodKeys3 : Forall goodKeys nodes3.
Proof. repeat constructor. Qed.
Lemma nodeIds3 : NoDup (kp_nodeId <$> nodes3).
Proof. apply (bool_decide_unpack _). vm_compute. exact I. Qed.
Lemma size3 : (2 <= length nodes3)%nat /\ Z.of_nat (length nodes3) <= 1000.
Proof. split; [apply le_S, le_n|vm_compute; discriminate]. Qed.
Lemma honest1 : honestIntent nodes3 amounts intent1.
Proof. exists rnd3. split; [intros i; reflexivity|vm_compute; reflexivity]. Qed.
Lemma honest2 : honestIntent nodes3 amounts intent2.
Proof. exists rnd3. split; [intros i; reflexivity|vm_compute; reflexivity]. Qed.
Lemma honest_session2 : honest nodes3 amounts session2.
Proof.
  apply (honest_add nodes3 amounts goodKeys3 nodeIds3 size3); [|apply honest2].
  apply (honest_add nodes3 amounts goodKeys3 nodeIds3 size3); [|apply honest1].
  apply honest_fresh.
Qed.

Lemma round_refines_matching_witness : exists s' batch,
  runMatchingRound "u-1" nodes3 session2 = (Ok (RoundOk batch), s') /\
  matches batch = [mkMatch "i1" "i2" "300" "USDC" "EURC" None None None] /\
  verifySignedBatch batch (nodePublicInfo <$> nodes3) = Ok true.
Proof.
  destruct (round_refines_matching nodes3 amounts goodKeys3 nodeIds3 size3 "u-1" session2 honest_session2)
    as (s' & batch & E & Em & Ev & _).
  - vm_compute. discriminate.
  - apply (bool_decide_unpack _). vm_compute. exact I.
  - intros iid. unfold amounts. case_bool_decide; vm_compute; split; discriminate || reflexivity.
  - exists s', batch. split; [exact E|]. split; [rewrite Em; vm_compute; reflexivity|exact Ev].
Defined.
Lemma addIntent_honest_witness :
  getSessionForIntent "i1" (addIntent 7 intent1 emptyState).2 =
    Some (addToSession intent1 (mkSession "session-7" 7 open [] [] None)) /\
  wf (addIntent 7 intent1 emptyState).2.
Proof.
  split; [vm_compute; reflexivity|].
  apply (addIntent_honest nodes3 amounts goodKeys3 nodeIds3 size3 7 intent1 emptyState).
  - split; simpl; [constructor|discriminate|]. intros s1 s2 H. apply elem_of_nil in H. destruct H.
  - intros s H. apply elem_of_nil in H. destruct H.
  - apply honest1.
Defined.
Lemma round_transitions_witness :
  status (runMatchingRound "u-1" nodes3 session2).2 = signed.
Proof.
  pose proof (round_transitions "u-1" nodes3 session2 _ _ (surjective_pairing _)) as H.
  destruct H as (_ & _ & H). revert H. vm_compute. intros [H _]. exact H.
Defined.
End Round.
