(* ===== verification/CommitteeServer.v ===== *)
(** * The committee's HTTP services
      (apps/mpc-committee/src/server.ts, node-server.ts, coordinator-server.ts)

    The handlers of the combined server (coordinator and nodes in one
    process), of a stand-alone node and of the stand-alone coordinator, and
    the batch timer.  Theorems: a node answers nothing without the internal
    token, the configured endpoints are the ones written in the
    environment, and a failed or finished session is never matched again. *)
From S2P Require Import Prelude JsText JsCollections Json Crypto Shamir Committee Database Runtime CommitteeState Round Settler.
From Stdlib Require Import Ascii.
Import JsText Json Crypto Committee Database Runtime CommitteeState Round Settler.

Module CommitteeServer.

(** ** A stand-alone node (node-server.ts) *)
Section Node.
Context `{Sha256} `{Nacl} (NODE_ID INTERNAL_TOKEN : string) (node : CommitteeNodeKeyPair).

Definition NodeState := JsMap.t string EncryptedShare.

(** [timingSafeEqual] compares the bytes; the length test comes first. *)
Definition requireInternalAuth (headers : list (string * string)) : bool :=
  match JsMap.get headers "x-mpc-internal-token" with
  | Some provided =>
      if negb (String.length provided =? String.length INTERNAL_TOKEN)%nat then false
      else provided ==? INTERNAL_TOKEN
  | None => false
  end.
Definition unauthorized : Response := replyCode 401 (err "unauthorized").

Definition infoJson (i : CommitteeNodeInfo) : json :=
  JObj [("nodeId", JStr (nodeId i)); ("encryptionPubkey", JStr (encryptionPubkey i));
        ("signingPubkey", JStr (signingPubkey i))].
Definition getInfo : Response := reply (infoJson (nodePublicInfo node)).
Definition getNodeHealth : Response := reply (JObj [("ok", JBool true); ("nodeId", JStr NODE_ID)]).

Definition postNodeShare (headers : list (string * string)) (intentId : string) (encShare : EncryptedShare)
    (shares : NodeState) : Response * NodeState :=
  if negb (requireInternalAuth headers) then (unauthorized, shares)
  else if negb (es_nodeId encShare ==? NODE_ID) then (replyCode 400 (err "share addressed to wrong node"), shares)
  else (reply (JObj [("ok", JBool true); ("nodeId", JStr NODE_ID); ("intentId", JStr intentId)]),
        JsMap.set shares intentId encShare).

(** A property that is [undefined] is left out. *)
Definition optJson (k : string) (o : option json) : list (string * json) :=
  match o with Some j => [(k, j)] | None => [] end.
Definition plainJson (p : option PlainShare) : json :=
  match p with None => JNull | Some p => JObj (optJson "x" (px p) ++ optJson "y" (py p)) end.
Definition decryptOne (shares : NodeState) (intentId : string) : option PlainShare :=
  match JsMap.get shares intentId with
  | None => None
  | Some enc => match decryptShare enc (boxSecret node) with Ok p => p | Throw _ => None end
  end.
Definition decryptResults (shares : NodeState) (intentIds : list string) : list (string * option PlainShare) :=
  fold_left (fun results intentId => JsMap.set results intentId (decryptOne shares intentId)) intentIds [].
Definition postDecrypt (headers : list (string * string)) (intentIds : list string) (shares : NodeState) :
    Response * NodeState :=
  if negb (requireInternalAuth headers) then (unauthorized, shares)
  else (reply (JObj [("nodeId", JStr NODE_ID);
                     ("shares", JObj (map (fun kv => (kv.1, plainJson kv.2)) (decryptResults shares intentIds)))]),
        shares).
Definition postSignBatch (headers : list (string * string)) (batchId : string) (ms : list MatchResult)
    (shares : NodeState) : Response * NodeState :=
  if negb (requireInternalAuth headers) then (unauthorized, shares)
  else (reply (signatureJson (signBatch batchId ms node)), shares).

Inductive NodeRequest :=
| NShare (intentId : string) (encShare : EncryptedShare)
| NDecrypt (intentIds : list string)
| NSign (batchId : string) (ms : list MatchResult).
Definition handleNode (headers : list (string * string)) (r : NodeRequest) (shares : NodeState) : Response * NodeState :=
  match r with
  | NShare i e => postNodeShare headers i e shares
  | NDecrypt ids => postDecrypt headers ids shares
  | NSign b ms => postSignBatch headers b ms shares
  end.

Lemma requireInternalAuth_iff headers :
  requireInternalAuth headers = true <-> JsMap.get headers "x-mpc-internal-token" = Some INTERNAL_TOKEN.
Proof.
  unfold requireInternalAuth. destruct (JsMap.get headers _) as [p|]; [|done].
  destruct (negb _) eqn:E; [|by rewrite bool_decide_eq_true; split; congruence].
  split; [done|]. intros [= ->]. by rewrite Nat.eqb_refl in E.
Qed.

(** The shares a node has accepted were sent with the token and addressed to
    it: whoever does not hold the token changes and learns nothing. *)
Definition ownShares (shares : NodeState) : Prop :=
  forall i e, JsMap.get shares i = Some e -> es_nodeId e = NODE_ID.

(** A node's private routes are closed without the internal token: any
    request whose header is missing or differs gets the same 401 reply
    whatever the node holds, and changes nothing; with the token, the node only
    ever stores shares addressed to itself. *)
Theorem node_requires_token headers r shares :
  (JsMap.get headers "x-mpc-internal-token" ≠ Some INTERNAL_TOKEN ->
   handleNode headers r shares = (unauthorized, shares)) /\
  (ownShares shares -> ownShares (handleNode headers r shares).2).
Proof.
  split.
  - intros Hne. assert (requireInternalAuth headers = false) as Ha.
    { apply not_true_iff_false. by rewrite requireInternalAuth_iff. }
    destruct r; simpl; unfold postNodeShare, postDecrypt, postSignBatch; by rewrite Ha.
  - intros Ho. destruct r as [intentId e0|ids|bid ms]; simpl; unfold postNodeShare, postDecrypt, postSignBatch.
    + destruct (negb (requireInternalAuth headers)); [done|].
      destruct (bool_decide_reflect (es_nodeId e0 = NODE_ID)) as [He|]; [|done]. simpl.
      intros i e. rewrite JsMap.get_set. case_bool_decide; [by intros [= <-]|exact (Ho i e)].
    + by case_match.
    + by case_match.
Qed.
End Node.

(** ** Endpoints of the stand-alone coordinator (coordinator-server.ts) *)
Section Coordinator.
Context `{Sha256} `{Nacl}.

Fixpoint parsePairs (pairs : list string) : result (list NodeEndpoint) :=
  match pairs with
  | [] => Ok []
  | entry :: pairs =>
      let parts := splitOn "="%char entry in
      let nodeId := orElse (head parts) "" in
      let url := orElse (parts !! 1%nat) "" in
      if negb (truthy nodeId) || negb (truthy url) then
        Throw (Error None ("invalid MPC_NODE_URLS entry: " +:+ String dquote (entry +:+ String dquote " (expected nodeId=url)")))
      else match parsePairs pairs with
           | Ok eps => Ok (mkEndpoint (trim nodeId) (trim url) :: eps)
           | Throw e => Throw e
           end
  end.
Definition parseNodeUrls (spec : string) : result (list NodeEndpoint) := parsePairs (splitOn ","%char spec).

Definition showEndpoint (e : NodeEndpoint) : string := ep_nodeId e +:+ "=" +:+ ep_url e.
(** A node id or url the format can carry. *)
Definition plainWord (s : string) : bool :=
  truthy s && noChar ","%char s && noChar "="%char s && allChars (fun c => negb (isSpace c)) s.

Lemma noChar_append c a b : noChar c (a +:+ b) = noChar c a && noChar c b.
Proof. apply allChars_append. Qed.
Lemma parsePairs_show eps :
  forallb (fun e => plainWord (ep_nodeId e) && plainWord (ep_url e)) eps = true ->
  parsePairs (map showEndpoint eps) = Ok eps.
Proof.
  induction eps as [|[n u] eps IH]; [done|]. cbn [forallb map]. rewrite !andb_true_iff. unfold plainWord. simpl.
  rewrite !andb_true_iff. intros [[[[[Hn1 Hn2] Hn3] Hn4] [[[Hu1 Hu2] Hu3] Hu4]] Hx]. cbn [parsePairs].
  change (showEndpoint (mkEndpoint n u)) with (n +:+ String "="%char u).
  rewrite splitOn_append, (splitOn_noChar _ u) by done. cbv zeta. simpl. rewrite Hn1, Hu1. simpl.
  rewrite !trim_id by done. change (map showEndpoint eps) with (showEndpoint <$> eps) in IH |- *. by rewrite (IH Hx).
Qed.

(** The endpoints a coordinator talks to are exactly those written in
    MPC_NODE_URLS: printing them in the documented format and parsing gives them
    back, and an entry without an id or a url is refused. *)
Theorem parseNodeUrls_roundtrip eps :
  eps ≠ [] -> forallb (fun e => plainWord (ep_nodeId e) && plainWord (ep_url e)) eps = true ->
  parseNodeUrls (join "," (map showEndpoint eps)) = Ok eps /\
  (forall pre post bad, forallb (noChar ","%char) (pre ++ bad :: post) = true ->
     truthy bad = false \/ noChar "="%char bad = true ->
     exists e, parseNodeUrls (join "," (pre ++ bad :: post)) = Throw e).
Proof.
  intros Hne Hall. unfold parseNodeUrls. split.
  - rewrite splitOn_join; [by apply parsePairs_show|by destruct eps|].
    clear Hne. induction eps as [|[n u] eps IH]; [done|]. cbn [forallb map] in *.
    rewrite !andb_true_iff in *. destruct Hall as [[Hn Hu] Hx]. split; [|by apply IH].
    unfold plainWord in *. simpl in *. rewrite !andb_true_iff in *. unfold showEndpoint. simpl.
    rewrite !noChar_append. by rewrite (proj2 (proj1 (proj1 Hn))), (proj2 (proj1 (proj1 Hu))).
  - intros pre post bad Hc Hbad. rewrite splitOn_join by (done || by destruct pre).
    clear Hc. induction pre as [|p pre IH]; cbn [app parsePairs].
    + assert (negb (truthy (orElse (head (splitOn "="%char bad)) "")) || negb (truthy (orElse (splitOn "="%char bad !! 1%nat) "")) = true) as ->.
      { destruct Hbad as [Hb|Hb].
        - unfold truthy in Hb. apply negb_false_iff, bool_decide_eq_true in Hb as ->. done.
        - rewrite splitOn_noChar by done. simpl. apply orb_true_r. }
      by eexists.
    + destruct IH as [e ->]. case_match; by eexists.
Qed.

(** ** The coordinator's state and handlers

    [db] is [None] without DATABASE_URL; one process holds one session table. *)
Context `{Uuid}.
Record World := mkWorld { wstate : State; wdb : DB; hasDb : bool }.

Definition onDb {A} (m : M DB A) : M World A := fun w =>
  let '(r, d) := m (wdb w) in (r, mkWorld (wstate w) d (hasDb w)).
Definition onState {A} (f : State -> A * State) : M World A := fun w =>
  let '(a, s) := f (wstate w) in (Ok a, mkWorld s (wdb w) (hasDb w)).
Definition readState {A} (f : State -> A) : M World A := onState (fun s => (f s, s)).

Definition batchJson (b : SignedMatchBatch) : json :=
  JObj [("batchId", JStr (batchId b)); ("sessionId", JStr (Committee.sessionId b));
        ("matches", JArr (map matchJson (matches b))); ("batchHash", JStr (batchHash b));
        ("signatures", JArr (map signatureJson (signatures b)))].
Definition getCommittee (committeeInfo : list CommitteeNodeInfo) : Response :=
  reply (JObj [("nodes", JArr (map infoJson committeeInfo))]).

(** The combined server checks against the number of nodes, the stand-alone
    one against the number of endpoints; [distribute] is what happens after
    [state.addIntent] ([distributeShares], which only logs). *)
Definition postIntent (nNodes : nat) (intent : option MpcIntent) : M World Response :=
  match intent with
  | None => mret (replyCode 400 (err "intentId required"))
  | Some intent =>
      if negb (truthy (intentId intent)) then mret (replyCode 400 (err "intentId required"))
      else if negb (length (encryptedShares intent) =? nNodes)%nat then
        mret (replyCode 400 (err ("must supply " +:+ toString (Z.of_nat nNodes)
          +:+ " encrypted shares, one per committee node")))
      else
        now ← onDb dateNow;
        sid ← onState (addIntent now intent);
        mret (reply (JObj [("ok", JBool true); ("intentId", JStr (intentId intent)); ("sessionId", JStr sid)]))
  end.

Definition sessionJson (s : SessionState) : json :=
  JObj [("sessionId", JStr (sessionId s)); ("status", JStr (statusText (status s)));
        ("intentCount", JNum (JsMap.size (intents s))); ("startedAt", JNum (startedAt s));
        ("signedBatch", match signedBatch s with Some b => batchJson b | None => JNull end)].
Definition getSessionRoute (sid : string) : M World Response :=
  s ← readState (getSession sid);
  match s with
  | None => mret (replyCode 404 (err "session not found"))
  | Some s => mret (reply (sessionJson s))
  end.

(** A round replaces the session object in place; [round] is
    [runMatchingRound] with the process's keys, or [runMatchingRoundRemote]. *)
Definition RoundFn := string -> SessionState -> result CoordinatorResult * SessionState.
Definition runRound (round : RoundFn) (s : SessionState) : M World CoordinatorResult :=
  uuid ← onDb randomUUID;
  let '(r, s') := round uuid s in
  onState (fun st => (tt, putSession s' st)) ;;
  liftR r.
Definition persistIfDb (sid : string) (r : CoordinatorResult) : M World unit := fun w =>
  match r with
  | RoundOk batch => if hasDb w then onDb (persistSignedBatch sid batch) w else (Ok tt, w)
  | RoundFailed _ => (Ok tt, w)
  end.
Definition postMatch (round : RoundFn) (sid : string) : M World Response :=
  s ← readState (getSession sid);
  match s with
  | None => mret (replyCode 404 (err "session not found"))
  | Some s =>
      if negb (isOpen s) then
        mret (reply (JObj [("ok", JBool false);
          ("reason", JStr ("session already in status '" +:+ statusText (status s) +:+ "'"))]))
      else
        r ← runRound round s;
        persistIfDb sid r ;;
        mret (reply match r with
                    | RoundOk batch => JObj [("ok", JBool true); ("batch", batchJson batch)]
                    | RoundFailed reason => JObj [("ok", JBool false); ("reason", JStr reason)]
                    end)
  end.

Definition isSigned (s : SessionState) : bool := status s ==? signed.
Definition getBatches : M World Response :=
  ss ← readState allSessions;
  mret (reply (JObj [("batches", JArr (omap (fun s => if isSigned s then batchJson <$> signedBatch s else None) ss))])).
Definition postVerify (committeeInfo : list CommitteeNodeInfo) (batch : option SignedMatchBatch) : result Response :=
  match batch with
  | None => Ok (replyCode 400 (err "batch required"))
  | Some batch =>
      valid ← verifySignedBatch batch committeeInfo;
      Ok (reply (JObj [("valid", JBool valid);
                       ("nodeCount", JNum (Z.of_nat (length committeeInfo)));
                       ("sigCount", JNum (Z.of_nat (length (signatures batch))))]))
  end.

(** One turn of the batch timer, over the sessions open when it fires. *)
Definition timerSession (round : RoundFn) (s : SessionState) : M World unit :=
  if JsMap.size (intents s) <? 2 then mret tt
  else r ← runRound round s; persistIfDb (sessionId s) r.
Definition timerTurn (round : RoundFn) : M World unit :=
  ss ← readState getOpenSessions;
  foreachM (timerSession round) ss.

(** The combined server's node route: a delivered share replaces the stored
    one of its slot ([encryptedShare = ...]). *)
Definition replaceShare (nid intentId : string) (e : EncryptedShare) (s : SessionState) : option SessionState :=
  match JsMap.get (shares s) nid with
  | None => None
  | Some ns =>
      match JsMap.get ns intentId with
      | None => None
      | Some old =>
          Some (setShares s (JsMap.set (shares s) nid (JsMap.set ns intentId
            (mkEntry (e_intentId old) (e_nodeId old) (ciphertext e) (nonce e) (senderPubkey e) (decryptedShare old)))))
      end
  end.
Definition postShare (nid intentId : string) (encShare : EncryptedShare) : M World Response :=
  if negb (es_nodeId encShare ==? nid) then mret (replyCode 400 (err "share addressed to wrong node"))
  else
    s ← readState (getSessionForIntent intentId);
    match s with
    | None => mret (replyCode 404 (err "intent not registered"))
    | Some s =>
        match replaceShare nid intentId encShare s with
        | None => mret (replyCode 404 (err "share slot not found for this intent"))
        | Some s' =>
            onState (fun st => (tt, putSession s' st)) ;;
            mret (reply (JObj [("ok", JBool true); ("nodeId", JStr nid); ("intentId", JStr intentId)]))
        end
    end.

(** ** The stand-alone coordinator's handlers

    It holds no key: shares are forwarded to the nodes, and a round asks them
    ([das] and [sas] are their answers). *)
Context `{Fetch}.
Definition encryptedShareJson (e : EncryptedShare) : json :=
  JObj [("nodeId", JStr (es_nodeId e)); ("ciphertext", JStr (ciphertext e)); ("nonce", JStr (nonce e));
        ("senderPubkey", JStr (senderPubkey e))].
Definition forwardShare (endpoints : list NodeEndpoint) (intentId : string) (share : EncryptedShare) : M World unit :=
  match List.find (fun n => ep_nodeId n ==? es_nodeId share) endpoints with
  | None => mret tt
  | Some node =>
      n ← onDb tick;
      match fetch n "POST" (ep_url node +:+ "/shares/" +:+ intentId) (encryptedShareJson share) with
      | Ok _ | Throw _ => mret tt (* a refusal or a failure is only logged *)
      end
  end.
Definition distributeShares (endpoints : list NodeEndpoint) (intentId : string) (shares : list EncryptedShare) : M World unit :=
  foreachM (forwardShare endpoints intentId) shares.

Definition parseInfo (j : json) : CommitteeNodeInfo :=
  mkNodeInfo (strField j "nodeId") (strField j "encryptionPubkey") (strField j "signingPubkey").
Fixpoint fetchCommitteeInfo (endpoints : list NodeEndpoint) : M World (list CommitteeNodeInfo) :=
  match endpoints with
  | [] => mret []
  | n :: endpoints =>
      k ← onDb tick;
      match fetch k "GET" (ep_url n +:+ "/info") JNull with
      | Throw e => throwM e
      | Ok (st, j) =>
          if negb (respOk st) then failM ("node " +:+ ep_nodeId n +:+ " /info failed: " +:+ toString st)
          else rest ← fetchCommitteeInfo endpoints; mret (parseInfo j :: rest)
      end
  end.
Definition coordinatorIntent (endpoints : list NodeEndpoint) (intent : option MpcIntent) : M World Response :=
  match intent with
  | None => mret (replyCode 400 (err "intentId required"))
  | Some intent =>
      if negb (truthy (intentId intent)) then mret (replyCode 400 (err "intentId required"))
      else if negb (length (encryptedShares intent) =? length endpoints)%nat then
        mret (replyCode 400 (err ("must supply " +:+ toString (Z.of_nat (length endpoints))
          +:+ " encrypted shares, one per committee node")))
      else
        now ← onDb dateNow;
        sid ← onState (addIntent now intent);
        distributeShares endpoints (intentId intent) (encryptedShares intent) ;;
        mret (reply (JObj [("ok", JBool true); ("intentId", JStr (intentId intent)); ("sessionId", JStr sid)]))
  end.
Definition coordinatorMatch (endpoints : list NodeEndpoint) (das : list (option DecryptAnswer))
    (sas : string -> list MatchResult -> list (option NodeSignature)) (sid : string) : M World Response :=
  postMatch (fun uuid s => runMatchingRoundRemote uuid endpoints das sas s) sid.
Definition coordinatorTimer (endpoints : list NodeEndpoint) (das : list (option DecryptAnswer))
    (sas : string -> list MatchResult -> list (option NodeSignature)) : M World unit :=
  timerTurn (fun uuid s => runMatchingRoundRemote uuid endpoints das sas s).

(** ** The coordinator as a state machine *)
Inductive action :=
| AIntent (n : nat) (intent : option MpcIntent)
| AShare (nid iid : string) (e : EncryptedShare)
| AMatch (sid : string)
| ATimer.
Definition act (round : RoundFn) (a : action) : M World unit :=
  match a with
  | AIntent n intent => postIntent n intent ;; mret tt
  | AShare nid iid e => postShare nid iid e ;; mret tt
  | AMatch sid => postMatch round sid ;; mret tt
  | ATimer => timerTurn round
  end.
(** What the server relies on in a matching round. *)
Class SafeRound (round : RoundFn) : Prop := {
  round_id uuid s : sessionId (round uuid s).2 = sessionId s;
  round_open uuid s : isOpen (round uuid s).2 = true -> isOpen s = true
}.
#[export] Instance localRound_safe kps : SafeRound (fun uuid s => runMatchingRound uuid kps s).
Proof.
  split; intros uuid s; unfold runMatchingRound; destruct (JsMap.size (intents s) <? 2); try done; simpl;
    destruct (decryptNodes kps (shares s)) as [m [reason|]]; try done; by destruct (reconstructAll _ m (intents s)).
Qed.
#[export] Instance remoteRound_safe eps das sas : SafeRound (fun uuid s => runMatchingRoundRemote uuid eps das sas s).
Proof.
  split; intros uuid s; unfold runMatchingRoundRemote; destruct (JsMap.size (intents s) <? 2); try done; simpl;
    destruct (_ <? threshold (length eps)); try done; destruct (reconstructAll _ _ (intents s)); try done;
    by destruct (_ <? threshold (length eps)).
Qed.

Context (round : RoundFn) {safe : SafeRound round}.

(** The session [sid] has been signed with [b]. *)
Definition signedWith (sid : string) (b : SignedMatchBatch) (st : State) : Prop :=
  exists s, getSession sid st = Some s /\ status s = signed /\ signedBatch s = Some b.
Definition good (sid : string) (b : SignedMatchBatch) (w : World) : Prop :=
  wf (wstate w) /\ signedWith sid b (wstate w) /\ sid ≠ "session-" +:+ toString (clock (wdb w)).

Lemma good_state sid b st d db hd :
  good sid b (mkWorld st d db) -> clock hd = clock d -> good sid b (mkWorld st hd db).
Proof. intros (H1' & H2' & H3') Hc. split_and!; simpl in *; [done|done|by rewrite Hc]. Qed.
Lemma isOpen_true s : isOpen s = true <-> status s = open.
Proof. apply bool_decide_eq_true. Qed.
(** Replacing another session, or one that was open, keeps a signed one. *)
Lemma good_put sid b w s s' :
  good sid b w -> getSession (sessionId s) (wstate w) = Some s -> isOpen s = true ->
  sessionId s' = sessionId s -> good sid b (mkWorld (putSession s' (wstate w)) (wdb w) (hasDb w)).
Proof.
  intros (Hwf & (s0 & Hs0 & Hsg & Hb) & Hf) Hs Ho Hid. split_and!; [| |done].
  - apply wf_set; [done|]. intros _ s1 Hs1 Ho1. rewrite Hid.
    apply (wf_open _ Hwf s1 s); [done| |done|done]. by apply elem_allSessions.
  - exists s0. split_and!; [|done|done]. unfold getSession, putSession in *. simpl.
    rewrite JsMap.get_set_ne; [done|]. rewrite Hid. intros E. rewrite E in Hs. assert (s = s0) as -> by congruence.
    apply isOpen_true in Ho. congruence.
Qed.
Lemma preserves_onDb {A} sid b (m : M DB A) :
  (forall db, clock (m db).2 = clock db) -> preserves (good sid b) (onDb m).
Proof.
  intros Hc [st db hd] Hg. unfold onDb. simpl. specialize (Hc db). destruct (m db) as [r d]. simpl in *.
  by eapply good_state.
Qed.
Lemma preserves_readState {A} sid b (f : State -> A) : preserves (good sid b) (readState f).
Proof. by intros [st db hd] Hg. Qed.

Lemma clock_persist sid batch db : clock (persistSignedBatch sid batch db).2 = clock db.
Proof.
  assert (preserves (fun d => clock d = clock db) (persistSignedBatch sid batch)) as Hp; [|by apply Hp].
  unfold persistSignedBatch, persistSignature, markMatched.
  repeat first [apply preserves_bind; [|intros ?]|apply preserves_foreach; intros ?
               |intros d Hd; by rewrite ?clock_insert, ?clock_update|auto with preserve].
Qed.
Lemma preserves_runRound sid b s w :
  good sid b w -> getSession (sessionId s) (wstate w) = Some s -> isOpen s = true ->
  good sid b (runRound round s w).2.
Proof using safe.
  intros Hg Hs Ho. unfold runRound, onDb, randomUUID, tick, mbind, M_bind, mret, M_ret. simpl.
  pose proof (round_id (uuidOf (ticks (wdb w))) s) as Hid.
  destruct (round (uuidOf (ticks (wdb w))) s) as [r s'] eqn:Er. simpl in *. unfold onState, liftR. simpl.
  eapply (good_put sid b (mkWorld (wstate w) _ (hasDb w)) s s'); [|done|done|done].
  eapply good_state; [|reflexivity]. by destruct w.
Qed.
Lemma preserves_persistIfDb sid b sid' r : preserves (good sid b) (persistIfDb sid' r).
Proof.
  intros w Hg. unfold persistIfDb. destruct r as [batch|]; [|done]. destruct (hasDb w); [|done].
  apply preserves_onDb; [|done]. intros db. apply clock_persist.
Qed.


Lemma sessionIds st : wf st -> sessionId <$> allSessions st = JsMap.keys (sessions st).
Proof.
  intros Hwf. unfold allSessions, JsMap.values, JsMap.keys.
  assert (Forall (fun kv => sessionId kv.2 = kv.1) (sessions st)) as Hall.
  { apply Forall_forall. intros [k s] Hin. apply (JsMap.elem_get _ k s (wf_keys st Hwf)) in Hin. by apply (wf_ids st Hwf). }
  induction Hall as [|kv l Hkv Hl IH]; [done|]. rewrite !fmap_cons. by rewrite Hkv, IH.
Qed.
Lemma open_single st : wf st -> getOpenSessions st = [] \/ exists s, getOpenSessions st = [s].
Proof.
  intros Hwf. destruct (getOpenSessions st) as [|s1 [|s2 l]] eqn:E; [by left|right; by exists s1|exfalso].
  assert (NoDup (sessionId <$> getOpenSessions st)) as Hn.
  { unfold getOpenSessions. fold (allSessions st). pose proof (wf_keys st Hwf) as Hk. rewrite <- sessionIds in Hk by done.
    clear E. clear Hwf. unfold selectWhere. induction (allSessions st) as [|s ss IH]; [constructor|]. rewrite fmap_cons in Hk. apply NoDup_cons in Hk as [Hs Hk].
    rewrite filter_cons. case_decide; [|by apply IH]. rewrite fmap_cons. apply NoDup_cons. split; [|by apply IH].
    intros (y & Ey & [_ Hy]%list_elem_of_filter)%list_elem_of_fmap. apply Hs. rewrite Ey. by apply list_elem_of_fmap_2. }
  assert (s1 ∈ getOpenSessions st /\ s2 ∈ getOpenSessions st) as [H1'%getOpenSessions_elem H2'%getOpenSessions_elem]
    by (rewrite E; split; [left|right; left]).
  rewrite E, !fmap_cons in Hn. apply NoDup_cons in Hn as [Hx _]. apply Hx.
  rewrite (wf_open st Hwf s1 s2); [left|apply H1'|apply H2'|apply H1'|apply H2'].
Qed.

Lemma good_intent n intent sid b : preserves (good sid b) (postIntent n intent).
Proof.
  intros w Hg. unfold postIntent. destruct intent as [intent|]; [|done]. do 2 (case_match; [done|]).
  unfold mbind, M_bind, onDb, dateNow, onState, mret, M_ret. simpl. destruct w as [st db hd]. simpl.
  destruct (addIntent (clock db) intent st) as [sid' st'] eqn:E. simpl. destruct Hg as (Hwf & (s & Hs & Hsg & Hb) & Hf).
  simpl in *. pose proof (addIntent_wf (clock db) intent st Hwf) as Hwf'. rewrite E in Hwf'.
  assert (sessionId s = sid) as Hid by by apply (wf_ids _ Hwf).
  pose proof (addIntent_closed (clock db) intent st s Hwf) as Hc. rewrite E, Hid in Hc.
  split_and!; [done| |done]. exists s. split_and!; [|done|done]. apply Hc; [done| |done].
  apply bool_decide_eq_false. by rewrite Hsg.
Qed.
Lemma replaceShare_keeps nid iid e s s' :
  replaceShare nid iid e s = Some s' ->
  sessionId s' = sessionId s /\ status s' = status s /\ signedBatch s' = signedBatch s.
Proof. unfold replaceShare. intros Hr. repeat case_match; simplify_eq. by split_and!. Qed.
Lemma good_share nid iid e sid b : preserves (good sid b) (postShare nid iid e).
Proof.
  intros [st db hd] Hg. unfold postShare. case_match; [done|].
  unfold mbind, M_bind, readState, onState, mret, M_ret. simpl.
  destruct (getSessionForIntent iid st) as [s|] eqn:Es; [|done].
  destruct (replaceShare nid iid e s) as [s'|] eqn:Er; [|done]. simpl.
  apply replaceShare_keeps in Er as (Hid & Hst & Hb). destruct Hg as (Hwf & (s0 & Hs0 & Hsg & Hb0) & Hf). simpl in *.
  assert (JsMap.get (sessions st) (sessionId s) = Some s) as Hs.
  { unfold getSessionForIntent in Es. destruct (truthyOpt _) as [k|]; [|done]. by rewrite (wf_ids _ Hwf k s Es). }
  split_and!; [| |done].
  - apply wf_set; [done|]. intros Ho s1 Hs1 Ho1. rewrite Hid. apply (wf_open _ Hwf s1 s); [done| |done|].
    + by apply elem_allSessions.
    + apply isOpen_true. apply isOpen_true in Ho. congruence.
  - unfold signedWith, getSession, putSession. simpl. rewrite JsMap.get_set. destruct (bool_decide_reflect (sessionId s' = sid)) as [E|E].
    + exists s'. assert (s0 = s) as -> by (unfold getSession in Hs0; rewrite <- E, Hid in Hs0; congruence).
      split_and!; congruence.
    + by exists s0.
Qed.
Lemma good_match sid' sid b : preserves (good sid b) (postMatch round sid').
Proof using safe.
  intros w Hg. unfold postMatch, readState. unfold mbind at 1, M_bind at 1, onState at 1.
  destruct (getSession sid' (wstate w)) as [s|] eqn:Es; [|by destruct w].
  destruct (isOpen s) eqn:Ho; simpl; [|by destruct w]. apply bind_state.
  - pose proof Hg as [Hwf _]. pose proof (wf_ids _ Hwf _ _ Es) as Hid. destruct w as [st db hd].
    apply preserves_runRound; [done| |done]. by rewrite Hid.
  - intros r. apply preserves_bind; [apply preserves_persistIfDb|intros []; apply preserves_ret].
Qed.
Lemma good_timer sid b : preserves (good sid b) (timerTurn round).
Proof using safe.
  intros w Hg. unfold timerTurn, readState. unfold mbind, M_bind, onState. destruct w as [st db hd]. simpl.
  pose proof Hg as [Hwf _]. simpl in Hwf. destruct (open_single st Hwf) as [->|[s Hs]]; [done|]. rewrite Hs. simpl.
  assert (s ∈ getOpenSessions st) as [Hin Ho]%getOpenSessions_elem by (rewrite Hs; left).
  apply bind_state; [|intros []; apply preserves_ret]. unfold timerSession. case_match; [done|].
  apply bind_state; [|intros r; apply preserves_persistIfDb].
  apply preserves_runRound; [done| |done]. by apply elem_allSessions in Hin.
Qed.

(** C33. A signed session is final: as long as the clock does not give its id to
    a new session, no request and no timer turn changes its status or its
    batch, matches it again, or opens a second session; in particular a batch is
    signed at most once per session. *)
Theorem signed_final a sid b w : good sid b w -> good sid b (act round a w).2.
Proof using safe.
  intros Hg. destruct a as [n intent|nid iid e|sid'|]; simpl; [..|by apply good_timer];
    apply bind_state; try (intros ?; apply preserves_ret);
    [by apply good_intent|by apply good_share|by apply good_match].
Qed.
End Coordinator.

(** ** Witnesses *)
Import Toy.
Lemma node_requires_token_witness :
  @handleNode toy_sha toy_nacl "node-1" "secret" (mkKeyPair "node-1" "pk" "pk" "spk" "spk")
    [("x-mpc-internal-token", "guess")] (NSign "b" []) [] = (unauthorized, []).
Proof.
  refine (proj1 (@node_requires_token toy_sha toy_nacl "node-1" "secret" (mkKeyPair "node-1" "pk" "pk" "spk" "spk")
    [("x-mpc-internal-token", "guess")] (NSign "b" []) []) _). discriminate.
Defined.
Definition endpoints3 : list NodeEndpoint :=
  [mkEndpoint "node-1" "http://mpc-node-1:8091"; mkEndpoint "node-2" "http://mpc-node-2:8091"].
Lemma parseNodeUrls_roundtrip_witness :
  parseNodeUrls "node-1=http://mpc-node-1:8091,node-2=http://mpc-node-2:8091" = Ok endpoints3.
Proof.
  refine (proj1 (parseNodeUrls_roundtrip endpoints3 _ _)); [discriminate|vm_compute; reflexivity].
Defined.
Definition signedBatch0 : SignedMatchBatch := mkBatch "b-1" "s-1" [] "h" [].
Definition signedWorld : World :=
  mkWorld (mkState [("s-1", mkSession "s-1" 0 signed [] [] (Some signedBatch0))] []) (emptyDB 5) true.
Lemma signedWorld_good : good "s-1" signedBatch0 signedWorld.
Proof.
  split_and!.
  - split; simpl.
    + apply NoDup_singleton.
    + intros k s. case_bool_decide; [subst; by intros [= <-]|done].
    + intros s1 s2 H1 _ Ho. apply list_elem_of_singleton in H1 as ->. discriminate Ho.
  - eexists. split; [reflexivity|done].
  - discriminate.
Qed.
Lemma signed_final_witness :
  good "s-1" signedBatch0
    (@act toyUuid (fun uuid s => @runMatchingRound toy_sha toy_nacl uuid [] s)
       (AMatch "s-1") signedWorld).2.
Proof.
  apply (@signed_final toyUuid _ (@localRound_safe toy_sha toy_nacl [])). exact signedWorld_good.
Defined.
End CommitteeServer.
