(* ===== verification/Leaves.v ===== *)
(** * The leaves of the pool in the database

    The relayer and the auditor read the note commitments in leaf order.  They
    share the database with the API: [Tables] is what it holds at each of their
    queries, or the error of a database that cannot be reached. *)
From S2P Require Import Prelude JsText JsCollections Json Crypto Database Runtime Host.
From Stdlib Require Import Sorting.Sorted.
Import JsText JsArray Json Crypto Database Runtime Host.

Module Leaves.

Class Tables := tablesAt : Z -> result DB.

Section Leaves.
Context `{Tables}.

Definition query {A} (m : M DB A) : M Host A := k ← nextTick; db ← liftR (tablesAt k); liftR (m db).1.
Fixpoint mapOk {A B} (f : A -> result B) (l : list A) : result (list B) :=
  match l with
  | [] => Ok []
  | a :: l => b ← f a; bs ← mapOk f l; Ok (b :: bs)
  end.
(** A [bigint] column, which the driver returns as text. *)
Definition leafIndexOf (r : Row) : Z :=
  match get r "leaf_index" with JStr s => orElse (parseDecimal s) 0 | j => numOf j end.
(** [SELECT commitment FROM note_commitments WHERE leaf_index IS NOT NULL ORDER
    BY leaf_index ASC]. *)
Definition hasLeaf (r : Row) : bool := negb (isNull (get r "leaf_index")).
Definition orderedLeaves (rows : list Row) : list Row := sortBy (fun a b => leafIndexOf a - leafIndexOf b) rows.
Definition leafRows : M DB (list string) :=
  rows ← select schemaOf "note_commitments" hasLeaf;
  mret (map (fun r => textOf (get r "commitment")) (orderedLeaves rows)).
Definition toDecimal (h : string) : result string :=
  n ← BigInt (if startsWith h "0x" then h else "0x" +:+ h); mret (toString n).
Definition decimalLeaves : M Host (list string) := rows ← query leafRows; liftR (mapOk toDecimal rows).
End Leaves.

Lemma mapOk_Forall2 {A B} (f : A -> result B) l l' : mapOk f l = Ok l' <-> Forall2 (fun a b => f a = Ok b) l l'.
Proof.
  revert l'. induction l as [|a l IH]; intros l'; cbn [mapOk].
  - split; [intros [= <-]; constructor|]. intros E. by inversion E.
  - destruct (f a) as [b|e] eqn:Ea.
    + change (mbind _ (Ok b)) with (bs ← mapOk f l; Ok (b :: bs) : result (list B)). destruct (mapOk f l) as [bs|e] eqn:Em.
      * split; [intros [= <-]; constructor; [done|by apply IH]|]. intros E. inversion E; subst.
        match goal with H : Forall2 _ l _ |- _ => apply IH in H; injection H as -> end. cbn. congruence.
      * split; [done|]. intros E. inversion E; subst. match goal with H : Forall2 _ l _ |- _ => apply IH in H; done end.
    + split; [done|]. intros E. inversion E; subst. congruence.
Qed.
Lemma sorted_weaken {A} (P Q : A -> A -> Prop) l : (forall a b, P a b -> Q a b) -> StronglySorted P l -> StronglySorted Q l.
Proof. intros HPQ. induction 1 as [|a l Hs IH Ha]; constructor; [done|]. eapply Forall_impl; [exact Ha|]. apply HPQ. Qed.
(** The rows selected are those with a leaf index, in its order. *)
Lemma leafRows_spec db : exists rows,
  leafRows db = (Ok (map (fun r => textOf (get r "commitment")) rows), db) /\
  rows ≡ₚ selectWhere hasLeaf (table db "note_commitments") /\
  StronglySorted (fun a b => leafIndexOf a <= leafIndexOf b) rows.
Proof.
  eexists. split; [reflexivity|]. split; [apply sortBy_perm|].
  eapply sorted_weaken; [|apply sortBy_sorted; split; intros; lia]. intros a b Hab. unfold leq in Hab. lia.
Qed.
End Leaves.
