(* ===== verification/Relayer.v ===== *)
(** * The relayer worker (apps/relayer/src/worker.ts)

    The cross-chain jobs of the queue: deposits, withdrawals, RFQ settlements
    and the settlement of committee-signed batches.  Theorems: a turn of the
    worker never throws and settles the job it claimed; a batch is settled only
    when the committee read from the chain signed it and a proof is attached
    (or the development flag is set), with the transaction the network
    returned; and no job the committee's settler queues carries what a proof
    needs, so every one of them is refused. *)
From S2P Require Import Prelude JsText JsCollections Json Crypto JobQueue Database Runtime Host Field StellarUtils Assets Proving MpcProving Cctp Evm CctpInbound Worker StellarActions Committee Settler Leaves.
From Stdlib Require Import Ascii.
Import JsText Json Crypto Database Runtime Host Field Cctp Worker.

Module Relayer.

Definition RELAYER_JOB_TYPES : list string :=
  ["CCTP_INBOUND"; "CCTP_INBOUND_AFTER_USER_BURN"; "CCTP_INBOUND_BURN"; "CCTP_FETCH_ATTESTATION"; "STELLAR_MINT_FORWARD";
   "REGISTER_NOTE"; "WITHDRAW_PUBLIC_SUBMIT"; "WITHDRAW_CCTP_BURN"; "RFQ_SETTLE_SUBMIT"; "RFQ_ATOMIC_SWAP_SUBMIT";
   "CCTP_OUTBOUND_ATTESTATION"; "CCTP_OUTBOUND_MINT"; "MPC_SETTLE_SUBMIT"].
Definition INBOUND_ALIASES : list string :=
  ["CCTP_INBOUND_BURN"; "CCTP_FETCH_ATTESTATION"; "STELLAR_MINT_FORWARD"; "REGISTER_NOTE"].

Definition parseEnvFile (path : string) (override : bool) (e : EnvMap) : M Host EnvMap := fun h =>
  (Ok (match files h !! path with Some t => parseEnvText override e t | None => e end), h).

Section Relayer.
Context `{Os} `{Random} `{Sha256} `{StrKey} `{Fetch} `{Evm.Evm} `{StellarActions.SorobanRpc} `{Nacl} `{Leaves.Tables}.
(** [process.env]. *)
Context (processEnv : EnvMap).
#[local] Instance processEnvironment : Env := envOf processEnv.

Definition loadEnv : M Host EnvMap :=
  e ← parseEnvFile "../.env" false processEnv;
  e ← parseEnvFile ".env" false e;
  parseEnvFile ".env.generated" true e.
Definition RPC : string := envNullish "STELLAR_RPC_URL" "https://soroban-testnet.stellar.org".
Definition PASS : string := envNullish "STELLAR_NETWORK_PASSPHRASE" "Test SDF Network ; September 2015".

(** ** The pool's new root *)
Definition shadeRoot : string := envNullish "SHADE_ROOT" (resolve cwd "../..").
Definition coinutilsBin : string :=
  envNullish "COINUTILS_BIN"
    (resolve (envNullish "SHADE_ZK_REF" (resolve shadeRoot ".zk-ref/soroban-examples/privacy-pools")) "target/release/stellar-coinutils").
(** A database that cannot be read counts as an empty pool. *)
Definition leavesOrNone : M Host (list string) := catchM Leaves.decimalLeaves (fun _ => mret []).
Definition computeMpcRoot (outCommitAHex outCommitBHex : string) : M Host string :=
  leaves ← leavesOrNone;
  a ← liftR (Leaves.toDecimal outCommitAHex);
  b ← liftR (Leaves.toDecimal outCommitBHex);
  now ← Host.dateNow;
  let statePath := resolve (envNullish "SHADE_SCRATCH_DIR" (resolve shadeRoot ".scratch")) ("mpc_root_" +:+ toString now +:+ ".json") in
  writeFileSync statePath (Proving.stateText (leaves ++ [a; b]) "mpc_settle") ;;
  out ← execFileSync coinutilsBin ["compute-root"; statePath];
  n ← liftR (BigInt (trim out));
  mret (hex32 n).

(** ** Payload members: [String(p.f)], and text or missing *)
Definition str (p : json) (f : string) : string := stringOf (field p f).
Definition optText (p : json) (f : string) : option string := truthyOpt (Some (strField p f)).
Definition soroban (pool secret method : string) (args : list string) (readOnly : bool) : StellarUtils.InvokeOpts :=
  StellarUtils.mkOpts pool secret method args (Some RPC) (Some PASS) 3 readOnly.
Definition submit (id pool secret method : string) (args : list string) : M Worker json :=
  setStatus id "submitting" ("pool." +:+ method) ;;
  r ← onHost (StellarUtils.sorobanInvoke (soroban pool secret method args false));
  mret (JObj [("txHash", JStr (StellarUtils.txHash r))]).

(** ** The jobs *)
Definition cctpInbound (e : EnvMap) (id : string) (p : json) (pool : string) : M Worker json :=
  if negb (JsMap.get e "ENABLE_OPERATOR_TESTNET_DEPOSIT" ==? Some "true") then
    failM "operator-driven CCTP_INBOUND is disabled (set ENABLE_OPERATOR_TESTNET_DEPOSIT=true for dev/test); app deposits use CCTP_INBOUND_AFTER_USER_BURN"
  else
    setStatus id "burning" "CCTP burn + attestation + mint_and_forward + register" ;;
    amount6 ← liftR (BigInt (stringOf (nullish (field p "amount6") (JStr "1000000"))));
    coin ← onHost (Proving.coinFromPath (str p "coinPath"));
    r ← onNet (CctpInbound.runCctpInbound e
          (CctpInbound.mkInbound amount6 (str p "commitmentHex") (str p "encryptedNotePayloadHashHex") (str p "policyIdHex") (Some true)
             None (Some pool) None (Some (str p "newRootHex")) (Some coin) (env "SHADE_SCRATCH_DIR") None None None));
    mret (JObj [("burnTxHash", JStr (CctpInbound.r_burnTxHash r)); ("mintForwardTxHash", JStr (CctpInbound.mintForwardTxHash r));
                ("leafIndex", JStr (CctpInbound.leafIndex r)); ("root", JStr (CctpInbound.r_root r)); ("amount7", JStr (CctpInbound.amount7 r))]).
(** The relayer only broadcasts what the client signed. *)
Definition withdrawSubmit (id jobType : string) (p : json) : M Worker json :=
  match optText p "signedXdr" with
  | None => failM (jobType +:+ " requires a client-signed XDR (signedXdr); backend never signs user Stellar actions")
  | Some xdr =>
      setStatus id "broadcasting" ("broadcast signed " +:+ jobType) ;;
      k ← onHost (calls 33);
      r ← liftR (StellarActions.broadcastSignedXdr k (StellarActions.mkNetwork RPC PASS) xdr);
      mret (JObj [("txHash", JStr r.1); ("status", JStr r.2)])
  end.
Definition flags (p : json) (l : list (string * string)) : list string := flat_map (fun a => ["--" +:+ a.1; str p a.2]) l.
Definition rfqSettle (id : string) (p : json) (pool secret : string) : M Worker json :=
  submit id pool secret "rfq_settle" (flags p
    [("to_solver", "toSolver"); ("proof_bytes", "proofHex"); ("pub_signals_bytes", "publicHex"); ("quote_hash", "quoteHash");
     ("intent_hash", "intentHash"); ("fill_receipt_hash", "fillReceiptHash"); ("solver_pubkey", "solverPubkey"); ("solver_sig", "solverSig")]).
Definition rfqAtomicSwap (id : string) (p : json) (pool secret : string) : M Worker json :=
  submit id pool secret "rfq_settle_atomic_swap" (flags p
    [("user_xlm_recipient", "userXlmRecipient"); ("solver_usdc_recipient", "solverUsdcRecipient"); ("proof_bytes", "proofHex");
     ("pub_signals_bytes", "publicHex"); ("quote_hash", "quoteHash"); ("intent_hash", "intentHash"); ("fill_receipt_hash", "fillReceiptHash");
     ("output_asset_id", "outputAssetId"); ("quoted_output", "quotedOutput"); ("min_output", "minOutput"); ("price_scaled", "priceScaled");
     ("solver_pubkey", "solverPubkey"); ("solver_sig", "solverSig")]).
Definition outboundAttestation (e : EnvMap) (id : string) (p : json) : M Worker json :=
  setStatus id "polling" "Circle attestation" ;;
  k ← onHost nextTick;
  att ← liftR (fetchAttestationByTx k (CctpInbound.apiBaseOf e) stellarDomain (str p "burnTxHash"));
  mret (match att with
        | None => JObj [("status", JStr "pending"); ("note", JStr "attestation not yet available; retry")]
        | Some a => JObj [("status", JStr (att_status a)); ("message", JStr (att_message a)); ("attestation", JStr (att_attestation a))]
        end).
Definition outboundMint (id : string) (p : json) : M Worker json :=
  if negb (truthyJson (field p "message")) || negb (truthyJson (field p "attestation")) then
    mret (JObj [("status", JStr "pending"); ("note", JStr "message/attestation required from CCTP_OUTBOUND_ATTESTATION")])
  else
    setStatus id "minting" "Arbitrum receiveMessage" ;;
    mret (JObj [("status", JStr "submit_via_arbitrum"); ("messageTransmitter", JStr arbitrumSepoliaMessageTransmitter);
                ("note", JStr "receiveMessage(message, attestation) on Arbitrum Sepolia")]).
Definition burnArgsOf (p : json) (pool : string) : result CctpInbound.BurnArgs :=
  amount6 ← BigInt (str p "expected_amount6");
  maxFee6 ← (if truthyJson (field p "expected_max_fee6") then n ← BigInt (str p "expected_max_fee6"); Ok (Some n) else Ok None);
  mret (CctpInbound.mkBurnArgs (str p "burn_tx_hash") (str p "source_wallet_address") amount6 pool maxFee6
          (match field p "expected_finality" with JNull => None | f => Some (numberOf f) end)).
Definition afterUserBurn (e : EnvMap) (id : string) (p : json) (pool : string) : M Worker json :=
  setStatus id "validating_burn" "verify user burn tx" ;;
  a ← liftR (burnArgsOf p pool);
  v ← onNet (CctpInbound.validateInboundBurnTx e a);
  setStatus id "burn_validated"
    ("sender " +:+ sliceTo 10 (CctpInbound.v_sender v) +:+ "…, " +:+ toString (CctpInbound.v_amount6 v) +:+ " (6dp)") ;;
  if negb (truthyJson (field p "coinPath")) then
    setStatus id "awaiting_proof_witness" "burn validated; note witness not provided to relayer (prover path)" ;;
    mret (JObj [("validated", JBool true); ("burnTxHash", JStr (str p "burn_tx_hash")); ("sender", JStr (CctpInbound.v_sender v));
                ("amount6", JStr (toString (CctpInbound.v_amount6 v))); ("state", JStr "burn_validated");
                ("note", JStr "supply coin witness via prover path to complete mint/forward/register")])
  else
    setStatus id "completing_stellar_side" "attestation + mint_forward + proof + register" ;;
    coin ← onHost (Proving.coinFromPath (str p "coinPath"));
    r ← onNet (CctpInbound.runPostUserBurnCctpInbound e
          (CctpInbound.mkPost (str p "burn_tx_hash") pool (CctpInbound.v_amount6 v) (str p "commitment") (str p "encryptedNotePayloadHashHex")
             (str p "policyIdHex") (str p "newRootHex") (Some coin) (env "SHADE_SCRATCH_DIR") None None));
    setStatus id "note_registered" ("leaf " +:+ CctpInbound.leafIndex r) ;;
    mret (JObj [("state", JStr "active"); ("burnTxHash", JStr (CctpInbound.r_burnTxHash r));
                ("mintForwardTxHash", JStr (CctpInbound.mintForwardTxHash r));
                ("receiveDepositTxHash", JStr (CctpInbound.receiveDepositTxHash r)); ("root", JStr (CctpInbound.r_root r));
                ("leafIndex", JStr (CctpInbound.leafIndex r)); ("commitment", JStr (str p "commitment")); ("amount7", JStr (CctpInbound.amount7 r))]).

(** ** Settlement of a committee-signed batch *)
(** The members a signature is read by; the check reads them as texts and
    throws on a signature without them. *)
Definition signatureOf (j : json) : result Committee.NodeSignature :=
  match field j "signingPubkey", field j "signature" with
  | JStr pk, JStr sg => Ok (Committee.mkSignature (strField j "nodeId") pk sg)
  | _, _ => Throw (Error None "TypeError: signature without members")
  end.
Definition signaturesOf (j : json) : result (list Committee.NodeSignature) :=
  match j with JArr l => Leaves.mapOk signatureOf l | _ => Throw (Error None "TypeError: signatures is not iterable") end.
(** A stored match as the worker reloads it: the members of
    [persistSignedBatch], which are texts, without the three priced ones. *)
Definition matchOf (m : json) : result Committee.MatchResult :=
  match m with
  | JNull => Throw (Error None "TypeError: Cannot read properties of null")
  | _ => Ok (Committee.mkMatch (strField m "intentAId") (strField m "intentBId") (strField m "matchedAmount7dp")
           (strField m "inputAsset") (strField m "outputAsset") None None None)
  end.
Definition arrayOf (raw : json) : result (list json) :=
  match raw with
  | JArr l => Ok l
  | _ => j ← parseJson (stringOf raw);
         match j with JArr l => Ok l | _ => Throw (Error None "TypeError: arr.map is not a function") end
  end.
Definition storedMatches (batchId : string) : M Host (list Committee.MatchResult) :=
  rows ← Leaves.query (select schemaOf "mpc_batches" (eqText "batch_id" batchId));
  match rows with
  | [] => mret []
  | row :: _ =>
      let raw := get row "matches_json" in
      if negb (truthyJson raw) then mret [] else arr ← liftR (arrayOf raw); liftR (Leaves.mapOk matchOf arr)
  end.
Definition payloadMatch (p : json) : Committee.MatchResult :=
  Committee.mkMatch (str p "intentAId") (str p "intentBId") (str p "matchedAmount7dp") (str p "inputAsset") (str p "outputAsset") None None None.
Definition batchMatches (p : json) : M Host (list Committee.MatchResult) :=
  stored ← catchM (storedMatches (str p "batchId")) (fun _ => mret []);
  mret (match stored with
        | [] => if truthyJson (field p "intentAId") && truthyJson (field p "intentBId") then [payloadMatch p] else []
        | _ => stored
        end).
(** The committee the pool has on chain. *)
Definition committeeOf (j : json) : result (list Committee.CommitteeNodeInfo) :=
  match j with
  | JArr [] => Throw (Error None "on-chain committee is empty — call pool.set_committee() first")
  | JArr l =>
      pks ← Leaves.mapOk (fun k => match k with JStr pk => Ok (toLowerCase pk) | _ => Throw (Error None "TypeError: pk.toLowerCase is not a function") end) l;
      mret (imap (fun i pk => Committee.mkNodeInfo ("chain-" +:+ toString (Z.of_nat i)) "" pk) pks)
  | _ => Throw (Error None "TypeError: onChainPubkeys.map is not a function")
  end.
Definition pinCommittee (p : json) (pool secret : string) : M Host (list Committee.CommitteeNodeInfo) :=
  catchM (r ← StellarUtils.sorobanInvoke (soroban pool secret "get_committee" [] true);
          j ← liftR (parseJson (StellarUtils.returnValue r));
          liftR (committeeOf j))
    (fun e => throwM (Error None ("MPC batch " +:+ str p "batchId" +:+ ": failed to pin committee from pool.get_committee(): " +:+ message e))).
Definition batchOf (p : json) (ms : list Committee.MatchResult) (sigs : list Committee.NodeSignature) : Committee.SignedMatchBatch :=
  Committee.mkBatch (str p "batchId") (str p "sessionId") ms (str p "batchHash") sigs.
Definition verifyBatch (id : string) (p : json) (pool secret : string) : M Worker (list Committee.NodeSignature) :=
  ms ← onHost (batchMatches p);
  committee ← onHost (pinCommittee p pool secret);
  sigs ← liftR (signaturesOf (field p "signatures"));
  let count := toString (Z.of_nat (length sigs)) in
  valid ← liftR (Committee.verifySignedBatch (batchOf p ms sigs) committee);
  guardM valid
    (Error None ("MPC batch " +:+ str p "batchId" +:+ ": signature verification failed (" +:+ count +:+ " sigs, need ≥2/3)")) ;;
  setStatus id "verified_signatures" ("batch " +:+ str p "batchId" +:+ " — " +:+ count +:+ " committee sigs valid") ;;
  mret sigs.

(** The proof for the matched pair, when the payload has its inputs; a failure
    to build it is logged and leaves the job without a proof. *)
Definition settlementProof (e : EnvMap) (p : json) (coinAPath coinBPath assocPath : string) : M Host MpcProving.MpcSettlementProof :=
  now ← Host.dateNow;
  leaves ← leavesOrNone;
  coinA ← Proving.coinFromPath coinAPath;
  coinB ← Proving.coinFromPath coinBPath;
  MpcProving.buildMpcSettlementProof
    (MpcProving.mkSettlement coinA coinB leaves assocPath
       (stringOf (nullish (field p "scope") (JStr (orElse (JsMap.get e "POOL_SCOPE") "shade-pool-testnet-v1"))))
       (str p "batchHash") (stringOf (nullish (field p "poolId") (JStr "0"))) (stringOf (nullish (field p "chainId") (JStr "27")))
       (str p "matchedAmount7dp") (stringOf (nullish (field p "deadlineLedger") (JStr "0")))
       (envNullish "SHADE_SCRATCH_DIR" Proving.scratchDir) ("mpc_" +:+ sliceTo 8 (str p "batchId") +:+ "_" +:+ toString now)).
Definition zkProof (e : EnvMap) (id : string) (p : json) : M Worker (option MpcProving.MpcSettlementProof) :=
  match optText p "coinAPath", optText p "coinBPath", optText p "assocPath" with
  | Some a, Some b, Some assoc =>
      proof ← catchM (setStatus id "proving" ("generating mpc_settlement ZK proof for batch " +:+ str p "batchId") ;;
                      pr ← onHost (settlementProof e p a b assoc); mret (Some pr)) (fun _ => mret None);
      match proof with
      | None => mret None
      | Some pr =>
          catchM (setStatus id "proof_ready"
            ("ZK proof generated — locally verified: " +:+ (if MpcProving.locallyVerified pr then "true" else "false") +:+
             ", nullifierA: " +:+ sliceTo 10 (MpcProving.nullifierHashAHex pr) +:+ "…")) (fun _ => mret tt) ;;
          mret (Some pr)
      end
  | _, _, _ => mret None
  end.
Definition proofText (o : option MpcProving.MpcSettlementProof) (f : MpcProving.MpcSettlementProof -> string) : option string :=
  truthyOpt (f <$> o).
Definition unsafeProofless : bool := env "ENABLE_UNSAFE_PROOFLESS_MPC_SETTLE" ==? Some "true".
(** The pair's note data, all present. *)
Definition noteData (p : json) : option (string * string * string * string) :=
  match optText p "nullifierA", optText p "nullifierB", optText p "outputCommitmentA", optText p "outputCommitmentB" with
  | Some nA, Some nB, Some cA, Some cB => Some (nA, nB, cA, cB)
  | _, _, _, _ => None
  end.
Definition jsonOrNull (o : option string) : string := match o with Some s => stringify (JStr s) | None => "null" end.
Definition hexList (l : list string) : string := stringify (JArr (map (fun s => JStr (strip0x s)) l)).
Definition settleArgs (p : json) (nA nB cA cB newRoot : string) (sigs : list Committee.NodeSignature) (proofHex publicHex : option string) : list string :=
  ["--nullifier_a"; strip0x nA; "--nullifier_b"; strip0x nB; "--output_commitment_a"; strip0x cA; "--output_commitment_b"; strip0x cB;
   "--new_root"; newRoot; "--batch_hash"; strip0x (str p "batchHash"); "--signer_pubkeys"; hexList (map Committee.s_signingPubkey sigs);
   "--signatures"; hexList (map Committee.signature sigs); "--proof_bytes"; jsonOrNull proofHex; "--pub_signals_bytes"; jsonOrNull publicHex].
Definition settledReply (p : json) (hash : string) (proof : option MpcProving.MpcSettlementProof) : json :=
  let ok := JBool (match proof with Some pr => MpcProving.locallyVerified pr | None => false end) in
  JObj [("settled", JBool true); ("onChain", JBool true); ("batchId", field p "batchId"); ("matchIndex", field p "matchIndex");
        ("txHash", JStr hash); ("nullifierA", field p "nullifierA"); ("nullifierB", field p "nullifierB");
        ("zkProof", match proofText proof MpcProving.proofHex with
                    | Some _ => JObj [("generated", JBool true); ("verified", ok)] | None => JObj [("generated", JBool false)] end);
        ("note", JStr (match proofText proof MpcProving.proofHex with
                       | Some _ => "pool.mpc_settle confirmed with ZK proof (verified=" +:+ stringOf ok +:+ ")"
                       | None => "pool.mpc_settle submitted WITHOUT proof (ENABLE_UNSAFE_PROOFLESS_MPC_SETTLE dev-only; on-chain settle will reject this)" end))].
Definition prooflessRefused : error := Error None
  "mpc_settlement proof generation failed or circuit artifacts missing; refusing to submit proofless mpc_settle (build circuits/mpc_settlement and supply coin/assoc witness paths; ENABLE_UNSAFE_PROOFLESS_MPC_SETTLE is dev-only and must never be used in E2E acceptance)".
Definition noteMissing (p : json) : error :=
  Error None ("MPC batch " +:+ str p "batchId" +:+ " match[" +:+ str p "matchIndex" +:+ "]: note data missing from DB — intent not submitted through API").
Definition mpcSettle (e : EnvMap) (id : string) (p : json) (pool secret : string) : M Worker json :=
  sigs ← verifyBatch id p pool secret;
  proof ← zkProof e id p;
  match noteData p with
  | None => throwM (noteMissing p)
  | Some (nA, nB, cA, cB) =>
      let proofHex := proofText proof MpcProving.proofHex in
      let publicHex := proofText proof MpcProving.publicHex in
      guardM ((bool_decide (is_Some proofHex) && bool_decide (is_Some publicHex)) || unsafeProofless) prooflessRefused ;;
      setStatus id "submitting" ("pool.mpc_settle match[" +:+ str p "matchIndex" +:+ "]") ;;
      newRoot ← onHost (computeMpcRoot cA cB);
      r ← onHost (StellarUtils.sorobanInvoke (soroban pool secret "mpc_settle" (settleArgs p nA nB cA cB newRoot sigs proofHex publicHex) false));
      mret (settledReply p (StellarUtils.txHash r) proof)
  end.

(** ** The worker *)
Definition processRelayerJob (job : JobQueue.ServiceJob) : M Worker json :=
  e ← onHost loadEnv;
  let p := JobQueue.payload job in
  let id := JobQueue.job_id job in
  let jobType := JobQueue.job_type job in
  let pool := match field p "pool" with JNull => truthyOpt (JsMap.get e "SHIELDED_POOL_CONTRACT") | _ => optText p "pool" end in
  match pool, truthyOpt (JsMap.get e "STELLAR_RELAYER_SECRET") with
  | Some pool, Some secret =>
      if (jobType ==? "CCTP_INBOUND") || JsSet.has INBOUND_ALIASES jobType then cctpInbound e id p pool
      else if (jobType ==? "WITHDRAW_PUBLIC_SUBMIT") || (jobType ==? "WITHDRAW_CCTP_BURN") then withdrawSubmit id jobType p
      else if jobType ==? "RFQ_SETTLE_SUBMIT" then rfqSettle id p pool secret
      else if jobType ==? "RFQ_ATOMIC_SWAP_SUBMIT" then rfqAtomicSwap id p pool secret
      else if jobType ==? "CCTP_OUTBOUND_ATTESTATION" then outboundAttestation e id p
      else if jobType ==? "CCTP_OUTBOUND_MINT" then outboundMint id p
      else if jobType ==? "CCTP_INBOUND_AFTER_USER_BURN" then afterUserBurn e id p pool
      else if jobType ==? "MPC_SETTLE_SUBMIT" then mpcSettle e id p pool secret
      else failM ("unknown relayer job type " +:+ jobType)
  | _, _ => failM "relayer missing SHIELDED_POOL_CONTRACT / STELLAR_RELAYER_SECRET"
  end.
Definition runJob (job : JobQueue.ServiceJob) : M Worker unit :=
  result ← processRelayerJob job;
  onQueue (JobQueue.complete (JobQueue.job_id job) result "ready") ;; mret tt.
Definition runRelayerOnce : M Worker bool := runOnce JobQueue.relayer RELAYER_JOB_TYPES runJob.
Definition runRelayerLoop (fuel : nat) (intervalMs : Z) : M Worker unit := runLoop fuel intervalMs JobQueue.relayer RELAYER_JOB_TYPES runJob.

(** ** A job only touches its own row *)
Ltac held_step :=
  first [ apply preserves_onNet | apply preserves_onHost | apply preserves_lift | apply preserves_ret | apply preserves_throw
        | apply preserves_guard | apply held_setStatus; reflexivity | apply held_complete; reflexivity
        | apply preserves_catch; [|intros ?] | apply preserves_bind; [|intros ?] ].
Ltac held := repeat first [held_step | progress (unfold failM) | case_match].
Lemma held_verifyBatch id d0 p pool secret : preserves (held id d0) (verifyBatch id p pool secret).
Proof. unfold verifyBatch. held. Qed.
Lemma held_zkProof id d0 e p : preserves (held id d0) (zkProof e id p).
Proof. unfold zkProof. held. Qed.
Lemma held_mpcSettle id d0 e p pool secret : preserves (held id d0) (mpcSettle e id p pool secret).
Proof.
  unfold mpcSettle. apply preserves_bind; [apply held_verifyBatch|intros sigs]. apply preserves_bind; [apply held_zkProof|intros proof].
  held.
Qed.
Lemma held_runJob job d0 : preserves (held (JobQueue.job_id job) d0) (runJob job).
Proof.
  unfold runJob, processRelayerJob. apply preserves_bind; [|intros r; held]. apply preserves_bind; [held|intros e]. cbv zeta.
  repeat case_match; try apply held_mpcSettle;
    unfold cctpInbound, withdrawSubmit, rfqSettle, rfqAtomicSwap, submit, outboundAttestation, outboundMint, afterUserBurn; held.
Qed.

(** A turn of the relayer never throws: with nothing to claim it changes
    nothing; otherwise it claims one job of its types, leaves every other row
    alone, and either stores the job's result as ready, or puts the error in
    its row, to be retried after the backoff or failed for good. *)
Theorem relayer_turn w r w' :
  JobQueue.wf (db w) -> runRelayerOnce w = (r, w') -> turn JobQueue.relayer RELAYER_JOB_TYPES runJob w r w'.
Proof. intros Hwf. apply runOnce_turn; [done|]. intros j d0. apply held_runJob. Qed.

(** ** What a settlement rests on *)
Lemma onHost_Ok {A} (m : M Host A) w a w' :
  onHost m w = (Ok a, w') -> exists h', m (Evm.host (net w)) = (Ok a, h') /\ db w' = db w /\ Evm.host (net w') = h'.
Proof.
  unfold onHost, onNet, Evm.onHost. destruct (m (Evm.host (net w))) as [r h']. intros [= -> <-]. by exists h'.
Qed.
(** The pool answered [get_committee] with these keys. *)
Definition onChain (pool secret : string) (committee : list Committee.CommitteeNodeInfo) : Prop :=
  exists i j, let x := spawn i "stellar" (StellarUtils.cliArgs (soroban pool secret "get_committee" [] true)) StellarUtils.cargoPath in
    exit_status x = Some 0 /\ parse (trim (exit_stdout x)) = Some j /\ committeeOf j = Ok committee.
Lemma committeeOf_nonempty j c : committeeOf j = Ok c -> c ≠ [].
Proof.
  destruct j as [| | | |[|k l]|]; try done. unfold committeeOf. cbn [Leaves.mapOk].
  destruct k; try done. cbn. destruct (Leaves.mapOk _ l); [|done]. cbn. by intros [= <-].
Qed.
Lemma pinCommittee_Ok p pool secret h c h' :
  pinCommittee p pool secret h = (Ok c, h') -> onChain pool secret c /\ c ≠ [].
Proof.
  unfold pinCommittee. intros [Hr|(e & s1 & _ & He)]%catchM_Ok; [|done]. bind_ok Hr as r h1 Er. lift_ok Hr as j Ej.
  apply liftR_Ok in Hr as [Hc ->]. split; [|by eapply committeeOf_nonempty]. apply StellarUtils.invoke_returns in Er as (_ & i & _ & Hr1 & Hr2 & _).
  exists i, j. cbv zeta. split; [exact Hr1|]. split; [|done]. unfold parseJson in Ej. rewrite Hr2 in Ej. destruct (parse _); congruence.
Qed.
(** The matches the signatures are checked against: the stored ones, or the
    payload's own when the database has none. *)
Definition matchesFor (p : json) (ms : list Committee.MatchResult) : Prop :=
  (exists k d row arr, Leaves.tablesAt k = Ok d /\ row ∈ table d "mpc_batches" /\ get row "batch_id" = JStr (str p "batchId") /\
     arrayOf (get row "matches_json") = Ok arr /\ Leaves.mapOk matchOf arr = Ok ms) \/
  ms = [payloadMatch p] \/ ms = [].
Lemma batchMatches_Ok p h ms h' : batchMatches p h = (Ok ms, h') -> matchesFor p ms.
Proof.
  unfold batchMatches. intros Hr. bind_ok Hr as stored h1 E. apply ret_Ok in Hr as [-> _].
  destruct stored as [|m l]; [right; case_match; [by left|by right]|left].
  apply catchM_Ok in E as [E|(e & s1 & _ & He)]; [|by apply ret_Ok in He as [? _]].
  unfold storedMatches in E. bind_ok E as rows h2 Eq. destruct rows as [|row rows]; [by apply ret_Ok in E as [? _]|].
  cbv zeta in E. destruct (truthyJson _); [|by apply ret_Ok in E as [? _]]. cbn [negb] in E. lift_ok E as arr Ea.
  apply liftR_Ok in E as [Em _]. unfold Leaves.query in Eq. bind_ok Eq as k h3 Ek. lift_ok Eq as d Ed. apply liftR_Ok in Eq as [Es _].
  unfold select in Es. simpl in Es. injection Es as Es. assert (row ∈ selectWhere (eqText "batch_id" (str p "batchId")) (table d "mpc_batches")) as Hin.
  { rewrite Es. by left. }
  apply elem_of_selectWhere in Hin as [Hin Hid]. apply eqText_true in Hid. exists k, d, row, arr. by split_and!.
Qed.

(** A settlement that was submitted: what it was checked and what it sends. *)
Record settlement (p : json) (pool secret : string) (res : json) (committee : list Committee.CommitteeNodeInfo)
    (sigs : list Committee.NodeSignature) (ms : list Committee.MatchResult) : Prop := {
  st_committee : onChain pool secret committee /\ committee ≠ [];
  st_matches : matchesFor p ms;
  st_signatures : signaturesOf (field p "signatures") = Ok sigs;
  st_verified : Committee.verified (batchOf p ms sigs) committee;
  st_sent : exists nA nB cA cB newRoot proof i hash,
    noteData p = Some (nA, nB, cA, cB) /\
    let proofHex := proofText proof MpcProving.proofHex in
    let publicHex := proofText proof MpcProving.publicHex in
    (unsafeProofless = true \/ is_Some proofHex /\ is_Some publicHex) /\
    let o := soroban pool secret "mpc_settle" (settleArgs p nA nB cA cB newRoot sigs proofHex publicHex) false in
    StellarUtils.isTxHash hash /\ StellarUtils.printedBy o i hash /\ res = settledReply p hash proof }.

Lemma verifyBatch_Ok id p pool secret w sigs w' :
  verifyBatch id p pool secret w = (Ok sigs, w') ->
  exists committee ms, (onChain pool secret committee /\ committee ≠ []) /\ matchesFor p ms /\
    signaturesOf (field p "signatures") = Ok sigs /\ Committee.verified (batchOf p ms sigs) committee.
Proof.
  unfold verifyBatch. intros Hr. bind_ok Hr as ms w1 E1. apply onHost_Ok in E1 as (h1 & E1%batchMatches_Ok & _).
  bind_ok Hr as c w2 E2. apply onHost_Ok in E2 as (h2 & E2%pinCommittee_Ok & _). lift_ok Hr as sg Es. cbv zeta in Hr.
  lift_ok Hr as valid Hv. bind_ok Hr as u w3 E3. apply guardM_Ok in E3 as [-> ->]. bind_ok Hr as u4 w4 E4. apply ret_Ok in Hr as [-> _].
  exists c, ms. split; [done|]. split; [done|]. split; [done|]. by apply Committee.verified_iff.
Qed.
Lemma mpcSettle_Ok e id p pool secret w res w' :
  mpcSettle e id p pool secret w = (Ok res, w') -> exists committee sigs ms, settlement p pool secret res committee sigs ms.
Proof.
  unfold mpcSettle. intros Hr. bind_ok Hr as sigs w1 E1. apply verifyBatch_Ok in E1 as (c & ms & Hc & Hm & Hs & Hv).
  bind_ok Hr as proof w2 _E2. destruct (noteData p) as [[[[nA nB] cA] cB]|] eqn:En; [|done]. cbv zeta in Hr.
  bind_ok Hr as u w3 E3. apply guardM_Ok in E3 as [Hg ->]. bind_ok Hr as u4 w4 _E4. bind_ok Hr as root w5 _E5. bind_ok Hr as r w6 E6.
  apply ret_Ok in Hr as [-> _]. apply onHost_Ok in E6 as (h6 & E6%StellarUtils.invoke_returns & _). destruct E6 as (_ & i & _ & Hr1 & _ & Hr3).
  exists c, sigs, ms. split; try done. exists nA, nB, cA, cB, root, proof, i, (StellarUtils.txHash r). split; [done|]. cbv zeta. split.
  - apply orb_true_iff in Hg as [[Hg1 Hg2]%andb_true_iff|Hg]; [right|by left]. by apply bool_decide_eq_true in Hg1, Hg2.
  - destruct (StellarUtils.parseSorobanTx _) eqn:Ep; [|by destruct Hr3]. destruct Hr3 as [<- Ht]. split; [done|]. split; [|done]. split; [exact Hr1|].
    by apply StellarUtils.parseSorobanTx_finds in Ep as [].
Qed.
Lemma processMpc_Ok job w res w' :
  JobQueue.job_type job = "MPC_SETTLE_SUBMIT" -> processRelayerJob job w = (Ok res, w') ->
  exists e id pool secret w1, mpcSettle e id (JobQueue.payload job) pool secret w1 = (Ok res, w').
Proof.
  unfold processRelayerJob. intros Ht Hr. bind_ok Hr as e w1 E1. cbv zeta in Hr. rewrite Ht in Hr.
  destruct (match field _ "pool" with JNull => _ | _ => _ end) as [pool|]; [|done]. destruct (truthyOpt _) as [secret|]; [|done].
  cbn in Hr. by exists e, (JobQueue.job_id job), pool, secret, w1.
Qed.

(** C4. A batch is settled only as its committee signed it.  When a settlement
    job succeeds, the pool's own answer gave a committee with a member, and the
    batch - the stored matches of its id, or the payload's - carries distinct
    valid signatures of at least two thirds of it; both parties' note data were
    there, with a proof unless the development flag is set; and the reported
    hash is one the network printed for the call with exactly these notes, this
    hash, these signatures and this proof. *)
Theorem mpc_settle_gate job w res w' :
  JobQueue.job_type job = "MPC_SETTLE_SUBMIT" -> processRelayerJob job w = (Ok res, w') ->
  exists pool secret committee sigs ms, settlement (JobQueue.payload job) pool secret res committee sigs ms /\ sigs ≠ [].
Proof.
  intros Ht Hr. destruct (processMpc_Ok _ _ _ _ Ht Hr) as (e & id & pool & secret & w1 & Hm).
  destruct (mpcSettle_Ok _ _ _ _ _ _ _ _ Hm) as (c & sigs & ms & Hs). exists pool, secret, c, sigs, ms. split; [done|].
  intros ->. destruct (st_committee _ _ _ _ _ _ _ Hs) as [_ Hne]. destruct (st_verified _ _ _ _ _ _ _ Hs) as (_ & _ & Hq).
  destruct c; [done|]. simpl in Hq. lia.
Qed.

(** ** The settler's payloads carry no proof inputs *)
Lemma settlePayload_noProof e id batch sigs i m noteA noteB :
  zkProof e id (Settler.settlePayload batch sigs i m noteA noteB) = mret None.
Proof. reflexivity. Qed.

(** C17. Unless the development flag is set, no settlement job that the
    committee's settler queues can succeed: its payload has no paths of the
    coins and the association set, so there is never a proof to attach, and
    every run of it fails, whatever the state of the machine. *)
Theorem settler_jobs_refused `{Uuid} {uuid_inj : Inj (=) (=) uuidOf} batch sigs ms d d' j w :
  Settler.freshIds d -> get batch "matches_json" = JArr ms -> get batch "signatures_json" = JArr sigs ->
  Settler.queueSettlementJobs batch d = (Ok tt, d') -> j ∈ Settler.jobsOf d' -> j ∉ Settler.jobsOf d ->
  unsafeProofless = false ->
  forall job, JobQueue.payload job = JobQueue.payload j -> JobQueue.job_type job = JobQueue.job_type j ->
  exists e, (processRelayerJob job w).1 = Throw e.
Proof.
  intros Hf Hm Hs Hrun Hj Hn Hu job Hp Ht.
  destruct (Settler.queueSettlementJobs_run batch sigs ms d Hf Hm Hs) as (d1 & d2 & new & Hq & Hrun' & Hqq & _).
  assert (d2 = d') as -> by congruence. unfold Settler.jobsOf in Hj. rewrite Hqq in Hj. fold (Settler.jobsOf d1) in Hj.
  rewrite (Settler.q_jobs _ _ _ _ _ _ _ Hq) in Hj. apply elem_of_app in Hj as [?|Hj]; [done|].
  destruct (Settler.q_new _ _ _ _ _ _ _ Hq j Hj) as (n & m & u & _ & _ & -> & _). simpl in Hp, Ht.
  destruct (processRelayerJob job w) as [[res|e] w'] eqn:E; [exfalso|by exists e].
  destruct (processMpc_Ok _ _ _ _ Ht E) as (e & id & pool & secret & w1 & Hrm). rewrite Hp in Hrm. unfold mpcSettle in Hrm.
  bind_ok Hrm as sg w2 E1. rewrite settlePayload_noProof in Hrm. bind_ok Hrm as proof w3 E2. apply ret_Ok in E2 as [-> ->].
  destruct (noteData _) as [[[[nA nB] cA] cB]|]; [|done]. cbv zeta in Hrm. bind_ok Hrm as v w4 E3. apply guardM_Ok in E3 as [Hg _].
  rewrite Hu in Hg. done.
Qed.

(** ** Two silences of the code, as lemmas *)
(** With the database unreachable the new root is computed over the two new
    leaves alone, as if the pool were empty. *)
Lemma leavesOrNone_unreachable h :
  (forall k, exists e, Leaves.tablesAt k = Throw e) -> exists h', leavesOrNone h = (Ok [], h').
Proof.
  intros Hd. unfold leavesOrNone, catchM, Leaves.decimalLeaves, Leaves.query, nextTick, mbind, M_bind, liftR.
  destruct (Hd (tick h)) as [e ->]. by eexists.
Qed.
(** What a stored match loses when the worker reloads it. *)
Definition unpriced (m : Committee.MatchResult) : Committee.MatchResult :=
  Committee.mkMatch (Committee.intentAId m) (Committee.intentBId m) (Committee.matchedAmount7dp m) (Committee.m_inputAsset m)
    (Committee.m_outputAsset m) None None None.
Lemma reload_unpriced ms : Leaves.mapOk matchOf (map Settler.matchJson ms) = Ok (map unpriced ms).
Proof.
  apply Leaves.mapOk_Forall2. induction ms as [|m ms IH]; constructor; [|exact IH]. by destruct m as [a b c d e [?|] [?|] [?|]].
Qed.
(** A batch with a price in it no longer hashes to what its committee signed. *)
Lemma reload_changes_hash id ms m :
  m ∈ ms -> Committee.priceScaled m ≠ None -> Committee.priceScaled m ≠ Some "" ->
  Committee.computeBatchHash id (map unpriced ms) = Committee.computeBatchHash id ms -> Collision.
Proof.
  intros Hin Hp Hp'. unfold Committee.computeBatchHash. intros [E|Hc]%sha256_binds; [exfalso|done].
  apply (inj stringify) in E. apply Committee.canonical_inj in E as [_ E].
  assert (Committee.toRow m ∈ Committee.toRow <$> ms) as Hr by (by apply list_elem_of_fmap_2). rewrite <- E in Hr.
  apply list_elem_of_fmap in Hr as (m' & Em & Hm'). apply list_elem_of_In, in_map_iff in Hm' as (m0 & <- & _).
  apply (f_equal Committee.r_price) in Em. simpl in Em. destruct (Committee.priceScaled m); simpl in Em; congruence.
Qed.
End Relayer.

(** ** Witnesses *)
#[local] Existing Instance CctpInbound.toyStrKey.
#[local] Existing Instance CctpInbound.toyIris.
#[local] Existing Instance Evm.toyEvm.
#[local] Existing Instance ToyRuntime.toy_random.
#[local] Existing Instance toyUuid.
Import Toy.
#[local] Instance toyRpc : StellarActions.SorobanRpc := {|
  StellarActions.prepareInvoke k n s c m p := Ok "xdr"; StellarActions.sendTransaction k n x := Ok ("h", "PENDING");
  StellarActions.getTransaction k n h := Ok "SUCCESS" |}.
Definition toyCommittee : string := stringify (JArr [JStr (hexEncode (fit "n1")); JStr (hexEncode (fit "n2")); JStr (hexEncode (fit "n3"))]).
#[local] Instance toyMachine : Os := {|
  cwd := "/"; clock k := 0; execFile k cmd args fs := (Ok (if bool_decide ("compute-root" ∈ args) then "5" else "OK!"), fs);
  spawn k c a p := mkExit (Some 0) (if bool_decide ("get_committee" ∈ a) then toyCommittee else "")
                     ("Transaction hash is " +:+ repeatString 64 "b"%char) |}.
Definition toyProcess : EnvMap :=
  [("SHADE_ROOT", "/r"); ("SHADE_SCRATCH_DIR", "/s"); ("SHIELDED_POOL_CONTRACT", "CPOOL"); ("STELLAR_RELAYER_SECRET", "SRELAYER")].
Definition toyMatch : Committee.MatchResult := Committee.mkMatch "a" "b" "500" "USDC" "USDC" None None None.
#[local] Instance toyTables : Leaves.Tables := fun _ => Ok (setTable "mpc_batches"
  [[("batch_id", JStr "batch-1"); ("matches_json", JArr [Settler.matchJson toyMatch])]] (emptyDB 7)).
Definition toySigs : list Committee.NodeSignature :=
  Committee.signBatch "batch-1" [toyMatch] <$> [Committee.node "n1"; Committee.node "n3"].
Definition toyCoin : string := stringify (JObj [("commitment_hex", JStr "0x1"); ("coin", JObj [("commitment", JStr "1"); ("value", JStr "500");
  ("label", JStr "1"); ("nullifier", JStr "2"); ("secret", JStr "3"); ("asset_id", JStr "9")])]).
Definition toyPayload : json := JObj
  [("batchId", JStr "batch-1"); ("batchHash", JStr ("0x" +:+ repeatString 64 "1"%char)); ("signatures", JArr (map Settler.signatureJson toySigs));
   ("matchIndex", JNum 0); ("sessionId", JStr "s-1"); ("intentAId", JStr "a"); ("intentBId", JStr "b"); ("matchedAmount7dp", JStr "500");
   ("inputAsset", JStr "USDC"); ("outputAsset", JStr "USDC"); ("nullifierA", JStr "0x0a"); ("nullifierB", JStr "0x0b");
   ("outputCommitmentA", JStr "0x0c"); ("outputCommitmentB", JStr "0x0d"); ("coinAPath", JStr "/a.json"); ("coinBPath", JStr "/b.json");
   ("assocPath", JStr "/assoc.json")].
Definition toyFiles : gmap string string := list_to_map
  [("/a.json", toyCoin); ("/b.json", toyCoin); ("/s/mpc_batch-1_0_mpc_coinA_withdraw.json", "{}"); ("/s/mpc_batch-1_0_mpc_coinB_withdraw.json", "{}");
   ("/s/mpc_batch-1_0_mpc_public.json", stringify (JArr [JStr "1"; JStr "2"; JStr "3"; JStr "4"]));
   ("/r/circuits/mpc_settlement/build/main_js/main.wasm", ""); ("/r/circuits/mpc_settlement/output/main_final.zkey", "");
   ("/r/circuits/mpc_settlement/output/main_verification_key.json", "")].
Definition toyWorker (p : json) : Worker :=
  mkWorker (JobQueue.enqueue "job-1" JobQueue.relayer "MPC_SETTLE_SUBMIT" p None (JobQueue.emptyDB 0)).2 (Evm.mkNet (mkHost toyFiles 0) []).
Definition toyJob (p : json) : JobQueue.ServiceJob := JobQueue.newJob "job-1" JobQueue.relayer "MPC_SETTLE_SUBMIT" p None 0.
Lemma mpc_settle_gate_witness : exists res w',
  processRelayerJob toyProcess (toyJob toyPayload) (toyWorker toyPayload) = (Ok res, w') /\
  exists pool secret committee sigs ms, settlement toyProcess toyPayload pool secret res committee sigs ms /\ sigs ≠ [].
Proof.
  destruct (processRelayerJob toyProcess (toyJob toyPayload) (toyWorker toyPayload)) as [[res|e] w'] eqn:E.
  - exists res, w'. split; [reflexivity|]. exact (mpc_settle_gate toyProcess (toyJob toyPayload) (toyWorker toyPayload) res w' eq_refl E).
  - exfalso. apply (f_equal fst) in E. vm_compute in E. discriminate E.
Defined.
(** The job of the settler's direct match, on the same machine. *)
Definition queuedJob : JobQueue.ServiceJob :=
  Settler.settleJob Settler.settleDB Settler.batch1 [] 1 Settler.directMatch "uuid-0".
Lemma settler_jobs_refused_witness :
  exists e, (processRelayerJob toyProcess queuedJob (toyWorker (JobQueue.payload queuedJob))).1 = Throw e.
Proof.
  refine (settler_jobs_refused toyProcess (uuid_inj := Settler.toyUuid_inj) Settler.batch1 [] [Settler.rfqMatch; Settler.directMatch]
            Settler.settleDB (Settler.queueSettlementJobs Settler.batch1 Settler.settleDB).2 queuedJob _ _ _ _ _ _ _ _ queuedJob eq_refl eq_refl).
  - exact Settler.settleDB_fresh.
  - reflexivity.
  - reflexivity.
  - vm_compute. reflexivity.
  - vm_compute. left.
  - apply not_elem_of_nil.
  - reflexivity.
Defined.
Lemma relayer_turn_witness :
  turn JobQueue.relayer RELAYER_JOB_TYPES (runJob toyProcess) (toyWorker toyPayload)
    (runRelayerOnce toyProcess (toyWorker toyPayload)).1 (runRelayerOnce toyProcess (toyWorker toyPayload)).2.
Proof.
  apply relayer_turn; [|apply surjective_pairing].
  apply JobQueue.preserves_enqueue. apply JobQueue.wf_empty.
Defined.
End Relayer.
