(* ===== verification/Auditor.v ===== *)
(** * The root auditor (apps/root-auditor)

    The leaves the pool emitted, or the registrar's record of them, are hashed
    again and compared with the root the registrar stored on chain; the outcome
    is stored where the API looks before it lets anyone spend.  Theorem: an
    audit is OK exactly when the on-chain root is one of the two admissible
    recomputed roots, and a failed audit that is stored closes the API's gate. *)
From S2P Require Import Prelude JsText JsCollections Json Crypto Base64 JobQueue Database Runtime Host Field StellarUtils Store Privy ApiAuth CctpInbound Proving Leaves.
From Stdlib Require Import Ascii Sorting.Sorted.
Import JsText JsArray Json Crypto Database Runtime Host Field.

Module Auditor.

Record DepositLeaf := mkLeaf { leafIndex : Z; commitmentDecimal : string; commitmentHex : string }.
Inductive source := events | db.
Inductive status := OK | ROOT_MISMATCH_CRITICAL.
#[export] Instance status_eq_dec : EqDecision status.
Proof. solve_decision. Defined.
Record AuditResult := mkAudit {
  poolContract : string; leafCount : Z; a_source : source; recomputedRootHex : string; onchainRootHex : string;
  a_status : status; a_detail : string }.
Definition sourceText (s : source) : string := match s with events => "events" | db => "db" end.
Definition statusText (s : status) : string := match s with OK => "OK" | ROOT_MISMATCH_CRITICAL => "ROOT_MISMATCH_CRITICAL" end.

(** The Soroban RPC: events with the text of their first topic and their data
    decoded by [scValToNative], when it is an array; a page is asked for by
    start ledger or by cursor. *)
Inductive Native := NBytes (b : bytes) | NInt (z : Z) | NOther.
Record Event := mkEvent { topic0 : string; ev_data : option (list Native) }.
Record Page := mkPage { pageEvents : list Event; pageCursor : option string }.
Class PoolEvents := {
  latestLedger : Z -> string -> result Z;
  getEvents : Z -> string -> string -> Z + string -> result Page }.
(** Whether the database answers at the [k]-th call. *)
Class Connection := connectedAt : Z -> bool.

(** The auditor's machine, and the database it shares with the API. *)
Record Auditor := mkAuditor { a_host : Host; a_db : DB }.
Definition onHost {A} (m : M Host A) : M Auditor A := fun a => let '(r, h) := m (a_host a) in (r, mkAuditor h (a_db a)).
Definition connected {A} (m : M DB A) : M Auditor A := fun a => let '(r, d) := m (a_db a) in (r, mkAuditor (a_host a) d).
Definition onDb `{Connection} {A} (m : M DB A) : M Auditor A :=
  k ← onHost nextTick;
  if connectedAt k then connected m else failM "connect ECONNREFUSED".

Section Audit.
Context `{Os} `{PoolEvents} `{Connection} `{Uuid}.
Context (processEnv : EnvMap).
#[local] Instance processEnvironment : Env := envOf processEnv.

Definition SHADE_ROOT : string := envNullish "SHADE_ROOT" cwd.
Definition ZK_REF : string := envNullish "SHADE_ZK_REF" (resolve SHADE_ROOT ".zk-ref/soroban-examples/privacy-pools").
Definition COINUTILS_BIN : string := envNullish "COINUTILS_BIN" (resolve ZK_REF "target/release/stellar-coinutils").
Definition SHADE_SCRATCH_DIR : string := envNullish "SHADE_SCRATCH_DIR" (resolve SHADE_ROOT ".scratch").
Definition scratchDir : string := SHADE_SCRATCH_DIR.

(** ** The root of a list of commitments *)
Definition statePath : string := scratchDir +:+ "/audit_state.json".
Definition emptyRoot : string := "0x" +:+ repeatString 64 "0"%char.
Definition recomputeRoot (commitmentsDecimal : list string) : M Host string :=
  match commitmentsDecimal with
  | [] => mret emptyRoot
  | _ =>
      writeFileSync statePath (Proving.stateText commitmentsDecimal "audit") ;;
      out ← execFileSync COINUTILS_BIN ["compute-root"; statePath];
      n ← liftR (BigInt (trim out));
      mret ("0x" +:+ hex32 n)
  end.

(** ** The leaves the pool emitted *)
Definition LeafMap := JsMap.t Z DepositLeaf.
(** One event; [None] stands for an exception of [Buffer.from] or [BigInt]. *)
Definition leafOf (ev : Event) : result (option DepositLeaf) :=
  if negb (topic0 ev ==? "deposit") then Ok None
  else match ev_data ev with
  | None => Ok None
  | Some data =>
      if Z.of_nat (length data) <? 7 then Ok None
      else match nth 3 data NOther, nth 6 data NOther with
      | NBytes b, NInt i =>
          n ← BigInt ("0x" +:+ hexEncode b); Ok (Some (mkLeaf i (toString n) ("0x" +:+ hexEncode b)))
      | _, _ => Throw (Error None "TypeError: unexpected deposit event")
      end
  end.
(** The events of a page, up to one that throws: the leaves, how many were
    found, and whether all were read. *)
Fixpoint readPage (evs : list Event) (m : LeafMap) (got : Z) : LeafMap * Z * bool :=
  match evs with
  | [] => (m, got, true)
  | ev :: evs =>
      match leafOf ev with
      | Throw _ => (m, got, false)
      | Ok None => readPage evs m got
      | Ok (Some l) => readPage evs (JsMap.set m (leafIndex l) l) (got + 1)
      end
  end.
Fixpoint readPages (fuel : nat) (pool rpcUrl : string) (from : Z + string) (m : LeafMap) (got : Z) : M Host (LeafMap * Z * bool) :=
  match fuel with
  | O => mret (m, got, true)
  | S f =>
      k ← nextTick;
      match getEvents k rpcUrl pool from with
      | Throw _ => mret (m, got, false)
      | Ok page =>
          let '(m, got, ok) := readPage (pageEvents page) m got in
          match ok, truthyOpt (pageCursor page), pageEvents page with
          | true, Some c, _ :: _ => readPages f pool rpcUrl (inr c) m got
          | _, _, _ => mret (m, got, ok)
          end
      end
  end.
(** The first window the RPC accepts and that has a deposit. *)
Fixpoint readWindows (pool rpcUrl : string) (latest : Z) (backs : list Z) (m : LeafMap) : M Host LeafMap :=
  match backs with
  | [] => mret m
  | back :: backs =>
      r ← readPages 50 pool rpcUrl (inl (Z.max 1 (latest - back))) m 0;
      let '(m, got, ok) := r in
      if ok && (0 <? got) then mret m else readWindows pool rpcUrl latest backs m
  end.
(** [parseInt(n, 10)]: the leading digits; anything else is filtered out. *)
Fixpoint leadingDigits (s : string) : string :=
  match s with String c s' => if isDigit c then String c (leadingDigits s') else "" | "" => "" end.
Definition positiveInt (s : string) : option Z :=
  n ← parseRadix 10 (leadingDigits (match trimStart s with String "+" r => r | r => r end));
  if 0 <? n then Some n else None.
Definition lookbacks : list Z := omap positiveInt (splitOn ","%char (envNullish "ROOT_AUDIT_LOOKBACKS" "9000,4000,2000")).
Definition byLeaf (ls : list DepositLeaf) : list DepositLeaf := sortBy (fun a b => leafIndex a - leafIndex b) ls.
Definition readDepositLeavesFromEvents (pool rpcUrl : string) : M Host (list DepositLeaf) :=
  k ← nextTick;
  latest ← liftR (latestLedger k rpcUrl);
  m ← readWindows pool rpcUrl latest lookbacks [];
  mret (byLeaf (JsMap.values m)).

(** ** The comparison *)
Definition norm (h : string) : string := toLowerCase (if startsWith h "0x" then h else "0x" +:+ h).
Definition verdict (pool : string) (src : source) (count : Z) (cumulative latestOnly onchain : string) : AuditResult :=
  let ok := (onchain ==? cumulative) || (onchain ==? latestOnly) in
  let convention := if onchain ==? cumulative then "cumulative" else if onchain ==? latestOnly then "per-deposit (latest leaf)" else "none" in
  mkAudit pool count src cumulative onchain (if ok then OK else ROOT_MISMATCH_CRITICAL)
    (if ok then "on-chain root matches recomputed root (" +:+ convention +:+ ") over " +:+ toString count +:+ " leaf/leaves"
     else "on-chain root " +:+ onchain +:+ " matches neither cumulative (" +:+ cumulative +:+ ") nor latest-leaf (" +:+ latestOnly
          +:+ ") recomputation over " +:+ toString count +:+ " leaves").
Definition compareRoots (pool : string) (leaves : list DepositLeaf) (onchain : string) (src : source) : M Host AuditResult :=
  let ordered := byLeaf leaves in
  cumulative ← recomputeRoot (map commitmentDecimal ordered);
  latestOnly ← match last ordered with
               | Some l => r ← recomputeRoot [commitmentDecimal l]; mret (norm r)
               | None => mret (norm cumulative)
               end;
  mret (verdict pool src (Z.of_nat (length ordered)) (norm cumulative) latestOnly (norm onchain)).

(** ** run.ts *)
Definition loadRuntimeEnv : M Host EnvMap := fun h =>
  (Ok (match files h !! ".env.generated" with Some t => parseEnvText true processEnv t | None => processEnv end), h).
Definition readOnchainRoot (pool secret rpcUrl pass : string) : M Host string :=
  res ← StellarUtils.sorobanInvoke (StellarUtils.mkOpts pool secret "get_root" [] (Some rpcUrl) (Some pass) 4 true);
  let raw := CctpInbound.unquote (StellarUtils.returnValue res) in
  mret (if startsWith raw "0x" then raw else "0x" +:+ raw).
Definition leafOfRow (r : Row) : result DepositLeaf :=
  let c := textOf (get r "commitment") in
  let hex := if startsWith c "0x" then c else "0x" +:+ c in
  n ← BigInt hex; mret (mkLeaf (Leaves.leafIndexOf r) (toString n) hex).
Definition readLeavesFromDb : M Auditor (list DepositLeaf) :=
  rows ← onDb (select schemaOf "note_commitments" Leaves.hasLeaf);
  liftR (Leaves.mapOk leafOfRow (Leaves.orderedLeaves rows)).
Definition gitCommit : M Host string :=
  catchM (out ← execFileSync "git" ["rev-parse"; "--short"; "HEAD"]; mret (trim out)) (fun _ => mret "unknown").
Definition databaseUrl (e : EnvMap) : option string := truthyOpt (JsMap.get e "DATABASE_URL").
Definition runColumns (r : AuditResult) (commit : string) : Row :=
  [("pool_contract", JStr (poolContract r)); ("leaf_count", JNum (leafCount r)); ("recomputed_root", JStr (recomputedRootHex r));
   ("onchain_root", JStr (onchainRootHex r)); ("source", JStr (sourceText (a_source r))); ("status", JStr (statusText (a_status r)));
   ("git_commit", JStr commit)].
Definition findingColumns (r : AuditResult) (runId : json) : Row :=
  [("run_id", runId); ("severity", JStr "CRITICAL"); ("code", JStr "ROOT_MISMATCH_CRITICAL"); ("detail", JStr (a_detail r));
   ("recomputed_root", JStr (recomputedRootHex r)); ("onchain_root", JStr (onchainRootHex r))].
Definition persist (e : EnvMap) (r : AuditResult) : M Auditor unit :=
  match databaseUrl e with
  | None => mret tt
  | Some _ =>
      commit ← onHost gitCommit;
      rows ← onDb (insert schemaOf "root_audit_runs" (runColumns r commit) OnError);
      if a_status r ==? OK then mret tt
      else
        onDb (insert schemaOf "root_audit_findings" (findingColumns r (match rows with row :: _ => get row "run_id" | [] => JNull end)) OnError) ;;
        mret tt
  end.
Definition runAudit : M Auditor AuditResult :=
  e ← onHost loadRuntimeEnv;
  let missing := requireKeys e ["SHIELDED_POOL_CONTRACT"; "STELLAR_RELAYER_SECRET"] in
  guardM (bool_decide (missing = [])) (Error None ("root-auditor missing env: " +:+ join ", " missing)) ;;
  let pool := orElse (JsMap.get e "SHIELDED_POOL_CONTRACT") "" in
  let rpcUrl := orElse (JsMap.get e "STELLAR_RPC_URL") "https://soroban-testnet.stellar.org" in
  let pass := orElse (JsMap.get e "STELLAR_NETWORK_PASSPHRASE") "Test SDF Network ; September 2015" in
  emitted ← onHost (readDepositLeavesFromEvents pool rpcUrl);
  sl ← (if bool_decide (emitted = []) && bool_decide (is_Some (databaseUrl e)) then ls ← readLeavesFromDb; mret (db, ls)
        else mret (events, emitted));
  onchain ← onHost (readOnchainRoot pool (orElse (JsMap.get e "STELLAR_RELAYER_SECRET") "") rpcUrl pass);
  result ← onHost (compareRoots pool sl.2 onchain sl.1);
  persist e result ;;
  mret result.

(** ** The HTTP surface and the one-shot run *)
Definition auditJson (r : AuditResult) : json := JObj
  [("poolContract", JStr (poolContract r)); ("leafCount", JNum (leafCount r)); ("source", JStr (sourceText (a_source r)));
   ("recomputedRootHex", JStr (recomputedRootHex r)); ("onchainRootHex", JStr (onchainRootHex r));
   ("status", JStr (statusText (a_status r))); ("detail", JStr (a_detail r))].
Definition get_health : Response := reply (JObj [("ok", JBool true); ("service", JStr "root-auditor")]).
Definition get_audit : M Auditor Response :=
  catchM (r ← runAudit; mret (replyCode (if a_status r ==? OK then 200 else 409) (auditJson r)))
    (fun e => mret (replyCode 500 (err (message e)))).
(** One turn of the background loop: errors are logged. *)
Definition auditTick : M Auditor unit := catchM (runAudit ;; mret tt) (fun _ => mret tt).
(** The exit code of [audit-once]; an uncaught exception exits with 1. *)
Definition auditOnce : M Auditor Z :=
  catchM (r ← runAudit; mret (if a_status r ==? OK then 0 else 1)) (fun _ => mret 1).

(** ** Facts *)
Lemma machine_Ok {A} (m : M Host A) a x a' :
  onHost m a = (Ok x, a') -> m (a_host a) = (Ok x, a_host a') /\ a_db a' = a_db a.
Proof. unfold onHost. destruct (m (a_host a)) as [r h]. by intros [= -> <-]. Qed.
Lemma onDb_Ok {A} (m : M DB A) a x a' : onDb m a = (Ok x, a') -> m (a_db a) = (Ok x, a_db a').
Proof.
  unfold onDb. intros Hr. bind_ok Hr as k a1 Ek. apply machine_Ok in Ek as [_ Ed]. destruct (connectedAt k); [|done].
  unfold connected in Hr. rewrite Ed in Hr. destruct (m (a_db a)) as [r d]. by injection Hr as -> <-.
Qed.
(** The calls out of the process are counted up. *)
Definition after (k : Z) (a : Auditor) : Prop := since k (a_host a).
Lemma after_onHost {A} k (m : M Host A) : preserves (since k) m -> preserves (after k) (onHost m).
Proof. intros Hm a Ha. specialize (Hm _ Ha). unfold onHost. by destruct (m (a_host a)). Qed.
Lemma after_onDb {A} k (m : M DB A) : preserves (after k) (onDb m).
Proof.
  unfold onDb. apply preserves_bind; [apply after_onHost, since_nextTick|]. intros c. destruct (connectedAt c); [|unfold failM; auto with preserve].
  intros a Ha. unfold connected. by destruct (m (a_db a)).
Qed.
#[local] Hint Resolve after_onHost after_onDb : ticks.
Lemma since_recomputeRoot k ds : preserves (since k) (recomputeRoot ds).
Proof. destruct ds; cbn [recomputeRoot]; auto 10 with preserve ticks. Qed.
Lemma recomputeRoot_ticks ds h r h' : recomputeRoot ds h = (r, h') -> tick h <= tick h'.
Proof. intros E. pose proof (since_recomputeRoot (tick h) ds h (Z.le_refl _)) as Hs. by rewrite E in Hs. Qed.
Lemma since_readPages k fuel pool url : forall from m got, preserves (since k) (readPages fuel pool url from m got).
Proof.
  induction fuel as [|fuel IH]; intros from m got; cbn [readPages]; [auto with preserve|]. apply preserves_bind; [auto with ticks|intros c].
  destruct (getEvents c url pool from); [|auto with preserve]. destruct (readPage _ m got) as [[m' got'] ok].
  repeat case_match; first [apply IH|auto with preserve].
Qed.
Lemma since_readWindows k pool url latest backs : forall m, preserves (since k) (readWindows pool url latest backs m).
Proof.
  induction backs as [|b backs IH]; intros m; cbn [readWindows]; [auto with preserve|]. apply preserves_bind; [apply since_readPages|].
  intros [[m' got] ok]. destruct (ok && _); [auto with preserve|apply IH].
Qed.
Lemma since_events k pool url : preserves (since k) (readDepositLeavesFromEvents pool url).
Proof. unfold readDepositLeavesFromEvents. auto 10 using since_readWindows with preserve ticks. Qed.
Lemma since_onchain k pool secret url pass : preserves (since k) (readOnchainRoot pool secret url pass).
Proof. unfold readOnchainRoot. auto using StellarUtils.since_invoke with preserve. Qed.
Lemma since_compare k pool ls onchain src : preserves (since k) (compareRoots pool ls onchain src).
Proof.
  unfold compareRoots. cbv zeta. apply preserves_bind; [apply since_recomputeRoot|intros c].
  apply preserves_bind; [destruct (last _); auto using since_recomputeRoot with preserve|auto with preserve].
Qed.
Lemma after_persist k e r : preserves (after k) (persist e r).
Proof.
  unfold persist. destruct (databaseUrl e); [|auto with preserve].
  apply preserves_bind; [apply after_onHost; unfold gitCommit; auto with preserve ticks|intros c].
  apply preserves_bind; [apply after_onDb|intros rows]. destruct (a_status r ==? OK); [auto with preserve|].
  apply preserves_bind; [apply after_onDb|auto with preserve].
Qed.
Lemma after_run {A} (m : M Auditor A) a x a' : (forall k, preserves (after k) m) -> m a = (x, a') -> tick (a_host a) <= tick (a_host a').
Proof. intros Hm E. pose proof (Hm (tick (a_host a)) a (Z.le_refl _)) as Hn. by rewrite E in Hn. Qed.

(** [root] is what a run of coinutils between the calls [lo] and [hi] computed
    over exactly these leaves. *)
Definition recomputed (lo hi : Z) (ds : list string) (root : string) : Prop :=
  (ds = [] /\ root = emptyRoot) \/
  exists k fs out n, lo <= k < hi /\ fs !! statePath = Some (Proving.stateText ds "audit") /\
    (execFile k COINUTILS_BIN ["compute-root"; statePath] fs).1 = Ok out /\ BigInt (trim out) = Ok n /\ root = "0x" +:+ hex32 n.
Lemma recomputed_within lo hi lo' hi' ds root : lo' <= lo -> hi <= hi' -> recomputed lo hi ds root -> recomputed lo' hi' ds root.
Proof. intros Hl Hh [Hd|(k & fs & out & n & Hk & Hx)]; [by left|right]. exists k, fs, out, n. split; [lia|done]. Qed.
Lemma recomputeRoot_Ok ds h root h' : recomputeRoot ds h = (Ok root, h') -> recomputed (tick h) (tick h') ds root.
Proof.
  destruct ds as [|d ds]; cbn [recomputeRoot].
  { intros [-> _]%ret_Ok. by left. }
  intros Hr. right. bind_ok Hr as u h1 E1. injection E1 as _ <-. bind_ok Hr as out h2 E2. lift_ok Hr as n En.
  apply ret_Ok in Hr as [-> ->]. unfold execFileSync in E2. injection E2 as Eo <-. simpl in Eo.
  eexists (tick h), _, out, n. split; [cbn; lia|]. split; [|split; [exact Eo|by split]]. apply lookup_insert_eq.
Qed.
Lemma byLeaf_sorted ls : StronglySorted (fun a b => leafIndex a <= leafIndex b) (byLeaf ls).
Proof.
  eapply Leaves.sorted_weaken; [|apply sortBy_sorted; split; intros; lia]. intros a b Hab. unfold leq in Hab. lia.
Qed.
(** The leaves audited, and the two roots over them. *)
Record audited (lo hi : Z) (onchain : string) (r : AuditResult) (leaves : list DepositLeaf) (cumulative latest : string) : Prop := {
  au_sorted : StronglySorted (fun a b => leafIndex a <= leafIndex b) leaves;
  au_count : leafCount r = Z.of_nat (length leaves);
  au_cumulative : recomputed lo hi (map commitmentDecimal leaves) cumulative;
  au_latest : match last leaves with Some l => recomputed lo hi [commitmentDecimal l] latest | None => latest = cumulative end;
  au_onchain : onchainRootHex r = norm onchain;
  au_recomputed : recomputedRootHex r = norm cumulative;
  au_status : a_status r = OK <-> norm onchain = norm cumulative \/ norm onchain = norm latest }.
Lemma compareRoots_Ok pool ls onchain src h r h' :
  compareRoots pool ls onchain src h = (Ok r, h') ->
  exists leaves cumulative latest, leaves ≡ₚ ls /\ audited (tick h) (tick h') onchain r leaves cumulative latest /\
    a_source r = src /\ poolContract r = pool.
Proof.
  unfold compareRoots. cbv zeta. intros Hr. bind_ok Hr as cum h1 E1.
  pose proof (recomputeRoot_ticks _ _ _ _ E1) as T1.
  apply recomputeRoot_Ok in E1. bind_ok Hr as lat h2 E2. apply ret_Ok in Hr as [-> ->]. exists (byLeaf ls), cum.
  assert (tick h1 <= tick h2 /\ exists latest, lat = norm latest /\
    match last (byLeaf ls) with Some l => recomputed (tick h1) (tick h2) [commitmentDecimal l] latest | None => latest = cum end)
    as (T2 & latest & -> & Hl).
  { destruct (last (byLeaf ls)) as [l|]; [|apply ret_Ok in E2 as [-> ->]; split; [lia|]; by exists cum].
    bind_ok E2 as root h3 E3.
    pose proof (recomputeRoot_ticks _ _ _ _ E3) as Hs.
    apply recomputeRoot_Ok in E3. apply ret_Ok in E2 as [-> ->]. split; [exact Hs|]. by exists root. }
  exists latest. split; [apply sortBy_perm|]. split; [|by split]. split; try done; [apply byLeaf_sorted|..].
  - eapply recomputed_within; [..|exact E1]; lia.
  - destruct (last (byLeaf ls)); [|done]. eapply recomputed_within; [..|exact Hl]; lia.
  - unfold verdict. simpl. destruct (bool_decide_reflect (norm onchain = norm cum)); [simpl; naive_solver|].
    destruct (bool_decide_reflect (norm onchain = norm latest)); simpl; naive_solver.
Qed.

(** The leaves of the events have one entry per leaf index. *)
Definition keyed (m : LeafMap) : Prop := NoDup (JsMap.keys m) /\ forall i l, (i, l) ∈ m -> leafIndex l = i.
Lemma keyed_set m l : keyed m -> keyed (JsMap.set m (leafIndex l) l).
Proof.
  intros [Hn Hk]. assert (NoDup (JsMap.keys (JsMap.set m (leafIndex l) l))) as Hn' by (by apply JsMap.NoDup_set). split; [done|].
  intros i l' Hin. apply JsMap.elem_get in Hin; [|done]. rewrite JsMap.get_set in Hin.
  destruct (bool_decide_reflect (leafIndex l = i)) as [<-|]; [by injection Hin as <-|]. by apply JsMap.get_elem, Hk in Hin.
Qed.
Lemma keyed_page evs : forall m got, keyed m -> keyed (readPage evs m got).1.1.
Proof.
  induction evs as [|ev evs IH]; intros m got Hm; cbn [readPage]; [done|].
  destruct (leafOf ev) as [[l|]|]; [by apply IH, keyed_set|by apply IH|done].
Qed.
Lemma keyed_pages fuel pool url : forall from m got h r h',
  keyed m -> readPages fuel pool url from m got h = (Ok r, h') -> keyed r.1.1.
Proof.
  induction fuel as [|fuel IH]; intros from m got h r h' Hm; cbn [readPages]; [by intros [-> _]%ret_Ok|].
  intros Hr. bind_ok Hr as k h1 E1. destruct (getEvents k url pool from) as [page|e]; [|by apply ret_Ok in Hr as [-> _]].
  pose proof (keyed_page (pageEvents page) m got Hm) as Hp. destruct (readPage _ m got) as [[m' got'] ok].
  repeat case_match; try (by apply ret_Ok in Hr as [-> _]). by eapply IH.
Qed.
Lemma keyed_windows pool url latest backs : forall m h m' h',
  keyed m -> readWindows pool url latest backs m h = (Ok m', h') -> keyed m'.
Proof.
  induction backs as [|back backs IH]; intros m h m' h' Hm; cbn [readWindows]; [by intros [-> _]%ret_Ok|].
  intros Hr. bind_ok Hr as r h1 E1. apply keyed_pages in E1; [|done]. destruct r as [[m1 got] ok].
  destruct (ok && _); [by apply ret_Ok in Hr as [-> _]|]. by eapply IH.
Qed.
Lemma events_distinct pool url h ls h' :
  readDepositLeavesFromEvents pool url h = (Ok ls, h') ->
  NoDup (map leafIndex ls) /\ StronglySorted (fun a b => leafIndex a <= leafIndex b) ls.
Proof.
  unfold readDepositLeavesFromEvents. intros Hr. bind_ok Hr as k h1 E1. lift_ok Hr as latest El. bind_ok Hr as m h2 E2.
  apply ret_Ok in Hr as [-> _]. apply keyed_windows in E2 as [Hn Hk]; [|by split; [constructor|intros i l ?%elem_of_nil]].
  split; [|apply byLeaf_sorted]. change (map leafIndex (byLeaf (JsMap.values m))) with (leafIndex <$> byLeaf (JsMap.values m)).
  unfold byLeaf. rewrite sortBy_perm. replace (leafIndex <$> JsMap.values m) with (JsMap.keys m); [done|].
  clear Hn. unfold JsMap.keys, JsMap.values. induction m as [|[i l] m IH]; [done|]. simpl. f_equal.
  - symmetry. apply Hk. by left.
  - apply IH. intros j l' Hin. apply Hk. by right.
Qed.

(** A leaf that a deposit event of the pool announced, in a page the RPC sent
    between the calls [lo] and [hi]. *)
Definition emittedLeaf (pool url : string) (lo hi : Z) (l : DepositLeaf) : Prop :=
  exists k from page ev data b n, lo <= k < hi /\ getEvents k url pool from = Ok page /\ ev ∈ pageEvents page /\
    topic0 ev = "deposit" /\ ev_data ev = Some data /\ 7 <= Z.of_nat (length data) /\
    nth 3 data NOther = NBytes b /\ nth 6 data NOther = NInt (leafIndex l) /\
    commitmentHex l = "0x" +:+ hexEncode b /\ BigInt (commitmentHex l) = Ok n /\ commitmentDecimal l = toString n.
Definition emittedMap (pool url : string) (lo hi : Z) (m : LeafMap) : Prop := forall i l, (i, l) ∈ m -> emittedLeaf pool url lo hi l.
Lemma emitted_within pool url lo hi lo' hi' m : lo' <= lo -> hi <= hi' -> emittedMap pool url lo hi m -> emittedMap pool url lo' hi' m.
Proof.
  intros Hl Hh Hm i l Hin. destruct (Hm i l Hin) as (k & from & page & ev & data & b & n & Hk & Hx).
  exists k, from, page, ev, data, b, n. split; [lia|done].
Qed.
Lemma emitted_set pool url lo hi m l : keyed m -> emittedMap pool url lo hi m -> emittedLeaf pool url lo hi l ->
  emittedMap pool url lo hi (JsMap.set m (leafIndex l) l).
Proof.
  intros Hk Hm Hl i l' Hin. apply JsMap.elem_get in Hin; [|apply (keyed_set m l Hk)]. rewrite JsMap.get_set in Hin.
  destruct (bool_decide_reflect (leafIndex l = i)) as [<-|]; [by injection Hin as <-|]. by apply JsMap.get_elem, Hm in Hin.
Qed.
Lemma emitted_page pool url lo hi k from page evs : lo <= k < hi -> getEvents k url pool from = Ok page ->
  (forall ev, ev ∈ evs -> ev ∈ pageEvents page) -> forall m got, keyed m -> emittedMap pool url lo hi m ->
  emittedMap pool url lo hi (readPage evs m got).1.1.
Proof.
  intros Hk Hp. induction evs as [|ev evs IH]; intros Hin m got Hm He; cbn [readPage]; [done|].
  destruct (leafOf ev) as [[l|]|] eqn:El; [|apply IH; [set_solver|done..]|done].
  apply IH; [set_solver|by apply keyed_set|]. apply emitted_set; [done|done|]. unfold leafOf in El.
  destruct (bool_decide_reflect (topic0 ev = "deposit")) as [Et|]; [|done]. cbn [negb] in El. destruct (ev_data ev) as [data|] eqn:Ed; [|done].
  destruct (Z.ltb_spec (Z.of_nat (length data)) 7) as [|Hlen]; [done|].
  destruct (nth 3 data NOther) as [b|y|] eqn:E3, (nth 6 data NOther) as [b'|z|] eqn:E6; try done.
  destruct (BigInt ("0x" +:+ hexEncode b)) as [n|] eqn:En; [|done]. injection El as <-.
  exists k, from, page, ev, data, b, n. split; [done|]. split_and!; try done. apply Hin. left.
Qed.
Lemma emitted_pages fuel pool url lo : forall from m got h r h', lo <= tick h ->
  keyed m -> emittedMap pool url lo (tick h) m -> readPages fuel pool url from m got h = (Ok r, h') ->
  tick h <= tick h' /\ keyed r.1.1 /\ emittedMap pool url lo (tick h') r.1.1.
Proof.
  induction fuel as [|fuel IH]; intros from m got h r h' Hlo Hm He; cbn [readPages]; [by intros [-> ->]%ret_Ok|].
  intros Hr. bind_ok Hr as k h1 E1. injection E1 as <- <-. destruct (getEvents (tick h) url pool from) as [page|e] eqn:Eg.
  2:{ apply ret_Ok in Hr as [-> ->]. cbn. split; [lia|]. split; [done|]. eapply emitted_within; [..|exact He]; lia. }
  pose proof (keyed_page (pageEvents page) m got Hm) as Hp.
  pose proof (emitted_page pool url lo (tick h + 1) (tick h) from page (pageEvents page) ltac:(lia) Eg ltac:(done) m got Hm
    ltac:(eapply emitted_within; [..|exact He]; lia)) as Hpe.
  destruct (readPage _ m got) as [[m' got'] ok]. cbn in Hp, Hpe.
  assert (forall x, (m', got', x) = r -> mkHost (files h) (tick h + 1) = h' ->
    tick h <= tick h' /\ keyed r.1.1 /\ emittedMap pool url lo (tick h') r.1.1) as Hstop
    by (intros x <- <-; cbn; split; [lia|done]).
  destruct ok; [|apply ret_Ok in Hr as [-> ->]; by eapply Hstop].
  destruct (truthyOpt _); [|apply ret_Ok in Hr as [-> ->]; by eapply Hstop].
  destruct (pageEvents page); [apply ret_Ok in Hr as [-> ->]; by eapply Hstop|].
  apply IH in Hr as (Ht & Hr); [|cbn; lia|done|exact Hpe]. cbn in Ht. split; [lia|done].
Qed.
Lemma emitted_windows pool url latest lo backs : forall m h m' h', lo <= tick h -> keyed m -> emittedMap pool url lo (tick h) m ->
  readWindows pool url latest backs m h = (Ok m', h') -> tick h <= tick h' /\ emittedMap pool url lo (tick h') m'.
Proof.
  induction backs as [|back backs IH]; intros m h m' h' Hlo Hm He; cbn [readWindows]; [by intros [-> ->]%ret_Ok|].
  intros Hr. bind_ok Hr as r h1 E1. apply (emitted_pages _ _ _ lo) in E1 as (Ht & Hk & He'); [|done..]. destruct r as [[m1 got] ok].
  destruct (ok && _); [by apply ret_Ok in Hr as [-> ->]|]. apply IH in Hr as [Ht' Hr]; [split; [lia|done]|lia|done|done].
Qed.
Lemma events_emitted pool url h ls h' : readDepositLeavesFromEvents pool url h = (Ok ls, h') ->
  forall l, l ∈ ls -> emittedLeaf pool url (tick h) (tick h') l.
Proof.
  unfold readDepositLeavesFromEvents. intros Hr l Hin. bind_ok Hr as k h1 E1. injection E1 as <- <-. lift_ok Hr as latest El.
  bind_ok Hr as m h2 E2. apply ret_Ok in Hr as [-> ->].
  apply (emitted_windows _ _ _ (tick h)) in E2 as [_ He]; [|cbn; lia|by split; [constructor|intros i l' ?%elem_of_nil]|intros i l' ?%elem_of_nil; done].
  unfold byLeaf in Hin. rewrite sortBy_perm in Hin. unfold JsMap.values in Hin. apply list_elem_of_fmap in Hin as ([i l'] & -> & Hin).
  by eapply He.
Qed.

(** ** What an audit leaves in the database *)
Definition findings (d : DB) : list Row := table d "root_audit_findings".
Definition runs (d : DB) : list Row := table d "root_audit_runs".
Lemma run_row_id r commit d rows d' :
  insert schemaOf "root_audit_runs" (runColumns r commit) OnError d = (Ok rows, d') ->
  exists row, rows = [row] /\ runs d' = runs d ++ [row] /\ findings d' = findings d /\ get row "status" = JStr (statusText (a_status r)).
Proof.
  intros (s & row & Es & Eb & -> & ->)%insert_OnError_Ok. injection Es as <-. exists row. split; [done|].
  split; [apply table_same|]. split; [by apply table_other|]. unfold get.
  erewrite (buildRow_get _ _ _ _ _ "status"); [|exact Eb|reflexivity|reflexivity]. done.
Qed.
Lemma persist_Ok e r a u a' :
  persist e r a = (Ok u, a') ->
  match databaseUrl e with
  | None => a' = a
  | Some _ =>
      (exists row, runs (a_db a') = runs (a_db a) ++ [row] /\ get row "status" = JStr (statusText (a_status r))) /\
      if a_status r ==? OK then findings (a_db a') = findings (a_db a)
      else exists f, findings (a_db a') = findings (a_db a) ++ [f] /\ get f "code" = JStr "ROOT_MISMATCH_CRITICAL"
  end.
Proof.
  unfold persist. destruct (databaseUrl e) as [url|]; [|by intros [_ ->]%ret_Ok]. intros Hr. bind_ok Hr as commit a1 E1.
  apply machine_Ok in E1 as [_ Ed1]. bind_ok Hr as rows a2 E2. apply onDb_Ok in E2. apply run_row_id in E2 as (row & -> & Er & Ef & Est).
  rewrite Ed1 in Er, Ef. destruct (bool_decide_reflect (a_status r = OK)) as [Eok|Hne].
  - apply ret_Ok in Hr as [_ ->]. split; [by exists row|done].
  - bind_ok Hr as rows' a3 E3. apply ret_Ok in Hr as [_ ->]. apply onDb_Ok in E3.
    apply insert_OnError_Ok in E3 as (s & f & Es & Eb & -> & Ed3). injection Es as <-. split.
    + exists row. split; [|done]. rewrite Ed3. unfold runs. by rewrite table_other by done.
    + exists f. rewrite Ed3. unfold findings in *. rewrite table_same, <- Ef. split; [done|].
      unfold get. erewrite (buildRow_get _ _ _ _ _ "code"); [|exact Eb|reflexivity|reflexivity]. done.
Qed.
Definition loadedEnv (a : Auditor) : EnvMap :=
  match files (a_host a) !! ".env.generated" with Some t => parseEnvText true processEnv t | None => processEnv end.
Definition poolOf (a : Auditor) : string := orElse (JsMap.get (loadedEnv a) "SHIELDED_POOL_CONTRACT") "".
Definition rpcOf (a : Auditor) : string := orElse (JsMap.get (loadedEnv a) "STELLAR_RPC_URL") "https://soroban-testnet.stellar.org".
(** What a process of the audit that called [get_root] on the pool printed. *)
Definition onchainRead (a a' : Auditor) (onchain : string) : Prop :=
  exists i, tick (a_host a) <= i < tick (a_host a') /\
    let x := spawn i "stellar" ["contract"; "invoke"; "--id"; poolOf a; "--source-account"; orElse (JsMap.get (loadedEnv a) "STELLAR_RELAYER_SECRET") "";
      "--rpc-url"; rpcOf a; "--network-passphrase"; orElse (JsMap.get (loadedEnv a) "STELLAR_NETWORK_PASSPHRASE") "Test SDF Network ; September 2015";
      "--"; "get_root"] StellarUtils.cargoPath in
    exit_status x = Some 0 /\ norm onchain = norm (CctpInbound.unquote (trim (exit_stdout x))).
(** The leaf of a row of the registrar's record. *)
Definition rowLeaf (row : Row) (l : DepositLeaf) : Prop :=
  leafIndex l = Leaves.leafIndexOf row /\ norm (commitmentHex l) = norm (textOf (get row "commitment")) /\
  exists n, BigInt (commitmentHex l) = Ok n /\ commitmentDecimal l = toString n.
(** The leaves an audit starts from: those of the events, each announced by
    the pool, one per index; or, when there are none and a database is
    configured, one per row with a leaf index. *)
Definition leavesRead (a a' : Auditor) (src : source) (read : list DepositLeaf) : Prop :=
  exists emitted h1, readDepositLeavesFromEvents (poolOf a) (rpcOf a) (a_host a) = (Ok emitted, h1) /\
  NoDup (map leafIndex emitted) /\
  (forall l, l ∈ emitted -> emittedLeaf (poolOf a) (rpcOf a) (tick (a_host a)) (tick (a_host a')) l) /\
  match src with
  | events => read = emitted /\ (emitted = [] -> databaseUrl (loadedEnv a) = None)
  | db => emitted = [] /\ databaseUrl (loadedEnv a) ≠ None /\
      exists rows, rows ≡ₚ selectWhere Leaves.hasLeaf (table (a_db a) "note_commitments") /\ Forall2 rowLeaf rows read
  end.
Lemma norm_0x h : norm (if startsWith h "0x" then h else "0x" +:+ h) = norm h.
Proof.
  unfold norm. destruct (startsWith h "0x") eqn:E; [by rewrite E|]. replace (startsWith ("0x" +:+ h) "0x") with true; [done|].
  by destruct h.
Qed.
Lemma readOnchainRoot_Ok a a' pool secret url pass h onchain h' :
  readOnchainRoot pool secret url pass h = (Ok onchain, h') -> tick (a_host a) <= tick h -> tick h' <= tick (a_host a') ->
  pool = poolOf a -> secret = orElse (JsMap.get (loadedEnv a) "STELLAR_RELAYER_SECRET") "" -> url = rpcOf a ->
  pass = orElse (JsMap.get (loadedEnv a) "STELLAR_NETWORK_PASSPHRASE") "Test SDF Network ; September 2015" -> onchainRead a a' onchain.
Proof.
  unfold readOnchainRoot. intros Hr Hlo Hhi -> -> -> ->. bind_ok Hr as res h1 E1. apply ret_Ok in Hr as [-> ->].
  apply StellarUtils.invoke_returns in E1 as (_ & i & Hi & Hz & Hv & _). exists i. split; [lia|]. cbv zeta. split; [exact Hz|].
  rewrite norm_0x, Hv. reflexivity.
Qed.
Lemma leafOfRow_Ok row l : leafOfRow row = Ok l -> rowLeaf row l.
Proof.
  unfold leafOfRow. cbv zeta. set (hex := if startsWith _ "0x" then _ else _). destruct (BigInt hex) as [n|] eqn:E; [|done]. intros [= <-].
  split; [done|]. split; [apply norm_0x|]. by exists n.
Qed.
Lemma readLeavesFromDb_Ok a ls a' : readLeavesFromDb a = (Ok ls, a') -> a_db a' = a_db a /\
  exists rows, rows ≡ₚ selectWhere Leaves.hasLeaf (table (a_db a) "note_commitments") /\ Forall2 rowLeaf rows ls.
Proof.
  unfold readLeavesFromDb. intros Hr. bind_ok Hr as rows a1 E1. apply onDb_Ok in E1. apply select_Ok in E1 as [-> Ed].
  apply liftR_Ok in Hr as [Hm ->]. split; [done|]. apply Leaves.mapOk_Forall2 in Hm. eexists. split; [|eapply Forall2_impl; [exact Hm|apply leafOfRow_Ok]].
  apply sortBy_perm.
Qed.
Lemma runAudit_Ok a r a' : runAudit a = (Ok r, a') ->
  exists onchain read leaves cumulative latest a1,
    onchainRead a a' onchain /\ leavesRead a a' (a_source r) read /\ leaves ≡ₚ read /\
    audited (tick (a_host a)) (tick (a_host a')) onchain r leaves cumulative latest /\ poolContract r = poolOf a /\
    a_db a1 = a_db a /\ persist (loadedEnv a) r a1 = (Ok tt, a').
Proof.
  unfold runAudit. intros Hr. bind_ok Hr as e a1 E1. apply machine_Ok in E1 as [E1 Ed1]. injection E1 as Ee Eh.
  assert (e = loadedEnv a) as -> by (unfold loadedEnv; by rewrite Ee). replace a1 with a in * by (destruct a, a1; cbn in *; congruence).
  clear Ee Eh Ed1. cbv zeta in Hr. bind_ok Hr as u a2 E2. apply guardM_Ok in E2 as [_ ->]. bind_ok Hr as emitted a3 E3.
  pose proof (after_run _ _ _ _ (fun k => after_onHost k _ (since_events k _ _)) E3) as T3. apply machine_Ok in E3 as [E3 Ed3].
  bind_ok Hr as sl a4 E4. assert (tick (a_host a3) <= tick (a_host a4)) as T4.
  { refine (after_run _ _ _ _ _ E4). intros k. destruct (bool_decide (emitted = []) && _); [|auto with preserve].
    apply preserves_bind; [unfold readLeavesFromDb; auto with preserve ticks|auto with preserve]. }
  assert (a_db a4 = a_db a3 /\ (sl = (events, emitted) /\ (emitted = [] -> databaseUrl (loadedEnv a) = None) \/
    emitted = [] /\ databaseUrl (loadedEnv a) ≠ None /\ sl.1 = db /\
    exists rows, rows ≡ₚ selectWhere Leaves.hasLeaf (table (a_db a) "note_commitments") /\ Forall2 rowLeaf rows sl.2)) as [Ed4 Hsl].
  { destruct (bool_decide (emitted = []) && _) eqn:Eb.
    - apply andb_true_iff in Eb as [Eb1%bool_decide_eq_true Eb2%bool_decide_eq_true]. bind_ok E4 as ls a5 E5. apply ret_Ok in E4 as [-> ->].
      apply readLeavesFromDb_Ok in E5 as [Ed5 Hrows]. split; [done|]. right. split; [done|]. split; [by intros Hn; rewrite Hn in Eb2; destruct Eb2|].
      split; [done|]. by rewrite <- Ed3.
    - apply ret_Ok in E4 as [-> ->]. split; [done|]. left. split; [done|]. intros ->. rewrite bool_decide_true in Eb by done. cbn [andb] in Eb.
      apply bool_decide_eq_false in Eb. destruct (databaseUrl (loadedEnv a)); [|done]. destruct Eb. by eexists. }
  bind_ok Hr as onchain a5 E5. pose proof (after_run _ _ _ _ (fun k => after_onHost k _ (since_onchain k _ _ _ _)) E5) as T5.
  apply machine_Ok in E5 as [E5 Ed5]. bind_ok Hr as res a6 E6. pose proof (after_run _ _ _ _ (fun k => after_onHost k _ (since_compare k _ _ _ _)) E6) as T6.
  apply machine_Ok in E6 as [E6 Ed6]. bind_ok Hr as u2 a7 E7. apply ret_Ok in Hr as [-> ->].
  pose proof (after_run _ _ _ _ (fun k => after_persist k _ _) E7) as T7. apply compareRoots_Ok in E6 as (leaves & cum & lat & Hperm & Hau & Hsrc & Hpool).
  exists onchain, sl.2, leaves, cum, lat, a6. split; [eapply readOnchainRoot_Ok; [exact E5|lia|lia|done..]|]. split.
  { exists emitted, (a_host a3). split; [exact E3|]. split; [by eapply events_distinct|]. split.
    - intros l Hl. destruct (events_emitted _ _ _ _ _ E3 l Hl) as (k & from & page & ev & data & b & n & Hk & Hx).
      exists k, from, page, ev, data, b, n. split; [lia|done].
    - rewrite Hsrc. destruct Hsl as [[-> Hsl]|(He & Hd & Hs & Hrows)]; [done|]. rewrite Hs. done. }
  split; [done|]. split; [|split; [done|split; [congruence|by destruct u2]]].
  destruct Hau as [A1 A2 A3 A4 A5 A6 A7]. split; try done; [eapply recomputed_within; [..|exact A3]; lia|].
  destruct (last leaves); [|done]. eapply recomputed_within; [..|exact A4]; lia.
Qed.

(** The API with this database, and an answer of its gate before a spend. *)
Definition gateClosed (d : DB) : Prop :=
  forall w, Privy.adb w = d -> exists msg, ApiAuth.assertRootHealthy w = (Throw (Error (Some 409) msg), w).

(** C20. An audit that returns is exact, and it closes the API's gate.  The
    on-chain root it reports is what its own call of [get_root] on the pool
    printed; its leaves are those of the pool's deposit events, one per index,
    or, when there are none, the registrar's rows; and its status is OK exactly
    when that root is the root coinutils computed over all of those leaves in
    order, or over the latest alone.  The HTTP route answers 200 or 409
    accordingly.  With a database configured the run is recorded; a mismatch
    adds a critical finding, after which every API process on that database
    refuses to spend with 409; a match adds no finding; and with no database
    nothing is stored. *)
Theorem audit_gate a r a' : runAudit a = (Ok r, a') ->
  (exists onchain read leaves cumulative latest,
     onchainRead a a' onchain /\ leavesRead a a' (a_source r) read /\ leaves ≡ₚ read /\ poolContract r = poolOf a /\
     audited (tick (a_host a)) (tick (a_host a')) onchain r leaves cumulative latest) /\
  (get_audit a).1 = Ok (replyCode (if a_status r ==? OK then 200 else 409) (auditJson r)) /\
  match databaseUrl (loadedEnv a) with
  | None => a_db a' = a_db a
  | Some _ =>
      (exists row, runs (a_db a') = runs (a_db a) ++ [row] /\ get row "status" = JStr (statusText (a_status r))) /\
      if a_status r ==? OK then findings (a_db a') = findings (a_db a) else gateClosed (a_db a')
  end.
Proof.
  intros Hr. destruct (runAudit_Ok a r a' Hr) as (onchain & read & leaves & cum & lat & a1 & Hon & Hread & Hperm & Hau & Hpool & Ed & Hp%persist_Ok).
  split; [by exists onchain, read, leaves, cum, lat|]. split.
  { unfold get_audit, catchM, mbind, M_bind. by rewrite Hr. }
  destruct (databaseUrl (loadedEnv a)); [|congruence]. destruct Hp as [(row & Hrow & Hst) Hf]. rewrite <- Ed. split; [by exists row|].
  destruct (bool_decide (a_status r = OK)); [done|]. destruct Hf as (f & Hf & Hc). intros w Ew. apply ApiAuth.assertRootHealthy_blocks.
  intros Hh. apply (Hh f); [|exact Hc]. rewrite Ew. unfold findings in Hf. rewrite Hf. apply elem_of_app. right. by left.
Qed.
End Audit.

(** ** Witness: one deposit, a forged root, and the closed gate *)
Definition toyPool : PoolEvents := {|
  latestLedger k u := Ok 10000;
  getEvents k u pool from := Ok (mkPage [mkEvent "transfer" None;
    mkEvent "deposit" (Some [NOther; NOther; NInt 5; NBytes (String (chr 7) ""); NOther; NOther; NInt 0; NOther])] None) |}.
Definition toyHost : Os := {|
  cwd := "/"; clock k := 0; execFile k cmd args fs := (Ok "5", fs);
  spawn k c a p := mkExit (Some 0) (String dquote ("6" +:+ String dquote "")) "" |}.
Definition toyProcess : EnvMap :=
  [("DATABASE_URL", "postgres://db"); ("SHIELDED_POOL_CONTRACT", "CPOOL"); ("STELLAR_RELAYER_SECRET", "SRELAYER")].
Definition toyAuditor : Auditor := mkAuditor (mkHost ∅ 0) (emptyDB 7).
Definition toyAudit : result AuditResult * Auditor := @runAudit toyHost toyPool (fun _ => true) toyUuid toyProcess toyAuditor.
Lemma audit_gate_witness : exists r,
  toyAudit.1 = Ok r /\ a_status r = ROOT_MISMATCH_CRITICAL /\ leafCount r = 1 /\ gateClosed (a_db toyAudit.2).
Proof.
  destruct toyAudit as [[r|e] a'] eqn:E.
  2:{ exfalso. apply (f_equal fst) in E. vm_compute in E. discriminate E. }
  assert (a_status r = ROOT_MISMATCH_CRITICAL /\ leafCount r = 1) as [Hs Hl].
  { apply (f_equal fst) in E. vm_compute in E. injection E as <-. split; reflexivity. }
  exists r. split; [reflexivity|]. split; [exact Hs|]. split; [exact Hl|].
  destruct (@audit_gate toyHost toyPool (fun _ => true) toyUuid toyProcess toyAuditor r a' E) as (_ & _ & Hg).
  rewrite Hs in Hg. exact (proj2 Hg).
Defined.
End Auditor.
