(* ===== verification/SdkMpc.v ===== *)
(** * The client's side of private matching (packages/sdk/src/mpc.ts)

    The browser's own copy of the Shamir split, the encryption for the nodes
    and the commitments.  Theorem: it makes what the committee's code would
    make from the same randomness, so the committee recovers the amount. *)
From S2P Require Import Prelude JsText JsCollections Json Crypto Field Shamir Committee.
From Stdlib Require Import Ascii.
Import JsText Json Crypto Field.

Module SdkMpc.

Definition toHex (b : bytes) : string := hexEncode b.
(** [parseInt(pair, 16)] stored in a byte; [NaN] is stored as 0. *)
Definition pairValue (c d : ascii) : Z :=
  let hex a := v ← digitVal a; if v <? 16 then Some v else None in
  match hex c, hex d with
  | Some a, Some b => 16 * a + b
  | Some a, None => a
  | None, Some b => if isSpace c || (c ==? "+"%char) then b else if c ==? "-"%char then (- b) mod 256 else 0
  | None, None => 0
  end.
Fixpoint pairs (s : string) : bytes :=
  match s with
  | String c (String d s') => String (chr (Z.to_N (pairValue c d))) (pairs s')
  | _ => ""
  end.
Definition fromHex (h : string) : bytes := pairs (strip0x h).

(** ** Shamir over BN254 *)
Definition P : Z := 21888242871839275222246405745257275088548364400416034343698204186575808495617.
Definition modp (x : Z) : Z := Z.rem (Z.rem x P + P) P.
(** 32 random bytes reduced, without the rejection of the committee's copy. *)
Definition randomFieldElement (b : bytes) : Z := modp (valueBE 0 b).
Definition evaluate (coeffs : list Z) (x : Z) : Z := foldr (fun c y => modp (y * x + c)) 0 coeffs.
(** [draws i] are the bytes of the [i]-th coefficient. *)
Definition coefficients (threshold : Z) (draws : nat -> bytes) : list Z :=
  map (fun i => randomFieldElement (draws i)) (seq 1 (Z.to_nat (threshold - 1))).
Definition shamirSplit (secret threshold : Z) (total : nat) (draws : nat -> bytes) : list Shamir.Share :=
  let coeffs := modp secret :: coefficients threshold draws in
  map (fun i => let x := Z.of_nat i + 1 in Shamir.mkShare x (evaluate coeffs x)) (seq 0 total).

Section Box.
Context `{Nacl} `{Sha256}.

Definition encryptShareForNode (share : Shamir.Share) (recipientPubkeyHex nodeId : string) (ephemeralKp : bytes * bytes) (nonce : bytes) :
    Committee.EncryptedShare :=
  let plaintext := stringify (JObj [("x", JStr (toString (Shamir.x share))); ("y", JStr (toString (Shamir.y share)))]) in
  let ct := box plaintext nonce (fromHex recipientPubkeyHex) ephemeralKp.2 in
  Committee.mkEncryptedShare nodeId (toHex ct) (toHex nonce) (toHex ephemeralKp.1).
Record Draws := mkDraws { coeffOf : nat -> bytes; ephOf : nat -> bytes * bytes; nonceOf : nat -> bytes }.
Definition splitAndEncryptAmount (amount7dp : Z) (nodes : list Committee.CommitteeNodeInfo) (threshold : Z) (d : Draws) :
    list Committee.EncryptedShare :=
  let shares := shamirSplit amount7dp threshold (length nodes) (coeffOf d) in
  imap (fun i node => encryptShareForNode (nth i shares Committee.zeroShare) (Committee.encryptionPubkey node) (Committee.nodeId node)
                        (ephOf d i) (nonceOf d i)) nodes.

Definition randomBlinding (b : bytes) : string := toHex b.
Definition buildAmountCommitment (amount7dp : Z) (blindingHex : string) : string := "0x" +:+ sha256 (toString amount7dp +:+ ":" +:+ blindingHex).
Definition buildValueCommitment (value blindingHex : string) : string := "0x" +:+ sha256 (value +:+ ":" +:+ blindingHex).

(** ** The two copies agree *)
Lemma modp_same a : modp a = Shamir.modp a.
Proof. reflexivity. Qed.
Lemma pairs_hexEncode b : pairs (hexEncode b) = b.
Proof.
  induction b as [|c b IH]; [done|]. cbn [hexEncode]. unfold hexOfByte. rewrite append_cons, append_cons. cbn [pairs].
  change ("" +:+ hexEncode b) with (hexEncode b). rewrite IH. f_equal. destruct c as [[] [] [] [] [] [] [] []]; reflexivity.
Qed.
Lemma shamirSplit_same secret threshold total draws :
  2 <= threshold <= Z.of_nat total ->
  Shamir.shamirSplit secret threshold (Z.of_nat total) (coefficients threshold draws) = Some (Ok (shamirSplit secret threshold total draws)).
Proof.
  intros Ht. rewrite Shamir.split_of_coeffs; [by rewrite Nat2Z.id|done| |].
  - unfold coefficients. by rewrite length_map, length_seq.
  - unfold coefficients. apply Forall_forall. intros c (i & <- & _)%list_elem_of_In%in_map_iff. unfold randomFieldElement. rewrite modp_same.
    apply Shamir.modp_range.
Qed.
(** A committee whose keys are published as [toHex] writes them. *)
Definition plainKeys (nodes : list Committee.CommitteeNodeInfo) : Prop :=
  Forall (fun n => fromHex (Committee.encryptionPubkey n) = hexDecode (Committee.encryptionPubkey n)) nodes.
Definition randomnessOf (threshold : Z) (d : Draws) : Committee.Randomness :=
  Committee.mkRandomness (coefficients threshold (coeffOf d)) (ephOf d) (nonceOf d).
Lemma encrypt_same amount nodes threshold d :
  plainKeys nodes -> 2 <= threshold <= Z.of_nat (length nodes) ->
  Committee.splitAmountForCommittee (toString amount) nodes threshold (randomnessOf threshold d) =
    Some (Ok (splitAndEncryptAmount amount nodes threshold d)).
Proof.
  intros Hk Ht. unfold plainKeys in Hk. unfold Committee.splitAmountForCommittee. rewrite BigInt_toString. simpl.
  rewrite shamirSplit_same by done. unfold splitAndEncryptAmount. do 2 f_equal.
  apply list_eq. intros i. rewrite !list_lookup_imap. destruct (nodes !! i) as [node|] eqn:En; [|done]. simpl. f_equal.
  unfold Committee.encryptShareForNode, encryptShareForNode. rewrite Forall_forall in Hk.
  by rewrite (Hk node) by (by eapply list_elem_of_lookup_2).
Qed.
Lemma hexEncode_no0x b : startsWith (hexEncode b) "0x" = false.
Proof. destruct b as [|c b]; [done|]. destruct c as [[] [] [] [] [] [] [] []]; reflexivity. Qed.
Lemma fromHex_toHex b : fromHex (toHex b) = b.
Proof. unfold fromHex, strip0x, toHex. by rewrite hexEncode_no0x, pairs_hexEncode. Qed.
Lemma plainKeys_published kps : plainKeys (Committee.nodePublicInfo <$> kps).
Proof.
  unfold plainKeys. rewrite Forall_fmap. apply Forall_true. intros kp. cbn.
  change (fromHex (toHex (Committee.boxPublic kp)) = hexDecode (hexEncode (Committee.boxPublic kp))). by rewrite fromHex_toHex, hexDecode_encode.
Qed.

(** ** The commitments open to one value *)
Lemma cut_colon a b x y : noChar ":"%char a = true -> noChar ":"%char b = true -> a +:+ ":" +:+ x = b +:+ ":" +:+ y -> a = b /\ x = y.
Proof.
  intros Ha Hb E. change (a +:+ String ":" x = b +:+ String ":" y) in E. pose proof (f_equal (splitOn ":"%char) E) as Es.
  rewrite !splitOn_append in Es by done. injection Es as -> _. apply append_inj_length in E as [_ E]; [|done]. by injection E as ->.
Qed.
Lemma buildValueCommitment_binds v b v' b' :
  noChar ":"%char v = true -> noChar ":"%char v' = true ->
  buildValueCommitment v b = buildValueCommitment v' b' -> (v = v' /\ b = b') \/ Collision.
Proof.
  unfold buildValueCommitment. intros Hv Hv' E. apply append_inj_length in E as [_ E]; [|done]. apply sha256_binds in E as [E|Hc]; [left|by right].
  by apply cut_colon.
Qed.
End Box.
End SdkMpc.
