(* ===== verification/Sdk.v ===== *)
(** * The client SDK (packages/sdk/src: cctp.ts, notes.ts, intents.ts, wallets.ts)

    What a browser runs against the API: the parameters of deposits and exits,
    the local notes, the private intent and its polling, and the wallet
    adapters.  Theorems: a fast deposit route passes the relayer's check of the
    burn made with it; the intent's shares open to the amount at the committee
    and its commitments to the blindings returned; polling ends. *)
From S2P Require Import Prelude JsText JsCollections Json Crypto Base64 Database Runtime Host Field NoteVault Cctp Evm CctpInbound Shamir Committee SdkMpc.
From Stdlib Require Import Ascii.
Import JsText Json Crypto Runtime Host Field.

(** ** cctp.ts *)
Module SdkCctp.
Import Cctp.

Record DepositRoute := mkDepositRoute {
  tokenMessenger : string; burnToken : string; amount : Z; destinationDomain : Z; mintRecipient : string; destinationCaller : string;
  maxFee : Z; minFinalityThreshold : Z; hookData : string; forwarder : string; pool : string; amount7dp : Z }.
Record ExitRoute := mkExitRoute {
  e_pool : string; e_destinationDomain : Z; destinationRecipient : string; e_maxFee : Z; e_minFinalityThreshold : Z }.
Record DepositRouteParams := mkDepositParams { p_pool : string; amount6 : Z; fast : option bool; maxFee6 : option Z }.
Record ExitRouteParams := mkExitParams { x_pool : string; recipientEvm : string; maxFee7 : Z; x_fast : option bool }.

Definition buildDepositRoute `{StrKey} (p : DepositRouteParams) : result DepositRoute :=
  _ ← validateInboundRoute (mkRoute stellarDomain stellarCctpForwarder stellarCctpForwarder (p_pool p)) stellarCctpForwarder;
  mint ← stellarContractToBytes32 stellarCctpForwarder;
  caller ← stellarContractToBytes32 stellarCctpForwarder;
  hook ← encodeStellarForwardHook (p_pool p);
  let isFast := orElse (fast p) true in
  mret (mkDepositRoute arbitrumSepoliaTokenMessenger arbitrumSepoliaUsdc (amount6 p) stellarDomain mint caller
          (if isFast then orElse (maxFee6 p) (Z.quot (amount6 p) 1000) else 0) (if isFast then 1000 else 2000) hook
          stellarCctpForwarder (p_pool p) (usdc6ToStellar7 (amount6 p))).
Definition buildExitRoute (p : ExitRouteParams) : ExitRoute :=
  let addr := padStart 40 "0"%char (toLowerCase (sliceFrom 2 (recipientEvm p))) in
  mkExitRoute (x_pool p) arbitrumSepoliaDomain ("0x" +:+ repeatString 24 "0"%char +:+ addr) (maxFee7 p)
    (if orElse (x_fast p) true then 1000 else 2000).

(** The burn a wallet submits for a route. *)
Definition burnOf (r : DepositRoute) : Evm.Burn :=
  Evm.mkBurn (amount r) (destinationDomain r) (mintRecipient r) (burnToken r) (destinationCaller r) (maxFee r) (minFinalityThreshold r) (hookData r).
Definition feeWithin (r : DepositRoute) (o : option Z) : Prop := forall m, o = Some m -> maxFee r <= m.
(** The relayer's environment has the locked addresses, or none. *)
Definition lockedEnv (e : EnvMap) : Prop :=
  CctpInbound.lookup e "ARB_SEPOLIA_CCTP_TOKEN_MESSENGER" = None /\ CctpInbound.lookup e "ARB_SEPOLIA_USDC_ADDRESS" = None /\
  CctpInbound.lookup e "STELLAR_CCTP_FORWARDER_CONTRACT" = None /\ CctpInbound.lookup e "EXPECTED_CCTP_FINALITY_THRESHOLD" = None.

(** C18. The client and the relayer agree on a deposit.  A route the SDK builds
    carries the pool's hook and ten times the amount in 7 decimals; and the
    relayer, on its locked addresses, accepts the burn made with the route, by
    the depositing wallet, for the amount and pool deposited, exactly when the
    route is the fast one and its fee is within the prepared one. *)
Theorem deposit_route_accepted `{StrKey} e p r sender tx prepared burnTx :
  buildDepositRoute p = Ok r -> lockedEnv e ->
  Evm.tx_from tx = sender -> Evm.tx_to tx = Some (tokenMessenger r) ->
  let a := CctpInbound.mkBurnArgs burnTx sender (amount6 p) (p_pool p) prepared None in
  amount7dp r = 10 * amount6 p /\
  encodeStellarForwardHook (p_pool p) = Ok (hookData r) /\ stellarContractToBytes32 stellarCctpForwarder = Ok (mintRecipient r) /\
  CctpInbound.checkTx e a tx (Some 1) = Ok tt /\
  (CctpInbound.checkBurn e a (toLowerCase (mintRecipient r)) (toLowerCase (hookData r)) (burnOf r) = Ok tt <->
   orElse (fast p) true = true /\ feeWithin r prepared).
Proof.
  intros Hr (He1 & He2 & He3 & He4) Hs Ht a. unfold buildDepositRoute in Hr.
  destruct (validateInboundRoute _ _) as [[]|]; [|done]. cbn in Hr.
  destruct (stellarContractToBytes32 stellarCctpForwarder) as [mint|] eqn:Em; [|done]. cbn in Hr.
  destruct (encodeStellarForwardHook (p_pool p)) as [hook|] eqn:Eh; [|done]. cbn in Hr. injection Hr as <-. simpl in *.
  assert (CctpInbound.checkTx e a tx (Some 1) = Ok tt) as Hc.
  { apply CctpInbound.checkTx_iff. rewrite Ht, He1. simpl. by rewrite Hs. }
  split; [unfold usdc6ToStellar7; lia|]. split; [done|]. split; [done|]. split; [done|].
  apply CctpInbound.checkTx_iff in Hc as (_ & Hc1 & Hc2). rewrite (CctpInbound.checkBurn_iff e a mint hook tx) by done. split.
  - intros [_ _ _ _ _ _ _ Hf Hfin _]. split; [|exact Hf]. unfold CctpInbound.expectedFinalityOf in Hfin. simpl in Hfin.
    rewrite He4 in Hfin. simpl in Hfin. by destruct (orElse (fast p) true).
  - intros [Hfast Hf]. split; try done; simpl; [by rewrite He2|].
    unfold CctpInbound.expectedFinalityOf. simpl. rewrite He4, Hfast. done.
Qed.
Lemma deposit_route_accepted_witness : exists r,
  @buildDepositRoute CctpInbound.toyStrKey (mkDepositParams "CPOOL" 5000 None None) = Ok r /\ amount7dp r = 50000.
Proof.
  eexists. split; [reflexivity|].
  refine (proj1 (@deposit_route_accepted CctpInbound.toyStrKey [] (mkDepositParams "CPOOL" 5000 None None) _ "0xa"
    (Evm.mkEvmTx "0xa" (Some arbitrumSepoliaTokenMessenger) "") None "0xb" _ _ _ _)); vm_compute; auto.
Defined.
Lemma length_mapString f s : String.length (mapString f s) = String.length s.
Proof. induction s as [|c s IH]; [done|]. simpl. by rewrite IH. Qed.
(** The recipient of an exit is 32 bytes for a 20-byte address. *)
Lemma exit_recipient_length p : String.length (recipientEvm p) = 42%nat ->
  String.length (destinationRecipient (buildExitRoute p)) = 66%nat.
Proof.
  intros Hl. unfold buildExitRoute. cbn [destinationRecipient]. rewrite !length_append, ToyRuntime.repeatString_length.
  unfold padStart. rewrite length_append, ToyRuntime.repeatString_length. unfold toLowerCase. rewrite length_mapString, length_sliceFrom, Hl. done.
Qed.
End SdkCctp.

(** ** notes.ts *)
Module SdkNotes.
Import NoteVault.

Record AddNoteParams := mkAddNote {
  an_commitment : string; an_asset_id : string; an_amount_7dp : string; an_preimage : NotePreimage; an_deposit_id : option string }.
Definition generatePreimage (h : nat -> bytes) : NotePreimage := generateNotePreimage h.
Definition createVault (id : bytes) (now : string) : NoteVault := createEmptyNoteVault (hexEncode id) now.
(** [now1] stamps the note, [now2] the vault. *)
Definition addNote (v : NoteVault) (p : AddNoteParams) (now1 now2 : string) : NoteVault :=
  addNoteToVault v (mkNote (an_commitment p) (an_asset_id p) (an_amount_7dp p) (an_preimage p) (an_deposit_id p) "prepared" now1) now2.
Definition withStatus (st : string) (n : VaultNote) : VaultNote :=
  mkNote (commitment n) (asset_id n) (amount_7dp n) (note_preimage n) (deposit_id n) st (note_created_at n).
Definition setStatus (st : string) (v : NoteVault) (c now : string) : NoteVault :=
  mkVault (vault_id v) (created_at v) now (map (fun n => if commitment n ==? c then withStatus st n else n) (notes v)).
Definition activate : NoteVault -> string -> string -> NoteVault := setStatus "active".
Definition markSpent : NoteVault -> string -> string -> NoteVault := setStatus "spent".
Definition hasStatus (st : string) (n : VaultNote) : bool := note_status n ==? st.
Definition list (v : NoteVault) (st : option string) : Datatypes.list VaultNote :=
  match truthyOpt st with Some st => selectWhere (hasStatus st) (notes v) | None => notes v end.
Definition find (v : NoteVault) (c : string) : option VaultNote := List.find (fun n => commitment n ==? c) (notes v).
(** [filter(active).reduce((sum, n) => sum + BigInt(n.amount_7dp), 0n)]. *)
Fixpoint sumActive (l : Datatypes.list VaultNote) (sum : Z) : result Z :=
  match l with
  | [] => Ok sum
  | n :: l => if hasStatus "active" n then a ← BigInt (amount_7dp n); sumActive l (sum + a) else sumActive l sum
  end.
Definition totalActive7dp (v : NoteVault) : result Z := sumActive (notes v) 0.

(** Spending an active note takes exactly its amount off the balance, and
    activating a prepared one adds it. *)
Definition worth (n : VaultNote) (a : Z) : Prop := BigInt (amount_7dp n) = Ok a.
Lemma sumActive_from l : forall s t d, sumActive l s = Ok t -> sumActive l (s + d) = Ok (t + d).
Proof.
  induction l as [|n l IH]; intros s t d; cbn [sumActive]; [by intros [= ->]|].
  destruct (hasStatus "active" n); [|apply IH]. destruct (BigInt (amount_7dp n)) as [a|e]; [|done]. cbn. intros E.
  replace (s + d + a) with (s + a + d) by lia. by apply IH.
Qed.
Lemma setStatus_other st c l : c ∉ commitment <$> l -> map (fun n => if commitment n ==? c then withStatus st n else n) l = l.
Proof.
  induction l as [|n l IH]; [done|]. rewrite fmap_cons, not_elem_of_cons. intros [Hn Hl]. cbn. by rewrite bool_decide_false, IH.
Qed.
Lemma sumActive_change st l : forall n a s t, NoDup (commitment <$> l) -> n ∈ l -> worth n a -> sumActive l s = Ok t ->
  sumActive (map (fun m => if commitment m ==? commitment n then withStatus st m else m) l) s =
    Ok (t + (if st ==? "active" then a else 0) - (if hasStatus "active" n then a else 0)).
Proof.
  induction l as [|m l IH]; intros n a s t; [by intros _ ?%elem_of_nil|]. rewrite fmap_cons. intros [Hm Hnd]%NoDup_cons Hin Hw.
  cbn [map sumActive]. apply elem_of_cons in Hin as [->|Hin].
  - rewrite bool_decide_true, setStatus_other by done. unfold hasStatus at 2. cbn [withStatus note_status amount_7dp].
    unfold worth in Hw. rewrite Hw. cbn. destruct (hasStatus "active" m), (st ==? "active"); intros Ht.
    + rewrite Ht. f_equal. lia.
    + pose proof (sumActive_from _ _ _ (- a) Ht) as Hx. replace (s + a + - a) with s in Hx by lia. rewrite Hx. f_equal. lia.
    + rewrite (sumActive_from _ _ _ a Ht). f_equal. lia.
    + rewrite Ht. f_equal. lia.
  - assert (commitment m ≠ commitment n) as Hne by (intros E; apply Hm; rewrite E; by apply list_elem_of_fmap_2).
    rewrite bool_decide_false by done. destruct (hasStatus "active" m); [|by apply IH].
    destruct (BigInt (amount_7dp m)) as [b|e]; [|done]. cbn. by apply IH.
Qed.
Lemma markSpent_total v n a t now :
  NoDup (commitment <$> notes v) -> n ∈ notes v -> hasStatus "active" n = true -> worth n a -> totalActive7dp v = Ok t ->
  totalActive7dp (markSpent v (commitment n) now) = Ok (t - a).
Proof.
  intros Hnd Hin Hst Hw Ht. pose proof (sumActive_change "spent" _ n a 0 t Hnd Hin Hw Ht) as E. rewrite Hst in E.
  change ("spent" ==? "active") with false in E. unfold totalActive7dp, markSpent, setStatus. cbn [notes]. rewrite E. f_equal. lia.
Qed.
Lemma activate_total v n a t now :
  NoDup (commitment <$> notes v) -> n ∈ notes v -> hasStatus "active" n = false -> worth n a -> totalActive7dp v = Ok t ->
  totalActive7dp (activate v (commitment n) now) = Ok (t + a).
Proof.
  intros Hnd Hin Hst Hw Ht. pose proof (sumActive_change "active" _ n a 0 t Hnd Hin Hw Ht) as E. rewrite Hst in E.
  change ("active" ==? "active") with true in E. unfold totalActive7dp, activate, setStatus. cbn [notes]. rewrite E. f_equal. lia.
Qed.
End SdkNotes.

(** ** intents.ts *)
Module SdkIntents.

Record IntentBlindings := mkBlindings { amountBlinding : string; minOutputBlinding : string; destinationBlinding : string }.
Record IntentParams := mkParams {
  inputAsset : string; outputAsset : string; amountMode : string; amount7dp : string; minOutput7dp : string; expiryLedger : Z;
  noteCommitment : string; destination : string; policyId : option string; noteNullifier : option string;
  recipientCommitment : option string; encryptedShares : option (list Committee.EncryptedShare) }.
Record PrivateIntentBuildParams := mkBuild {
  b_amount7dp : Z; b_minOutput7dp : Z; b_noteCommitment : string; b_noteNullifier : string; b_recipientCommitment : string;
  b_destinationAddress : string; b_inputAsset : string; b_outputAsset : string; b_expiryLedger : Z; b_policyId : option string }.
Record SettlementStatus := mkStatus { state : string; txHash : option json; detail : option string }.

Section Client.
Context `{Os} `{Random} `{Sha256} `{Fetch} `{Nacl} `{KeyGen}.
Context (apiBase : string).

(** The answer's text is that of its JSON body; the authorization header is
    not part of [fetch] here. *)
Definition request (verb path : string) (body : json) : M Host json :=
  k ← nextTick;
  res ← liftR (fetch k verb (apiBase +:+ path) body);
  guardM (respOk res.1) (Error None (verb +:+ " " +:+ path +:+ ": " +:+ toString res.1 +:+ " " +:+ stringify res.2)) ;;
  mret res.2.
Definition post (path : string) (body : json) : M Host json := request "POST" path body.
Definition get (path : string) : M Host json := request "GET" path JNull.

Definition nodeOf (j : json) : Committee.CommitteeNodeInfo :=
  Committee.mkNodeInfo (strField j "nodeId") (strField j "encryptionPubkey") (strField j "signingPubkey").
Definition fetchCommittee : M Host (list Committee.CommitteeNodeInfo) :=
  data ← get "/v1/mpc/committee";
  match field data "nodes" with
  | JArr l => mret (map nodeOf l)
  | _ => failM "TypeError: nodes is not an array"
  end.
(** The draws of one [splitAndEncryptAmount]: the coefficients, then a key pair
    and a nonce per node. *)
Definition drawsFrom (base threshold : Z) : SdkMpc.Draws :=
  SdkMpc.mkDraws (fun i => randomBytes (base + Z.of_nat i - 1) 32) (fun i => genBox (base + threshold - 1 + 2 * Z.of_nat i))
    (fun i => randomBytes (base + threshold + 2 * Z.of_nat i) 24).
Definition buildPrivateIntent (p : PrivateIntentBuildParams) : M Host (IntentParams * IntentBlindings) :=
  nodes ← fetchCommittee;
  a ← draw 32; m ← draw 32; d ← draw 32;
  let bl := mkBlindings (SdkMpc.randomBlinding a) (SdkMpc.randomBlinding m) (SdkMpc.randomBlinding d) in
  let amountCommitment := SdkMpc.buildAmountCommitment (b_amount7dp p) (amountBlinding bl) in
  let minOutputCommitment := SdkMpc.buildAmountCommitment (b_minOutput7dp p) (minOutputBlinding bl) in
  let destinationCommitment := SdkMpc.buildValueCommitment (b_destinationAddress p) (destinationBlinding bl) in
  base ← calls (1 + 2 * Z.of_nat (length nodes));
  let shares := SdkMpc.splitAndEncryptAmount (b_amount7dp p) nodes 2 (drawsFrom base 2) in
  mret (mkParams (b_inputAsset p) (b_outputAsset p) "exact_in" amountCommitment minOutputCommitment (b_expiryLedger p)
          (b_noteCommitment p) destinationCommitment (b_policyId p) (Some (b_noteNullifier p)) (Some (b_recipientCommitment p)) (Some shares), bl).
Definition shareJson (s : Committee.EncryptedShare) : json := JObj
  [("nodeId", JStr (Committee.es_nodeId s)); ("ciphertext", JStr (Committee.ciphertext s)); ("nonce", JStr (Committee.nonce s));
   ("senderPubkey", JStr (Committee.senderPubkey s))].
Definition mpcFields (p : IntentParams) : list (string * json) :=
  match encryptedShares p, truthyOpt (noteNullifier p) with
  | Some ((_ :: _) as shares), Some nul =>
      [("note_nullifier", JStr nul); ("note_commitment", JStr (noteCommitment p))]
      ++ match recipientCommitment p with Some c => [("recipient_commitment", JStr c)] | None => [] end
      ++ [("encrypted_shares", JArr (map shareJson shares))]
  | _, _ => []
  end.
Definition intentBody (p : IntentParams) : json := JObj
  ([("intent_type", JStr "PRIVATE_RFQ"); ("version", JStr "1.0"); ("user_pubkey_commitment", JStr (noteCommitment p));
    ("input_asset", JStr (inputAsset p)); ("output_asset", JStr (outputAsset p)); ("amount_mode", JStr (amountMode p));
    ("amount_commitment", JStr (amount7dp p)); ("min_output_commitment", JStr (minOutput7dp p)); ("expiry_ledger", JNum (expiryLedger p));
    ("allowed_solvers_root", JStr ("0x" +:+ repeatString 64 "0"%char));
    ("compliance_policy_id", JStr (orElse (policyId p) "shade:default-testnet-policy:v1"));
    ("destination_commitment", JStr (destination p)); ("replay_domain", JStr "shade:stellar:testnet:rfq:v1");
    ("signature", JStr ("0x" +:+ repeatString 128 "0"%char))] ++ mpcFields p).
Definition submit (p : IntentParams) : M Host json := post "/v1/intents" (intentBody p).
Definition acceptQuote (quoteId : string) : M Host json := post ("/v1/quotes/" +:+ quoteId +:+ "/accept") (JObj []).

(** ** Polling *)
(** [delay]: the timer is one more call out of the process. *)
Definition delay : M Host unit := nextTick ;; mret tt.
(** [while (Date.now() < deadline)]: [None] when the fuel runs out, [Some
    None] at the deadline; an error of the probe counts as no answer. *)
Fixpoint pollLoop {A} (fuel : nat) (deadline : Z) (probe : M Host (option A)) : M Host (option (option A)) :=
  match fuel with
  | O => mret None
  | S f =>
      now ← Host.dateNow;
      if now <? deadline then
        r ← catchM probe (fun _ => mret None);
        match r with
        | Some a => mret (Some (Some a))
        | None => delay ;; pollLoop f deadline probe
        end
      else mret (Some None)
  end.
Definition pollFor {A} (fuel : nat) (timeoutMs : Z) (probe : M Host (option A)) : M Host (option (option A)) :=
  start ← Host.dateNow;
  pollLoop fuel (start + timeoutMs) probe.
Definition firstQuote (data : json) : option json :=
  match field data "quotes" with JArr (q :: _) => if truthyJson q then Some q else None | _ => None end.
Definition pollQuote (fuel : nat) (timeoutMs : Z) (intentId : string) : M Host (option json) :=
  r ← pollFor fuel timeoutMs (data ← get ("/v1/intents/" +:+ intentId +:+ "/quotes"); mret (firstQuote data));
  match r with
  | None => mret None
  | Some (Some q) => mret (Some q)
  | Some None => failM ("pollQuote: no quote after " +:+ toString timeoutMs +:+ "ms for intent " +:+ intentId)
  end.
Definition terminalStatus (data : json) : option SettlementStatus :=
  let st := strField data "state" in
  if JsSet.has ["settled"; "failed"; "expired"] st then
    Some (mkStatus st (match field data "tx_hash" with JNull => None | h => Some h end) None)
  else None.
Definition trackSettlement (fuel : nat) (timeoutMs : Z) (intentId : string) : M Host (option SettlementStatus) :=
  r ← pollFor fuel timeoutMs (data ← get ("/v1/intents/" +:+ intentId); mret (terminalStatus data));
  mret (match r with
        | None => None
        | Some (Some s) => Some s
        | Some None => Some (mkStatus "pending" None (Some ("not settled after " +:+ toString timeoutMs +:+ "ms")))
        end).
Definition terminalDeposit (data : json) : option json :=
  if JsSet.has ["registered"; "failed"] (strField data "state") then Some data else None.
Definition trackDeposit (fuel : nat) (timeoutMs : Z) (depositId : string) : M Host (option json) :=
  r ← pollFor fuel timeoutMs (data ← get ("/v1/deposits/" +:+ depositId); mret (terminalDeposit data));
  mret (match r with
        | None => None
        | Some (Some d) => Some d
        | Some None => Some (JObj [("state", JStr "pending")])
        end).
(** ** Opening what was sent *)
(** Any two or more of the nodes hold the amount. *)
Definition openedBy (kps : list Committee.CommitteeNodeKeyPair) (encs : list Committee.EncryptedShare) (amount : Z) : Prop :=
  forall idx, NoDup idx -> Forall (fun i => i < length kps)%nat idx -> (2 <= length idx)%nat ->
  exists shares, Committee.mapResult (Committee.nodeDecrypt encs kps) idx = Ok shares /\
    Committee.reconstructAmount shares = Some (Ok (Shamir.modp amount)).
Definition opensOnly (commitment value blinding : string) : Prop :=
  commitment = SdkMpc.buildValueCommitment value blinding /\
  forall v b, noChar ":"%char v = true -> commitment = SdkMpc.buildValueCommitment v b -> (v = value /\ b = blinding) \/ Collision.

Lemma indices_bound n (idx : list nat) : NoDup idx -> Forall (fun i => i < n)%nat idx -> (length idx <= n)%nat.
Proof.
  intros Hnd Hf. rewrite <- (length_seq n 0). apply submseteq_length, NoDup_submseteq; [done|].
  intros i Hi. rewrite Forall_forall in Hf. apply elem_of_seq. specialize (Hf i Hi). lia.
Qed.
Lemma shares_open `{!NaclLaws} kps amount d :
  Forall Committee.goodKeys kps -> Z.of_nat (length kps) <= 1000 -> (forall i, boxKeyPair (SdkMpc.ephOf d i).1 (SdkMpc.ephOf d i).2) ->
  openedBy kps (SdkMpc.splitAndEncryptAmount amount (Committee.nodePublicInfo <$> kps) 2 d) amount.
Proof.
  intros Hk Hn Hd idx Hnd Hidx Hl. pose proof (indices_bound _ _ Hnd Hidx).
  eapply Committee.roundtrip_shares with (rnd := SdkMpc.randomnessOf 2 d) (thr := 2); try done; [|lia].
  apply SdkMpc.encrypt_same; [apply SdkMpc.plainKeys_published|]. rewrite length_fmap. lia.
Qed.
Lemma noColon_toString z : noChar ":"%char (toString z) = true.
Proof.
  unfold noChar. eapply allChars_impl; [|apply isNumeric_toString]. intros c Hc. apply negb_true_iff, bool_decide_eq_false. intros ->. done.
Qed.
Lemma opens_value v b : noChar ":"%char v = true -> opensOnly (SdkMpc.buildValueCommitment v b) v b.
Proof. intros Hv. split; [done|]. intros v' b' Hv' E. symmetry in E. by apply SdkMpc.buildValueCommitment_binds in E. Qed.
Lemma opens_amount z b : opensOnly (SdkMpc.buildAmountCommitment z b) (toString z) b.
Proof. apply opens_value, noColon_toString. Qed.

(** C15. A private intent can be opened by those who should, and in one way
    only.  Once the API has answered with the committee, building the intent
    cannot fail; any two or more nodes that decrypt their shares recover the
    amount (reduced into the field), whatever the random draws; and the three
    commitments are those of the amount, the minimum and the destination under
    the blindings kept by the client, and open to nothing else short of a
    SHA-256 collision. *)
Theorem private_intent_opens `{!NaclLaws} p kps h h1 :
  (forall k, boxKeyPair (genBox k).1 (genBox k).2) -> Forall Committee.goodKeys kps -> Z.of_nat (length kps) <= 1000 ->
  noChar ":"%char (b_destinationAddress p) = true ->
  fetchCommittee h = (Ok (Committee.nodePublicInfo <$> kps), h1) ->
  exists payload bl h', buildPrivateIntent p h = (Ok (payload, bl), h') /\
    (exists encs, encryptedShares payload = Some encs /\ openedBy kps encs (b_amount7dp p)) /\
    opensOnly (amount7dp payload) (toString (b_amount7dp p)) (amountBlinding bl) /\
    opensOnly (minOutput7dp payload) (toString (b_minOutput7dp p)) (minOutputBlinding bl) /\
    opensOnly (destination payload) (b_destinationAddress p) (destinationBlinding bl).
Proof.
  intros Hg Hk Hn Hd Hf. unfold buildPrivateIntent. unfold mbind at 1, M_bind at 1. rewrite Hf. do 3 eexists. split; [reflexivity|]. simpl.
  split; [|by auto using opens_amount, opens_value]. eexists. split; [reflexivity|]. apply shares_open; [done..|]. intros i. apply Hg.
Qed.

(** ** Polling ends *)
(** The turns of a loop whose probe is one call are three calls apart; each
    takes at least the interval of its timer. *)
Definition turnsTake (interval k : Z) : Prop :=
  clock k <= clock (k + 1) /\ forall j, 0 <= j -> clock (k + 1 + 3 * j) + interval <= clock (k + 1 + 3 * (j + 1)).
Definition oneCall {A} (probe : M Host A) : Prop := forall h, tick (probe h).2 = tick h + 1.
Definition pollResult {A} (probe : M Host (option A)) (o : option A) : Prop := forall a, o = Some a -> exists h, (probe h).1 = Ok (Some a).

Lemma pollLoop_S {A} f deadline (probe : M Host (option A)) h : oneCall probe ->
  let h1 := mkHost (files h) (tick h + 1) in
  pollLoop (S f) deadline probe h =
    (if clock (tick h) <? deadline then
       match (probe h1).1 with
       | Ok (Some a) => (Ok (Some (Some a)), (probe h1).2)
       | _ => pollLoop f deadline probe (mkHost (files (probe h1).2) (tick h + 3))
       end
     else (Ok (Some None), h1)).
Proof.
  intros Hp h1. cbn [pollLoop]. unfold dateNow. unfold mbind at 1, M_bind at 1. fold h1. destruct (clock (tick h) <? deadline); [|done].
  unfold mbind at 1, M_bind at 1, catchM. specialize (Hp h1). destruct (probe h1) as [[[a|]|e] [fs k]]; [done|..]; cbn in Hp; subst k;
    replace (tick h + 3) with (tick h + 1 + 1 + 1) by lia; done.
Qed.
Lemma pollLoop_ends {A} interval timeoutMs k (probe : M Host (option A)) : oneCall probe ->
  0 < interval -> turnsTake interval k ->
  forall f j h, 0 <= j -> tick h = k + 1 + 3 * j -> clock k + interval * j <= clock (tick h) -> (0 < f)%nat ->
  timeoutMs / interval + 2 - j <= Z.of_nat f ->
  exists o h', pollLoop f (clock k + timeoutMs) probe h = (Ok (Some o), h') /\ pollResult probe o.
Proof.
  intros Hp Hi [_ Ht]. induction f as [|f IH]; intros j h Hj Hk Hc Hpos Hf; [lia|]. rewrite pollLoop_S by done.
  destruct (Z.ltb_spec (clock (tick h)) (clock k + timeoutMs)) as [Hlt|]; [|by eexists None, _].
  destruct ((probe _).1) as [[a|]|e] eqn:Ep.
  1: { eexists (Some a), _. split; [done|]. intros a' [= <-]. by eexists. }
  all: apply (IH (j + 1)); cbn [tick]; [lia|lia| | |lia].
  all: try (specialize (Ht j Hj); replace (tick h + 3) with (k + 1 + 3 * (j + 1)) by lia; rewrite Hk in Hc; lia).
  all: assert (j <= timeoutMs / interval) by (apply Z.div_le_lower_bound; lia); lia.
Qed.
Lemma pollFor_ends {A} interval timeoutMs (probe : M Host (option A)) fuel h : oneCall probe ->
  0 < interval -> 0 <= timeoutMs -> turnsTake interval (tick h) -> timeoutMs / interval + 2 <= Z.of_nat fuel ->
  exists o h', pollFor fuel timeoutMs probe h = (Ok (Some o), h') /\ pollResult probe o.
Proof.
  intros Hp Hi Ht Hc Hf. pose proof (Z.div_pos timeoutMs interval Ht Hi). unfold pollFor, dateNow. unfold mbind, M_bind.
  apply (pollLoop_ends interval timeoutMs (tick h) probe Hp Hi Hc fuel 0); cbn [tick]; [lia..| | |]; [|lia|lia]. destruct Hc as [Hc _]. lia.
Qed.
Lemma oneCall_get {A} path (f : json -> option A) : oneCall (data ← get path; mret (f data)).
Proof.
  intros h. unfold get, request, nextTick, liftR, guardM, throwM. unfold mbind, M_bind, mret, M_ret. cbn [tick].
  destruct (fetch _ _ _ _) as [res|e]; [|done]. by destruct (respOk res.1).
Qed.
(** What a call to the API answered. *)
Definition told {A} (path : string) (f : json -> option A) (a : A) : Prop := exists h data, (get path h).1 = Ok data /\ f data = Some a.
Lemma pollResult_told {A} path (f : json -> option A) o a : pollResult (data ← get path; mret (f data)) o -> o = Some a -> told path f a.
Proof.
  intros Hp Ho. destruct (Hp a Ho) as (h & E). unfold mbind, M_bind in E. exists h. destruct (get path h) as [[data|e] h']; [|done].
  injection E as E. by exists data.
Qed.
Lemma pollGet_ends {A} path (f : json -> option A) interval timeoutMs fuel h :
  0 < interval -> 0 <= timeoutMs -> turnsTake interval (tick h) -> timeoutMs / interval + 2 <= Z.of_nat fuel ->
  exists o h', pollFor fuel timeoutMs (data ← get path; mret (f data)) h = (Ok (Some o), h') /\ (forall a, o = Some a -> told path f a).
Proof.
  intros Hi Ht Hc Hf. destruct (pollFor_ends interval timeoutMs _ fuel h (oneCall_get path f) Hi Ht Hc Hf) as (o & h' & E & Hr).
  exists o, h'. split; [exact E|]. intros a. by apply pollResult_told.
Qed.

(** Every wait of the client ends.  When a turn takes at least the
    interval, [timeout / interval + 2] turns are enough: tracking a settlement
    or a deposit returns an answer of the API in a final state or "pending",
    and never throws, whatever the network does; polling for a quote returns
    the first quote of an answer or throws the time-out error. *)
Theorem polling_ends interval timeoutMs fuel id h :
  0 < interval -> 0 <= timeoutMs -> turnsTake interval (tick h) -> timeoutMs / interval + 2 <= Z.of_nat fuel ->
  (exists s h', trackSettlement fuel timeoutMs id h = (Ok (Some s), h') /\
     (told ("/v1/intents/" +:+ id) terminalStatus s \/ state s = "pending")) /\
  (exists d h', trackDeposit fuel timeoutMs id h = (Ok (Some d), h') /\
     (told ("/v1/deposits/" +:+ id) terminalDeposit d \/ d = JObj [("state", JStr "pending")])) /\
  (exists h', (exists q, pollQuote fuel timeoutMs id h = (Ok (Some q), h') /\ told ("/v1/intents/" +:+ id +:+ "/quotes") firstQuote q) \/
     pollQuote fuel timeoutMs id h =
       (Throw (Error None ("pollQuote: no quote after " +:+ toString timeoutMs +:+ "ms for intent " +:+ id)), h')).
Proof.
  intros Hi Ht Hc Hf. unfold trackSettlement, trackDeposit, pollQuote. split_and!.
  - destruct (pollGet_ends ("/v1/intents/" +:+ id) terminalStatus interval timeoutMs fuel h) as (o & h' & E & Hr); [done..|].
    unfold mbind at 1, M_bind at 1. rewrite E. destruct o as [s|]; do 2 eexists; (split; [reflexivity|]); [left; by apply Hr|by right].
  - destruct (pollGet_ends ("/v1/deposits/" +:+ id) terminalDeposit interval timeoutMs fuel h) as (o & h' & E & Hr); [done..|].
    unfold mbind at 1, M_bind at 1. rewrite E. destruct o as [s|]; do 2 eexists; (split; [reflexivity|]); [left; by apply Hr|by right].
  - destruct (pollGet_ends ("/v1/intents/" +:+ id +:+ "/quotes") firstQuote interval timeoutMs fuel h) as (o & h' & E & Hr); [done..|].
    unfold mbind, M_bind in E |- *. rewrite E. exists h'. destruct o as [q|]; [|by right]. left. exists q. split; [done|by apply Hr].
Qed.
End Client.

(** ** Witnesses: two nodes, an API that answers the second call *)
Definition toyKeys : KeyGen := {| genBox k := (toString k, toString k); genSign k := (toString k, toString k) |}.
Definition toyNode (id : string) : Committee.CommitteeNodeKeyPair := 
  Committee.mkKeyPair id ("b" +:+ id) ("b" +:+ id) (Crypto.Toy.fit id) (Crypto.Toy.fit id).
Definition toyCommittee : list Committee.CommitteeNodeKeyPair := [toyNode "n1"; toyNode "n2"].
Definition nodeJson (n : Committee.CommitteeNodeInfo) : json := JObj
  [("nodeId", JStr (Committee.nodeId n)); ("encryptionPubkey", JStr (Committee.encryptionPubkey n));
   ("signingPubkey", JStr (Committee.signingPubkey n))].
Definition toyApi : Fetch := fun k _ url _ =>
  if url ==? "https://api/v1/mpc/committee" then Ok (200, JObj [("nodes", JArr (map nodeJson (Committee.nodePublicInfo <$> toyCommittee)))])
  else if k <? 5 then Ok (503, JNull) else Ok (200, JObj [("state", JStr "settled"); ("tx_hash", JStr "ab")]).
Definition toyBuild : PrivateIntentBuildParams := mkBuild 50 40 "0xc" "0xn" "0xr" "0xdest" "USDC" "EURC" 9 None.
Lemma private_intent_opens_witness : exists payload bl h',
  @buildPrivateIntent ToyRuntime.toy_random Toy.toy_sha toyApi Toy.toy_nacl toyKeys "https://api" toyBuild (mkHost ∅ 0) = (Ok (payload, bl), h') /\
  amount7dp payload = "0x50:" +:+ amountBlinding bl.
Proof.
  destruct (@private_intent_opens ToyRuntime.toy_random Toy.toy_sha toyApi Toy.toy_nacl toyKeys "https://api" Toy.toy_laws
    toyBuild toyCommittee (mkHost ∅ 0) (mkHost ∅ 1)) as (payload & bl & h' & E & _ & [Ha _] & _).
  - intros k. reflexivity.
  - repeat constructor.
  - vm_compute. discriminate.
  - reflexivity.
  - vm_compute. reflexivity.
  - exists payload, bl, h'. split; [exact E|]. rewrite Ha. reflexivity.
Defined.
Definition toyClock : Os := {| cwd := "/"; execFile k c a fs := (Ok "", fs); spawn k c a p := mkExit (Some 0) "" ""; clock k := 10 * k |}.
Lemma polling_ends_witness :
  exists h', @trackSettlement toyClock toyApi "https://api" 5 60 "i1" (mkHost ∅ 0) = (Ok (Some (mkStatus "settled" (Some (JStr "ab")) None)), h').
Proof.
  destruct (@polling_ends toyClock toyApi "https://api" 30 60 5 "i1" (mkHost ∅ 0)) as ((s & h' & E & _) & _).
  - lia.
  - lia.
  - split; cbn; lia.
  - vm_compute. discriminate.
  - exists h'. rewrite E. revert E. vm_compute. by intros [= <- <-].
Defined.
End SdkIntents.

(** ** wallets.ts *)
Module SdkWallets.
Import Base64.

(** The browser extension: a result is text or an object, and messages may not
    be supported. *)
Record FreighterApi := mkFreighter {
  getPublicKey : result string; isConnectedApi : result (bool + bool); signTransaction : string -> option string -> result (string + string);
  signMessageApi : option (string -> result (string + bytes)) }.
Definition plain {A} (r : A + A) : A := match r with inl a => a | inr a => a end.
Definition publicKey (f : FreighterApi) : result string := getPublicKey f.
Definition isConnected (f : FreighterApi) : result bool := r ← isConnectedApi f; Ok (plain r).
Definition signXdr (f : FreighterApi) (xdr : string) (networkPassphrase : option string) : result string :=
  r ← signTransaction f xdr networkPassphrase; Ok (plain r).
Definition isHexDigit (c : ascii) : bool := match digitVal c with Some v => v <? 16 | None => false end.
(** [/^[0-9a-f]{128}$/i]. *)
Definition isHexSignature (s : string) : bool := (String.length s =? 128)%nat && allChars isHexDigit s.
Definition signMessage (f : FreighterApi) (message : string) : result (option bytes) :=
  match signMessageApi f with
  | None => Ok None
  | Some sign =>
      r ← sign message;
      match r with
      | inl s => if isHexSignature s then Ok (Some (SdkMpc.pairs s)) else b ← atob s; Ok (Some b)
      | inr b => Ok (Some b)
      end
  end.

Record EvmSigner := mkSigner { getAddress : result string; signEvm : string -> result string }.
Definition verifyOwnership (w : EvmSigner) (expectedAddress : string) (now : Z) : bool :=
  match signEvm w ("shade:verify:" +:+ toString now) with
  | Throw _ => false
  | Ok sig =>
      match getAddress w with
      | Throw _ => false
      | Ok addr => (toLowerCase addr ==? toLowerCase expectedAddress) && (0 <? String.length sig)%nat
      end
  end.

Lemma hexEncode_digits b : allChars isHexDigit (hexEncode b) = true /\ String.length (hexEncode b) = (2 * String.length b)%nat.
Proof.
  induction b as [|c b [IH1 IH2]]; [done|]. cbn [hexEncode]. unfold hexOfByte. rewrite !append_cons, append_nil_l.
  cbn [allChars String.length]. rewrite IH1, IH2. unfold isHexDigit. pose proof (nibbles c).
  rewrite !digitVal_hexDigit by lia. rewrite !(proj2 (Z.ltb_lt _ _)) by lia. split; [done|lia].
Qed.
Lemma btoa_length b : String.length (btoa b) = (4 * ((String.length b + 2) / 3))%nat.
Proof. unfold btoa. rewrite length_append, encodeGroups_length. by apply (groups_length b (String.length b)). Qed.
(** However the extension writes a 64-byte signature, the caller gets its bytes. *)
Lemma signMessage_bytes f sign message sig : String.length sig = 64%nat -> signMessageApi f = Some sign ->
  sign message ∈ [Ok (inl (hexEncode sig)); Ok (inl (btoa sig)); Ok (inr sig)] -> signMessage f message = Ok (Some sig).
Proof.
  intros Hl Hf Hin. unfold signMessage. rewrite Hf. apply elem_of_cons in Hin as [->|[->|[->|[]%elem_of_nil]%elem_of_cons]%elem_of_cons]; cbn.
  - pose proof (hexEncode_digits sig) as [H1 H2]. unfold isHexSignature. rewrite H1, H2, Hl. cbn. by rewrite SdkMpc.pairs_hexEncode.
  - unfold isHexSignature. rewrite btoa_length, Hl. cbn -[btoa atob]. by rewrite atob_btoa.
  - done.
Qed.
(** The check asks the wallet for its address and for any signature; it does
    not look at what was signed. *)
Lemma verifyOwnership_trusts w expected now addr sig : getAddress w = Ok addr -> toLowerCase addr = toLowerCase expected ->
  signEvm w ("shade:verify:" +:+ toString now) = Ok sig -> sig ≠ "" -> verifyOwnership w expected now = true.
Proof. intros Ha He Hs Hn. unfold verifyOwnership. rewrite Hs, Ha, He, bool_decide_true by done. by destruct sig. Qed.
End SdkWallets.
