(* ===== verification/WebClient.v ===== *)
(** * The browser (apps/web/src, frontend/lib)

    What the web applications do on the user's side: the wallets they report,
    the recovery methods a vault is secured with, its upload, the proof of the
    backup, the restoration on another device, and the checkout of a deposit.
    The API is an interface, [Server].  Lemmas: a passkey identifier survives
    its encoding, each wallet is reported once, the page offers a vault exactly
    when the API takes deposits to it, and no checkout records its note. *)
From S2P Require Import Prelude JsText JsCollections Json Crypto Base64 Database Runtime Host Field StellarUtils NoteVault Store Privy Cctp.
From Stdlib Require Import Ascii.
Import JsText Json Crypto Base64 Runtime NoteVault.

Module WebClient.

(** ** frontend/lib/privy-wallets.ts *)
Record PrivyLinkedAccount := mkLinked {
  la_type : option string; la_address : option string; chainType : option string; walletClientType : option string;
  walletClient : option string; la_id : option string }.
Record SyncWalletInput := mkSync {
  wallet_type : string; wallet_source : string; chain : string; address : string; privy_wallet_id : option string }.
Definition keyOf (w : SyncWalletInput) : string := wallet_type w +:+ ":" +:+ toLowerCase (address w).
Definition walletOf (a : PrivyLinkedAccount) : option SyncWalletInput :=
  match la_type a, truthyOpt (la_address a) with
  | Some t, Some addr =>
      if t ==? "wallet" then
        let isEvm := orElse (chainType a) "ethereum" ==? "ethereum" in
        let client := match walletClientType a with Some c => Some c | None => walletClient a end in
        let source := match client with Some c => if c ==? "privy" then "privy_embedded" else "external" | None => "external" end in
        Some (mkSync (if isEvm then "EVM" else "STELLAR") source (if isEvm then "arbitrum-sepolia" else "stellar-testnet") addr (la_id a))
      else None
  | _, _ => None
  end.
Fixpoint dedupe (seen : list string) (l : list SyncWalletInput) : list SyncWalletInput :=
  match l with
  | [] => []
  | w :: l => if JsSet.has seen (keyOf w) then dedupe seen l else w :: dedupe (JsSet.add seen (keyOf w)) l
  end.
Definition walletsFromPrivyUser (user : option (list PrivyLinkedAccount)) : list SyncWalletInput :=
  match user with None => [] | Some accounts => dedupe [] (omap walletOf accounts) end.

(** ** frontend/lib/vault-hooks.ts *)
Definition isDepositReady (v : json) : bool :=
  (strField v "backup_status" ==? "verified")
  && ((strField v "recovery_policy_status" ==? "sufficient") || (strField v "recovery_policy_status" ==? "strong")).

(** ** The state of a browser, and the API behind it

    The decrypted vault of the session, the envelopes in IndexedDB, the files
    saved, the key unlocked for the session; [tick] indexes the calls out of
    the page. *)
Class Server := { serverState : Type; serve : serverState -> string -> string -> option string -> json -> result (Z * json) * serverState }.
Section State.
Context `{Server}.
Record Browser := mkBrowser {
  memory : option json; envelopes : gmap string json; downloads : list (string * json); unlocked : option (string * bytes);
  server : serverState; tick : Z }.
Definition nextTick : M Browser Z := fun b =>
  (Ok (tick b), mkBrowser (memory b) (envelopes b) (downloads b) (unlocked b) (server b) (tick b + 1)).
Definition draw `{Random} (n : nat) : M Browser bytes := k ← nextTick; mret (randomBytes k n).
Definition setMemoryVault (v : option json) : M Browser unit :=
  modifyM (fun b => mkBrowser v (envelopes b) (downloads b) (unlocked b) (server b) (tick b)).
Definition cacheEnvelope (env : json) : M Browser unit :=
  modifyM (fun b => mkBrowser (memory b) (<[strField env "vault_id" := env]> (envelopes b)) (downloads b) (unlocked b) (server b) (tick b)).
Definition loadCachedEnvelope (vaultId : string) : M Browser (option json) := fun b => (Ok (envelopes b !! vaultId), b).
Definition clearLocalCache : M Browser unit :=
  modifyM (fun b => mkBrowser None ∅ (downloads b) (unlocked b) (server b) (tick b)).
Definition download (name : string) (obj : json) : M Browser unit :=
  modifyM (fun b => mkBrowser (memory b) (envelopes b) (downloads b ++ [(name, obj)]) (unlocked b) (server b) (tick b)).
Definition setUnlocked (vaultId : string) (masterKey : bytes) (vault : json) : M Browser unit :=
  modifyM (fun b => mkBrowser (Some vault) (envelopes b) (downloads b) (Some (vaultId, masterKey)) (server b) (tick b)).

(** ** apps/web/src/lib/api.ts

    [POST] with a body, [GET] without, unless the method is given; every
    request is marked as JSON, and may carry an idempotency key. *)
Definition call (verb path : string) (key : option string) (body : json) : M Browser (Z * json) := fun b =>
  let '(r, s) := serve (server b) verb path key body in
  (r, mkBrowser (memory b) (envelopes b) (downloads b) (unlocked b) s (tick b + 1)).
Definition apiWith (path : string) (verb key : option string) (body : option json) : M Browser json :=
  r ← call (orElse verb (match body with Some _ => "POST" | None => "GET" end)) path (truthyOpt key) (orElse body JNull);
  guardM (respOk r.1)
    (Error None (match field r.2 "error" with JNull => "API " +:+ toString r.1 | e => Cctp.stringOf e end)) ;;
  mret r.2.
Definition api (path : string) (verb : option string) (body : option json) : M Browser json := apiWith path verb None body.
Definition createVaultCall (envelope : json) : M Browser json := api "/v1/note-vaults" None (Some (JObj [("envelope", envelope)])).
Definition getVault (vaultId : string) : M Browser json := api ("/v1/note-vaults/" +:+ vaultId) None None.
Definition verifyBackup (vaultId : string) (verification : json) : M Browser json :=
  api ("/v1/note-vaults/" +:+ vaultId +:+ "/verify-backup") None (Some (JObj [("verification", verification)])).
Definition markRestored (vaultId : string) : M Browser json :=
  api ("/v1/note-vaults/" +:+ vaultId +:+ "/mark-restored") (Some "POST") None.
End State.

(** ** apps/web/src/lib/passkey.ts *)
Definition toUrl (c : ascii) : ascii := if c ==? "+"%char then "-"%char else if c ==? "/"%char then "_"%char else c.
(** [replace(/=+$/, "")]. *)
Fixpoint stripPad (s : string) : string :=
  match s with
  | EmptyString => ""
  | String c s' => let r := stripPad s' in if (c ==? pad) && (r ==? "") then "" else String c r
  end.
Definition bytesToB64url (b : bytes) : string := stripPad (mapString toUrl (btoa b)).
Definition b64urlToBytes : string -> result bytes := Privy.b64urlToBytes.

(** The platform's authenticator: [navigator.credentials.create] and [get]
    with the PRF extension; [None] when the user cancels. *)
Record Credential := mkCredential { rawId : bytes; prfEnabled : option bool; prfFirst : option bytes }.
Class Authenticator := {
  createCredential : Z -> bytes -> bytes -> string -> bytes -> result (option Credential);
  getAssertion : Z -> bytes -> bytes -> bytes -> result (option (option bytes)) }.
(** Freighter's [requestAccess], and [signMessage] as base64 or as bytes. *)
Class Freighter := { requestAccess : Z -> result string; signMessage : Z -> string -> string -> result (option (string + bytes)) }.
Record PasskeyResult := mkPasskey { credentialId : string; prfOutput : bytes; backupEligible : bool; backupState : bool }.

Lemma toUrl_enc6 s : Privy.unUrl (toUrl (enc6 s)) = enc6 s /\ (toUrl (enc6 s) ==? pad) = false.
Proof. destruct s as [[] [] [] [] [] []]; split; reflexivity. Qed.
Lemma stripPad_plain s : allChars (fun c => negb (c ==? pad)) s = true -> stripPad s = s.
Proof.
  induction s as [|c s IH]; [done|]. simpl. rewrite andb_true_iff, negb_true_iff. intros [Hc Hs]. by rewrite IH, Hc.
Qed.
Lemma stripPad_pads s p : stripPad p = "" -> stripPad (s +:+ p) = stripPad s.
Proof. intros Hp. induction s as [|c s IH]; [done|]. rewrite append_cons. cbn [stripPad]. by rewrite IH. Qed.
Lemma mapString_append f s t : mapString f (s +:+ t) = mapString f s +:+ mapString f t.
Proof. induction s as [|c s IH]; [done|]. rewrite !append_cons. cbn [mapString]. by rewrite IH. Qed.
Lemma bytesToB64url_groups b : bytesToB64url b = mapString toUrl (encodeGroups (groups b)).
Proof.
  unfold bytesToB64url, btoa. rewrite mapString_append, stripPad_pads.
  - apply stripPad_plain. induction (groups b) as [|s l IH]; [done|]. cbn [encodeGroups mapString allChars].
    by rewrite (proj2 (toUrl_enc6 s)), IH.
  - unfold padding. destruct (String.length b mod 3)%nat as [|[|[|n]]]; reflexivity.
Qed.
Lemma repad n p : (n + String.length p)%nat = (4 * ((n + String.length p) / 4))%nat -> p = "" \/ p = "=" \/ p = "==" ->
  sliceFrom ((n + 3) mod 4) "===" = p.
Proof.
  intros Hn Hp. set (k := ((n + String.length p) / 4)%nat) in Hn. destruct Hp as [->|[->| ->]]; simpl in Hn.
  - replace (n + 3)%nat with (3 + k * 4)%nat by lia. by rewrite Nat.Div0.mod_add.
  - replace (n + 3)%nat with (2 + k * 4)%nat by lia. by rewrite Nat.Div0.mod_add.
  - replace (n + 3)%nat with (1 + k * 4)%nat by lia. by rewrite Nat.Div0.mod_add.
Qed.
(** The identifier of a passkey comes back from its stored form. *)
Lemma b64url_roundtrip b : b64urlToBytes (bytesToB64url b) = Ok b.
Proof.
  unfold b64urlToBytes, Privy.b64urlToBytes. rewrite bytesToB64url_groups.
  assert (forall l, mapString Privy.unUrl (mapString toUrl (encodeGroups l)) = encodeGroups l /\
    String.length (mapString toUrl (encodeGroups l)) = length l) as Hx.
  { induction l as [|s l [IH1 IH2]]; [done|]. cbn [encodeGroups mapString String.length length]. by rewrite (proj1 (toUrl_enc6 s)), IH1, IH2. }
  rewrite (proj1 (Hx _)), (proj2 (Hx _)). rewrite (repad _ (padding (String.length b))); [apply atob_btoa| |].
  - rewrite (groups_length b (String.length b)) by lia. rewrite (Nat.mul_comm 4 (_ / 3)), Nat.div_mul by lia. lia.
  - unfold padding. destruct (String.length b mod 3)%nat as [|[|[|n]]]; auto.
Qed.

(** ** The pages of apps/web *)
Section Pages.
Context `{Server} `{Random} `{Aes} `{Kdf} `{Sha256} `{Database.Uuid} `{Authenticator} `{Freighter}.
Context (clockAt : Z -> Z) (origin : string) (token : option string).

Definition throwWhenNone {A} (o : option A) (msg : string) : M Browser A := match o with Some a => mret a | None => failM msg end.
Definition needToken (msg : string) : M Browser unit := guardM (bool_decide (is_Some (truthyOpt token))) (Error None msg).
Definition isoNow : M Browser string := k ← nextTick; mret (toISOString (clockAt k)).
Definition PRF_SALT : bytes := "shade-vault-prf-v1".

Definition getPasskeyWrapperInput (credId : string) : M Browser PasskeyResult :=
  challenge ← draw 32;
  id ← liftR (b64urlToBytes credId);
  k ← nextTick;
  r ← liftR (getAssertion k challenge id PRF_SALT);
  ext ← throwWhenNone r "passkey unlock cancelled";
  prf ← throwWhenNone ext "this browser/device did not return a passkey PRF value";
  mret (mkPasskey credId prf true true).
Definition createPasskeyWrapperInput (userId userName : string) : M Browser PasskeyResult :=
  challenge ← draw 32;
  k ← nextTick;
  r ← liftR (createCredential k challenge (sliceTo 64 userId) userName PRF_SALT);
  cred ← throwWhenNone r "passkey creation cancelled";
  let id := bytesToB64url (rawId cred) in
  match prfFirst cred, prfEnabled cred with
  | Some prf, _ => mret (mkPasskey id prf true true)
  | None, Some false => failM "this device's passkey does not support PRF (encryption). Use Freighter or a recovery file."
  | None, _ => getPasskeyWrapperInput id
  end.
(** apps/web/src/lib/stellar-signer.ts *)
Definition connectFreighter : M Browser string := k ← nextTick; liftR (requestAccess k).
Definition stellarRecoverySignature (addr : string) : M Browser bytes :=
  k ← nextTick;
  r ← liftR (signMessage k "shade-vault-recovery-v1" addr);
  s ← throwWhenNone r "signMessage failed";
  match s with inl t => liftR (atob t) | inr b => mret b end.

(** ** apps/web/src/app/vault/page.tsx *)
Definition sha256Hex (s : string) : string := "0x" +:+ sha256 s.
Definition wrapRandom : M Browser WrapRandom := salt ← draw 16; id ← draw 8; iv ← draw 12; mret (mkWrapRandom salt iv id).
(** The methods the user picks. *)
Record Selection := mkSelection { passkey : bool; freighter : bool; file : bool; password : bool; pw : string }.
Definition wrapPasskey (master : bytes) (userId userName : string) : M Browser (list VaultWrapper) :=
  pk ← createPasskeyWrapperInput userId userName;
  r ← wrapRandom;
  w ← liftR (wrapVaultKeyWithPasskeyPrf r master (prfOutput pk)
    [("credential_id_hash", JStr (sha256Hex (credentialId pk))); ("backup_eligible", JBool (backupEligible pk));
     ("backup_state", JBool (backupState pk))]);
  mret [w].
Definition wrapFreighter (master : bytes) : M Browser (list VaultWrapper) :=
  addr ← connectFreighter;
  sig ← stellarRecoverySignature addr;
  r ← wrapRandom;
  w ← liftR (wrapVaultKeyWithStellarSignature r master sig [("stellar_address", JStr addr); ("wallet_source", JStr "freighter")]);
  mret [w].
Definition wrapFile (master : bytes) (vid now : string) : M Browser (list VaultWrapper * option bytes) :=
  secret ← draw 32;
  r ← wrapRandom;
  w ← liftR (wrapVaultKeyWithRecoveryFileSecret r master secret [("device_hint", JStr "browser"); ("created_at", JStr now)]);
  download ("shade-recovery-" +:+ sliceTo 12 vid +:+ ".json") (buildRecoveryFile vid secret w now) ;;
  mret ([w], Some secret).
Definition wrapPassword (master : bytes) (p now : string) : M Browser (list VaultWrapper) :=
  r ← wrapRandom;
  w ← liftR (wrapVaultKeyWithRecoveryKitPassword r master p [("created_at", JStr now)]);
  mret [w].
(** A passkey or wallet that fails is skipped. *)
Definition optional (m : M Browser (list VaultWrapper)) : M Browser (list VaultWrapper) := catchM m (fun _ => mret []).

(** The envelope read back as the typed object. *)
Definition aadOf (j : json) : VaultAad :=
  mkAad (strField j "app") (strField j "origin") (strField j "vault_id") (strField j "privy_user_id")
    (match field j "vault_version" with JNum z => z | _ => 0 end).
Definition wrapperOf (j : json) : VaultWrapper :=
  mkWrapper (strField j "id") (strField j "type") (strField j "status") (strField j "kdf") (strField j "salt") (strField j "wrapped_key")
    (match field j "diagnostic_only" with JBool b => Some b | _ => None end)
    (match field j "metadata" with JObj kvs => kvs | _ => [] end).
Definition envelopeOf (j : json) : EncryptedVaultEnvelope :=
  mkEnvelope (strField j "vault_id") (strField j "privy_user_id") (strField (field j "cipher") "iv") (aadOf (field j "aad"))
    (strField j "ciphertext") (match field j "wrappers" with JArr l => map wrapperOf l | _ => [] end).
Definition wrapperOfType (type : string) (env : EncryptedVaultEnvelope) : option VaultWrapper :=
  List.find (fun w => w_type w ==? type) (e_wrappers env).

(** The check of the stored envelope: with the recovery file's secret when
    there is one, else with the key in memory; the method reported. *)
Definition verifyFetched (env : json) (vid : string) (fileSecret : option bytes) (master : bytes) : M Browser string :=
  let fetched := envelopeOf env in
  match wrapperOfType "recovery_file_secret" fetched, fileSecret with
  | Some w, Some secret =>
      k ← liftR (unwrapVaultKeyWithRecoveryFileSecret w secret);
      dec ← liftR (decryptReceived env k);
      guardM (field dec "vault_id" ==? JStr vid) (Error None "backup verification failed") ;;
      mret "recovery_file_secret"
  | _, _ =>
      dec ← liftR (decryptReceived env master);
      guardM (field dec "vault_id" ==? JStr vid) (Error None "backup verification failed") ;;
      mret (match e_wrappers fetched with w :: _ => w_type w | [] => "stellar_ed25519_signature" end)
  end.
Definition verification (vid method now : string) : json := JObj
  [("vault_id", JStr vid); ("decrypted_vault_hash", JStr (sha256Hex vid)); ("commitments_hash", JStr (sha256Hex ""));
   ("method", JStr method); ("verified_at_client", JStr now)].
Definition secureVault (sel : Selection) (userId userName : string) : M Browser (NoteVault * bytes * option bytes * list VaultWrapper * string) :=
  master ← draw 32;
  k ← nextTick;
  let vid := "vault-" +:+ Database.uuidOf k in
  now ← isoNow;
  w1 ← if passkey sel then optional (wrapPasskey master userId userName) else mret [];
  w2 ← if freighter sel then optional (wrapFreighter master) else mret [];
  w3 ← if file sel then wrapFile master vid now else mret ([], None);
  w4 ← if password sel && truthy (pw sel) then wrapPassword master (pw sel) now else mret [];
  let ws := w1 ++ w2 ++ w3.1 ++ w4 in
  guardM (existsb (fun w => negb (w_type w ==? "evm_signature")) ws) (Error None "no recovery method was set up — pick at least one") ;;
  mret (createEmptyNoteVault vid now, master, w3.2, ws, now).
Definition createVault (sel : Selection) : M Browser string :=
  needToken "please log in first" ;;
  me ← api "/v1/me" None None;
  userId ← throwWhenNone (truthyOpt (match field me "privy_user_id" with JStr s => Some s | _ => None end)) "could not resolve your account id";
  let userName := match field me "email" with JStr s => s | _ => "Shade user" end in
  s ← secureVault sel userId userName;
  let '(vault, master, fileSecret, ws, now) := s in
  let vid := vault_id vault in
  iv ← draw 12;
  env ← liftR (createVaultEnvelope iv vault master userId origin ws);
  createVaultCall (envelopeJson env) ;;
  cacheEnvelope (envelopeJson env) ;;
  setMemoryVault (Some (vaultJson vault)) ;;
  res ← getVault vid;
  method ← verifyFetched (field res "envelope") vid fileSecret master;
  verifyBackup vid (verification vid method now) ;;
  mret vid.

(** ** apps/web/src/app/restore/page.tsx *)
Definition fetchEnvelope (vaultId : string) : M Browser json :=
  res ← getVault vaultId;
  liftR (validateVaultEnvelope (field res "envelope")) ;;
  mret (field res "envelope").
Definition finish (env : json) (master : bytes) : M Browser unit :=
  vault ← liftR (decryptReceived env master);
  guardM (field vault "vault_id" ==? field env "vault_id") (Error None "restored vault id mismatch") ;;
  setMemoryVault (Some vault) ;;
  cacheEnvelope env ;;
  markRestored (strField env "vault_id") ;;
  mret tt.
Definition restoreFromFile (text : string) : M Browser unit :=
  needToken "log in first" ;;
  rf ← liftR (match parse text with Some j => Ok j | None => Throw (Error None "SyntaxError") end);
  guardM (field rf "version" ==? JStr "shade-recovery-file-v1") (Error None "not a Shade recovery file") ;;
  clearLocalCache ;;
  env ← fetchEnvelope (strField rf "vault_id");
  w ← throwWhenNone (wrapperOfType "recovery_file_secret" (envelopeOf env)) "this vault has no recovery-file method";
  secret ← liftR (atob (strField rf "recovery_file_secret"));
  master ← liftR (unwrapVaultKeyWithRecoveryFileSecret w secret);
  finish env master.
Inductive Method := MFreighter | MPassword (passphrase : string).
Definition restoreWith (method : Method) (vaultId : string) : M Browser unit :=
  needToken "log in first" ;;
  guardM (truthy vaultId) (Error None "enter your vault id (or use the recovery file)") ;;
  clearLocalCache ;;
  env ← fetchEnvelope vaultId;
  master ← match method with
    | MFreighter =>
        addr ← connectFreighter;
        sig ← stellarRecoverySignature addr;
        w ← throwWhenNone (wrapperOfType "stellar_ed25519_signature" (envelopeOf env)) "this vault has no Stellar wallet method";
        liftR (unwrapVaultKeyWithStellarSignature w sig)
    | MPassword p =>
        w ← throwWhenNone (wrapperOfType "recovery_kit_password" (envelopeOf env)) "this vault has no password method";
        liftR (unwrapVaultKeyWithRecoveryKitPassword w p)
    end;
  finish env master.
End Pages.

(** ** apps/web/src/app/deposit/page.tsx

    [addNoteToVault] on the vault in memory, an object of JSON type there. *)
Definition addNote (vault : json) (n : VaultNote) (now : string) : json :=
  match vault with
  | JObj kvs =>
      let others := match field vault "notes" with JArr l => selectWhere (fun m => negb (field m "commitment" ==? JStr (commitment n))) l | _ => [] end in
      JObj (JsMap.set (JsMap.set kvs "updated_at" (JStr now)) "notes" (JArr (others ++ [noteJson n])))
  | _ => vault
  end.
Inductive Stage := Relayer_validating | Stellar_completing | Note_active | Failed (message : string).
(** The wallet of the page: its calls may be refused; [sendTransaction] returns
    the hash, the [encode]s are viem's ABI coding, [chainId] is the number in
    the answer to [eth_chainId]. *)
Record EvmWallet := mkEvmWallet {
  evmAddress : string; isPrivy : bool; switchChain : Z -> result unit; chainId : Z -> result Z;
  allowance : Z -> string -> string -> string -> result Z; sendTransaction : Z -> string -> string -> result string;
  waitForReceipt : Z -> string -> result unit; encodeApprove : string -> Z -> string; encodeBurn : Z -> Z -> list json -> string }.
Definition arbitrumSepoliaId : Z := 421614.
Section Checkout.
Context `{Server} `{Random} `{Sha256}.
Context (clockAt : Z -> Z) (token : option string).

Definition ask {A} (f : Z -> result A) : M Browser A := k ← nextTick; liftR (f k).
Definition nextTicks (n : Z) : M Browser Z := fun b =>
  (Ok (tick b), mkBrowser (memory b) (envelopes b) (downloads b) (unlocked b) (server b) (tick b + n)).
Definition getMemoryVault : M Browser (option json) := fun b => (Ok (memory b), b).
Definition syncBody (evm : EvmWallet) : json := JObj
  [("wallets", JArr [JObj [("wallet_type", JStr "EVM"); ("wallet_source", JStr (if isPrivy evm then "privy_embedded" else "external"));
     ("chain", JStr "arbitrum-sepolia"); ("address", JStr (evmAddress evm)); ("privy_wallet_id", JStr (evmAddress evm))]])].
Definition prepareBody (evm : EvmWallet) (vaultId commitment : string) (amount6 : Z) : json := JObj
  [("amount_usdc_6dp", JStr (toString amount6)); ("source_chain", JStr "arbitrum-sepolia"); ("source_wallet_address", JStr (evmAddress evm));
   ("vault_id", JStr vaultId); ("commitment", JStr commitment); ("encrypted_note_payload_hash", JStr commitment);
   ("policy_id", JStr "shade:default-testnet-policy:v1")].
Definition depositKey (commitment : string) : string := "dep-" +:+ sliceTo 16 (sliceFrom 2 commitment).
(** The private receipt: the preimage is drawn and its note added to a copy of
    the vault, which nothing keeps. *)
Definition privateReceipt (amount7 : Z) : M Browser string :=
  k ← nextTicks 7;
  let preimage := generateNotePreimage (fun i => randomBytes (k + Z.of_nat i) 31) in
  let commitment := buildNoteCommitment preimage in
  mem ← getMemoryVault;
  n1 ← nextTick; n2 ← nextTick;
  let note := mkNote commitment "USDC" (toString amount7) preimage None "prepared" (toISOString (clockAt n1)) in
  match mem with
  | Some v => mret (addNote v note (toISOString (clockAt n2)))
  | None => mret JNull
  end ;;
  mret commitment.
Definition ensureChain (evm : EvmWallet) : M Browser unit :=
  catchM (ask (switchChain evm)) (fun e => failM ("Wrong network. Switch to Arbitrum Sepolia: " +:+ message e)) ;;
  id ← ask (chainId evm);
  guardM (id =? arbitrumSepoliaId) (Error None "Wrong network. Switch to Arbitrum Sepolia.").
Definition ensureAllowance (evm : EvmWallet) (usdc messenger : string) (amount6 : Z) : M Browser unit :=
  a ← ask (fun k => allowance evm k usdc (evmAddress evm) messenger);
  if a <? amount6 then
    h ← ask (fun k => sendTransaction evm k usdc (encodeApprove evm messenger amount6));
    ask (fun k => waitForReceipt evm k h)
  else mret tt.
Definition burn (evm : EvmWallet) (messenger : string) (args : list json) : M Browser string :=
  a ← liftR (BigInt (Cctp.stringOf (nth 0 args JNull)));
  f ← liftR (BigInt (Cctp.stringOf (nth 5 args JNull)));
  h ← ask (fun k => sendTransaction evm k messenger (encodeBurn evm a f args));
  ask (fun k => waitForReceipt evm k h) ;;
  mret h.
(** The job polled, at most [n] times; the stage shown at the end. *)
Fixpoint followJob (n : nat) (jobId : string) (shown : Stage) : M Browser Stage :=
  match n with
  | O => mret shown
  | S n' =>
      j ← api ("/v1/jobs/" +:+ jobId) None None;
      let res := field j "result" in
      let shown := if truthyJson (field res "mintForwardTxHash") then Stellar_completing else shown in
      if (field res "state" ==? JStr "active") && truthyJson (field res "receiveDepositTxHash") then mret Note_active
      else if field j "status" ==? JStr "failed" then mret (Failed "Bridge transfer failed or is still finalizing. Please retry.")
      else nextTick ;; followJob n' jobId shown
  end.
Definition checkout (evm : option EvmWallet) (vaultId : string) (amount6 amount7 : Z) : M Browser Stage :=
  guardM (bool_decide (is_Some (truthyOpt token))) (Error None "please log in") ;;
  match evm with
  | None => failM "connect an EVM wallet first"
  | Some evm =>
      api "/v1/me/wallets/sync-privy" None (Some (syncBody evm)) ;;
      commitment ← privateReceipt amount7;
      prep ← apiWith "/v1/deposits/prepare" None (Some (depositKey commitment)) (Some (prepareBody evm vaultId commitment amount6));
      ensureChain evm ;;
      let usdc := strField prep "usdc_address" in
      let messenger := strField prep "token_messenger_address" in
      ensureAllowance evm usdc messenger amount6 ;;
      args ← match field (field prep "burn_tx_request") "args" with JArr l => mret l | _ => failM "TypeError: burn args" end;
      h ← burn evm messenger args;
      sub ← api ("/v1/deposits/" +:+ strField prep "deposit_id" +:+ "/burn-submitted") None
        (Some (JObj [("burn_tx_hash", JStr h); ("source_chain", JStr "arbitrum-sepolia"); ("source_wallet_address", JStr (evmAddress evm))]));
      followJob 40 (strField sub "job_id") Relayer_validating
  end.
(** The messages recognised are reworded. *)
Definition shownMessage (msg : string) : string :=
  let low := toLowerCase msg in
  if StellarUtils.includes msg "Wrong network" then msg
  else if StellarUtils.includes low "reject" || StellarUtils.includes low "denied" then "Wallet rejected the transaction."
  else if StellarUtils.includes low "not verified" || StellarUtils.includes low "deposit-ready" then "Vault is not verified yet."
  else msg.
Definition deposit (evm : option EvmWallet) (vaultId : string) (amount6 amount7 : Z) : M Browser Stage :=
  catchM (checkout evm vaultId amount6 amount7) (fun e => mret (Failed (shownMessage (message e)))).

(** ** No checkout touches the vault

    Whatever the wallet, the server and the clock do: the note of the deposit,
    with the secrets that spend it, is in no vault, cache or file afterwards. *)
Definition sameVault (m : option json) (e : gmap string json) (d : list (string * json)) (b : Browser) : Prop :=
  memory b = m /\ envelopes b = e /\ downloads b = d.
Lemma same_ticks m e d n : preserves (sameVault m e d) (nextTicks n).
Proof. by intros b Hb. Qed.
Lemma same_tick m e d : preserves (sameVault m e d) nextTick.
Proof. by intros b Hb. Qed.
Lemma same_memory m e d : preserves (sameVault m e d) getMemoryVault.
Proof. by intros b Hb. Qed.
Lemma same_fail {A} m e d msg : preserves (sameVault m e d) (failM msg : M Browser A).
Proof. apply preserves_throw. Qed.
Lemma same_call m e d verb path key body : preserves (sameVault m e d) (call verb path key body).
Proof. intros b Hb. unfold call. by destruct (serve _ _ _ _ _). Qed.
Hint Resolve same_ticks same_tick same_memory same_fail same_call : preserve.
Lemma same_ask {A} m e d (f : Z -> result A) : preserves (sameVault m e d) (ask f).
Proof. unfold ask. auto with preserve. Qed.
Lemma same_apiWith m e d path verb key body : preserves (sameVault m e d) (apiWith path verb key body).
Proof. unfold apiWith. auto with preserve. Qed.
Lemma same_api m e d path verb body : preserves (sameVault m e d) (api path verb body).
Proof. apply same_apiWith. Qed.
Hint Resolve same_ask same_apiWith same_api : preserve.
Lemma same_receipt m e d amount7 : preserves (sameVault m e d) (privateReceipt amount7).
Proof.
  unfold privateReceipt. apply preserves_bind; [auto with preserve|]. intros k. apply preserves_bind; [auto with preserve|].
  intros mem. do 2 (apply preserves_bind; [auto with preserve|]; intros ?). apply preserves_bind; [|auto with preserve].
  destruct mem; apply preserves_ret.
Qed.
Lemma same_follow m e d n jobId shown : preserves (sameVault m e d) (followJob n jobId shown).
Proof. revert shown. induction n as [|n IH]; intros shown; cbn [followJob]; auto 10 with preserve. Qed.
Hint Resolve same_receipt same_follow : preserve.
Lemma same_chain m e d evm : preserves (sameVault m e d) (ensureChain evm).
Proof. unfold ensureChain. auto 15 with preserve. Qed.
Lemma same_allowance m e d evm usdc messenger amount6 : preserves (sameVault m e d) (ensureAllowance evm usdc messenger amount6).
Proof. unfold ensureAllowance. auto 15 with preserve. Qed.
Lemma same_burn m e d evm messenger args : preserves (sameVault m e d) (burn evm messenger args).
Proof. unfold burn. auto 15 with preserve. Qed.
Hint Resolve same_chain same_allowance same_burn : preserve.
Lemma deposit_forgets_note evm vaultId amount6 amount7 b :
  let b' := (deposit evm vaultId amount6 amount7 b).2 in
  memory b' = memory b /\ envelopes b' = envelopes b /\ downloads b' = downloads b.
Proof.
  apply (preserves_catch (sameVault (memory b) (envelopes b) (downloads b))); [|intros er; apply preserves_ret|done].
  unfold checkout. apply preserves_bind; [apply preserves_guard|]. intros _. destruct evm as [evm|]; [|auto with preserve].
  do 2 (apply preserves_bind; [auto with preserve|]; intros ?). apply preserves_bind; [auto with preserve|]. intros prep.
  apply preserves_bind; [auto with preserve|]. intros _. cbv zeta. apply preserves_bind; [auto with preserve|]. intros _.
  apply preserves_bind; [destruct (field (field prep "burn_tx_request") "args"); auto with preserve|]. intros args. apply preserves_bind; [auto with preserve|]. intros h.
  auto with preserve.
Qed.
End Checkout.
(** [addNote] on the JSON of a vault is [addNoteToVault] on the vault. *)
Lemma commitment_json m n : (field (noteJson m) "commitment" ==? JStr (commitment n)) = (commitment m ==? commitment n).
Proof. apply bool_decide_ext. change (field (noteJson m) "commitment") with (JStr (commitment m)). split; congruence. Qed.
Lemma selectWhere_map {A B} (f : A -> B) (p : B -> bool) l : selectWhere p (map f l) = map f (selectWhere (fun a => p (f a)) l).
Proof.
  induction l as [|a l IH]; [done|]. cbn [map]. unfold selectWhere in *. rewrite !filter_cons.
  by destruct (decide (Is_true (p (f a)))); rewrite IH.
Qed.
Lemma addNote_vault v n now : addNote (vaultJson v) n now = vaultJson (NoteVault.addNoteToVault v n now).
Proof.
  unfold addNote. change (field (vaultJson v) "notes") with (JArr (map noteJson (notes v))). cbv iota. rewrite selectWhere_map.
  assert (selectWhere (fun a => negb (field (noteJson a) "commitment" ==? JStr (commitment n))) (notes v) =
    selectWhere (fun m => negb (commitment m ==? commitment n)) (notes v)) as ->.
  { apply list_filter_iff. intros m. by rewrite commitment_json. }
  unfold vaultJson, NoteVault.addNoteToVault. cbn [notes vault_id created_at updated_at]. rewrite map_app. reflexivity.
Qed.

(** ** The wallets reported: one per type and address, none left out *)
Lemma dedupe_spec l : forall seen,
  NoDup (keyOf <$> dedupe seen l) /\ (forall w, w ∈ dedupe seen l -> w ∈ l /\ keyOf w ∉ seen) /\
  (forall w, w ∈ l -> keyOf w ∈ seen \/ keyOf w ∈ keyOf <$> dedupe seen l).
Proof.
  induction l as [|w l IH]; intros seen; cbn [dedupe]; [split_and!; [constructor|set_solver..]|].
  destruct (JsSet.has seen (keyOf w)) eqn:Hh; [apply bool_decide_eq_true in Hh|apply bool_decide_eq_false in Hh].
  - destruct (IH seen) as (Hn & Hs & Hc). split_and!; [done|set_solver|]. intros w' [->|Hw']%elem_of_cons; [by left|by apply Hc].
  - destruct (IH (JsSet.add seen (keyOf w))) as (Hn & Hs & Hc). rewrite fmap_cons. split_and!.
    + apply NoDup_cons. split; [|done]. intros (w' & E & Hw')%list_elem_of_fmap. apply Hs in Hw' as [_ Hw'].
      apply Hw'. apply JsSet.elem_of_add. by right.
    + intros w' [->|Hw']%elem_of_cons; [split; [by left|done]|]. apply Hs in Hw' as [Hl Hk]. split; [by right|].
      intros Hin. apply Hk, JsSet.elem_of_add. by left.
    + intros w' [->|Hw']%elem_of_cons; [right; by left|]. apply Hc in Hw' as [Hk|Hk]; [|right; by right].
      apply JsSet.elem_of_add in Hk as [Hk| ->]; [by left|right; by left].
Qed.
Lemma walletsFromPrivyUser_spec accounts :
  let ws := walletsFromPrivyUser (Some accounts) in
  NoDup (keyOf <$> ws) /\ (forall w, w ∈ ws -> exists a, a ∈ accounts /\ walletOf a = Some w) /\
  (forall a w, a ∈ accounts -> walletOf a = Some w -> keyOf w ∈ keyOf <$> ws).
Proof.
  destruct (dedupe_spec (omap walletOf accounts) []) as (Hn & Hs & Hc). split_and!; [exact Hn| |].
  - intros w [Hw _]%Hs. apply list_elem_of_omap in Hw as (a & Ha & E). by exists a.
  - intros a w Ha E. destruct (Hc w) as [Hk|Hk]; [apply list_elem_of_omap; by exists a|by apply elem_of_nil in Hk|exact Hk].
Qed.
(** The page offers a vault exactly when the API would take a deposit to it;
    marking a vault as restored closes it until its backup is verified again. *)
Lemma isDepositReady_gate r : isDepositReady (JObj r) = Store.ready (Store.readyOf r).
Proof. reflexivity. Qed.
Lemma restored_not_ready r : strField (JObj r) "backup_status" = "restored" -> Store.ready (Store.readyOf r) = false.
Proof. intros E. unfold Store.readyOf. cbn [Store.ready]. by rewrite E. Qed.

(** ** frontend/components/vault-setup.tsx

    [post] of frontend/lib/api.ts, and the set-up with a passphrase; [None]
    when the form is not valid. *)
Section Setup.
Context `{Server} `{Random} `{Aes} `{Kdf} `{Sha256} `{Database.Uuid}.
Context (clockAt : Z -> Z) (origin : string) (statusText : Z -> string).
Definition post (path : string) (body : json) : M Browser json :=
  r ← call "POST" path None body;
  guardM (respOk r.1) (Error (Some r.1) (match field r.2 "error" with JNull => statusText r.1 | e => Cctp.stringOf e end)) ;;
  mret r.2.
Definition setupVerification (vid : string) (decrypted : json) (commitments : list json) (now : string) : json := JObj
  [("verification", JObj
     [("vault_id", JStr vid); ("decrypted_vault_hash", JStr (sha256 (stringify decrypted)));
      ("commitments_hash", JStr (sha256 (stringify (JArr commitments)))); ("method", JStr "recovery_kit_password");
      ("verified_at_client", JStr now)])].
Definition runSetup (userId passphrase : string) : M Browser string :=
  masterKey ← draw 32;
  k ← nextTick;
  let vid := Database.uuidOf k in
  now ← isoNow clockAt;
  let vault := createEmptyNoteVault vid now in
  r ← wrapRandom;
  wrapper ← liftR (wrapVaultKeyWithRecoveryKitPassword r masterKey passphrase [("created_at", JStr now)]);
  iv ← draw 12;
  envelope ← liftR (createVaultEnvelope iv vault masterKey userId origin [wrapper]);
  post "/v1/note-vaults" (JObj [("envelope", envelopeJson envelope)]) ;;
  rederived ← liftR (unwrapVaultKeyWithRecoveryKitPassword wrapper passphrase);
  decrypted ← liftR (decryptEnvelope envelope rederived);
  commitments ← match field decrypted "notes" with JArr l => mret (map (fun n => field n "commitment") l) | _ => failM "TypeError: notes" end;
  now2 ← isoNow clockAt;
  post ("/v1/note-vaults/" +:+ vid +:+ "/verify-backup") (setupVerification vid decrypted commitments now2) ;;
  setUnlocked vid masterKey decrypted ;;
  mret vid.
Definition vaultSetup (userId : option string) (passphrase confirm : string) : M Browser (option (string + string)) :=
  match truthyOpt userId with
  | Some uid =>
      if (8 <=? String.length passphrase)%nat && (passphrase ==? confirm) then
        catchM (v ← runSetup uid passphrase; mret (Some (inl v))) (fun e => mret (Some (inr (message e))))
      else mret None
  | None => mret None
  end.
End Setup.

End WebClient.
