(* ===== verification/VaultRestore.v ===== *)
(** * A vault outlives its device

    The promise the browser needs of the API about envelopes, [VaultKeeper],
    and what follows from it: a vault created with a recovery file or a
    passphrase comes back on another device. *)
From S2P Require Import Prelude JsText JsCollections Json Jsonb Crypto Base64 Database Runtime NoteVault WebClient.
From Stdlib Require Import Ascii.
Import JsText Json Crypto Base64 Runtime NoteVault WebClient.

Module VaultRestore.

(** ** What the API promises about envelopes *)
Definition vaultPath (id : string) : string := "/v1/note-vaults/" +:+ id.
(** [holds s id env]: asking for [id] gives the caller the envelope [env], in
    the order of a stored document; [free s id]: no vault has that name yet. *)
Class VaultKeeper `{Server} := {
  free : serverState -> string -> Prop;
  holds : serverState -> string -> json -> Prop;
  me_free s id : free s id -> free (serve s "GET" "/v1/me" None JNull).2 id;
  post_holds s e st r s' : free s (e_vault_id e) ->
    serve s "POST" "/v1/note-vaults" None (JObj [("envelope", envelopeJson e)]) = (Ok (st, r), s') -> respOk st = true ->
    holds s' (e_vault_id e) (envelopeJson e);
  get_holds s id env : holds s id env -> exists st r s', serve s "GET" (vaultPath id) None JNull = (Ok (st, r), s') /\
    respOk st = true /\ field r "envelope" = Jsonb.store env /\ holds s' id env;
  verify_holds s id env body : holds s id env -> holds (serve s "POST" (vaultPath id +:+ "/verify-backup") None body).2 id env }.

(** ** A vault comes back *)
Section Restore.
Context {srv : Server} {keeper : VaultKeeper} `{Random} {randomLaws : RandomLaws} {aes : Aes} {aesLaws : AesLaws} {kdfs : Kdf} {kdfLaws : KdfLaws}.
Context `{Sha256} `{Database.Uuid} `{Authenticator} `{Freighter}.
Context (clockAt : Z -> Z) (origin : string) (token : option string).

(** Programs that leave the server and the saved files alone, and what the
    successful runs of a program return. *)
Definition local {A} (m : M Browser A) : Prop := forall s d, preserves (fun b => server b = s /\ downloads b = d) m.
Definition yields {A} (m : M Browser A) (Q : A -> Prop) : Prop := forall b a b', m b = (Ok a, b') -> Q a.
Lemma local_bind {A B} (m : M Browser A) (f : A -> M Browser B) : local m -> (forall a, local (f a)) -> local (m ≫= f).
Proof. intros Hm Hf s d. apply preserves_bind; [apply Hm|]. intros a. apply Hf. Qed.
Lemma local_ret {A} (a : A) : local (mret a).
Proof. intros s d. apply preserves_ret. Qed.
Lemma local_lift {A} (r : result A) : local (liftR r).
Proof. intros s d. apply preserves_lift. Qed.
Lemma local_fail {A} msg : local (failM msg : M Browser A).
Proof. intros s d. apply preserves_throw. Qed.
Lemma local_guard c e : local (guardM c e).
Proof. intros s d. apply preserves_guard. Qed.
Lemma local_tick : local nextTick.
Proof. by intros s d b [Hs Hd]. Qed.
Lemma local_draw n : local (draw n).
Proof. apply local_bind; [apply local_tick|]. intros k. apply local_ret. Qed.
Lemma local_none {A} (o : option A) msg : local (throwWhenNone o msg).
Proof. destruct o; [apply local_ret|apply local_fail]. Qed.
Lemma local_catch {A} (m : M Browser A) h : local m -> (forall e, local (h e)) -> local (catchM m h).
Proof. intros Hm Hh s d. apply preserves_catch; [apply Hm|]. intros e. apply Hh. Qed.
Lemma local_run {A} (m : M Browser A) b r b' : local m -> m b = (r, b') -> server b' = server b /\ downloads b' = downloads b.
Proof. intros Hm E. specialize (Hm (server b) (downloads b) b). rewrite E in Hm. by apply Hm. Qed.
Lemma yields_bind {A B} (m : M Browser A) (f : A -> M Browser B) P Q : yields m P -> (forall a, P a -> yields (f a) Q) -> yields (m ≫= f) Q.
Proof. intros Hm Hf b a b' E. bind_ok E as x s1 E1. apply Hm in E1. by apply (Hf x) in E. Qed.
Lemma yields_any {A} (m : M Browser A) : yields m (fun _ => True).
Proof. done. Qed.
Lemma yields_lift {A} (r : result A) : yields (liftR r) (fun a => r = Ok a).
Proof. by intros b a b' [E _]%liftR_Ok. Qed.
Lemma yields_catch {A} (m : M Browser A) h Q : yields m Q -> (forall e, yields (h e) Q) -> yields (catchM m h) Q.
Proof. intros Hm Hh b a b' [E|(e & s1 & _ & E)]%catchM_Ok; [by apply Hm in E|by apply Hh in E]. Qed.
Lemma yields_ret {A} (a : A) (Q : A -> Prop) : Q a -> yields (mret a) Q.
Proof. by intros Ha b a' b' [= -> _]. Qed.
Lemma yields_draw n : yields (draw n) (fun x => String.length x = n).
Proof. eapply yields_bind; [apply yields_any|]. intros k _. apply yields_ret, randomBytes_length. Qed.

Hint Resolve local_bind local_ret local_lift local_fail local_guard local_tick local_draw local_none local_catch : local.
Lemma local_wrapRandom : local wrapRandom.
Proof. unfold wrapRandom. auto 10 with local. Qed.
Lemma local_assertion credId : local (getPasskeyWrapperInput credId).
Proof. unfold getPasskeyWrapperInput. auto 20 with local. Qed.
Hint Resolve local_wrapRandom local_assertion : local.
Lemma local_passkey userId userName : local (createPasskeyWrapperInput userId userName).
Proof.
  unfold createPasskeyWrapperInput. apply local_bind; [auto with local|]. intros ch. apply local_bind; [auto with local|]. intros k.
  apply local_bind; [auto with local|]. intros r. apply local_bind; [auto with local|]. intros [id [[]|] [prf|]]; simpl; auto with local.
Qed.
Lemma local_signature addr : local (stellarRecoverySignature addr).
Proof.
  unfold stellarRecoverySignature. apply local_bind; [auto with local|]. intros k. apply local_bind; [auto with local|]. intros r.
  apply local_bind; [auto with local|]. intros [t|s]; auto with local.
Qed.
Hint Resolve local_passkey local_signature : local.
Lemma local_wrapPasskey master userId userName : local (optional (wrapPasskey master userId userName)).
Proof. unfold optional, wrapPasskey. auto 20 with local. Qed.
Lemma local_wrapFreighter master : local (optional (wrapFreighter master)).
Proof. unfold optional, wrapFreighter, connectFreighter. auto 20 with local. Qed.
Lemma local_wrapPassword master p now : local (wrapPassword master p now).
Proof. unfold wrapPassword. auto 20 with local. Qed.
(** The wrappers made, by method. *)
Definition typeOf (s : RecoverySecret) : string :=
  match s with
  | PasskeyPrf _ => "passkey_prf" | StellarSignature _ => "stellar_ed25519_signature"
  | RecoveryFileSecret _ => "recovery_file_secret" | RecoveryKitPassword _ => "recovery_kit_password"
  end.
Definition plainMeta (w : VaultWrapper) : Prop := firstForbidden (JObj (w_metadata w)) = None.
Definition wrapper (type : string) (w : VaultWrapper) : Prop := w_type w = type /\ plainMeta w.
Definition opens (master : bytes) (s : RecoverySecret) (w : VaultWrapper) : Prop := wrapper (typeOf s) w /\ unwrapWith w s = Ok master.

Lemma wrapWith_opens r master s md w : String.length (r_iv r) = 12%nat -> firstForbidden (JObj md) = None ->
  wrapWith r master s md = Ok w -> opens master s w.
Proof using aesLaws kdfLaws.
  intros Hr Hmd Hw. destruct (unwrapWith_wrapWith r master s md Hr) as (w' & E & Hu). rewrite Hw in E. injection E as <-.
  split; [|done]. unfold wrapper, plainMeta.
  destruct s; simpl in Hw; unfold wrapVaultKeyWithPasskeyPrf, wrapVaultKeyWithStellarSignature, wrapVaultKeyWithRecoveryFileSecret,
    wrapVaultKeyWithRecoveryKitPassword, wrapHkdf in Hw; destruct (wrapWithKey _ _ _); by simplify_eq.
Qed.
Lemma yields_wrapRandom : yields wrapRandom (fun r => String.length (r_iv r) = 12%nat).
Proof using randomLaws.
  do 2 (eapply yields_bind; [apply yields_any|]; intros ? _). eapply yields_bind; [apply yields_draw|]. intros iv Hiv. by apply yields_ret.
Qed.
Lemma yields_one master s md : firstForbidden (JObj md) = None ->
  yields (r ← wrapRandom; w ← liftR (wrapWith r master s md); mret [w]) (fun l => exists w, l = [w] /\ opens master s w).
Proof using aesLaws kdfLaws randomLaws.
  intros Hmd. eapply yields_bind; [apply yields_wrapRandom|]. intros r Hr. eapply yields_bind; [apply yields_lift|]. intros w Hw.
  apply yields_ret. exists w. split; [done|]. eapply wrapWith_opens; [exact Hr|exact Hmd|exact Hw].
Qed.
Lemma yields_weaken {A} (m : M Browser A) (P Q : A -> Prop) : yields m P -> (forall a, P a -> Q a) -> yields m Q.
Proof. intros Hm HPQ b a b' E. eapply HPQ, Hm, E. Qed.
Lemma one_typed master s l : (exists w, l = [w] /\ opens master s w) -> Forall (wrapper (typeOf s)) l.
Proof. intros (w & -> & [Hw _]). by apply Forall_singleton. Qed.
Lemma yields_passkey master userId userName :
  yields (optional (wrapPasskey master userId userName)) (Forall (wrapper "passkey_prf")).
Proof using aesLaws kdfLaws randomLaws.
  apply yields_catch; [|intros e; by apply yields_ret]. eapply yields_bind; [apply yields_any|]. intros pk _.
  eapply yields_weaken; [apply (yields_one master (PasskeyPrf (prfOutput pk)))|intros l; apply one_typed]. reflexivity.
Qed.
Lemma yields_freighter master : yields (optional (wrapFreighter master)) (Forall (wrapper "stellar_ed25519_signature")).
Proof using aesLaws kdfLaws randomLaws.
  apply yields_catch; [|intros e; by apply yields_ret]. do 2 (eapply yields_bind; [apply yields_any|]; intros ? _).
  eapply yields_weaken; [apply (yields_one master (StellarSignature _))|intros l; apply one_typed]. reflexivity.
Qed.
Lemma yields_password master p now : yields (wrapPassword master p now) (fun l => exists w, l = [w] /\ opens master (RecoveryKitPassword p) w).
Proof using aesLaws kdfLaws randomLaws. by apply (yields_one master (RecoveryKitPassword p) [("created_at", JStr now)]). Qed.
Lemma wrapFile_Ok master vid now b l o b' : wrapFile master vid now b = (Ok (l, o), b') ->
  exists w secret name, l = [w] /\ o = Some secret /\ opens master (RecoveryFileSecret secret) w /\ server b' = server b /\
    downloads b' = downloads b ++ [(name, buildRecoveryFile vid secret w now)].
Proof using aesLaws kdfLaws randomLaws.
  unfold wrapFile. intros E. bind_ok E as secret s1 E1. bind_ok E as r s2 E2. lift_ok E as w Ew.
  bind_ok E as u s3 E3. injection E3 as _ <-. injection E as <- <- <-. pose proof (yields_wrapRandom _ _ _ E2) as Hr.
  apply (local_run _ _ _ _ (local_draw 32)) in E1 as [Hs1 Hd1]. apply (local_run _ _ _ _ local_wrapRandom) in E2 as [Hs2 Hd2].
  exists w, secret. eexists. split_and!; [done|done| |simpl; congruence|simpl; by rewrite Hd2, Hd1].
  eapply (wrapWith_opens r master (RecoveryFileSecret secret)); [exact Hr| |exact Ew]. done.
Qed.
Definition findType (type : string) (ws : list VaultWrapper) : option VaultWrapper := List.find (fun w => w_type w ==? type) ws.
Lemma findType_skip type other l l' : Forall (wrapper other) l -> other ≠ type -> findType type (l ++ l') = findType type l'.
Proof.
  intros Hl Hne. induction Hl as [|w l [Hw _] _ IH]; [done|]. unfold findType in *. cbn [app List.find].
  by rewrite bool_decide_false by congruence.
Qed.
Lemma findType_here type w l : wrapper type w -> findType type (w :: l) = Some w.
Proof. intros [Hw _]. unfold findType. cbn [List.find]. by rewrite bool_decide_true. Qed.

(** What [secureVault] leaves: the recovery file and the passphrase, if they
    were picked, open the key. *)
Record secured (sel : Selection) (b b' : Browser) (vault : NoteVault) (master : bytes) (fs : option bytes) (ws : list VaultWrapper)
    (now : string) : Prop := {
  sec_key : String.length master = 32%nat;
  sec_server : server b' = server b;
  sec_vault : vault_id vault ≠ "";
  sec_plain : Forall plainMeta ws;
  sec_file : file sel = true -> exists w secret name, fs = Some secret /\ findType "recovery_file_secret" ws = Some w /\
    unwrapVaultKeyWithRecoveryFileSecret w secret = Ok master /\
    (name, buildRecoveryFile (vault_id vault) secret w now) ∈ downloads b';
  sec_password : password sel = true -> pw sel ≠ "" -> exists w, findType "recovery_kit_password" ws = Some w /\
    unwrapVaultKeyWithRecoveryKitPassword w (pw sel) = Ok master }.
Lemma typed_plain type ws : Forall (wrapper type) ws -> Forall plainMeta ws.
Proof. intros Hw. eapply Forall_impl; [exact Hw|]. by intros w [_ Hp]. Qed.
(** A step taken only when its method was picked. *)
Lemma chosen {A} (c : bool) (m : M Browser A) d b a b' : (if c then m else mret d) b = (Ok a, b') ->
  (c = true /\ m b = (Ok a, b')) \/ (c = false /\ a = d /\ b' = b).
Proof. destruct c; [by left|]. intros [= -> ->]. by right. Qed.
Lemma chosen_typed (c : bool) (m : M Browser (list VaultWrapper)) type b ws b' :
  local m -> yields m (Forall (wrapper type)) -> (if c then m else mret []) b = (Ok ws, b') ->
  Forall (wrapper type) ws /\ server b' = server b /\ downloads b' = downloads b.
Proof.
  intros Hl Hy [[_ E]|(_ & -> & ->)]%chosen; [|done]. split; [by eapply Hy|by eapply local_run].
Qed.
Lemma file_step (c : bool) master vid now b r b' : (if c then wrapFile master vid now else mret ([], None)) b = (Ok r, b') ->
  server b' = server b /\ Forall (wrapper "recovery_file_secret") r.1 /\
  (c = true -> exists w secret name, r = ([w], Some secret) /\ opens master (RecoveryFileSecret secret) w /\
     (name, buildRecoveryFile vid secret w now) ∈ downloads b').
Proof using aesLaws kdfLaws randomLaws.
  destruct r as [l o]. intros [[_ E]|(-> & [= -> ->] & ->)]%chosen; [|done].
  apply wrapFile_Ok in E as (w & secret & name & -> & -> & Hw & Hs & Hd). split; [done|]. split; [apply Forall_singleton, Hw|].
  intros _. exists w, secret, name. split; [done|]. split; [done|]. rewrite Hd. apply elem_of_app. right. by left.
Qed.
Lemma password_step (c : bool) master p now b ws b' : (if c && truthy p then wrapPassword master p now else mret []) b = (Ok ws, b') ->
  server b' = server b /\ downloads b' = downloads b /\ Forall (wrapper "recovery_kit_password") ws /\
  (c = true -> p ≠ "" -> exists w, ws = [w] /\ opens master (RecoveryKitPassword p) w).
Proof using aesLaws kdfLaws randomLaws.
  intros [[Hc E]|(Hc & -> & ->)]%chosen.
  - pose proof (yields_password _ _ _ _ _ _ E) as (w & -> & Hw). apply (local_run _ _ _ _ (local_wrapPassword _ _ _)) in E as [Hs Hd].
    split; [done|]. split; [done|]. split; [apply Forall_singleton, Hw|]. intros _ _. by exists w.
  - split; [done|]. split; [done|]. split; [done|]. intros -> Hp. destruct p; done.
Qed.
Lemma secureVault_Ok sel userId userName b vault master fs ws now b' :
  secureVault clockAt sel userId userName b = (Ok (vault, master, fs, ws, now), b') -> secured sel b b' vault master fs ws now.
Proof using aesLaws kdfLaws randomLaws.
  intros E. unfold secureVault in E. bind_ok E as mk s1 E1. bind_ok E as k s2 E2. bind_ok E as t s3 E3. bind_ok E as w1 s4 E4.
  bind_ok E as w2 s5 E5. bind_ok E as w3 s6 E6. bind_ok E as w4 s7 E7. bind_ok E as u s8 E8. apply guardM_Ok in E8 as [_ ->].
  injection E as <- <- <- <- <- <-. pose proof (yields_draw 32 _ _ _ E1) as Hk.
  apply (local_run _ _ _ _ (local_draw 32)) in E1 as [Hs1 _]. injection E2 as <- <-. injection E3 as <- <-.
  apply (chosen_typed _ _ "passkey_prf") in E4 as (Ht1 & Hs4 & _); [|apply local_wrapPasskey|apply yields_passkey].
  apply (chosen_typed _ _ "stellar_ed25519_signature") in E5 as (Ht2 & Hs5 & _); [|apply local_wrapFreighter|apply yields_freighter].
  apply file_step in E6 as (Hs6 & Ht3 & Hf). apply password_step in E7 as (Hs7 & Hd7 & Ht4 & Hp). simpl in *. split.
  - done.
  - congruence.
  - done.
  - rewrite !Forall_app. split_and!; eapply typed_plain; eassumption.
  - intros Hc. destruct (Hf Hc) as (w & secret & name & -> & [Hw Hu] & Hd). exists w, secret, name. simpl.
    rewrite (findType_skip _ _ _ _ Ht1), (findType_skip _ _ _ _ Ht2) by done. split; [done|].
    split; [by apply findType_here|]. split; [exact Hu|]. by rewrite Hd7.
  - intros Hc Hne. destruct (Hp Hc Hne) as (w & -> & [Hw Hu]). exists w.
    rewrite (findType_skip _ _ _ _ Ht1), (findType_skip _ _ _ _ Ht2), (findType_skip _ _ _ _ Ht3) by done. split; [by apply findType_here|exact Hu].
Qed.
(** ** The envelope on the wire *)
Lemma wrapperOf_json w : wrapperOf (wrapperJson w) = w.
Proof. destruct w as [? ? ? ? ? ? [] ?]; reflexivity. Qed.
Lemma envelopeOf_json e : envelopeOf (envelopeJson e) = e.
Proof.
  destruct e as [vid uid iv [app orig avid auid ver] ct ws].
  change (envelopeOf _) with (mkEnvelope vid uid iv (mkAad app orig avid auid ver) ct (map wrapperOf (map wrapperJson ws))).
  f_equal. rewrite map_map. transitivity (map id ws); [|by rewrite map_id]. apply map_ext. intros w. apply wrapperOf_json.
Qed.
Lemma validate_created e : e_vault_id e ≠ "" -> e_privy_user_id e ≠ "" -> e_ciphertext e ≠ "" -> Forall plainMeta (e_wrappers e) ->
  validateVaultEnvelope (envelopeJson e) = Ok tt.
Proof.
  intros Hid Hu Hc Hw. apply envelope_plain in Hw. unfold validateVaultEnvelope, assertNoPlaintextNoteFields. rewrite Hw.
  destruct e as [[|] [|] iv aad [|] ws]; done.
Qed.

Lemma wrapperOf_stored w : wrapperOf (Jsonb.store (wrapperJson w)) = storedWrapper w.
Proof. destruct w as [? ? ? ? ? ? [] ?]; unfold wrapperOf; rewrite !strField_store, !field_store; reflexivity. Qed.
Lemma findType_stored type e : wrapperOfType type (envelopeOf (Jsonb.store (envelopeJson e))) = storedWrapper <$> findType type (e_wrappers e).
Proof.
  unfold wrapperOfType, envelopeOf. cbn [e_wrappers]. rewrite field_store. unfold findType.
  change (field (envelopeJson e) "wrappers") with (JArr (map wrapperJson (e_wrappers e))). cbn [Jsonb.store].
  induction (e_wrappers e) as [|w ws IH]; [done|]. cbn [map List.find]. rewrite wrapperOf_stored. cbn [storedWrapper w_type].
  by destruct (w_type w ==? type).
Qed.

(** One request: what the server answered, and what else stays. *)
Definition answers (verb path : string) (body : json) (b : Browser) (r : json) (b' : Browser) : Prop :=
  (exists st, serve (server b) verb path None body = (Ok (st, r), server b') /\ respOk st = true) /\
  memory b' = memory b /\ downloads b' = downloads b.
Lemma api_Ok path verb body b r b' : api path verb body b = (Ok r, b') ->
  answers (orElse verb (match body with Some _ => "POST" | None => "GET" end)) path (orElse body JNull) b r b'.
Proof.
  unfold api, apiWith, call. intros E. bind_ok E as res s1 E1. bind_ok E as u s2 E2. apply guardM_Ok in E2 as [Hok ->].
  injection E as <- <-. destruct (serve _ _ _ _ _) as [o s'] eqn:Es. injection E1 as -> <-. destruct res as [st j].
  split; [|done]. by exists st.
Qed.
Lemma api_up path verb body b st r s' :
  serve (server b) (orElse verb (match body with Some _ => "POST" | None => "GET" end)) path None (orElse body JNull) = (Ok (st, r), s') ->
  respOk st = true -> exists b', api path verb body b = (Ok r, b') /\ server b' = s' /\ memory b' = memory b.
Proof.
  intros E Hst. unfold api, apiWith, call. change (truthyOpt None) with (@None string). unfold mbind at 1, M_bind at 1. rewrite E. unfold mbind, M_bind, guardM. cbn [fst]. rewrite Hst. by eexists.
Qed.
Lemma getVault_held id env b r b' : holds (server b) id env -> getVault id b = (Ok r, b') ->
  field r "envelope" = Jsonb.store env /\ holds (server b') id env /\ memory b' = memory b /\ downloads b' = downloads b.
Proof.
  intros Hh [(st & Es & _) Hm]%api_Ok. cbn in Es. apply get_holds in Hh as (st' & r' & s' & Es' & _ & Hf & Hh).
  unfold vaultPath in Es'. rewrite Es in Es'. by simplify_eq.
Qed.
Lemma getVault_up id env b : holds (server b) id env -> exists r b', getVault id b = (Ok r, b') /\
  field r "envelope" = Jsonb.store env /\ holds (server b') id env.
Proof.
  intros (st & r & s' & Es & Hst & Hf & Hh)%get_holds. destruct (api_up _ None None b _ _ _ Es Hst) as (b' & E & <- & _).
  by exists r, b'.
Qed.
Lemma verify_held id env b v r b' : holds (server b) id env -> verifyBackup id v b = (Ok r, b') ->
  holds (server b') id env /\ memory b' = memory b /\ downloads b' = downloads b.
Proof.
  intros Hh [(st & Es & _) Hm]%api_Ok. split; [|done]. cbn in Es.
  apply (verify_holds _ _ _ (JObj [("verification", v)])) in Hh. unfold vaultPath in Hh. by rewrite append_assoc, Es in Hh.
Qed.

(** ** What a created vault leaves *)
Record backup (sel : Selection) (b : Browser) (vid : string) (vault : NoteVault) (env : EncryptedVaultEnvelope) (master : bytes) : Prop := {
  bk_id : vault_id vault = vid /\ vid ≠ "";
  bk_memory : memory b = Some (vaultJson vault);
  bk_holds : holds (server b) vid (envelopeJson env) /\ e_vault_id env = vid;
  bk_valid : validateVaultEnvelope (envelopeJson env) = Ok tt;
  bk_decrypts : decryptEnvelope env master = Ok (vaultJson vault);
  bk_file : file sel = true -> exists w secret name now, findType "recovery_file_secret" (e_wrappers env) = Some w /\
    unwrapVaultKeyWithRecoveryFileSecret w secret = Ok master /\ (name, buildRecoveryFile vid secret w now) ∈ downloads b;
  bk_password : password sel = true -> pw sel ≠ "" -> exists w, findType "recovery_kit_password" (e_wrappers env) = Some w /\
    unwrapVaultKeyWithRecoveryKitPassword w (pw sel) = Ok master }.
Lemma verifyFetched_state fetched vid fs master b m b' : verifyFetched fetched vid fs master b = (Ok m, b') -> b' = b.
Proof.
  unfold verifyFetched. intros E. destruct (wrapperOfType _ _) as [w|], fs as [secret|].
  1: lift_ok E as k Ek.
  all: lift_ok E as dec Ed; bind_ok E as u s1 Eg; apply guardM_Ok in Eg as [_ ->]; by injection E as _ <-.
Qed.
Lemma account_Ok (o : json) msg (b b' : Browser) uid :
  throwWhenNone (truthyOpt (match o with JStr s => Some s | _ => None end)) msg b = (Ok uid, b') -> uid ≠ "" /\ b' = b.
Proof. destruct o as [| | |[|c s]| |]; try done. by intros [= <- <-]. Qed.
Lemma createVault_Ok sel b vid b' : createVault clockAt origin token sel b = (Ok vid, b') -> free (server b) vid ->
  exists vault env master, backup sel b' vid vault env master.
Proof using aesLaws kdfLaws randomLaws.
  intros E Hfree. unfold createVault in E. bind_ok E as u s1 E1. apply guardM_Ok in E1 as [_ ->]. bind_ok E as me s2 E2. bind_ok E as uid s3 E3. bind_ok E as x s4 E4.
  destruct x as [[[[vault master] fs] ws] now]. apply secureVault_Ok in E4 as [Hk Hs4 Hv Hpl Hfile Hpw]. bind_ok E as iv s5 E5.
  lift_ok E as env Eenv. bind_ok E as r6 s6 E6. bind_ok E as u7 s7 E7. bind_ok E as u8 s8 E8. bind_ok E as res s9 E9.
  bind_ok E as m s10 E10. bind_ok E as r11 s11 E11. injection E as <- <-.
  destruct (created_decrypts iv vault master uid origin ws Hk) as (env' & Ee & Hid & Hu & Hws & Hct & Hdec).
  rewrite Eenv in Ee. injection Ee as <-. apply account_Ok in E3 as [Hne ->].
  apply api_Ok in E2 as [(st2 & E2 & _) _]. cbn in E2.
  apply (local_run _ _ _ _ (local_draw 12)) in E5 as [Hs5 Hd5]. apply api_Ok in E6 as [(st & Ep & Hst) [_ Hd6]]. cbn in Ep.
  apply me_free in Hfree. rewrite E2 in Hfree. cbn [snd] in Hfree.
  apply post_holds in Ep as Hh; [|by rewrite Hid, Hs5, Hs4|done]. rewrite Hid in Hh.
  injection E7 as _ <-. injection E8 as _ <-. apply (getVault_held _ (envelopeJson env)) in E9 as (Hf & Hh9 & Hm9 & Hd9); [|exact Hh].
  apply verifyFetched_state in E10 as ->.
  apply (verify_held _ _ _ _ _ _ Hh9) in E11 as (Hh11 & Hm11 & Hd11).
  simpl in Hd9. assert (downloads s11 = downloads s4) as Hd by congruence. exists vault, env, master. split; try done.
  - by rewrite Hm11, Hm9.
  - apply validate_created; congruence.
  - intros Hc. destruct (Hfile Hc) as (w & secret & name & -> & Hw). exists w, secret, name, now. by rewrite Hws, Hd.
  - intros Hc Hp. rewrite Hws. by apply Hpw.
Qed.

(** ** Restoring *)
Lemma fetchEnvelope_up id e b : holds (server b) id (envelopeJson e) -> validateVaultEnvelope (envelopeJson e) = Ok tt ->
  exists b1, fetchEnvelope id b = (Ok (Jsonb.store (envelopeJson e)), b1) /\ holds (server b1) id (envelopeJson e).
Proof.
  intros (r & b1 & E & Hf & Hh1)%getVault_up Hv. exists b1. split; [|done]. unfold fetchEnvelope.
  unfold mbind, M_bind. rewrite E, Hf. unfold liftR. by rewrite (validate_store _ Hv).
Qed.
(** What is left once the vault is back: the report to the API. *)
Definition report (id : string) : M Browser unit := markRestored id ;; mret tt.
Lemma report_memory id b : memory (report id b).2 = memory b.
Proof.
  unfold report, markRestored, api, apiWith, call, mbind, M_bind, guardM. destruct (serve _ _ _ _ _) as [[[st r]|e] s']; [|done].
  by destruct (respOk _).
Qed.
Lemma finish_up e master vault b : e_vault_id e = vault_id vault -> decryptEnvelope e master = Ok (vaultJson vault) ->
  exists b1, memory b1 = Some (vaultJson vault) /\ server b1 = server b /\
    finish (Jsonb.store (envelopeJson e)) master b = report (e_vault_id e) b1.
Proof.
  intros Hid Hd. unfold finish. rewrite decrypt_stored, Hd. unfold liftR. unfold mbind at 1, M_bind at 1.
  rewrite field_store, strField_store.
  change (field (vaultJson vault) "vault_id") with (JStr (vault_id vault)). change (field (envelopeJson e) "vault_id") with (JStr (e_vault_id e)).
  cbn [Jsonb.store]. rewrite Hid, bool_decide_true by done. change (strField (envelopeJson e) "vault_id") with (e_vault_id e). rewrite Hid.
  by exists (mkBrowser (Some (vaultJson vault)) (<[strField (Jsonb.store (envelopeJson e)) "vault_id" := Jsonb.store (envelopeJson e)]> (envelopes b))
    (downloads b) (unlocked b) (server b) (tick b)).
Qed.
(** The vault of the page is [vault], and [m] goes on to report that. *)
Definition brings (env : EncryptedVaultEnvelope) (vault : NoteVault) (m : M Browser unit) (b : Browser) : Prop :=
  exists b1, memory b1 = Some (vaultJson vault) /\ holds (server b1) (vault_id vault) (envelopeJson env) /\
    m b = report (vault_id vault) b1.
Lemma needToken_up msg b : truthyOpt token ≠ None -> needToken token msg b = (Ok tt, b).
Proof. intros Ht. unfold needToken. rewrite bool_decide_true; [done|]. destruct (truthyOpt token); [by eexists|done]. Qed.
Lemma restoreFile_up vault env master w secret name now text b :
  truthyOpt token ≠ None -> vault_id vault = e_vault_id env -> holds (server b) (vault_id vault) (envelopeJson env) ->
  validateVaultEnvelope (envelopeJson env) = Ok tt -> decryptEnvelope env master = Ok (vaultJson vault) ->
  findType "recovery_file_secret" (e_wrappers env) = Some w -> unwrapVaultKeyWithRecoveryFileSecret w secret = Ok master ->
  parse text = Some (buildRecoveryFile (vault_id vault) secret name now) ->
  brings env vault (restoreFromFile token text) b.
Proof.
  intros Ht Hid Hh Hv Hd Hw Hu Hp.
  set (b0 := mkBrowser None ∅ (downloads b) (unlocked b) (server b) (tick b)).
  destruct (fetchEnvelope_up (vault_id vault) env b0 Hh Hv) as (b1 & E & Hh1).
  destruct (finish_up env master vault b1 (eq_sym Hid) Hd) as (b2 & Hm & Hs & Ef). exists b2. split; [done|]. rewrite Hs. split; [done|].
  rewrite <- Hid in Ef. rewrite <- Ef. unfold restoreFromFile. unfold mbind at 1, M_bind at 1. rewrite needToken_up by done. rewrite Hp.
  change ((env0 ← fetchEnvelope (vault_id vault);
    w0 ← throwWhenNone (wrapperOfType "recovery_file_secret" (envelopeOf env0)) "this vault has no recovery-file method";
    secret0 ← liftR (atob (btoa secret)); master0 ← liftR (unwrapVaultKeyWithRecoveryFileSecret w0 secret0); finish env0 master0) b0 = finish (Jsonb.store (envelopeJson env)) master b1).
  unfold mbind at 1, M_bind at 1. rewrite E, findType_stored.
  rewrite Hw, atob_btoa. unfold throwWhenNone, liftR, mbind, M_bind, mret, M_ret. cbn [fmap option_fmap option_map].
  change (unwrapVaultKeyWithRecoveryFileSecret (storedWrapper w) secret) with (unwrapVaultKeyWithRecoveryFileSecret w secret). by rewrite Hu.
Qed.
Lemma restorePassword_up vault env master w p b :
  truthyOpt token ≠ None -> vault_id vault = e_vault_id env -> vault_id vault ≠ "" ->
  holds (server b) (vault_id vault) (envelopeJson env) ->
  validateVaultEnvelope (envelopeJson env) = Ok tt -> decryptEnvelope env master = Ok (vaultJson vault) ->
  findType "recovery_kit_password" (e_wrappers env) = Some w -> unwrapVaultKeyWithRecoveryKitPassword w p = Ok master ->
  brings env vault (restoreWith token (MPassword p) (vault_id vault)) b.
Proof.
  intros Ht Hid Hne Hh Hv Hd Hw Hu.
  set (b0 := mkBrowser None ∅ (downloads b) (unlocked b) (server b) (tick b)).
  destruct (fetchEnvelope_up (vault_id vault) env b0 Hh Hv) as (b1 & E & Hh1).
  destruct (finish_up env master vault b1 (eq_sym Hid) Hd) as (b2 & Hm & Hs & Ef). exists b2. split; [done|]. rewrite Hs. split; [done|].
  rewrite <- Hid in Ef. rewrite <- Ef. unfold restoreWith. unfold mbind at 1, M_bind at 1. rewrite needToken_up by done.
  replace (truthy (vault_id vault)) with true by (by destruct (vault_id vault)).
  change ((env0 ← fetchEnvelope (vault_id vault); master0 ← (w0 ← throwWhenNone (wrapperOfType "recovery_kit_password" (envelopeOf env0))
    "this vault has no password method"; liftR (unwrapVaultKeyWithRecoveryKitPassword w0 p)); finish env0 master0) b0 = finish (Jsonb.store (envelopeJson env)) master b1).
  unfold mbind at 1, M_bind at 1. rewrite E, findType_stored.
  rewrite Hw. unfold throwWhenNone, liftR, mbind, M_bind, mret, M_ret. cbn [fmap option_fmap option_map].
  change (unwrapVaultKeyWithRecoveryKitPassword (storedWrapper w) p) with (unwrapVaultKeyWithRecoveryKitPassword w p). by rewrite Hu.
Qed.

(** C13. A vault outlives its device.  When creating it under a free name
    succeeds, the vault is in memory, the API holds its envelope, and on any
    other browser, at any later time at which the API still holds it: the
    recovery file that was saved, if that method was picked, brings exactly
    this vault back into memory, whatever text parses to its content; and so
    does the passphrase, if one was given.  What is left to the page then is to
    mark the vault as restored. *)
Theorem backup_restores sel b vid b' :
  truthyOpt token ≠ None -> createVault clockAt origin token sel b = (Ok vid, b') -> free (server b) vid ->
  exists vault env, vault_id vault = vid /\ memory b' = Some (vaultJson vault) /\ holds (server b') vid (envelopeJson env) /\
    (file sel = true -> exists name f, (name, f) ∈ downloads b' /\ forall text b2, parse text = Some f ->
       holds (server b2) vid (envelopeJson env) -> brings env vault (restoreFromFile token text) b2) /\
    (password sel = true -> pw sel ≠ "" -> forall b2, holds (server b2) vid (envelopeJson env) ->
       brings env vault (restoreWith token (MPassword (pw sel)) vid) b2).
Proof using aesLaws kdfLaws randomLaws keeper.
  intros Ht E Hfree. apply createVault_Ok in E as (vault & env & master & [[<- Hne] Hm [Hh Hid] Hv Hd Hf Hp]); [|done].
  exists vault, env. split; [done|]. split; [done|]. split; [done|]. split.
  - intros Hc. destruct (Hf Hc) as (w & secret & name & now & Hw & Hu & Hin). exists name. eexists. split; [exact Hin|].
    intros text b2 Htext Hh2. by eapply restoreFile_up.
  - intros Hc Hpw b2 Hh2. destruct (Hp Hc Hpw) as (w & Hw & Hu). by eapply restorePassword_up.
Qed.
(** The passphrase of frontend/components/vault-setup.tsx opens the vault on
    the restore page of the other application, and the session holds its key. *)
Lemma post_Ok statusText path body b r b' : post statusText path body b = (Ok r, b') -> answers "POST" path body b r b'.
Proof.
  unfold post, call. intros E. bind_ok E as res s1 E1. bind_ok E as u s2 E2. apply guardM_Ok in E2 as [Hok ->].
  injection E as <- <-. destruct (serve _ _ _ _ _) as [o s'] eqn:Es. injection E1 as -> <-. destruct res as [st j].
  split; [|done]. by exists st.
Qed.
Lemma runSetup_Ok statusText userId passphrase b vid b' :
  userId ≠ "" -> runSetup clockAt origin statusText userId passphrase b = (Ok vid, b') -> vid ≠ "" -> free (server b) vid ->
  exists vault env master, backup (mkSelection false false false true passphrase) b' vid vault env master /\
    unlocked b' = Some (vid, master).
Proof using aesLaws kdfLaws randomLaws.
  intros Hu E Hne Hfree. unfold runSetup in E. bind_ok E as mk s1 E1. bind_ok E as k s2 E2. bind_ok E as now s3 E3.
  bind_ok E as r s4 E4. lift_ok E as w Ew. bind_ok E as iv s5 E5. lift_ok E as env Eenv. bind_ok E as r6 s6 E6.
  lift_ok E as key Ek. lift_ok E as dec Ed. bind_ok E as cs s7 E7. bind_ok E as now2 s8 E8. bind_ok E as r9 s9 E9.
  bind_ok E as u s10 E10. injection E as <- <-. injection E10 as _ <-.
  pose proof (yields_draw 32 _ _ _ E1) as Hk. pose proof (yields_wrapRandom _ _ _ E4) as Hr.
  pose proof (wrapWith_opens r mk (RecoveryKitPassword passphrase) [("created_at", JStr now)] w Hr eq_refl Ew) as [[Hw Hpl] Hopen].
  destruct (created_decrypts iv (createEmptyNoteVault (Database.uuidOf k) now) mk userId origin [w] Hk)
    as (env' & Ee & Hid & Huid & Hws & Hct & Hdec).
  rewrite Eenv in Ee. injection Ee as <-. change (unwrapWith w _) with (unwrapVaultKeyWithRecoveryKitPassword w passphrase) in Hopen.
  rewrite Ek in Hopen. injection Hopen as ->. rewrite Ed in Hdec. injection Hdec as ->. injection E7 as _ <-. injection E8 as _ <-.
  apply (local_run _ _ _ _ (local_draw 32)) in E1 as [Hs1 _]. injection E2 as <- <-. injection E3 as <- <-.
  apply (local_run _ _ _ _ local_wrapRandom) in E4 as [Hs4 _]. apply (local_run _ _ _ _ (local_draw 12)) in E5 as [Hs5 _]. simpl in Hs4.
  apply post_Ok in E6 as [(st & Ep & Hst) _]. apply post_holds in Ep as Hh; [|by rewrite Hid, Hs5, Hs4, Hs1|done]. rewrite Hid in Hh.
  apply post_Ok in E9 as [(st' & Ep' & Hst') _]. cbn [server] in Ep'. change (vault_id (createEmptyNoteVault ?v _)) with v in Hh.
  assert (holds (server s9) (Database.uuidOf (tick s1)) (envelopeJson env)) as Hh9.
  { apply (verify_holds _ _ _ (setupVerification (Database.uuidOf (tick s1))
      (vaultJson (createEmptyNoteVault (Database.uuidOf (tick s1)) (toISOString (clockAt (tick s1 + 1))))) cs now2)) in Hh.
    unfold vaultPath in Hh. rewrite append_assoc, Ep' in Hh. exact Hh. }
  eexists _, env, mk. split; [|done]. split; try done; [by split|..].
  - apply validate_created; [by rewrite Hid|by rewrite Huid|done|]. rewrite Hws. by apply Forall_singleton.
  - intros _ _. exists w. rewrite Hws. split; [by apply findType_here|done].
Qed.
Lemma setup_restores statusText userId passphrase confirm b vid b' b2 :
  truthyOpt token ≠ None -> vid ≠ "" -> free (server b) vid ->
  vaultSetup clockAt origin statusText userId passphrase confirm b = (Ok (Some (inl vid)), b') -> server b2 = server b' ->
  exists env vault, brings env vault (restoreWith token (MPassword passphrase) vid) b2 /\ memory b' = Some (vaultJson vault).
Proof using aesLaws kdfLaws randomLaws keeper.
  intros Ht Hne Hfree E Hs. unfold vaultSetup in E. destruct (truthyOpt userId) as [uid|] eqn:Eu; [|done].
  assert (uid ≠ "") as Hu by (destruct userId as [[|]|]; [done|by injection Eu as <-|done]).
  destruct ((8 <=? String.length passphrase)%nat && (passphrase ==? confirm)) eqn:Hl; [|done]. apply andb_true_iff in Hl as [Hl _].
  apply catchM_Ok in E as [E|(e & s1 & _ & E)]; [|by injection E]. bind_ok E as v s1 E1. injection E as -> <-.
  apply runSetup_Ok in E1 as (vault & env & master & [[<- _] Hm [Hh Hid] Hv Hd _ Hp] & _); [|done..].
  rewrite <- Hs in *. destruct (Hp eq_refl) as (w & Hw & Ho); [by destruct passphrase|]. exists env, vault. split; [|done].
  by eapply restorePassword_up.
Qed.
End Restore.

(** ** Witness: a server that keeps the envelopes posted to it *)
Definition toyServe (s : gmap string json) (verb path : string) (key : option string) (body : json) : result (Z * json) * gmap string json :=
  if bool_decide (verb = "POST" /\ path = "/v1/note-vaults") then
    let env := field body "envelope" in (Ok (200, JObj []), <[vaultPath (strField env "vault_id") := env]> s)
  else if path ==? "/v1/me" then (Ok (200, JObj [("privy_user_id", JStr "did:privy:1")]), s)
  else (Ok (200, JObj [("envelope", Jsonb.store (orElse (s !! path) JNull))]), s).
Definition toyServer : Server := {| serverState := gmap string json; serve := toyServe |}.
#[export] Instance toyKeeper : @VaultKeeper toyServer.
Proof.
  refine (@Build_VaultKeeper toyServer (fun _ _ => True) (fun s id env => (s : gmap string json) !! vaultPath id = Some env) _ _ _ _).
  - done.
  - intros s e st r s' _ [= <- <- <-] _. apply lookup_insert_eq.
  - intros s id env Hs. do 3 eexists. cbn. unfold toyServe. rewrite bool_decide_false by (by intros []).
    rewrite bool_decide_false by done. rewrite Hs. by split_and!.
  - intros s id env body Hs. cbn. unfold toyServe. rewrite bool_decide_false by (by intros []). by rewrite bool_decide_false.
Defined.
Definition toyAuth : Authenticator := {| createCredential _ _ _ _ _ := Ok None; getAssertion _ _ _ _ := Ok None |}.
Definition toyFreighter : Freighter := {| requestAccess _ := Ok "G"; signMessage _ _ _ := Ok None |}.
Definition toySelection : Selection := mkSelection false false true true "pass".
Definition toyBrowser : @Browser toyServer := @mkBrowser toyServer None ∅ [] None (∅ : gmap string json) 0.
#[local] Notation toyCreate := (@createVault toyServer ToyRuntime.toy_random ToyRuntime.toy_aes toyKdf Toy.toy_sha Database.toyUuid toyAuth
  toyFreighter (fun _ => 0) "https://shade" (Some "t") toySelection toyBrowser).
Lemma fst_known {A B} (p : A * B) a : p.1 = a -> exists b, p = (a, b).
Proof. destruct p as [x b]. simpl. intros ->. by exists b. Qed.
Lemma pair_known {A B} (p : A * B) a : p.1 = a -> p = (a, p.2).
Proof. destruct p as [x b]. by intros <-. Qed.
Lemma toyCreated : exists b', toyCreate = (Ok "vault-uuid-2", b').
Proof. apply fst_known. vm_compute. reflexivity. Qed.
Lemma backup_restores_witness : exists b' b3, toyCreate = (Ok "vault-uuid-2", b') /\ memory b3 ≠ None /\
  @restoreWith toyServer ToyRuntime.toy_aes toyKdf toyFreighter (Some "t") (MPassword "pass") "vault-uuid-2"
    (@mkBrowser toyServer None ∅ [] None (server b') 9) = @report toyServer "vault-uuid-2" b3.
Proof.
  destruct toyCreated as [b' E].
  destruct (@backup_restores toyServer toyKeeper ToyRuntime.toy_random ToyRuntime.toy_random_laws ToyRuntime.toy_aes ToyRuntime.toy_aes_laws
    toyKdf toyKdf_laws Toy.toy_sha Database.toyUuid toyAuth toyFreighter (fun _ => 0) "https://shade" (Some "t") toySelection toyBrowser
    "vault-uuid-2" b' ltac:(discriminate) E I) as (v & env & Hv & _ & Hh & _ & Hp).
  destruct (Hp eq_refl ltac:(discriminate) (@mkBrowser toyServer None ∅ [] None (server b') 9) Hh) as (b3 & Hm & _ & Hr).
  exists b', b3. rewrite Hv in Hr. split; [exact E|]. split; [rewrite Hm; discriminate|exact Hr].
Defined.
End VaultRestore.
