(* ===== verification/ApiVault.v ===== *)
(** * The API keeps the vaults (apps/api/src/server.ts, routes.ts, db.ts)

    The routes of the API, served to the web application, discharge the
    interface [VaultKeeper] of [VaultRestore]: what the browser relies on is
    what the handlers do to the tables. *)
From S2P Require Import Prelude JsText JsCollections Json Jsonb Crypto Base64 Ids JobQueue Database Records Runtime NoteVault Store Privy Schemas ApiAuth Cctp NoteCrypto RoutesAccount RoutesVault StellarActions Api WebClient VaultRestore.
From Stdlib Require Import Ascii.
Import JsText Json Crypto Database Runtime Privy ApiAuth RoutesAccount RoutesVault.

Module ApiVault.

(** ** A session

    A token that verifies once verifies again as long as the clock and the
    key cache of the process stay. *)
Section Session.
Context `{Env} `{Uuid} `{WebKeys} `{Fetch}.
Definition session (token : string) (w : Api) (did : string) : Prop :=
  exists c, verifyPrivyAccessToken token w = (Ok c, w) /\ c_userId c = did.
Definition sameProcess (w w' : Api) : Prop := acache w' = acache w /\ clock (adb w') = clock (adb w).

(** The key a process has found stays found. *)
Lemma key_settles kid w k w1 : verificationKey kid w = (Ok k, w1) ->
  forall w', sameProcess w1 w' -> verificationKey kid w' = (Ok k, w').
Proof.
  intros E w' [Hc _]. unfold verificationKey, mbind, M_bind, getCache, putCache, liftR in *. rewrite Hc.
  destruct (cachedKey (acache w)) as [k0|] eqn:Ec; [injection E as -> <-; by rewrite Ec|].
  destruct (truthyOpt (env "PRIVY_JWT_VERIFICATION_KEY")) as [pem|].
  - destruct (pemToSpki pem) as [spki|]; [|done]. destruct (importSpki spki) as [k0|]; [|done]. by injection E as -> <-.
  - destruct (truthyOpt (env "PRIVY_APP_ID")) as [appId|]; [|done].
    destruct (JsMap.get (jwksCache (acache w)) _) as [k0|] eqn:Eg; [injection E as -> <-; by rewrite Ec, Eg|].
    destruct (fetchJwk appId kid w) as [[k0|e] w2] eqn:Ef; [|done]. injection E as -> <-. cbn.
    by rewrite JsMap.get_set_eq.
Qed.
Lemma verify_settles token w c w1 : verifyPrivyAccessToken token w = (Ok c, w1) ->
  clock (adb w1) = clock (adb w) /\ tables (adb w1) = tables (adb w) /\
  forall w', sameProcess w1 w' -> verifyPrivyAccessToken token w' = (Ok c, w').
Proof.
  intros E. pose proof (verify_run _ _ _ _ E) as [Ht _]. revert E. unfold verifyPrivyAccessToken.
  destruct (splitOn "."%char token) as [|h [|p [|s [|]]]]; try done. unfold mbind, M_bind, liftR.
  destruct (b64urlToBytes h) as [hb|]; [|done]. destruct (parseJson hb) as [header|]; [|done]. destruct (negb _); [done|].
  destruct (b64urlToBytes s) as [sig|]; [|done]. destruct (verificationKey (kidOf header) w) as [[key|e] w2] eqn:Ek; [|done].
  pose proof (verificationKey_run _ _ _ _ Ek) as (_ & Hc & _). pose proof (key_settles _ _ _ _ Ek) as Hk.
  destruct (negb (ecdsaVerify key sig _)) eqn:Ev; [done|]. destruct (b64urlToBytes p) as [pb|]; [|done].
  destruct (parseJson pb) as [payload|]; [|done]. unfold onStore, dateNow. intros [= Ep <-]. simpl in *. split; [done|]. split; [done|].
  intros w' Hw'. assert (sameProcess w2 w') as Hs by (destruct Hw' as [? ?]; by split). rewrite (Hk _ Hs), Ev. cbn.
  destruct Hs as [_ Hcl]. rewrite Hcl. cbn in Ep. rewrite Ep. by destruct w'.
Qed.
Lemma session_same token w w' did : session token w did -> sameProcess w w' -> session token w' did.
Proof. intros (c & E & Hd) Hs. apply verify_settles in E as (_ & _ & Hv). exists c. split; [by apply Hv|done]. Qed.

(** ** The account of a session *)
Definition users (w : Api) : list Row := table (adb w) "users".
Definition vaults (w : Api) : list Row := table (adb w) "note_vaults".
Definition account (w : Api) (did uid : string) : Prop :=
  exists u, head (selectWhere (eqText "privy_user_id" did) (users w)) = Some u /\ Store.idOf u = uid.
Definition bearer (token : string) : list (string * string) := [("authorization", "Bearer " +:+ token)].
Lemma selectWhere_updateWhere {R} (p q : R -> bool) f (l : list R) : (forall r, p (f r) = p r) ->
  selectWhere p (updateWhere q f l) = updateWhere q f (selectWhere p l).
Proof.
  intros Hp. induction l as [|r l IH]; [done|]. unfold selectWhere, updateWhere in *. cbn [map]. rewrite !filter_cons.
  replace (p (if q r then f r else r)) with (p r) by (destruct (q r); by rewrite ?Hp). rewrite IH. by destruct (decide (Is_true (p r))).
Qed.
Lemma get_assign_unset sets r c : JsMap.get sets c = None -> get (assignRow sets r) c = get r c.
Proof. intros E. unfold get. rewrite get_assignRow, E. by destruct (JsMap.get r c). Qed.
Lemma upsert_account did e m w uid : account w did uid ->
  exists w', upsertUserByPrivyId did e m w = (Ok uid, w') /\ sameProcess w w' /\ account w' did uid /\ vaults w' = vaults w.
Proof.
  intros (u & Hu & Hid).
  set (f := assignRow [("last_login_at", JNum (clock (adb w))); ("updated_at", JNum (clock (adb w)))]).
  exists (mkApi (setTable "users" (updateWhere (eqText "id" uid) f (users w)) (adb w)) (acache w)).
  assert (forall r c, c ≠ "last_login_at" -> c ≠ "updated_at" -> get (f r) c = get r c) as Hf.
  { intros r c H1' H2'. apply get_assign_unset. simpl. by rewrite !bool_decide_false. }
  split; [|split; [done|split]].
  - cbn [upsertUserByPrivyId storePrivyDb]. unfold onStore, Store.upsertUserByPrivyId, selectFirst, mbind, M_bind, select.
    change (schemaOf "users") with (Some Database.users). cbv beta iota. unfold mret, M_ret at 1. fold (users w). rewrite Hu. rewrite Hid.
    unfold Store.touchLogin, dateNow, mbind, M_bind. erewrite (update_ok schemaOf); [|reflexivity..]. reflexivity.
  - exists (if eqText "id" uid u then f u else u). unfold users in *. cbn [adb]. rewrite table_same.
    rewrite selectWhere_updateWhere by (intros r; unfold eqText, eqCol; by rewrite Hf). split.
    + destruct (selectWhere _ (table (adb w) "users")); [done|]. by injection Hu as ->.
    + destruct (eqText "id" uid u); [|done]. change (textOf (get (f u) "id") = uid). by rewrite Hf.
  - unfold vaults. cbn [adb]. by apply table_other.
Qed.
Lemma token_extracted token ps b : trim token = token ->
  extractPrivyAccessToken (mkRequest (bearer token) ps [] b) = Ok (Some token).
Proof.
  intros Ht. unfold extractPrivyAccessToken, tokenOf, header. cbn [headers bearer JsMap.get]. rewrite bool_decide_true by done.
  change (startsWith ("Bearer " +:+ token) "Bearer ") with (startsWith token ""). replace (startsWith token "") with true by (by destruct token).
  change (sliceFrom 7 ("Bearer " +:+ token)) with token. by rewrite Ht.
Qed.
(** Any request of the session is the account's. *)
Lemma require_account token did uid ps b w : trim token = token -> truthy token = true -> session token w did -> account w did uid ->
  exists c w', requirePrivyUser (mkRequest (bearer token) ps [] b) w = (Ok (mkUser uid did c), w') /\ sameProcess w w' /\
    account w' did uid /\ vaults w' = vaults w.
Proof.
  intros Ht Htr (c & Ev & Hd) Ha. unfold requirePrivyUser. rewrite token_extracted by done. unfold mbind at 1, M_bind at 1, liftR at 1.
  cbn [truthyOpt]. rewrite Htr. unfold mbind at 1, M_bind at 1, catchM at 1. rewrite Ev, Hd.
  destruct (upsert_account did None None w uid Ha) as (w' & E & Hs & Ha' & Hv). exists c, w'. split; [|done].
  unfold mbind, M_bind. by rewrite E.
Qed.

(** A new account: the row that was inserted is the first of its subject. *)
Lemma selectWhere_nil {R} (p : R -> bool) l : head (selectWhere p l) = None -> selectWhere p l = [].
Proof. by destruct (selectWhere p l). Qed.
Lemma selectWhere_none {R} (p : R -> bool) l : (forall r, r ∈ l -> p r = false) -> selectWhere p l = [].
Proof.
  intros Hl. destruct (selectWhere p l) as [|r l'] eqn:E; [done|]. assert (r ∈ selectWhere p l) as [Hr Hp]%elem_of_selectWhere by (rewrite E; left).
  by rewrite (Hl r Hr) in Hp.
Qed.
Lemma head_appended {R} (p : R -> bool) l r : selectWhere p l = [] -> p r = true -> head (selectWhere p (l ++ [r])) = Some r.
Proof. intros E Hr. unfold selectWhere in *. rewrite filter_app, E, filter_cons, decide_True by (by rewrite Hr). done. Qed.
Lemma upsert_Ok did w uid w' : upsertUserByPrivyId did None None w = (Ok uid, w') ->
  sameProcess w w' /\ account w' did uid /\ vaults w' = vaults w.
Proof.
  intros E. destruct (head (selectWhere (eqText "privy_user_id" did) (users w))) as [u|] eqn:Eh.
  - destruct (upsert_account did None None w (Store.idOf u)) as (w1 & E1 & Hw); [by exists u|]. rewrite E in E1. by injection E1 as -> ->.
  - cbn [upsertUserByPrivyId storePrivyDb] in E. apply onStore_Ok in E as (db & E & ->). unfold Store.upsertUserByPrivyId in E.
    bind_ok E as existing db1 E1. apply selectFirst_Ok in E1 as [-> ->]. fold (users w) in E. rewrite Eh in E.
    bind_ok E as now db2 E2. injection E2 as <- <-. bind_ok E as rows db3 E3.
    apply (insert_OnError_Ok schemaOf) in E3 as (s & row & [= <-] & Eb & -> & ->).
    bind_ok E as uid' db4 E4. apply ret_Ok in E4 as [-> ->]. bind_ok E as x db5 E5. apply ret_Ok in E as [-> ->].
    set (db3 := setTable _ _ _) in E5. unfold Store.createProfile in E5. bind_ok E5 as rs db6 E6. apply ret_Ok in E5 as [_ ->].
    pose proof (same_clock_insert schemaOf (clock db3) "user_profiles" [("user_id", JStr (Store.idOf row))] (DoNothing None) db3 eq_refl) as Hc.
    pose proof (keeps_insert schemaOf "users" "user_profiles" (table db3 "users") [("user_id", JStr (Store.idOf row))] (DoNothing None)
      ltac:(discriminate) db3 eq_refl) as Hu.
    pose proof (keeps_insert schemaOf "note_vaults" "user_profiles" (table db3 "note_vaults") [("user_id", JStr (Store.idOf row))]
      (DoNothing None) ltac:(discriminate) db3 eq_refl) as Hv.
    rewrite E6 in Hc, Hu, Hv. cbn [snd] in Hc, Hu, Hv. split; [by split|]. split.
    + exists row. split; [|done]. unfold users. cbn [adb]. rewrite Hu. unfold db3. rewrite table_same. apply head_appended; [by apply selectWhere_nil|].
      apply eqText_true. unfold get. erewrite (buildRow_get _ _ _ _ _ "privy_user_id"); [|exact Eb|reflexivity|reflexivity]. done.
    + unfold vaults. cbn [adb]. rewrite Hv. unfold db3. by rewrite table_other.
Qed.
Lemma require_Ok token ps b w u w' : trim token = token -> requirePrivyUser (mkRequest (bearer token) ps [] b) w = (Ok u, w') ->
  session token w' (p_privyUserId u) /\ account w' (p_privyUserId u) (p_userId u) /\ vaults w' = vaults w.
Proof.
  intros Ht E. unfold requirePrivyUser in E. rewrite token_extracted in E by done. unfold mbind at 1, M_bind at 1, liftR at 1 in E.
  cbn [truthyOpt] in E. destruct (truthy token); [|done]. bind_ok E as c w1 E1. apply catchM_Ok in E1 as [E1|(e & w2 & _ & E1)]; [|done].
  bind_ok E as uid w2 E2. apply ret_Ok in E as [-> ->]. cbn [p_privyUserId p_userId]. apply upsert_Ok in E2 as (Hs & Ha & Hv).
  apply verify_settles in E1 as (_ & Htab & E1). split; [exists c; split; [by apply E1|done]|]. split; [done|].
  rewrite Hv. unfold vaults, table. by rewrite Htab.
Qed.
End Session.

(** ** A handler that fails does not answer with success *)
Definition refuses {S A} (m : M S A) : Prop := forall w e w', m w = (Throw e, w') -> respOk (orElse (statusCode e) 500) = false.
Section Refuses.
Context {S : Type}.
Lemma refuses_ret {A} (a : A) : refuses (mret a : M S A).
Proof. by intros w e w' [=]. Qed.
Lemma refuses_throw {A} e : respOk (orElse (statusCode e) 500) = false -> refuses (throwM e : M S A).
Proof. by intros He w e' w' [= <- _]. Qed.
Lemma refuses_bind {A B} (m : M S A) (f : A -> M S B) : refuses m -> (forall a, refuses (f a)) -> refuses (m ≫= f).
Proof.
  intros Hm Hf w e w'. unfold mbind, M_bind. destruct (m w) as [[a|e1] w1] eqn:E; [apply Hf|]. intros [= <- _]. by eapply Hm.
Qed.
Lemma refuses_lift {A} (r : result A) : (forall e, r = Throw e -> respOk (orElse (statusCode e) 500) = false) -> refuses (liftR r : M S A).
Proof. intros Hr w e w' [= E _]. by apply Hr. Qed.
Lemma refuses_guard b e : respOk (orElse (statusCode e) 500) = false -> refuses (guardM b e : M S unit).
Proof. unfold guardM. destruct b; [intros _; apply refuses_ret|apply refuses_throw]. Qed.
Lemma refuses_foreach {A} (f : A -> M S unit) l : (forall a, refuses (f a)) -> refuses (foreachM f l).
Proof. intros Hf. induction l as [|a l IH]; [apply refuses_ret|]. cbn [foreachM]. by apply refuses_bind. Qed.
Lemma refuses_catch {A} (m : M S A) h : (forall e, refuses (h e)) -> refuses (catchM m h).
Proof. intros Hh w e w'. unfold catchM. destruct (m w) as [[a|e1] w1]; [done|]. apply Hh. Qed.
Lemma refuses_total {A} (m : M S A) : (forall w, exists a, (m w).1 = Ok a) -> refuses m.
Proof. intros Hm w e w' E. destruct (Hm w) as [a Ha]. by rewrite E in Ha. Qed.
End Refuses.
Create HintDb refuses.
#[export] Hint Resolve refuses_ret refuses_bind refuses_foreach refuses_catch : refuses.
#[export] Hint Extern 2 (refuses (throwM _)) => apply refuses_throw; reflexivity : refuses.
#[export] Hint Extern 2 (refuses (failM _)) => apply refuses_throw; reflexivity : refuses.
#[export] Hint Extern 2 (refuses (httpM _ _)) => apply refuses_throw; reflexivity : refuses.
#[export] Hint Extern 2 (refuses (guardM _ _)) => apply refuses_guard; reflexivity : refuses.
Section StoreRefuses.
Context `{Env} `{Uuid} `{Schemas.Zod} `{WebKeys} `{Fetch}.
Lemma refuses_onStore {A} (m : M DB A) : refuses m -> refuses (onStore m).
Proof. intros Hm w e w'. unfold onStore. destruct (m (adb w)) as [r d] eqn:E. intros [= -> <-]. by eapply Hm. Qed.
Lemma refuses_update t p sets : refuses (update schemaOf t p sets).
Proof. intros w e w'. unfold update, sqlError, failM, throwM. repeat case_match; intros [=]; by subst. Qed.
Lemma refuses_insert t row oc : refuses (insert schemaOf t row oc).
Proof.
  intros w e w'. unfold insert, addRow, sqlError, failM, throwM. repeat case_match; try (intros [=]; by subst). apply refuses_update.
Qed.
Lemma refuses_select t p : refuses (select schemaOf t p).
Proof. intros w e w'. unfold select, sqlError, failM, throwM. case_match; intros [=]; by subst. Qed.
Lemma refuses_now : refuses dateNow.
Proof. by apply refuses_total; intros w; eexists. Qed.
Hint Resolve refuses_onStore refuses_update refuses_insert refuses_select refuses_now : refuses.
Lemma refuses_returned rows : refuses (Store.returnedId rows).
Proof. destruct rows; cbn; auto with refuses. Qed.
Hint Resolve refuses_returned : refuses.
Lemma refuses_upsert did e m : refuses (Store.upsertUserByPrivyId did e m).
Proof.
  unfold Store.upsertUserByPrivyId, selectFirst, Store.touchLogin, Store.createProfile. apply refuses_bind; [auto with refuses|].
  intros [r|]; auto 15 with refuses.
Qed.
Lemma refuses_createVault u p v i : refuses (Store.createNoteVault u p v i).
Proof. unfold Store.createNoteVault. auto 10 with refuses. Qed.
Lemma refuses_addWrapper u v t m : refuses (Store.addVaultWrapper u v t m).
Proof. unfold Store.addVaultWrapper. auto 10 with refuses. Qed.
Lemma refuses_activity u a : refuses (Store.logActivity u a).
Proof. unfold Store.logActivity. auto 10 with refuses. Qed.
Lemma refuses_parse s j : refuses (parseM s j).
Proof. apply refuses_lift. unfold Schemas.parse. destruct (Schemas.zodParse s j); [done|]. by intros e [= <-]. Qed.
Lemma refuses_plain j : refuses (noPlaintext j).
Proof. apply refuses_lift. unfold NoteVault.assertNoPlaintextNoteFields. case_match; [|done]. by intros e [= <-]. Qed.
Hint Resolve refuses_upsert refuses_createVault refuses_addWrapper refuses_activity refuses_parse refuses_plain : refuses.
Lemma refuses_ingest e : refuses (ingestEnvelope e).
Proof.
  unfold ingestEnvelope. apply refuses_bind; [|auto with refuses]. apply refuses_lift. unfold NoteVault.validateVaultEnvelope.
  intros er. repeat case_match; try (by intros [= <-]). unfold NoteVault.assertNoPlaintextNoteFields. case_match; [|done]. by intros [= <-].
Qed.
Lemma refuses_require token ps b : trim token = token -> refuses (requirePrivyUser (mkRequest (bearer token) ps [] b)).
Proof.
  intros Ht. unfold requirePrivyUser. rewrite token_extracted by done. apply refuses_bind; [by apply refuses_lift|]. intros t.
  destruct (truthyOpt t) as [t'|]; [|auto with refuses]. apply refuses_bind; [auto with refuses|]. intros c. cbn. auto with refuses.
Qed.
Hint Resolve refuses_ingest : refuses.
Lemma refuses_post token ps b : trim token = token -> refuses (post_note_vaults (mkRequest (bearer token) ps [] b)).
Proof.
  intros Ht. unfold post_note_vaults. apply refuses_bind; [by apply refuses_require|]. intros u. auto 25 with refuses.
Qed.
End StoreRefuses.

(** ** Storing an envelope *)
Section Stores.
Context `{Env} `{Uuid} {zod : Schemas.Zod} {zodLaws : @Schemas.ZodLaws zod} {zodKeeps : @Schemas.ZodKeeps zod} `{WebKeys} `{Fetch}.

(** Requests that write other tables only. *)
Definition untouched (w0 w : Api) : Prop := users w = users w0 /\ vaults w = vaults w0 /\ sameProcess w0 w.
Lemma untouched_refl w : untouched w w.
Proof. by repeat split. Qed.
Lemma untouched_insert w0 t row oc : t ≠ "users" -> t ≠ "note_vaults" -> preserves (untouched w0) (onStore (insert schemaOf t row oc)).
Proof.
  intros Hu Hv w (Eu & Ev & Ec & Et). unfold onStore. destruct (insert _ _ _ _ _) as [r db] eqn:E.
  pose proof (keeps_insert schemaOf "users" t (table (adb w) "users") row oc Hu (adb w) eq_refl) as E1.
  pose proof (keeps_insert schemaOf "note_vaults" t (table (adb w) "note_vaults") row oc Hv (adb w) eq_refl) as E2.
  pose proof (same_clock_insert schemaOf (clock (adb w)) t row oc (adb w) eq_refl) as E3.
  rewrite E in E1, E2, E3. unfold untouched, users, vaults, sameProcess in *. simpl in *. split_and!; congruence.
Qed.
Lemma onStore_bind {A B} (m : M DB A) (f : A -> M DB B) w : onStore (m ≫= f) w = (onStore m ≫= fun a => onStore (f a)) w.
Proof. unfold onStore, mbind, M_bind. by destruct (m (adb w)) as [[a|e] db]. Qed.
Lemma preserves_store_bind {A B} I (m : M DB A) (f : A -> M DB B) :
  preserves I (onStore m) -> (forall a, preserves I (onStore (f a))) -> preserves I (onStore (m ≫= f)).
Proof. intros Hm Hf w Hw. rewrite onStore_bind. by apply (preserves_bind I (onStore m) (fun a => onStore (f a))). Qed.
Lemma preserves_store_pure {A} I (m : M DB A) : (forall db, (m db).2 = db) -> preserves I (onStore m).
Proof. intros Hm w Hw. unfold onStore. specialize (Hm (adb w)). destruct (m (adb w)) as [r db]. simpl in *. subst. by destruct w. Qed.
Lemma untouched_activity w0 u a : preserves (untouched w0) (onStore (Store.logActivity u a)).
Proof. apply preserves_store_bind; [by apply untouched_insert|]. intros _. by apply preserves_store_pure. Qed.
Lemma untouched_wrapper w0 u v t m : preserves (untouched w0) (onStore (Store.addVaultWrapper u v t m)).
Proof. apply preserves_store_bind; [by apply untouched_insert|]. intros l. apply preserves_store_pure. by destruct l. Qed.

(** The row of an account's vault, and the envelope in it. *)
Definition stored (did id : string) (env : json) (w : Api) : Prop := exists uid v, account w did uid /\
  head (selectWhere (Store.ownVault uid id) (vaults w)) = Some v /\ get v "envelope" = Jsonb.store env.
Lemma stored_untouched did id env w w' : untouched w w' -> stored did id env w -> stored did id env w'.
Proof. intros (Eu & Ev & _). unfold stored, account. by rewrite Eu, Ev. Qed.
Definition unused (w : Api) (id : string) : Prop := forall o, o ∈ vaults w -> get o "vault_id" ≠ JStr id.

Lemma createNoteVault_new uid did id e ct aad policy db x db' :
  Store.createNoteVault uid did id (Store.mkVaultInput (JObj e) ct aad policy) db = (Ok x, db') ->
  (forall o, o ∈ table db "note_vaults" -> get o "vault_id" ≠ JStr id) ->
  table db' "users" = table db "users" /\ clock db' = clock db /\
  exists v, table db' "note_vaults" = table db "note_vaults" ++ [v] /\ get v "user_id" = JStr uid /\ get v "vault_id" = JStr id /\
    get v "envelope" = Jsonb.store (JObj e).
Proof.
  intros E Hnew. unfold Store.createNoteVault in E. bind_ok E as now db1 E1. injection E1 as <- <-. bind_ok E as rows db2 E2.
  apply ret_Ok in E as [_ ->]. pose proof E2 as E3. unfold insert in E2. change (schemaOf "note_vaults") with (Some note_vaults) in E2.
  cbv beta iota in E2. destruct (negb _); [done|]. destruct (buildRow _ _ _ _) as [v|] eqn:Eb; [|done]. cbv zeta in E2.
  assert (forall c k, find (fun d => col d ==? c) (columns note_vaults) = Some k -> forall j, columnValue (clock db) (ticks db)
    ([("user_id", JStr uid); ("privy_user_id", JStr did); ("vault_id", JStr id); ("envelope", JObj e); ("ciphertext", JStr ct); ("aad", aad);
      ("recovery_policy_status", JStr policy); ("backup_status", JStr "created")]) k = Some j -> get v c = j) as Hget.
  { intros c k Hk j Hj. unfold get. by rewrite (buildRow_get _ _ _ _ _ _ _ _ Eb Hk Hj). }
  assert (get v "vault_id" = JStr id) as Hid by (eapply Hget; reflexivity).
  replace (existsb (agree ["vault_id"] v) (table (mkDB (tables db) (queueDB db) (ticks db + 1)) "note_vaults")) with false in E2.
  - apply addRow_Ok in E2 as [_ ->]. split; [by rewrite table_other|]. split; [done|]. exists v. split; [by rewrite table_same|].
    split; [eapply Hget; reflexivity|]. split; [done|]. eapply Hget; reflexivity.
  - symmetry. apply not_true_iff_false. intros (o & Ho%list_elem_of_In & Ea)%existsb_exists. unfold agree in Ea. simpl in Ea.
    rewrite andb_true_r, andb_true_iff in Ea. destruct Ea as [_ Ea%bool_decide_eq_true]. apply (Hnew o Ho). congruence.
Qed.
Lemma envelope_covered e : Schemas.covers Schemas.encryptedVaultEnvelopeSchema (NoteVault.envelopeJson e) = true.
Proof.
  change (Schemas.covers _ _) with (forallb (Schemas.covers Schemas.vaultWrapperSchema) (map NoteVault.wrapperJson (NoteVault.e_wrappers e)) && true).
  rewrite andb_true_r. apply forallb_forall. intros j (w & <- & _)%in_map_iff. by destruct w as [? ? ? ? ? ? [] ?].
Qed.
Lemma untouched_session token w w' did : untouched w w' -> session token w did -> session token w' did.
Proof. intros (_ & _ & Hs) Hse. by eapply session_same. Qed.
(** [POST /v1/note-vaults]: what was posted is in the caller's vault. *)
Lemma post_stores token e ps w resp w' : trim token = token ->
  post_note_vaults (mkRequest (bearer token) ps [] (JObj [("envelope", NoteVault.envelopeJson e)])) w = (Ok resp, w') ->
  unused w (NoteVault.e_vault_id e) ->
  exists did, session token w' did /\ stored did (NoteVault.e_vault_id e) (NoteVault.envelopeJson e) w'.
Proof using zodLaws zodKeeps.
  intros Ht E Hnew. unfold post_note_vaults in E. bind_ok E as u w1 E1. apply (require_Ok _ _ _ _ _ _ Ht) in E1 as (Hs & Ha & Hv).
  bind_ok E as x1 w2 E2. apply liftR_Ok in E2 as [_ ->]. lift_ok E as v Ev. unfold Schemas.parse in Ev.
  change (field (body _) "envelope") with (NoteVault.envelopeJson e) in Ev.
  destruct (Schemas.zodParse _ _) as [v'|] eqn:Ez; [|done]. injection Ev as ->.
  pose proof (zodKeeps _ _ _ (envelope_covered e) Ez) as Hsame. apply zodLaws in Ez as (kvs & -> & _).
  assert (strField (JObj kvs) "vault_id" = NoteVault.e_vault_id e) as Hid.
  { rewrite <- strField_store. unfold Jsonb.same in Hsame. rewrite Hsame. apply strField_store. }
  bind_ok E as x2 w3 E3. apply guardM_Ok in E3 as [_ ->]. bind_ok E as policy w4 E4.
  assert (w4 = w1) as ->.
  { unfold ingestEnvelope in E4. bind_ok E4 as y1 w5 E5. apply liftR_Ok in E5 as [_ ->]. bind_ok E4 as y2 w6 E6.
    apply liftR_Ok in E6 as [_ ->]. by apply ret_Ok in E4 as [_ ->]. }
  bind_ok E as x3 w5 E5. apply onStore_Ok in E5 as (db & E5 & ->). rewrite Hid in E5.
  apply createNoteVault_new in E5 as (Hu & Hc & row & Hrows & Hru & Hri & Hre); [|by unfold unused in Hnew; rewrite <- Hv in Hnew].
  set (w5 := mkApi db (acache w1)) in E.
  assert (preserves (untouched w5) (foreachM (fun wr => onStore (Store.addVaultWrapper (p_userId u) (strField (JObj kvs) "vault_id")
    (strField wr "type") (field wr "metadata")) ;; mret tt) (itemsOf (field (JObj kvs) "wrappers")))) as Hw.
  { apply preserves_foreach. intros wr. apply preserves_bind; [apply untouched_wrapper|]. intros ?. apply preserves_ret. }
  bind_ok E as x4 w6 E6. specialize (Hw w5 (untouched_refl w5)). rewrite E6 in Hw. cbn [snd] in Hw.
  bind_ok E as x5 w7 E7. epose proof (untouched_activity w5 _ _ w6 Hw) as Hw'. rewrite E7 in Hw'. apply ret_Ok in E as [_ ->].
  exists (p_privyUserId u). split.
  - eapply untouched_session; [exact Hw'|]. by apply (session_same _ w1).
  - eapply stored_untouched; [exact Hw'|]. exists (p_userId u), row. split; [destruct Ha as (r & Hr & Hri'); exists r; unfold users in *; by rewrite <- Hu in Hr|].
    split; [|by rewrite Hre, <- Hsame]. unfold vaults. cbn [adb w5]. rewrite Hrows. apply head_appended.
    + apply selectWhere_none. intros o Ho. unfold Store.ownVault, Store.andB. apply not_true_iff_false.
      intros [_ Hx%eqText_true]%andb_true_iff. apply (Hnew o); [|done]. by rewrite <- Hv.
    + unfold Store.ownVault, Store.andB. by rewrite !(proj2 (eqText_true _ _ _)).
Qed.
(** What the caller of a session can rely on. *)
Definition keeping (token did id : string) (env : json) (w : Api) : Prop := session token w did /\ stored did id env w.
Lemma keeping_untouched token did id env w w' : untouched w w' -> keeping token did id env w -> keeping token did id env w'.
Proof. intros Hw [Hs Hst]. split; [by eapply untouched_session|by eapply stored_untouched]. Qed.
Lemma require_keeping token did id env ps b w : trim token = token -> truthy token = true -> keeping token did id env w ->
  exists c uid v w', requirePrivyUser (mkRequest (bearer token) ps [] b) w = (Ok (mkUser uid did c), w') /\
    keeping token did id env w' /\ head (selectWhere (Store.ownVault uid id) (vaults w')) = Some v /\ get v "envelope" = Jsonb.store env.
Proof.
  intros Ht Htr (Hs & uid & v & Ha & Hv & He). destruct (require_account token did uid ps b w Ht Htr Hs Ha) as (c & w' & E & Hp & Ha' & Hvs).
  exists c, uid, v, w'. split; [done|]. rewrite <- Hvs in Hv. split; [|done]. split; [by eapply session_same|by exists uid, v].
Qed.
Lemma updateWhere_head {R} (q : R -> bool) f l v : head l = Some v -> head (updateWhere q f l) = Some (if q v then f v else v).
Proof. destruct l as [|r l]; [done|]. by intros [= ->]. Qed.
(** Columns beside the envelope and its owner may change. *)
Lemma keeping_update token did id env p sets : JsMap.get sets "envelope" = None -> JsMap.get sets "user_id" = None ->
  JsMap.get sets "vault_id" = None ->
  preserves (keeping token did id env) (onStore (update schemaOf "note_vaults" p sets)).
Proof.
  intros He Hu Hi w Hw. unfold onStore. destruct (update _ _ _ _ _) as [[rows|er] db] eqn:E.
  - apply (update_Ok schemaOf) in E as (s & sets' & [= <-] & Ec & _ & ->). destruct Hw as (Hs & uid & v & Ha & Hv & Hve).
    assert (forall c, JsMap.get sets c = None -> JsMap.get sets' c = None) as Hc.
    { clear -Ec. revert sets' Ec. induction sets as [|[k x] sets IH]; intros sets'; cbn [coerceSets]; [by intros [= <-]|].
      destruct (List.find _ _) as [cl|]; [|done]. destruct (checkNull _ _) as [y|]; [|done]. destruct (coerceSets _ sets) as [r|]; [|done].
      intros [= <-] c. simpl. case_bool_decide; [done|]. by apply IH. }
    assert (forall r c, JsMap.get sets c = None -> get (assignRow sets' r) c = get r c) as Hg by (intros r c Hn; by apply get_assign_unset, Hc).
    split; [eapply session_same; [exact Hs|done]|]. exists uid, (if p v then assignRow sets' v else v).
    split; [destruct Ha as (u & Hr & Hui); exists u; unfold users; cbn [snd adb]; by rewrite table_other|].
    split; [|destruct (p v); [by rewrite Hg|done]]. unfold vaults. cbn [snd adb]. rewrite table_same, selectWhere_updateWhere.
    + by apply updateWhere_head.
    + intros r. unfold Store.ownVault, Store.andB, eqText, eqCol. by rewrite !Hg.
  - cbn [snd]. assert (db = adb w) as ->; [|by destruct w]. unfold update, sqlError, failM, throwM in E. repeat case_match; congruence.
Qed.
Lemma keeping_verified token did id env u v j : preserves (keeping token did id env) (onStore (Store.setVaultBackupVerified u v j)).
Proof.
  apply preserves_store_bind; [by apply preserves_store_pure|]. intros now. apply preserves_store_bind; [by apply keeping_update|].
  intros rows. by apply preserves_store_pure.
Qed.
Lemma keeping_activity token did id env u a : preserves (keeping token did id env) (onStore (Store.logActivity u a)).
Proof. intros w Hw. eapply keeping_untouched; [|exact Hw]. apply untouched_activity, untouched_refl. Qed.
Lemma keeping_first token did id env p : preserves (keeping token did id env) (onStore (selectFirst schemaOf "note_vaults" p)).
Proof. by apply preserves_store_pure. Qed.
(** [GET /v1/note-vaults/:vault_id]. *)
Lemma get_stored token did id env b w : trim token = token -> truthy token = true -> keeping token did id env w ->
  exists v w', get_note_vault (mkRequest (bearer token) [("vault_id", id)] [] b) w = (Ok (reply (JObj v)), w') /\
    field (JObj v) "envelope" = Jsonb.store env /\ keeping token did id env w'.
Proof.
  intros Ht Htr Hw. destruct (require_keeping _ _ _ _ [("vault_id", id)] b _ Ht Htr Hw) as (c & uid & v & w' & E & Hw' & Hv & He).
  exists v, w'. split; [|done]. unfold get_note_vault. unfold mbind at 1, M_bind at 1. rewrite E. unfold mbind at 1, M_bind at 1.
  change (vaultId _) with id. cbn [p_userId]. unfold onStore, Store.getNoteVault, selectFirst, mbind, M_bind, select.
  change (schemaOf "note_vaults") with (Some note_vaults). cbv beta iota. unfold mret, M_ret. fold (vaults w'). rewrite Hv. by destruct w'.
Qed.
(** [POST /v1/note-vaults/:vault_id/verify-backup], whatever it answers. *)
Lemma verify_keeps token did id env ps b w : trim token = token -> truthy token = true -> keeping token did id env w ->
  keeping token did id env (post_verify_backup (mkRequest (bearer token) ps [] b) w).2.
Proof.
  intros Ht Htr Hw. destruct (require_keeping _ _ _ _ ps b _ Ht Htr Hw) as (c & uid & v & w' & E & Hw' & _).
  unfold post_verify_backup. unfold mbind at 1, M_bind at 1. rewrite E. revert w' Hw' E. intros w' Hw' _.
  match goal with |- keeping _ _ _ _ (?m w').2 => assert (preserves (keeping token did id env) m) as Hm; [|by apply Hm] end.
  apply preserves_bind; [apply preserves_lift|]. intros j. destruct (negb _); [apply preserves_ret|].
  apply preserves_bind; [apply keeping_first|]. intros [vault|]; [|apply preserves_ret]. destruct (_ && _); [apply preserves_ret|].
  apply preserves_bind; [apply keeping_verified|]. intros _. apply preserves_bind; [apply keeping_activity|]. intros _.
  apply preserves_bind; [|intros ?; apply preserves_ret]. apply preserves_store_bind; [apply keeping_first|]. intros r. by apply preserves_store_pure.
Qed.
(** [GET /v1/me] writes no vault. *)
Definition vaultsAre (vs : list Row) (w : Api) : Prop := vaults w = vs.
Lemma vaultsAre_store {A} vs (m : M DB A) : preserves (fun db => table db "note_vaults" = vs) m -> preserves (vaultsAre vs) (onStore m).
Proof. apply (preserves_onStore (fun db => table db "note_vaults" = vs)). Qed.
Lemma table_require t rows r : "users" ≠ t -> "user_profiles" ≠ t -> preserves (fun w => table (adb w) t = rows) (requirePrivyUser r).
Proof.
  intros Hu Hp.
  unfold requirePrivyUser. apply preserves_bind; [apply preserves_lift|]. intros tk. destruct (truthyOpt tk); [|apply preserves_throw].
  apply preserves_bind.
  - apply preserves_catch; [|intros ?; apply preserves_throw]. intros w Hw. destruct (verifyPrivyAccessToken s w) as [c w'] eqn:E.
    apply verify_run in E as [E _]. unfold table in *. cbn [snd]. by rewrite E.
  - intros c. apply preserves_bind; [|intros ?; apply preserves_ret]. apply (preserves_onStore (fun db => table db t = rows)).
    unfold Store.upsertUserByPrivyId, selectFirst, Store.touchLogin, Store.createProfile, Store.returnedId. keeps_table.
Qed.
Lemma vaultsAre_require vs r : preserves (vaultsAre vs) (requirePrivyUser r).
Proof. by apply (table_require "note_vaults" vs). Qed.
Lemma me_vaults `{Sha256} vs r : preserves (vaultsAre vs) (get_me r).
Proof.
  unfold get_me, authedUser. apply preserves_bind.
  - destruct privyEnabled; [apply preserves_bind; [apply vaultsAre_require|intros ?; apply preserves_ret]|].
    destruct legacyWalletAuth; [|apply preserves_throw]. unfold requireUser. apply preserves_bind; [apply preserves_lift|]. intros t.
    destruct (truthyOpt t); [|apply preserves_throw]. apply preserves_bind.
    + apply vaultsAre_store. unfold Store.userIdForSession, selectFirst. keeps_table.
    + intros u. destruct (truthyOpt u); [apply preserves_ret|apply preserves_throw].
  - intros u. apply preserves_bind; [|intros ?; apply preserves_ret]. apply vaultsAre_store.
    unfold Store.getUser, Store.listWallets, selectFirst. keeps_table.
Qed.
End Stores.

(** ** Fastify

    Which route a request takes, with the parameters of its path, and the body
    the handler gets: a bodyless request that is marked as JSON is refused
    unless it is a [GET].  Identifiers of letters, digits and dashes arrive as
    they were sent. *)
Definition plainChar (c : ascii) : bool := isDigit c || ((97 <=? JsText.code c) && (JsText.code c <=? 122)) || (c ==? "-"%char).
Definition plainId (id : string) : bool := truthy id && allChars plainChar id.
Class Fastify := {
  findRoute : string -> string -> option (string * list (string * string));
  jsonBody : string -> json -> result json }.
Definition emptyBody : error := Error (Some 400) "Body cannot be empty when content-type is set to 'application/json'".
Class FastifyLaws `{Fastify} : Prop := {
  route_me : findRoute "GET" "/v1/me" = Some ("GET /v1/me", []);
  route_create : findRoute "POST" "/v1/note-vaults" = Some ("POST /v1/note-vaults", []);
  route_vault id : plainId id = true -> findRoute "GET" (VaultRestore.vaultPath id) = Some ("GET /v1/note-vaults/:vault_id", [("vault_id", id)]);
  route_verify id : plainId id = true ->
    findRoute "POST" (VaultRestore.vaultPath id +:+ "/verify-backup") = Some ("POST /v1/note-vaults/:vault_id/verify-backup", [("vault_id", id)]);
  route_restored id : plainId id = true ->
    findRoute "POST" (VaultRestore.vaultPath id +:+ "/mark-restored") = Some ("POST /v1/note-vaults/:vault_id/mark-restored", [("vault_id", id)]);
  body_get : jsonBody "GET" JNull = Ok JNull;
  body_object kvs : jsonBody "POST" (JObj kvs) = Ok (JObj kvs);
  body_empty : jsonBody "POST" JNull = Throw emptyBody }.

Section Keeper.
Context `{Env} `{Uuid} {zod : Schemas.Zod} {zodLaws : @Schemas.ZodLaws zod} {zodKeeps : @Schemas.ZodKeeps zod} `{WebKeys} `{Fetch} `{Sha256}.
Context `{Random} `{Wallets} `{Ids.LocaleCompare} `{Cctp.StrKey} `{NoteCrypto.Poseidon} `{StellarActions.SorobanRpc} `{Keypair} `{Nacl} `{KeyGen}.
Context {fastify : Fastify} {fastifyLaws : @FastifyLaws fastify}.

(** The API as a browser with a token sees it. *)
Definition notFound (verb path : string) : Response :=
  replyCode 404 (JObj [("message", JStr ("Route " +:+ verb +:+ ":" +:+ path +:+ " not found")); ("error", JStr "Not Found"); ("statusCode", JNum 404)]).
Definition keyHeader (key : option string) : list (string * string) := match key with Some k => [("idempotency-key", k)] | None => [] end.
Definition answer (token : string) (w : Api) (verb path : string) (key : option string) (b : json) : Response * Api :=
  match findRoute verb path with
  | Some (name, ps) =>
      match JsMap.get Api.routes name with
      | Some h =>
          match jsonBody verb b with
          | Ok b => handle (h (mkRequest (bearer token ++ keyHeader key) ps [] b)) w
          | Throw e => (errorResponse e, w)
          end
      | None => (notFound verb path, w)
      end
  | None => (notFound verb path, w)
  end.
#[export] Instance apiServer (token : string) : WebClient.Server := {|
  WebClient.serverState := Api;
  WebClient.serve w verb path key b := let '(resp, w') := answer token w verb path key b in (Ok (code resp, content resp), w') |}.

Lemma answer_with token w verb path key b b' name ps h : findRoute verb path = Some (name, ps) -> JsMap.get Api.routes name = Some h ->
  jsonBody verb b = Ok b' -> answer token w verb path key b = handle (h (mkRequest (bearer token ++ keyHeader key) ps [] b')) w.
Proof. intros Er Eh Eb. unfold answer. by rewrite Er, Eh, Eb. Qed.
Lemma answer_route token w verb path b b' name ps h : findRoute verb path = Some (name, ps) -> JsMap.get Api.routes name = Some h ->
  jsonBody verb b = Ok b' -> answer token w verb path None b = handle (h (mkRequest (bearer token) ps [] b')) w.
Proof. apply answer_with. Qed.
Lemma handle_state m w : (handle m w).2 = (m w).2.
Proof. unfold handle. by destruct (m w) as [[]]. Qed.

(** ** The API is a keeper of vaults *)
Context (token : string) (tokenTrimmed : trim token = token) (tokenGiven : truthy token = true).
#[local] Instance served : WebClient.Server := apiServer token.
Definition freeName (w : Api) (id : string) : Prop := plainId id = true /\ unused w id.
Definition kept (w : Api) (id : string) (env : json) : Prop := plainId id = true /\ exists did, keeping token did id env w.
Lemma serve_answer w verb path key b : WebClient.serve w verb path key b =
  (Ok (code (answer token w verb path key b).1, content (answer token w verb path key b).1), (answer token w verb path key b).2).
Proof. cbn. by destruct (answer token w verb path key b). Qed.
Lemma free_me (w : Api) id : freeName w id -> freeName (WebClient.serve w "GET" "/v1/me" None JNull).2 id.
Proof using fastifyLaws.
  intros [Hp Hf]. split; [done|]. rewrite serve_answer. cbn [snd].
  rewrite (answer_route _ _ _ _ _ _ _ _ get_me route_me eq_refl body_get), handle_state. unfold unused.
  pose proof (me_vaults (vaults w) (mkRequest (bearer token) [] [] JNull) w eq_refl) as Hm. unfold vaultsAre in Hm. by rewrite Hm.
Qed.
Lemma kept_post (w : Api) e st r (w' : Api) : freeName w (NoteVault.e_vault_id e) ->
  WebClient.serve w "POST" "/v1/note-vaults" None (JObj [("envelope", NoteVault.envelopeJson e)]) = (Ok (st, r), w') -> respOk st = true ->
  kept w' (NoteVault.e_vault_id e) (NoteVault.envelopeJson e).
Proof using zodLaws zodKeeps fastifyLaws tokenTrimmed.
  intros [Hp Hf] E Hst. split; [done|]. rewrite serve_answer in E.
  rewrite (answer_route _ _ _ _ _ _ _ _ post_note_vaults route_create eq_refl (body_object _)) in E. unfold handle in E.
  destruct (post_note_vaults _ w) as [[resp|er] w1] eqn:Ep; injection E as <- _ <-.
  - by apply post_stores in Ep as (did & Hs); [exists did| |].
  - apply refuses_post in Ep; [|done]. cbn in Hst. by rewrite Hst in Ep.
Qed.
Lemma kept_get (w : Api) id env : kept w id env -> exists st r (w' : Api),
  WebClient.serve w "GET" (VaultRestore.vaultPath id) None JNull = (Ok (st, r), w') /\ respOk st = true /\
  field r "envelope" = Jsonb.store env /\ kept w' id env.
Proof using fastifyLaws tokenTrimmed tokenGiven.
  intros (Hp & did & Hk). destruct (get_stored _ _ _ _ JNull _ tokenTrimmed tokenGiven Hk) as (v & w' & E & He & Hk').
  exists 200, (JObj v), w'. rewrite serve_answer, (answer_route _ _ _ _ _ _ _ _ get_note_vault (route_vault _ Hp) eq_refl body_get).
  unfold handle. rewrite E. split; [done|]. split; [done|]. split; [done|]. split; [done|]. by exists did.
Qed.
Lemma kept_verify (w : Api) id env b : kept w id env -> kept (WebClient.serve w "POST" (VaultRestore.vaultPath id +:+ "/verify-backup") None b).2 id env.
Proof using fastifyLaws tokenTrimmed tokenGiven.
  intros (Hp & did & Hk). split; [done|]. exists did. rewrite serve_answer. cbn [snd]. unfold answer.
  rewrite (route_verify _ Hp). change (JsMap.get Api.routes _) with (Some post_verify_backup). cbv iota.
  destruct (jsonBody "POST" b) as [b'|er]; [|done]. rewrite handle_state. by apply verify_keeps.
Qed.
Definition apiKeeper : @VaultRestore.VaultKeeper served := {|
  VaultRestore.free := freeName; VaultRestore.holds := kept; VaultRestore.me_free := free_me; VaultRestore.post_holds := kept_post;
  VaultRestore.get_holds := kept_get; VaultRestore.verify_holds := kept_verify |}.
End Keeper.

(** ** Two devices in front of the API *)
Section Devices.
Context `{Env} {serverUuid : Uuid} {zod : Schemas.Zod} {zodLaws : @Schemas.ZodLaws zod} {zodKeeps : @Schemas.ZodKeeps zod} `{WebKeys} `{Fetch}.
Context `{Sha256} {serverRandom : Random} `{Wallets} `{Ids.LocaleCompare} `{Cctp.StrKey} `{NoteCrypto.Poseidon} `{StellarActions.SorobanRpc}.
Context `{Keypair} `{Nacl} `{KeyGen} {fastify : Fastify} {fastifyLaws : @FastifyLaws fastify}.
Definition api (token : string) : WebClient.Server := apiServer token.

(** [mark-restored] is posted without a body. *)
Lemma report_refused token id (b : @WebClient.Browser (api token)) : plainId id = true ->
  (@VaultRestore.report (api token) id b).1 = Throw (Error None (message emptyBody)).
Proof using fastifyLaws.
  intros Hp. unfold VaultRestore.report, WebClient.markRestored, WebClient.api, WebClient.apiWith, WebClient.call. cbn [orElse].
  pose proof (route_restored id Hp) as Hr. unfold VaultRestore.vaultPath in Hr. rewrite append_assoc in Hr.
  unfold mbind, M_bind, guardM. cbn [WebClient.serve api apiServer]. unfold answer. rewrite Hr.
  change (JsMap.get Api.routes _) with (Some post_mark_restored). cbv iota. by rewrite body_empty.
Qed.
(** The vault is back in memory, and the page shows that refusal. *)
Definition backAs {S} (vault : NoteVault.NoteVault) (m : M S unit) (memoryOf : S -> option json) (b : S) : Prop :=
  (m b).1 = Throw (Error None (message emptyBody)) /\ memoryOf (m b).2 = Some (NoteVault.vaultJson vault).
Lemma brings_back token env vault (m : M (@WebClient.Browser (api token)) unit) b Ht Hg : plainId (NoteVault.vault_id vault) = true ->
  @VaultRestore.brings (api token) (apiKeeper token Ht Hg) env vault m b -> backAs vault m WebClient.memory b.
Proof.
  intros Hp (b1 & Hm & _ & E). unfold backAs. rewrite E. split; [by apply report_refused|]. by rewrite VaultRestore.report_memory.
Qed.

Context {browserUuid : Uuid} {browserRandom : Random} {randomLaws : RandomLaws} {aes : Aes} {aesLaws : AesLaws}.
Context {kdfs : NoteVault.Kdf} {kdfLaws : NoteVault.KdfLaws} `{WebClient.Authenticator} `{WebClient.Freighter}.
Context (clockAt : Z -> Z) (origin : string).

(** What can happen to the database behind the API: requests to any process
    of it, by anyone; the queue's workers and the passing of time; writes of
    the other services, none of which touches the accounts or the vaults. *)
Inductive later : Api -> Api -> Prop :=
| later_now w : later w w
| later_request w n h r w' : (n, h) ∈ Api.routes -> later (handle (h r) w).2 w' -> later w w'
| later_process w c w' : later (mkApi (adb w) c) w' -> later w w'
| later_queue w q n w' : later (mkApi (mkDB (tables (adb w)) q n) (acache w)) w' -> later w w'
| later_service w t rows w' : t ≠ "users" -> t ≠ "note_vaults" -> later (mkApi (setTable t rows (adb w)) (acache w)) w' -> later w w'.
Lemma later_continues w w' : later w w' ->
  Records.continues "users" (users w) (users w') /\ Records.continues "note_vaults" (vaults w) (vaults w').
Proof.
  assert (forall w0 w1 w2 : Api, Records.kept (adb w0) (adb w1) ->
    Records.continues "users" (users w1) (users w2) /\ Records.continues "note_vaults" (vaults w1) (vaults w2) ->
    Records.continues "users" (users w0) (users w2) /\ Records.continues "note_vaults" (vaults w0) (vaults w2)) as Hstep.
  { intros w0 w1 w2 Hk [Hu Hv]. split; (eapply Records.continues_trans; [apply Hk|done]); apply (bool_decide_eq_false_1 _); reflexivity. }
  induction 1 as [w|w n h r w' Hin _ IH|w c w' _ IH|w q n w' _ IH|w t rows w' Hu Hv _ IH].
  - split; apply Records.continues_refl.
  - eapply Hstep; [by eapply Api.request_kept|done].
  - exact IH.
  - exact IH.
  - unfold users, vaults in *. cbn [adb] in IH. rewrite !table_setTable, !bool_decide_false in IH by done. exact IH.
Qed.
(** The envelope of the vault was not replaced by another upload. *)
Definition envelopeKept (id : string) (w w' : Api) : Prop :=
  forall v v', v ∈ vaults w -> get v "vault_id" = JStr id -> v' ∈ vaults w' -> get v' "vault_id" = JStr id ->
    get v' "envelope" = get v "envelope".
Lemma stored_later did id env w w' : later w w' -> envelopeKept id w w' -> stored did id env w -> stored did id env w'.
Proof.
  intros [Hu Hv]%later_continues He (uid & v & (u & Hh & Hid) & Hr & Henv).
  eapply Records.head_continues in Hh as (u' & Hh' & Hsu & _); [|exact Hu|].
  2: { intros a b Hab. unfold eqText, eqCol. by rewrite (Hab "privy_user_id" ltac:(apply (bool_decide_eq_false_1 _); reflexivity)). }
  pose proof Hr as Hr0. eapply Records.head_continues in Hr as (v' & Hr' & Hsv & Hin'); [|exact Hv|].
  2: { intros a b Hab. unfold Store.ownVault, Store.andB, eqText, eqCol.
       by rewrite (Hab "user_id" ltac:(apply (bool_decide_eq_false_1 _); reflexivity)),
                  (Hab "vault_id" ltac:(apply (bool_decide_eq_false_1 _); reflexivity)). }
  exists uid, v'. split.
  - exists u'. split; [done|]. rewrite <- Hid. change (textOf (get u' "id") = textOf (get u "id")).
    by rewrite (Hsu "id" ltac:(apply (bool_decide_eq_false_1 _); reflexivity)).
  - split; [done|]. rewrite <- Henv. apply head_selectWhere in Hr0 as [Hin Hown]. unfold Store.ownVault, Store.andB in Hown.
    apply andb_true_iff in Hown as [_ Hvid%eqText_true]. apply He; try done.
    by rewrite (Hsv "vault_id" ltac:(apply (bool_decide_eq_false_1 _); reflexivity)).
Qed.

(** C14. A vault created in front of the API comes back on another device.  With
    a free name for the vault, a creation that succeeds leaves it in memory;
    and for any later session of the same account, after any further requests
    of anyone to the API, work of the queue's workers and writes of the other
    services, as long as no other upload has replaced the vault's envelope,
    the recovery file that was saved, and the passphrase, if they were picked,
    bring exactly this vault back into memory.  The page then always reports
    an error: it marks the vault as restored with a request that has no body
    and says it is JSON. *)
Theorem api_backup_restores t1 sel (b : @WebClient.Browser (api t1)) vid b' :
  trim t1 = t1 -> truthy t1 = true -> plainId vid = true -> unused (WebClient.server b) vid ->
  WebClient.createVault clockAt origin (Some t1) sel b = (Ok vid, b') ->
  exists vault did, NoteVault.vault_id vault = vid /\ WebClient.memory b' = Some (NoteVault.vaultJson vault) /\
    session t1 (WebClient.server b') did /\
    forall t2 (b2 : @WebClient.Browser (api t2)), trim t2 = t2 -> truthy t2 = true -> session t2 (WebClient.server b2) did ->
      later (WebClient.server b') (WebClient.server b2) -> envelopeKept vid (WebClient.server b') (WebClient.server b2) ->
      (WebClient.file sel = true -> exists name f, (name, f) ∈ WebClient.downloads b' /\ forall text, parse text = Some f ->
         backAs vault (WebClient.restoreFromFile (Some t2) text) WebClient.memory b2) /\
      (WebClient.password sel = true -> WebClient.pw sel ≠ "" ->
         backAs vault (WebClient.restoreWith (Some t2) (WebClient.MPassword (WebClient.pw sel)) vid) WebClient.memory b2).
Proof using zodLaws zodKeeps fastifyLaws randomLaws aesLaws kdfLaws.
  intros Ht1 Hg1 Hp Hf E.
  apply (VaultRestore.createVault_Ok (srv := api t1) (keeper := apiKeeper t1 Ht1 Hg1)) in E as (vault & env & master & Hb); [|by split].
  destruct Hb as [[<- Hne] Hm [(_ & did & Hs & Hst) Hid] Hv Hd Hfile Hpw]. exists vault, did. split; [done|]. split; [done|]. split; [done|].
  intros t2 b2 Ht2 Hg2 Hs2 Hl He.
  assert (kept t2 (WebClient.server b2) (NoteVault.vault_id vault) (NoteVault.envelopeJson env)) as Hk.
  { split; [done|]. exists did. split; [done|]. by eapply stored_later. }
  assert (truthyOpt (Some t2) ≠ None) as Hto by (cbn; by rewrite Hg2).
  split.
  - intros Hc. destruct (Hfile Hc) as (w & secret & name & now & Hw & Hun & Hin). exists name. eexists. split; [exact Hin|].
    intros text Htext. eapply (brings_back t2 _ _ _ _ Ht2 Hg2); [done|]. by eapply VaultRestore.restoreFile_up.
  - intros Hc Hpne. destruct (Hpw Hc Hpne) as (w & Hw & Hun). eapply (brings_back t2 _ _ _ _ Ht2 Hg2); [done|].
    by eapply VaultRestore.restorePassword_up.
Qed.
End Devices.

(** ** Witness: a vault restored with its passphrase in a later session *)
Definition vaultRoute (verb path : string) : option (string * list (string * string)) :=
  if startsWith path "/v1/note-vaults/" then
    let '(id, rest) := takeWhile plainChar (sliceFrom 16 path) in
    if (verb ==? "GET") && (rest ==? "") then Some ("GET /v1/note-vaults/:vault_id", [("vault_id", id)])
    else if (verb ==? "POST") && ((rest ==? "/verify-backup") || (rest ==? "/mark-restored"))
    then Some ("POST /v1/note-vaults/:vault_id" +:+ rest, [("vault_id", id)])
    else None
  else None.
Definition toyFastify : Fastify := {|
  findRoute verb path :=
    if (verb ==? "GET") && (path ==? "/v1/me") then Some ("GET /v1/me", [])
    else if (verb ==? "POST") && (path ==? "/v1/note-vaults") then Some ("POST /v1/note-vaults", [])
    else vaultRoute verb path;
  jsonBody verb b := match b with JNull => if verb ==? "GET" then Ok JNull else Throw emptyBody | _ => Ok b end |}.
Lemma vaultRoute_plain verb id rest : plainId id = true -> match rest with String c _ => plainChar c = false | _ => True end ->
  vaultRoute verb ("/v1/note-vaults/" +:+ id +:+ rest) =
    if (verb ==? "GET") && (rest ==? "") then Some ("GET /v1/note-vaults/:vault_id", [("vault_id", id)])
    else if (verb ==? "POST") && ((rest ==? "/verify-backup") || (rest ==? "/mark-restored"))
    then Some ("POST /v1/note-vaults/:vault_id" +:+ rest, [("vault_id", id)]) else None.
Proof.
  intros [_ Hp]%andb_true_iff Hr. unfold vaultRoute. change (startsWith _ _) with (startsWith (id +:+ rest) "").
  replace (startsWith (id +:+ rest) "") with true by (by destruct (id +:+ rest)).
  change (sliceFrom 16 _) with (id +:+ rest). by rewrite (takeWhile_all plainChar id rest Hp Hr).
Qed.
Lemma toyFastify_laws : @FastifyLaws toyFastify.
Proof.
  split; try done; intros id Hp; cbn [findRoute toyFastify]; unfold VaultRestore.vaultPath.
  - pose proof (vaultRoute_plain "GET" id "" Hp I) as Hr. by rewrite append_nil_r in Hr.
  - rewrite append_assoc. by rewrite vaultRoute_plain.
  - rewrite append_assoc. by rewrite vaultRoute_plain.
Qed.
#[local] Notation toyApi := (@api toyPrivyEnv Database.toyUuid Schemas.toyZod toyKeys toyJwks Toy.toy_sha ToyRuntime.toy_random toyWallets
  (fun _ _ => 0) RoutesVault.toyStrKey (fun _ => 0)
  (StellarActions.Build_SorobanRpc (fun _ _ _ _ _ _ => Ok "") (fun _ _ _ => Ok ("", "")) (fun _ _ _ => Ok ""))
  ToyRuntime.toy_keypair Toy.toy_nacl ToyRuntime.toy_keygen toyFastify toyToken).
Definition toyPage : @WebClient.Browser toyApi := @WebClient.mkBrowser toyApi None ∅ [] None (mkApi (emptyDB 5000) (mkCache None [])) 0.
#[local] Notation toyCreated := (@WebClient.createVault toyApi ToyRuntime.toy_random ToyRuntime.toy_aes NoteVault.toyKdf Toy.toy_sha Database.toyUuid
  VaultRestore.toyAuth VaultRestore.toyFreighter (fun _ => 0) "https://shade" (Some toyToken) VaultRestore.toySelection toyPage).
Lemma toy_created : exists b', toyCreated = (Ok "vault-uuid-2", b').
Proof. apply VaultRestore.fst_known. vm_compute. reflexivity. Qed.
Lemma toy_unused : unused (WebClient.server toyPage) "vault-uuid-2".
Proof. intros o Ho. change (o ∈ ([] : list Row)) in Ho. apply elem_of_nil in Ho. contradiction. Qed.
Lemma api_backup_restores_witness : exists b' b3, toyCreated = (Ok "vault-uuid-2", b') /\ WebClient.memory b3 ≠ None /\
  @WebClient.restoreWith toyApi ToyRuntime.toy_aes NoteVault.toyKdf VaultRestore.toyFreighter (Some toyToken) (WebClient.MPassword "pass") "vault-uuid-2"
    (@WebClient.mkBrowser toyApi None ∅ [] None (WebClient.server b') 9) = (Throw (Error None (message emptyBody)), b3).
Proof.
  destruct toy_created as [b' E].
  destruct (@api_backup_restores toyPrivyEnv Database.toyUuid Schemas.toyZod Schemas.toyZod_laws Schemas.toyZod_keeps toyKeys toyJwks Toy.toy_sha
    ToyRuntime.toy_random toyWallets (fun _ _ => 0) RoutesVault.toyStrKey (fun _ => 0)
    (StellarActions.Build_SorobanRpc (fun _ _ _ _ _ _ => Ok "") (fun _ _ _ => Ok ("", "")) (fun _ _ _ => Ok ""))
    ToyRuntime.toy_keypair Toy.toy_nacl ToyRuntime.toy_keygen toyFastify toyFastify_laws Database.toyUuid ToyRuntime.toy_random
    ToyRuntime.toy_random_laws ToyRuntime.toy_aes ToyRuntime.toy_aes_laws NoteVault.toyKdf NoteVault.toyKdf_laws VaultRestore.toyAuth
    VaultRestore.toyFreighter (fun _ => 0) "https://shade" toyToken VaultRestore.toySelection toyPage "vault-uuid-2" b'
    ltac:(vm_compute; reflexivity) eq_refl eq_refl toy_unused E) as (vault & did & Hid & Hm & Hs & Hr).
  assert (envelopeKept "vault-uuid-2" (WebClient.server b') (WebClient.server b')) as He.
  { assert (length (vaults (WebClient.server toyCreated.2)) = 1%nat) as Hl by (vm_compute; reflexivity). rewrite E in Hl. cbn [snd] in Hl.
    intros v v' Hv _ Hv' _. destruct (vaults (WebClient.server b')) as [|x [|y l]]; try discriminate Hl.
    apply list_elem_of_singleton in Hv as ->. apply list_elem_of_singleton in Hv' as ->. reflexivity. }
  destruct (Hr toyToken (@WebClient.mkBrowser toyApi None ∅ [] None (WebClient.server b') 9) ltac:(vm_compute; reflexivity) eq_refl Hs
    (later_now _) He) as [_ Hpw].
  specialize (Hpw eq_refl ltac:(discriminate)) as [Hthrow Hmem]. change (WebClient.pw VaultRestore.toySelection) with "pass" in Hthrow, Hmem.
  exists b', (@WebClient.restoreWith toyApi ToyRuntime.toy_aes NoteVault.toyKdf VaultRestore.toyFreighter (Some toyToken)
    (WebClient.MPassword "pass") "vault-uuid-2" (@WebClient.mkBrowser toyApi None ∅ [] None (WebClient.server b') 9)).2.
  split; [exact E|]. split; [rewrite Hmem; discriminate|]. apply VaultRestore.pair_known. exact Hthrow.
Defined.
End ApiVault.
