(* ===== verification/Moves.v ===== *)
(** * Spending in the browser (frontend/app/(app)/move, frontend/lib/api.ts)

    The move page: a private note is withdrawn, swapped with the solver or
    matched by the committee by posting one request and following its job.
    Lemmas: how a run ends, for every server; what is shown is what the job
    reported; a spent note stays selected; and the API has no route for any of
    the moves, which therefore all end with [Not Found].  Amounts are in units of 10^-7 USDC; [toFixed] on the quotient
    of doubles is a parameter. *)
From S2P Require Import Prelude JsText JsCollections Json Crypto Ids Database Runtime Privy Schemas ApiAuth Cctp NoteCrypto StellarActions Api WebClient ApiVault.
From Stdlib Require Import Ascii.
Import JsText Json Crypto Database Runtime.

Module Moves.

(** ** frontend/lib/hooks.ts *)
Record NoteRow := mkNoteRow { commitment : string; asset_id : string; amount_usdc_7dp : Z; status : string }.
Definition activeNotes (l : list NoteRow) : list NoteRow := selectWhere (fun n => status n ==? "active") l.
Definition balanceUsdc (l : list NoteRow) : Z := fold_left (fun a n => a + amount_usdc_7dp n) (activeNotes l) 0.

(** ** components/zk-panel.tsx, components/live-log.tsx *)
Record ZkState := mkZk {
  circuit : string; verifier : option string; proving : bool; verifiedOnChain : bool; zkTx : option string;
  nullifier : option string; publicSignals : list (string * string) }.
Definition idle (c : string) : ZkState := mkZk c None false false None None [].
Definition proof (c : string) (v : option string) (signals : list (string * string)) : ZkState := mkZk c v true false None None signals.
Definition stopped (z : ZkState) : ZkState := mkZk (circuit z) (verifier z) false (verifiedOnChain z) (zkTx z) (nullifier z) (publicSignals z).
Definition settled (tx n : string) (z : ZkState) : ZkState := mkZk (circuit z) (verifier z) false true (Some tx) (Some n) (publicSignals z).
(** The fields of a job's result that are shown as transactions. *)
Definition TX_LABELS : list (string * string) :=
  [("txHash", "settle tx"); ("receiveDepositTxHash", "shield tx"); ("mintForwardTxHash", "mint tx"); ("burnTxHash", "burn tx");
   ("fillTxHash", "fill tx"); ("mintTxHash", "mint tx")].
Definition isHash (v : string) : bool :=
  let h := if startsWith v "0x" then sliceFrom 2 v else v in allChars ApiAuth.isHex h && Nat.eqb (String.length h) 64.
Definition endsInHash (k : string) : bool := (4 <=? String.length k)%nat && (sliceFrom (String.length k - 4) k ==? "Hash").
Definition txFields (res : json) : list (string * string) :=
  match res with
  | JObj kvs => omap (fun kv => match kv.2 with
      | JStr v => if endsInHash kv.1 && isHash v then Some (orElse (JsMap.get TX_LABELS kv.1) kv.1, v) else None
      | _ => None
      end) kvs
  | _ => []
  end.

(** ** frontend/lib/api.ts

    An answer that is not a success is thrown with its [error], or the
    status text. *)
Definition request `{WebClient.Server} (statusText : Z -> string) (s : WebClient.serverState) (verb path : string) (key : option string)
    (body : json) : result json * WebClient.serverState :=
  match WebClient.serve s verb path (truthyOpt key) body with
  | (Throw e, s) => (Throw e, s)
  | (Ok (st, data), s) =>
      (if respOk st then Ok data
       else Throw (Error (Some st) (match field data "error" with JNull => statusText st | e => Cctp.stringOf e end)), s)
  end.
(** A property of what an answer held: [null] has none. *)
Definition dotOf (j : json) (f : string) : result json :=
  match j with JNull => Throw (Error None ("Cannot read properties of null (reading '" +:+ f +:+ "')")) | _ => Ok (field j f) end.

(** ** The page

    [done] is what a finished move shows; [invalidated] are the queries told
    to refetch. *)
Section Page.
Context `{WebClient.Server} {D : Type}.
Record Page := mkPage {
  selected : option string; busy : bool; jobId : option string; zk : ZkState; error : option string; done : option D;
  invalidated : list string; backend : WebClient.serverState }.
Definition setSelected (c : option string) : M Page unit :=
  modifyM (fun p => mkPage c (busy p) (jobId p) (zk p) (error p) (done p) (invalidated p) (backend p)).
Definition setBusy (b : bool) : M Page unit :=
  modifyM (fun p => mkPage (selected p) b (jobId p) (zk p) (error p) (done p) (invalidated p) (backend p)).
Definition setJobId (j : option string) : M Page unit :=
  modifyM (fun p => mkPage (selected p) (busy p) j (zk p) (error p) (done p) (invalidated p) (backend p)).
Definition setZk (f : ZkState -> ZkState) : M Page unit :=
  modifyM (fun p => mkPage (selected p) (busy p) (jobId p) (f (zk p)) (error p) (done p) (invalidated p) (backend p)).
Definition setError (e : option string) : M Page unit :=
  modifyM (fun p => mkPage (selected p) (busy p) (jobId p) (zk p) e (done p) (invalidated p) (backend p)).
Definition setDone (d : option D) : M Page unit :=
  modifyM (fun p => mkPage (selected p) (busy p) (jobId p) (zk p) (error p) d (invalidated p) (backend p)).
Definition invalidate (q : string) : M Page unit :=
  modifyM (fun p => mkPage (selected p) (busy p) (jobId p) (zk p) (error p) (done p) (invalidated p ++ [q]) (backend p)).

Context (statusText : Z -> string).
Definition req (verb path : string) (body : json) : M Page json := fun p =>
  let '(r, s) := request statusText (backend p) verb path None body in
  (r, mkPage (selected p) (busy p) (jobId p) (zk p) (error p) (done p) (invalidated p) s).
Definition dot (j : json) (f : string) : M Page json := liftR (dotOf j f).

(** [try { ... } catch (e) { ... } finally { setBusy(false) }] of a move. *)
Definition guarded (m : M Page unit) : M Page unit :=
  catchM m (fun e => setError (Some (message e)) ;; setZk stopped) ;; setBusy false.
(** The job is asked for at most [n] times. *)
Fixpoint followJob (n : nat) (id failed : string) (ready : json -> M Page unit) : M Page unit :=
  match n with
  | O => mret tt
  | S n =>
      job ← req "GET" ("/v1/jobs/" +:+ id) JNull;
      status ← dot job "status";
      if status ==? JStr "ready" then ready job
      else if status ==? JStr "failed"
      then failM (match field job "error" with JNull => failed | e => Cctp.stringOf e end)
      else followJob n id failed ready
  end.
Definition POLLS : nat := 120.
(** [String(job.result?.f ?? d)]. *)
Definition resultText (job : json) (f d : string) : string :=
  match field (field job "result") f with JNull => d | j => Cctp.stringOf j end.
Definition finished (d : D) (tx n : string) : M Page unit :=
  setDone (Some d) ;; setZk (settled tx n) ;; invalidate "my-notes" ;; invalidate "activity".
End Page.
Arguments Page {_} _.

(** ** move/page.tsx

    The commitment, the mode and the notes are the ones of the rendering whose
    button was pressed. *)
Section Moves.
Context `{WebClient.Server} (statusText : Z -> string) (toFixed4 : Z -> string).
Definition commitmentOf {D} (p : Page D) (active : list NoteRow) : option string :=
  match selected p with Some c => Some c | None => commitment <$> head active end.
Definition started {D} (z : ZkState) : M (Page D) unit :=
  setBusy true ;; setError None ;; setJobId None ;; setDone None ;; setZk (fun _ => z).
Definition bodyOf (c : string) : json := JObj [("commitment", JStr c)].
(** A missing id leaves the state empty and reads [undefined] in the path. *)
Definition idOf (j : json) : option string := match j with JNull => None | _ => Some (Cctp.stringOf j) end.
Definition inPath (j : json) : string := orElse (idOf j) "undefined".

Definition withdraw (active : list NoteRow) (verifierWithdraw : option string) : M (Page string) unit :=
  p ← getM;
  match truthyOpt (commitmentOf p active) with
  | None => mret tt
  | Some c =>
      started (proof "withdraw_public" verifierWithdraw [("note", c)]) ;;
      guarded (
        res ← req statusText "POST" "/v1/withdrawals/assist" (bodyOf c);
        job_id ← dot res "job_id";
        setJobId (idOf job_id) ;;
        followJob statusText POLLS (inPath job_id) "withdraw failed" (fun job =>
          let tx := resultText job "txHash" "" in finished tx tx c))
  end.

Inductive Mode := Solver | Match.
Record ModeConfig := mkMode { endpoint : string; mode_circuit : string; price : Z; outField : string }.
Definition MODES (m : Mode) : ModeConfig :=
  match m with
  | Solver => mkMode "/v1/rfq/assist" "rfq_atomic_swap" 2 "quotedOutputXlm"
  | Match => mkMode "/v1/mpc/assist" "mpc_priced_settlement" 1 "outputXlm"
  end.
Record Done := mkDone { tx : string; xlm : string }.
(** The note of the preview: the selected one, else the first. *)
Definition noteOf (p : Page Done) (active : list NoteRow) : option NoteRow :=
  match List.find (fun n => commitmentOf p active ==? Some (commitment n)) active with Some n => Some n | None => head active end.
Definition outXlm (m : Mode) (p : Page Done) (active : list NoteRow) : Z :=
  match noteOf p active with Some n => amount_usdc_7dp n * price (MODES m) | None => 0 end.
Definition swap (m : Mode) (active : list NoteRow) (verifierWithdraw : option string) : M (Page Done) unit :=
  p ← getM;
  match truthyOpt (commitmentOf p active) with
  | None => mret tt
  | Some c =>
      let cfg := MODES m in
      let signals := [("note", c); ("output", "XLM")] ++ match m with Match => [("committee", "3-of-3 threshold")] | Solver => [] end in
      started (proof (mode_circuit cfg) verifierWithdraw signals) ;;
      guarded (
        res ← req statusText "POST" (endpoint cfg) (bodyOf c);
        job_id ← dot res "job_id";
        setJobId (idOf job_id) ;;
        followJob statusText POLLS (inPath job_id) "swap failed" (fun job =>
          let tx := resultText job "txHash" "" in
          finished (mkDone tx (resultText job (outField cfg) (toFixed4 (outXlm m p active)))) tx (resultText job "nullifierA" c)))
  end.
(** The mode changes while no move runs. *)
Definition pickMode (m : Mode) (mode : Mode) : M (Page Done) Mode :=
  p ← getM;
  if busy p then mret mode
  else setError None ;; setDone None ;; setJobId None ;; setZk (fun _ => idle (mode_circuit (MODES m))) ;; mret m.

(** ** How a move ends

    With what a ready job reported, with an error, or, after the last question,
    with the proof still shown as running and nothing said. *)
Definition sameView {D} (p p' : Page D) : Prop :=
  p' = mkPage (selected p) (busy p) (jobId p) (zk p) (error p) (done p) (invalidated p) (backend p').
Lemma req_view {D} verb path body (p : Page D) : sameView p (req statusText verb path body p).2.
Proof. unfold req. by destruct (request _ _ _ _ _ _) as [r s]. Qed.
Lemma sameView_trans {D} (p q r : Page D) : sameView p q -> sameView q r -> sameView p r.
Proof. unfold sameView. intros -> ->. reflexivity. Qed.
Definition shown {D} (d : json -> D) (t n : json -> string) (job : json) (q : Page D) : Page D :=
  mkPage (selected q) (busy q) (jobId q) (settled (t job) (n job) (zk q)) (error q) (Some (d job))
    (invalidated q ++ ["my-notes"; "activity"]) (backend q).
Lemma dot_run {D} j f (q : Page D) : (exists e, dot j f q = (Throw e, q)) \/ dot j f q = (Ok (field j f), q).
Proof. destruct j; first [by right|left; by eexists]. Qed.
Lemma followJob_run {D} (d : json -> D) (t n : json -> string) failed id k : forall (p : Page D),
  let run := followJob statusText k id failed (fun job => finished (d job) (t job) (n job)) p in
  exists q, sameView p q /\ ((exists e, run = (Throw e, q)) \/ run = (Ok tt, q) \/
    exists job, field job "status" = JStr "ready" /\ run = (Ok tt, shown d t n job q)).
Proof.
  induction k as [|k IH]; intros p; cbn [followJob]; [exists p; split; [by destruct p|right; by left]|].
  cbv zeta. rewrite bind_run. pose proof (req_view "GET" ("/v1/jobs/" +:+ id) JNull p) as Hq.
  destruct (req _ _ _ _ p) as [[job|e] q]; cbn [snd] in Hq; [|exists q; split; [done|left; by exists e]].
  rewrite bind_run. destruct (dot_run job "status" q) as [[e ->]| ->]; [exists q; split; [done|left; by exists e]|].
  destruct (bool_decide_reflect (field job "status" = JStr "ready")) as [Er|].
  - exists q. split; [done|]. right. right. exists job. split; [done|]. unfold shown. change ["my-notes"; "activity"] with (["my-notes"] ++ ["activity"]). by rewrite (assoc_L app).
  - destruct (field job "status" ==? JStr "failed"); [exists q; split; [done|left; by eexists]|].
    destruct (IH q) as (q' & Hq' & Hrun). exists q'. split; [by eapply sameView_trans|done].
Qed.
Definition ended {D} (d : json -> D) (p p' : Page D) : Prop :=
  busy p' = false /\ selected p' = selected p /\
  ((exists job, field job "status" = JStr "ready" /\ done p' = Some (d job) /\ error p' = None /\
      proving (zk p') = false /\ verifiedOnChain (zk p') = true) \/
   (exists msg, error p' = Some msg /\ done p' = None /\ proving (zk p') = false /\ verifiedOnChain (zk p') = false) \/
   (error p' = None /\ done p' = None /\ proving (zk p') = true)).
Lemma refused_ends {D} (d : json -> D) c v signals e (p0 p q : Page D) :
  selected p = selected p0 -> error p = None -> done p = None -> zk p = proof c v signals -> sameView p q ->
  ended d p0 (guarded (throwM e) q).2.
Proof.
  intros Hs He Hd Hz Hq. unfold sameView in Hq. rewrite Hq. unfold ended. cbn. rewrite Hd, Hz, Hs. (split; [done|split; [done|]]).
  right; left; by eexists.
Qed.
Lemma guarded_ends {D} (d : json -> D) (t n : json -> string) path body failed c v signals (p0 p : Page D) :
  selected p = selected p0 -> error p = None -> done p = None -> zk p = proof c v signals ->
  ended d p0 (guarded (res ← req statusText "POST" path body; job_id ← dot res "job_id"; setJobId (idOf job_id) ;;
    followJob statusText POLLS (inPath job_id) failed (fun job => finished (d job) (t job) (n job))) p).2.
Proof.
  intros Hs He Hd Hz. unfold guarded. rewrite bind_run. unfold catchM. rewrite bind_run.
  pose proof (req_view "POST" path body p) as Hq. destruct (req _ _ _ _ p) as [[res|e] q]; cbn [snd] in Hq; [|by apply (refused_ends d c v signals _ p0 p)].
  rewrite bind_run. destruct (dot_run res "job_id" q) as [[e ->]| ->]; [by apply (refused_ends d c v signals _ p0 p)|].
  rewrite bind_run. unfold setJobId at 1, modifyM. set (j := field res "job_id").
  destruct (followJob_run d t n failed (inPath j) POLLS
    (mkPage (selected q) (busy q) (idOf j) (zk q) (error q) (done q) (invalidated q) (backend q))) as (q' & Hq' & Hrun).
  rewrite Hq in Hq', Hrun. cbn in Hq', Hrun. unfold sameView in Hq'. cbn in Hq'.
  rewrite Hq. cbn. destruct Hrun as [[e ->]|[-> |(job & Hj & ->)]]; rewrite Hq'; unfold ended; cbn; rewrite ?He, ?Hd, ?Hz, ?Hs;
    (split; [done|split; [done|]]); [right; left; by eexists|right; by right|left; by exists job].
Qed.
Lemma withdraw_ends active v p : truthyOpt (commitmentOf p active) ≠ None ->
  ended (fun job => resultText job "txHash" "") p (withdraw active v p).2.
Proof.
  intros Hc. unfold withdraw. rewrite bind_getM. destruct (truthyOpt _) as [c|]; [|done].
  by apply (guarded_ends _ (fun job => resultText job "txHash" "") (fun _ => c) _ _ _ "withdraw_public" v [("note", c)]).
Qed.
Lemma swap_ends m active v p : truthyOpt (commitmentOf p active) ≠ None ->
  ended (fun job => mkDone (resultText job "txHash" "") (resultText job (outField (MODES m)) (toFixed4 (outXlm m p active)))) p (swap m active v p).2.
Proof.
  intros Hc. unfold swap. rewrite bind_getM. destruct (truthyOpt _) as [c|]; [|done]. cbv zeta.
  eapply (guarded_ends _ (fun job => resultText job "txHash" "") (fun job => resultText job "nullifierA" c)); done.
Qed.
(** The note that was selected stays selected, also when it has been spent. *)
Lemma spent_stays_selected active v p c later : selected p = Some c -> commitmentOf (withdraw active v p).2 later = Some c.
Proof.
  intros Hc. destruct (truthyOpt (commitmentOf p active)) eqn:E.
  - destruct (withdraw_ends active v p) as (_ & Hs & _); [by rewrite E|]. unfold commitmentOf. by rewrite Hs, Hc.
  - unfold withdraw. rewrite bind_getM, E. unfold commitmentOf. cbn. by rewrite Hc.
Qed.
End Moves.

(** ** Against the API

    Fastify takes a request to a route only if the path has the route's shape:
    the same number of segments, each equal or named.  No registered route has
    the shape of a move's path: every move, in either mode, is answered with
    404, changes nothing on the server and ends with that error. *)
Fixpoint segmentsMatch (route path : list string) : bool :=
  match route, path with
  | [], [] => true
  | r :: route, p :: path => (startsWith r ":" || (r ==? p)) && segmentsMatch route path
  | _, _ => false
  end.
Definition matchesRoute (name verb path : string) : bool :=
  match splitOn " "%char name with
  | [v; shape] => (v ==? verb) && segmentsMatch (splitOn "/"%char shape) (splitOn "/"%char path)
  | _ => false
  end.
Class FastifyShape `{ApiVault.Fastify} : Prop := {
  found_matches verb path name ps : ApiVault.findRoute verb path = Some (name, ps) -> matchesRoute name verb path = true }.

Section OnApi.
Context `{Env} `{Uuid} {zod : Schemas.Zod} `{Privy.WebKeys} `{Fetch} `{Sha256}.
Context `{Random} `{ApiAuth.Wallets} `{Ids.LocaleCompare} `{Cctp.StrKey} `{NoteCrypto.Poseidon} `{StellarActions.SorobanRpc} `{Keypair} `{Nacl} `{KeyGen}.
Context `{FastifyShape} (token : string) (statusText : Z -> string) (toFixed4 : Z -> string).
#[local] Instance onApi : WebClient.Server := ApiVault.apiServer token.
Definition unrouted (verb path : string) : bool := forallb (fun n => negb (matchesRoute n verb path)) (Api.routes.*1).
Lemma unrouted_answer verb path key b w : unrouted verb path = true -> ApiVault.answer token w verb path key b = (ApiVault.notFound verb path, w).
Proof.
  intros Hu. unfold ApiVault.answer. destruct (ApiVault.findRoute verb path) as [[name ps]|] eqn:E; [|done].
  destruct (JsMap.get Api.routes name) as [h|] eqn:Eh; [|done]. apply found_matches in E. apply JsMap.get_elem in Eh.
  unfold unrouted in Hu. rewrite forallb_forall in Hu. specialize (Hu name). rewrite E in Hu. discriminate Hu.
  apply list_elem_of_In. apply list_elem_of_fmap. by exists (name, h).
Qed.
Lemma moves_unrouted path : path ∈ ["/v1/withdrawals/assist"; endpoint (MODES Solver); endpoint (MODES Match); "/v1/notes/coin"] ->
  unrouted "POST" path = true.
Proof.
  intros Hp. repeat (apply elem_of_cons in Hp as [-> |Hp]); [vm_compute; reflexivity..|by apply elem_of_nil in Hp].
Qed.
Definition refused {D} (p p' : Page D) : Prop :=
  error p' = Some "Not Found" /\ done p' = None /\ jobId p' = None /\ busy p' = false /\ proving (zk p') = false /\ backend p' = backend p.
Lemma move_refused {D} (k : json -> M (Page D) unit) path body z (p : Page D) : unrouted "POST" path = true ->
  refused p ((started z ;; guarded (res ← req statusText "POST" path body; k res)) p).2.
Proof.
  intros Hu. unfold guarded, started, req, request, catchM, mbind, M_bind. cbn -[ApiVault.answer]. rewrite (unrouted_answer _ _ _ body (backend p) Hu).
  done.
Qed.
Lemma withdraw_refused active v p : truthyOpt (commitmentOf p active) ≠ None -> refused p (withdraw statusText active v p).2.
Proof.
  intros Hc. unfold withdraw. rewrite bind_getM. destruct (truthyOpt _) as [c|]; [|done]. by apply move_refused, moves_unrouted; left.
Qed.
Lemma swap_refused m active v p : truthyOpt (commitmentOf p active) ≠ None -> refused p (swap statusText toFixed4 m active v p).2.
Proof.
  intros Hc. unfold swap. rewrite bind_getM. destruct (truthyOpt _) as [c|]; [|done]. cbv zeta.
  apply move_refused, moves_unrouted. destruct m; [right; left|right; right; left].
Qed.
End OnApi.
End Moves.
