(* ===== verification/DepositFlow.v ===== *)
(** * A deposit, from the API to the relayer (apps/api, packages/queue, apps/relayer)

    The API prepares a deposit and, when its burn is reported, queues a job for
    the relayer; requests and the operations of the workers on the queue come
    in any order.  Theorem: every such job is about one deposit and carries its
    terms, and the relayer accepts exactly the burns that meet them, sends
    nothing, and goes no further than the validation. *)
From S2P Require Import Prelude JsText JsCollections Json Crypto Ids JobQueue Database WellTyped Records Runtime Host StellarUtils Proving Evm NoteVault Store Privy Schemas ApiAuth Cctp CctpInbound NoteCrypto StellarActions RoutesAccount RoutesVault ApiTypes Api Leaves Worker Relayer.
From Stdlib Require Import Ascii.
Import JsText Json Crypto Database WellTyped Records Runtime Privy ApiAuth ApiTypes.

Module DepositFlow.

(** ** What a job is about

    The columns of a job that no operation on the queue writes again. *)
Record Ticket := mkTicket {
  t_id : string; t_type : string; t_queue : JobQueue.QueueName; t_key : option string; t_payload : json }.
Definition ticketOf (j : JobQueue.ServiceJob) : Ticket :=
  mkTicket (JobQueue.job_id j) (JobQueue.job_type j) (JobQueue.queue j) (JobQueue.idempotency_key j) (JobQueue.payload j).
Definition tickets (q : JobQueue.DB) : list Ticket := ticketOf <$> JobQueue.jobs q.
Definition keysOf (ts : list Ticket) : list string := omap t_key ts.
(** What the workers, and the passing of time, do to the queue. *)
Inductive workerOp : forall {A}, M JobQueue.DB A -> Prop :=
| op_claim q ts : workerOp (JobQueue.claimNext q ts)
| op_status id st d : workerOp (JobQueue.setStatus id st d)
| op_complete id r st : workerOp (JobQueue.complete id r st)
| op_fail id e b : workerOp (JobQueue.fail id e b)
| op_wait k : workerOp (modifyM (fun q => JobQueue.mkDB (JobQueue.jobs q) (JobQueue.events q) (JobQueue.now q + k))).
Lemma tickets_update ts id f : (forall j, ticketOf (f j) = ticketOf j) -> preserves (fun q => tickets q = ts) (JobQueue.updateJob id f).
Proof.
  intros Hf. apply preserves_modify. intros q <-. unfold tickets. cbn [JobQueue.jobs JobQueue.withJobs]. by apply updateWhere_column.
Qed.
Lemma tickets_event ts id st d : preserves (fun q => tickets q = ts) (JobQueue.event id st d).
Proof. intros q Hq. unfold JobQueue.event. by destruct (existsb _ _). Qed.
Lemma tickets_op {A} (m : M JobQueue.DB A) ts : workerOp m -> preserves (fun q => tickets q = ts) m.
Proof.
  destruct 1; try (apply preserves_modify; by intros);
    try (unfold JobQueue.setStatus, JobQueue.complete, JobQueue.fail; apply preserves_bind; [apply preserves_get|intros d0]; try apply preserves_if;
         (apply preserves_bind; [by apply tickets_update|intros ?; apply tickets_event])).
  intros q' <-. unfold JobQueue.claimNext. destruct (JobQueue.oldest _); [|done]. unfold tickets. by apply updateWhere_column.
Qed.
(** A new job comes last, and its key is new. *)
Lemma tickets_enqueue uuid q jt pl key d :
  tickets (JobQueue.enqueue uuid q jt pl key d).2 = tickets d \/
  tickets (JobQueue.enqueue uuid q jt pl key d).2 = tickets d ++ [mkTicket uuid jt q key pl] /\
  forall k, key = Some k -> k ∉ keysOf (tickets d).
Proof.
  unfold JobQueue.enqueue. rewrite bind_run.
  match goal with |- context [tickets (match ?x with _ => _ end).2] => destruct x as [[[row|]|e] d1] eqn:E end.
  all: assert (d1 = d) as -> by (destruct (truthyOpt key); by injection E). 1: by left. 2: by left.
  clear E. rewrite bind_run. unfold JobQueue.insertJob.
  destruct (existsb (JobQueue.hasId uuid) _ || _) eqn:Ec; [by left|]. apply orb_false_iff in Ec as [_ Ek]. right.
  rewrite bind_run. unfold JobQueue.event. cbn [JobQueue.job_id JobQueue.jobs JobQueue.withJobs].
  cbn [JobQueue.jobs JobQueue.withJobs]. match goal with |- context [existsb _ (_ ++ [?r])] => set (row := r) end.
  assert (existsb (JobQueue.hasId uuid) (JobQueue.jobs d ++ [row]) = true) as ->.
  { rewrite existsb_app. simpl. rewrite (proj2 (JobQueue.hasId_true uuid row)) by done. by rewrite orb_true_r. }
  split; [unfold tickets; cbn; by rewrite fmap_app|]. intros k -> Hk. unfold keysOf, tickets in Hk.
  apply list_elem_of_omap in Hk as (t & Ht & Hkey). apply list_elem_of_fmap in Ht as (j & -> & Hj).
  apply not_true_iff_false in Ek as []. apply existsb_exists. exists j. split; [by apply list_elem_of_In|].
  by apply JobQueue.hasKey_true.
Qed.

(** ** Every burn job is about a deposit *)
Definition burnTicket (t : Ticket) : Prop := t_queue t = JobQueue.relayer /\ t_type t = userBurn.
Definition burnKey (dep : Row) : string := "user-burn:" +:+ textOf (get dep "deposit_id").
(** The reported transaction and wallet. *)
Definition report (hash wallet : string) : json := JObj [("burn_tx_hash", JStr hash); ("source_wallet_address", JStr wallet)].
Record aboutDeposit (d : DB) (t : Ticket) (dep : Row) (hash wallet : string) : Prop := {
  ab_row : dep ∈ table d "cctp_deposits";
  ab_key : t_key t = Some (burnKey dep);
  ab_payload : t_payload t = RoutesVault.burnJobPayload (textOf (get dep "deposit_id")) (report hash wallet) dep;
  ab_wallet : toLowerCase (RoutesVault.columnText (get dep "source_wallet_address")) = toLowerCase wallet;
  ab_fee : get dep "max_fee" = JNull }.
Definition burnsTold (d : DB) : Prop :=
  NoDup (keysOf (tickets (queueDB d))) /\
  forall t, t ∈ tickets (queueDB d) -> burnTicket t -> exists dep hash wallet, aboutDeposit d t dep hash wallet.

(** A deposit's row in a later state still has what the job is about. *)
Definition follows (dep : Row) (d : DB) : Prop := exists dep', dep' ∈ table d "cctp_deposits" /\ sameBut (rewritten "cctp_deposits") dep dep'.
Lemma follows_kept dep d d' : kept d d' -> follows dep d -> follows dep d'.
Proof.
  intros Hk (r & Hr & Hs). destruct (kept_row d d' "cctp_deposits" r Hk ltac:(vm_compute; set_solver) Hr) as (r' & Hr' & Hs').
  exists r'. split; [done|]. by etrans.
Qed.
Lemma same_column dep dep' c : sameBut (rewritten "cctp_deposits") dep dep' -> bool_decide (c ∉ rewritten "cctp_deposits") = true -> get dep' c = get dep c.
Proof. intros Hs Hc%bool_decide_eq_true. by apply Hs. Qed.
Lemma about_follows d d' t dep hash wallet : follows dep d' -> aboutDeposit d t dep hash wallet -> exists dep', aboutDeposit d' t dep' hash wallet.
Proof.
  intros (dep' & Hr & Hs) [_ H1' H2' H3' H4']. assert (forall c, bool_decide (c ∉ rewritten "cctp_deposits") = true -> get dep' c = get dep c) as Hg
    by (intros c; by apply same_column).
  exists dep'. split; [done|..]; unfold burnKey, RoutesVault.burnJobPayload in *; rewrite !Hg by reflexivity; done.
Qed.
Lemma told_kept d d' : kept d d' -> tickets (queueDB d') = tickets (queueDB d) -> burnsTold d -> burnsTold d'.
Proof.
  intros Hk Hq [Hn Hj]. split; [by rewrite Hq|]. rewrite Hq. intros t Ht Hb. destruct (Hj t Ht Hb) as (dep & hash & wallet & Ha).
  destruct (about_follows d d' t dep hash wallet) as [dep' Ha']; [|done|by exists dep', hash, wallet].
  eapply follows_kept; [done|]. exists dep. split; [apply Ha|done].
Qed.
(** A new job keeps the invariant if it is another kind of job, or about a
    deposit. *)
Lemma told_enqueue uuid q jt pl key d :
  (forall t, t = mkTicket uuid jt q key pl -> burnTicket t -> exists dep hash wallet, aboutDeposit d t dep hash wallet) ->
  burnsTold d -> burnsTold (onQueue (JobQueue.enqueue uuid q jt pl key) d).2.
Proof.
  intros Hnew [Hn Hj]. pose proof (tickets_enqueue uuid q jt pl key (queueDB d)) as Hq. unfold onQueue.
  destruct (JobQueue.enqueue uuid q jt pl key (queueDB d)) as [r q']. cbn [snd queueDB] in *.
  assert (forall t dep hash wallet, aboutDeposit d t dep hash wallet -> aboutDeposit (mkDB (tables d) q' (ticks d)) t dep hash wallet) as Hsame
    by (intros t dep hash wallet [? ? ? ? ?]; by split).
  destruct Hq as [Hq|[Hq Hk]]; (split; cbn [queueDB]; rewrite Hq).
  - done.
  - intros t Ht Hb. destruct (Hj t Ht Hb) as (dep & hash & wallet & Ha). exists dep, hash, wallet. by apply Hsame.
  - unfold keysOf. rewrite omap_app. apply NoDup_app. split; [done|]. split.
    + intros k Hin Hx. destruct key as [k'|]; cbn in Hx; [|by apply elem_of_nil in Hx]. apply list_elem_of_singleton in Hx as ->.
      by apply (Hk k').
    + destruct key; cbn; [apply NoDup_singleton|apply NoDup_nil_2].
  - intros t [Ht|Ht%list_elem_of_singleton]%elem_of_app Hb.
    + destruct (Hj t Ht Hb) as (dep & hash & wallet & Ha). exists dep, hash, wallet. by apply Hsame.
    + destruct (Hnew t Ht Hb) as (dep & hash & wallet & Ha). exists dep, hash, wallet. by apply Hsame.
Qed.
#[export] Instance told_invariant `{Uuid} : DbInvariant burnsTold.
Proof.
  apply monotone_invariant; [intros d d' Hk Hq; by apply told_kept; [|rewrite Hq]|].
  intros uuid q jt pl key Ho d Hd. apply told_enqueue; [|done]. intros t -> [Hb1 Hb2]. cbn in Hb1, Hb2. subst. by vm_compute in Ho.
Qed.
#[export] Instance follows_invariant `{Uuid} dep : DbInvariant (follows dep).
Proof.
  apply monotone_invariant; [intros d d' Hk _; by apply follows_kept|].
  intros uuid q jt pl key _ d Hd. unfold onQueue. by destruct (JobQueue.enqueue uuid q jt pl key (queueDB d)).
Qed.

(** ** Every request keeps it *)
Definition sound (d : DB) : Prop := wellTyped d /\ burnsTold d.
Section History.
Context `{Env} `{Uuid} {zod : Schemas.Zod} {texts : @Schemas.ZodTexts zod} `{WebKeys} `{Fetch} `{Sha256} `{Random} `{Wallets} `{Ids.LocaleCompare}
  `{Cctp.StrKey} `{NoteCrypto.Poseidon} `{StellarActions.SorobanRpc} `{Keypair} `{Nacl} `{KeyGen}.
#[export] Instance sound_invariant : DbInvariant sound.
Proof. apply and_invariant; apply _. Qed.

(** The columns of a deposit are those of its table. *)
Lemma no_max_fee d dep : wellTyped d -> dep ∈ table d "cctp_deposits" -> get dep "max_fee" = JNull.
Proof.
  intros Ht Hd. destruct (Ht "cctp_deposits" _ eq_refl) as [Hrows _]. rewrite Forall_forall in Hrows. specialize (Hrows dep Hd).
  assert (forall cs r, rowOk cs r = true -> "max_fee" ∉ map col cs -> get r "max_fee" = JNull) as Hgen.
  { induction cs as [|c cs IH]; intros [|[k v] r]; try done. cbn [rowOk]. rewrite !andb_true_iff, bool_decide_eq_true.
    intros [[-> _] Hr] Hc. cbn [map] in Hc. apply not_elem_of_cons in Hc as [Hc1 Hc2]. unfold get. cbn [JsMap.get].
    rewrite bool_decide_false by done. by apply IH. }
  eapply Hgen; [exact Hrows|]. apply (bool_decide_unpack _). vm_compute. exact Logic.I.
Qed.
(** The job of a burn report is about the deposit that was looked up. *)
Lemma sound_report dep b hash wallet :
  field b "burn_tx_hash" = JStr hash -> field b "source_wallet_address" = JStr wallet ->
  toLowerCase (RoutesVault.columnText (get dep "source_wallet_address")) = toLowerCase wallet ->
  get dep "max_fee" = JNull ->
  preserves (held (fun d => sound d /\ follows dep d))
    (enqueueJob JobQueue.relayer userBurn (RoutesVault.burnJobPayload (textOf (get dep "deposit_id")) b dep) (Some (burnKey dep))).
Proof.
  intros Hh Hw Hl Hf. unfold enqueueJob. apply preserves_bind; [apply held_onStore, types_randomUUID|intros u].
  apply held_onStore. intros d ((Ht & Hb) & Hfol). pose proof Hfol as (dep' & Hr & Hs).
  assert (forall c, bool_decide (c ∉ rewritten "cctp_deposits") = true -> get dep' c = get dep c) as Hg by (intros c; by apply same_column).
  split; [split|].
  - unfold onQueue. by destruct (JobQueue.enqueue _ _ _ _ _ (queueDB d)).
  - apply told_enqueue; [|done]. intros t -> _. exists dep', hash, wallet.
    split; cbn [t_key t_payload]; unfold burnKey, RoutesVault.burnJobPayload; rewrite ?Hg by reflexivity; rewrite ?Hh, ?Hw; done.
  - unfold onQueue. by destruct (JobQueue.enqueue _ _ _ _ _ (queueDB d)).
Qed.
Lemma sound_burn_submitted r : preserves (held sound) (RoutesVault.post_burn_submitted r).
Proof.
  unfold RoutesVault.post_burn_submitted. apply preserves_bind; [apply held_requirePrivyUser|intros auth]. intros w Hw. rewrite bind_run.
  unfold parseM, liftR. destruct (Schemas.parse Schemas.burnSubmittedSchema (body r)) as [b|] eqn:Eb; [|done].
  rewrite bind_run. unfold onStore, Store.getDepositForUser.
  destruct (selectFirst schemaOf "cctp_deposits" _ (adb w)) as [o d] eqn:Es.
  assert (exists dep, o = Ok dep) as [dep ->] by (unfold selectFirst in Es; cbn in Es; injection Es as <- _; by eexists).
  apply selectFirst_Ok in Es as [-> ->]. destruct (head _) as [dep|] eqn:Eh; [|by destruct w].
  apply head_selectWhere in Eh as [Hd Hp]. unfold Store.andB in Hp. apply andb_true_iff in Hp as [Hid%eqText_true _].
  unfold Schemas.parse in Eb. destruct (Schemas.zodParse _ _) as [b'|] eqn:Ez; [|done]. injection Eb as ->.
  edestruct (Schemas.zod_texts _ _ _ "burn_tx_hash" _ Ez ltac:(left)) as (hash & Hh & _).
  edestruct (Schemas.zod_texts _ _ _ "source_wallet_address" _ Ez ltac:(right; right; left)) as (wallet & Hwl & _).
  case_match eqn:El; [by destruct w|]. apply negb_false_iff, bool_decide_eq_true in El.
  set (J := fun d => sound d /\ follows dep d).
  assert (held J (mkApi (adb w) (acache w))) as HJ by (split; [exact Hw|exists dep; by split]).
  match goal with |- held sound (?m ?s).2 => assert (preserves (held J) m) as Hm; [|exact (proj1 (Hm s HJ))] end.
  apply preserves_bind; [apply (held_onStore J), types_setDepositBurnTx|intros _]. apply preserves_bind.
  - replace (RoutesVault.depositId r) with (textOf (get dep "deposit_id")) by (by rewrite Hid).
    apply (sound_report dep b hash wallet); [done..| |by eapply no_max_fee; [apply Hw|]]. rewrite El. unfold strField. by rewrite Hwl.
  - intros job. apply preserves_bind; [apply (held_onStore J), types_logActivity|intros _; apply preserves_ret].
Qed.

(** Requests, and what the workers do to the queue, in any order. *)
Inductive lives : Api -> Api -> Prop :=
| lives_none w : lives w w
| lives_request w n h r w' : (n, h) ∈ Api.routes -> lives (handle (h r) w).2 w' -> lives w w'
| lives_worker {A} (m : M JobQueue.DB A) w w' : workerOp m -> lives (onStore (onQueue m) w).2 w' -> lives w w'.
Lemma sound_worker {A} (m : M JobQueue.DB A) : workerOp m -> preserves sound (onQueue m).
Proof.
  intros Hop d [Ht Hb]. unfold onQueue. pose proof (tickets_op m (tickets (queueDB d)) Hop (queueDB d) eq_refl) as Hq.
  destruct (m (queueDB d)) as [r q]. cbn [snd] in *. split; [exact Ht|]. apply (told_kept d); [by intros t _; apply continues_refl|exact Hq|done].
Qed.
Lemma sound_empty now : sound (emptyDB now).
Proof. split; [apply wellTyped_empty|]. split; [apply NoDup_nil_2|]. by intros t ?%elem_of_nil. Qed.
Lemma lives_keeps (I : DB -> Prop) {inv : DbInvariant I} w w' : (forall r, preserves (held I) (RoutesVault.post_burn_submitted r)) ->
  (forall A (m : M JobQueue.DB A), workerOp m -> preserves I (onQueue m)) -> lives w w' -> I (adb w) -> I (adb w').
Proof.
  intros Hb Hw. induction 1 as [w|w n h r w' Hin _ IH|A m w w' Hop _ IH]; [done|..]; intros Hi; apply IH.
  - pose proof (Api.routes_keep Hb n h r Hin w Hi) as Hk. unfold handle. by destruct (h r w) as [[]].
  - by apply (held_onStore I); [by apply Hw|].
Qed.
Lemma lives_sound w w' : lives w w' -> sound (adb w) -> sound (adb w').
Proof. apply (lives_keeps sound); [apply sound_burn_submitted|intros A m; apply sound_worker]. Qed.
End History.

(** ** The relayer on such a job *)
Definition validatedReply (hash : string) (v : CctpInbound.BurnValidation) : json :=
  JObj [("validated", JBool true); ("burnTxHash", JStr hash); ("sender", JStr (CctpInbound.v_sender v));
        ("amount6", JStr (toString (CctpInbound.v_amount6 v))); ("state", JStr "burn_validated");
        ("note", JStr "supply coin witness via prover path to complete mint/forward/register")].
(** What the relayer compares a burn with: the deposit's amount, the wallet and
    the transaction that were reported, its own pool; no fee bound. *)
Definition termsOf (dep : Row) (hash wallet pool : string) : result CctpInbound.BurnArgs :=
  amount6 ← BigInt (Cctp.stringOf (get dep "amount_usdc_6dp"));
  mret (CctpInbound.mkBurnArgs hash wallet amount6 pool None (Some (Some Cctp.FINALITY_THRESHOLD_CONFIRMED))).
Section Relaying.
Context `{Host.Os} `{Random} `{Sha256} `{Cctp.StrKey} `{Fetch} `{Evm.Evm} `{StellarActions.SorobanRpc} `{Nacl} `{Leaves.Tables} (processEnv : Host.EnvMap).
(** The relayer holds the job and has its environment. *)
Record holding (job : JobQueue.ServiceJob) (e : Host.EnvMap) (pool secret : string) (w : Worker.Worker) : Prop := {
  hd_env : (Relayer.loadEnv processEnv (Evm.host (Worker.net w))).1 = Ok e;
  hd_pool : truthyOpt (JsMap.get e "SHIELDED_POOL_CONTRACT") = Some pool;
  hd_secret : truthyOpt (JsMap.get e "STELLAR_RELAYER_SECRET") = Some secret;
  hd_row : existsb (JobQueue.hasId (JobQueue.job_id job)) (JobQueue.jobs (Worker.db w)) = true }.
Lemma setStatus_held id st d w : existsb (JobQueue.hasId id) (JobQueue.jobs (Worker.db w)) = true ->
  exists q, Worker.setStatus id st d w = (Ok tt, Worker.mkWorker q (Worker.net w)) /\ existsb (JobQueue.hasId id) (JobQueue.jobs q) = true.
Proof.
  intros Hid. unfold Worker.setStatus, Worker.onQueue, JobQueue.setStatus. rewrite bind_getM, bind_run.
  unfold JobQueue.updateJob, modifyM, JobQueue.event. cbn [JobQueue.jobs JobQueue.withJobs].
  assert (existsb (JobQueue.hasId id) (updateWhere (JobQueue.hasId id) (JobQueue.statusRow st (JobQueue.now (Worker.db w))) (JobQueue.jobs (Worker.db w))) = true) as Hid'.
  { apply JobQueue.existsb_hasId. rewrite updateWhere_column by done. by apply JobQueue.existsb_hasId. }
  rewrite Hid'. by eexists.
Qed.
Lemma loadEnv_state h : (Relayer.loadEnv processEnv h).2 = h.
Proof. reflexivity. Qed.
(** The members of the payload that the relayer reads. *)
Record burnPayload (dep : Row) (hash wallet : string) (p : json) : Prop := {
  bp_hash : field p "burn_tx_hash" = JStr hash;
  bp_wallet : field p "source_wallet_address" = JStr wallet;
  bp_amount : field p "expected_amount6" = get dep "amount_usdc_6dp";
  bp_fee : field p "expected_max_fee6" = JNull;
  bp_finality : field p "expected_finality" = JNum Cctp.FINALITY_THRESHOLD_CONFIRMED;
  bp_coin : field p "coinPath" = JNull;
  bp_pool : field p "pool" = JNull }.
Lemma payload_members dep hash wallet id : get dep "max_fee" = JNull ->
  burnPayload dep hash wallet (RoutesVault.burnJobPayload id (report hash wallet) dep).
Proof. intros Hf. split; unfold RoutesVault.burnJobPayload; rewrite Hf; reflexivity. Qed.
Lemma burnArgs_terms dep hash wallet p pool : burnPayload dep hash wallet p -> Relayer.burnArgsOf p pool = termsOf dep hash wallet pool.
Proof.
  intros [Hh Hw Ha Hfee Hfin _ _]. unfold Relayer.burnArgsOf, termsOf, Relayer.str. rewrite Hh, Hw, Ha, Hfee, Hfin.
  by destruct (BigInt (Cctp.stringOf (get dep "amount_usdc_6dp"))).
Qed.
(** The job is answered exactly for a burn that meets the terms, with what the
    chain shows of it; nothing is sent to any chain either way. *)
Definition answers (dep : Row) (hash wallet pool : string) (w : Worker.Worker) (e : Host.EnvMap) (out : result json * Worker.Worker) : Prop :=
  Evm.sent (Worker.net out.2) = Evm.sent (Worker.net w) /\
  forall res, out.1 = Ok res <-> exists a v, termsOf dep hash wallet pool = Ok a /\ CctpInbound.burned e a (Worker.net w) v /\
    res = validatedReply hash v.
Lemma afterUserBurn_answers dep hash wallet p e id pool w : burnPayload dep hash wallet p ->
  existsb (JobQueue.hasId id) (JobQueue.jobs (Worker.db w)) = true ->
  answers dep hash wallet pool w e (Relayer.afterUserBurn processEnv e id p pool w).
Proof.
  intros Hp Hid. unfold Relayer.afterUserBurn. rewrite bind_run.
  destruct (setStatus_held id "validating_burn" "verify user burn tx" w Hid) as (q & -> & Hq).
  rewrite bind_run, (burnArgs_terms dep hash wallet p pool Hp). unfold liftR.
  destruct (termsOf dep hash wallet pool) as [a|er] eqn:Ea; [|split; [done|naive_solver congruence]].
  rewrite bind_run. unfold Worker.onNet. destruct (CctpInbound.validate_run e a (Worker.net w) (CctpInbound.mkValidation "" "" 0 0 "" "" "" 0 0 "")) as [Hs _].
  assert (forall v, (CctpInbound.validateInboundBurnTx e a (Worker.net w)).1 = Ok v <-> CctpInbound.burned e a (Worker.net w) v) as Hiff
    by (intros v; apply CctpInbound.validate_run).
  cbn [Worker.net]. destruct (CctpInbound.validateInboundBurnTx e a (Worker.net w)) as [[v|er] n]; cbn [fst snd] in Hs, Hiff.
  - rewrite bind_run.
    match goal with |- context [Worker.setStatus id ?st ?d ?w1] => destruct (setStatus_held id st d w1 Hq) as (q1 & -> & Hq1) end.
    rewrite (bp_coin _ _ _ _ Hp). cbn [negb truthyJson]. rewrite bind_run.
    match goal with |- context [Worker.setStatus id ?st ?d ?w1] => destruct (setStatus_held id st d w1 Hq1) as (q2 & -> & _) end.
    unfold Relayer.str. rewrite (bp_hash _ _ _ _ Hp). split; [exact Hs|]. intros res. split.
    + intros [= <-]. exists a, v. split; [done|]. split; [by apply Hiff|done].
    + intros (a' & v' & Ha' & Hb & ->). rewrite Ea in Ha'. injection Ha' as <-. apply Hiff in Hb. injection Hb as <-. done.
  - split; [exact Hs|]. intros res. split; [done|]. intros (a' & v' & Ha' & Hb & _). rewrite Ea in Ha'. injection Ha' as <-. by apply Hiff in Hb.
Qed.
Lemma relayer_answers d job dep hash wallet e pool secret w :
  aboutDeposit d (ticketOf job) dep hash wallet -> JobQueue.job_type job = userBurn -> holding job e pool secret w ->
  answers dep hash wallet pool w e (Relayer.processRelayerJob processEnv job w).
Proof.
  intros [_ _ Hp _ Hf] Ht [He Hpool Hsec Hrow]. unfold Relayer.processRelayerJob. rewrite bind_run.
  unfold Worker.onHost, Worker.onNet, Evm.onHost. pose proof (loadEnv_state (Evm.host (Worker.net w))) as Hst.
  destruct (Relayer.loadEnv processEnv (Evm.host (Worker.net w))) as [r h]. cbn [fst snd] in He, Hst. subst r h.
  cbn [ticketOf t_payload] in Hp. assert (burnPayload dep hash wallet (JobQueue.payload job)) as Hb by (rewrite Hp; by apply payload_members).
  cbv zeta. rewrite (bp_pool _ _ _ _ Hb), Ht, Hpool, Hsec. pose proof (afterUserBurn_answers dep hash wallet _ e (JobQueue.job_id job) pool w Hb Hrow) as Ha.
  destruct w as [q [hh ss]]. exact Ha.
Qed.
End Relaying.

(** ** The burn the API asks for is the burn the relayer accepts *)
Definition askedBurn (reply : json) : option Evm.Burn :=
  match field (field reply "burn_tx_request") "args" with
  | JArr [JStr amount; JNum domain; JStr recipient; JStr token; JStr caller; JStr fee; JNum finality; JStr hook] =>
      match BigInt amount, BigInt fee with
      | Ok a, Ok f => Some (Evm.mkBurn a domain recipient token caller f finality hook)
      | _, _ => None
      end
  | _ => None
  end.
Lemma asked_burn_meets e id usdc messenger apiPool recipient hook amount6 hash wallet pool tx :
  orElse (CctpInbound.lookup e "ARB_SEPOLIA_CCTP_TOKEN_MESSENGER") Cctp.arbitrumSepoliaTokenMessenger = messenger ->
  orElse (CctpInbound.lookup e "ARB_SEPOLIA_USDC_ADDRESS") Cctp.arbitrumSepoliaUsdc = usdc ->
  toLowerCase (Evm.tx_from tx) = toLowerCase wallet -> Evm.tx_to tx = Some messenger ->
  exists bd, askedBurn (RoutesVault.deposit_prepare_reply id usdc messenger apiPool recipient recipient hook amount6) = Some bd /\
    CctpInbound.burnMeets e (CctpInbound.mkBurnArgs hash wallet amount6 pool None (Some (Some Cctp.FINALITY_THRESHOLD_CONFIRMED)))
      recipient hook tx bd.
Proof.
  intros Hm Hu Hf Ht. eexists. split.
  - unfold askedBurn. change (field _ "args") with
      (JArr [JStr (toString amount6); JNum Cctp.stellarDomain; JStr recipient; JStr usdc; JStr recipient;
             JStr (toString (RoutesVault.maxFeeOf amount6)); JNum Cctp.FINALITY_THRESHOLD_CONFIRMED; JStr hook]).
    cbv iota beta. rewrite !BigInt_toString. reflexivity.
  - split; cbn; by rewrite ?Hm, ?Hu, ?Hf, ?Ht.
Qed.

(** ** The whole flow *)
Lemma key_unique q j j' k : NoDup (keysOf (tickets q)) -> j ∈ JobQueue.jobs q -> j' ∈ JobQueue.jobs q ->
  JobQueue.idempotency_key j = Some k -> JobQueue.idempotency_key j' = Some k -> j = j'.
Proof.
  unfold tickets, keysOf. induction (JobQueue.jobs q) as [|x js IH]; [by intros _ ?%elem_of_nil|].
  assert (forall y, y ∈ js -> JobQueue.idempotency_key y = Some k -> k ∈ omap t_key (ticketOf <$> js)) as Hin.
  { intros y Hy Hk. apply list_elem_of_omap. exists (ticketOf y). split; [by apply list_elem_of_fmap_2|done]. }
  rewrite fmap_cons. cbn [omap list_omap]. intros Hnd [->|Hj]%elem_of_cons [->|Hj']%elem_of_cons Hk Hk'; [done|..].
  - cbn [ticketOf t_key] in Hnd. rewrite Hk in Hnd. apply NoDup_cons in Hnd as [Hx _]. by destruct Hx; eapply Hin.
  - cbn [ticketOf t_key] in Hnd. rewrite Hk' in Hnd. apply NoDup_cons in Hnd as [Hx _]. by destruct Hx; eapply Hin.
  - apply IH; try done. destruct (t_key (ticketOf x)); [by apply NoDup_cons in Hnd as [_ ?]|done].
Qed.
Section Flow.
Context {env : Env} {uuid : Uuid} {zod : Schemas.Zod} {texts : @Schemas.ZodTexts zod} {keys : WebKeys} {apiFetch : Fetch} {sha : Sha256}
  {apiRandom : Random} {wallets : Wallets} {locale : Ids.LocaleCompare} {strkey : Cctp.StrKey} {poseidon : NoteCrypto.Poseidon}
  {apiRpc : StellarActions.SorobanRpc} {keypair : Keypair} {nacl : Nacl} {keygen : KeyGen}.
#[local] Notation apiLives := (@lives env uuid zod keys apiFetch sha apiRandom wallets locale strkey poseidon apiRpc keypair nacl keygen).
Context {os : Host.Os} {relayerRandom : Random} {relayerFetch : Fetch} {evm : Evm.Evm} {relayerRpc : StellarActions.SorobanRpc}
  {leaves : Leaves.Tables} (processEnv : Host.EnvMap).

(** C10. Whatever requests arrive, in whatever order with the workers' claims,
    results and failures: every user-burn job in the queue is about one
    deposit and carries its terms, no other job has that deposit's key, and
    the relayer, given the job, accepts exactly the burns on the chain that
    meet those terms, for its own pool and with no bound on the fee; it answers
    with what the chain shows and sends nothing, so no such job completes a
    deposit. *)
Theorem user_burns_answered now c w j :
  apiLives (mkApi (emptyDB now) c) w -> j ∈ JobQueue.jobs (queueDB (adb w)) -> burnTicket (ticketOf j) ->
  exists dep hash wallet, aboutDeposit (adb w) (ticketOf j) dep hash wallet /\
    (forall j', j' ∈ JobQueue.jobs (queueDB (adb w)) -> JobQueue.idempotency_key j' = Some (burnKey dep) -> j' = j) /\
    forall job e pool secret W, ticketOf job = ticketOf j -> holding processEnv job e pool secret W ->
      answers dep hash wallet pool W e (Relayer.processRelayerJob processEnv job W).
Proof.
  intros Hl Hj Hb. destruct (lives_sound _ _ Hl (sound_empty now)) as [_ [Hk Ht]].
  destruct (Ht (ticketOf j)) as (dep & hash & wallet & Ha); [by apply list_elem_of_fmap_2|done|].
  exists dep, hash, wallet. split; [done|]. split.
  - intros j' Hj' Hkey. eapply key_unique; [exact Hk|done|done|done|apply (ab_key _ _ _ _ _ Ha)].
  - intros job e pool secret W Hjob Hh. eapply relayer_answers; [rewrite Hjob; exact Ha| |exact Hh].
    destruct Hb as [_ Hty]. rewrite <- Hjob in Hty. exact Hty.
Qed.
End Flow.

(** ** Witness: from an empty database to a validated burn *)
Definition toyEnvelope : json := JObj
  [("version", JStr "shade-encrypted-vault-v1"); ("vault_id", JStr "v1"); ("privy_user_id", JStr "did:privy:1");
   ("ciphertext", JStr "c"); ("cipher", JObj [("name", JStr "AES-256-GCM")]); ("aad", JObj []);
   ("wrappers", JArr [JObj [("id", JStr "w1"); ("type", JStr "recovery_file_secret"); ("status", JStr "active"); ("metadata", JObj [])]])].
Definition toyAsk (params : list (string * string)) (b : json) : Request :=
  mkRequest [("authorization", "Bearer " +:+ toyToken); ("idempotency-key", "key-0001")] params [] b.
Definition toyLink : Request := toyAsk [] (JObj [("wallets", JArr [JObj
  [("wallet_type", JStr "EVM"); ("chain", JStr "arbitrum-sepolia"); ("address", JStr "0xUser"); ("privy_wallet_id", JStr "w")]])]).
Definition toyVault : Request := toyAsk [] (JObj [("envelope", toyEnvelope)]).
Definition toyVerify : Request := toyAsk [("vault_id", "v1")] (JObj [("verification", JObj
  [("vault_id", JStr "v1"); ("decrypted_vault_hash", JStr "00000000"); ("commitments_hash", JStr "0"); ("method", JStr "recovery_file_secret");
   ("verified_at_client", JStr "now")])]).
Definition toyPrepare : Request := toyAsk [] (JObj
  [("amount_usdc_6dp", JStr "5"); ("source_chain", JStr "arbitrum-sepolia"); ("source_wallet_address", JStr "0xuser"); ("vault_id", JStr "v1");
   ("commitment", JStr "0xc"); ("encrypted_note_payload_hash", JStr "0xh"); ("policy_id", JStr "p")]).
Definition toyApiEnv : Env := fun v => if v ==? "SHIELDED_POOL_CONTRACT" then Some "CPOOL" else toyPrivyEnv v.
#[local] Existing Instances toyApiEnv toyUuid Schemas.strictZod toyKeys toyJwks Toy.toy_sha ToyRuntime.toy_random RoutesAccount.toyWallets
  CctpInbound.toyStrKey ToyRuntime.toy_keypair Toy.toy_nacl ToyRuntime.toy_keygen.
#[local] Instance toyLocale : Ids.LocaleCompare := fun _ _ => 0.
#[local] Instance toyPoseidon : NoteCrypto.Poseidon := fun _ => 0.
#[local] Instance toySoroban : StellarActions.SorobanRpc :=
  StellarActions.Build_SorobanRpc (fun _ _ _ _ _ _ => Ok "") (fun _ _ _ => Ok ("", "")) (fun _ _ _ => Ok "").

#[local] Existing Instances CctpInbound.toyKeccak CctpInbound.toyChain.
#[local] Instance toyLeaves : Leaves.Tables := fun _ => Ok (emptyDB 0).
Definition toyLinked : list (string * Api.Handler * Request) :=
  [("POST /v1/me/wallets/sync-privy", RoutesAccount.post_me_wallets_sync_privy, toyLink);
   ("POST /v1/note-vaults", RoutesVault.post_note_vaults, toyVault);
   ("POST /v1/note-vaults/:vault_id/verify-backup", RoutesVault.post_verify_backup, toyVerify)].
Definition afterAll (l : list (string * Api.Handler * Request)) (w : Api) : Api := foldl (fun w x => (handle (x.1.2 x.2) w).2) w l.
Definition toyStart : Api := mkApi (emptyDB 5000) (mkCache None []).
Definition toyPrepared := handle (RoutesVault.post_deposits_prepare toyPrepare) (afterAll toyLinked toyStart).
Definition toyDepositId : string := strField (content toyPrepared.1) "deposit_id".
Definition toyBurned : Request := toyAsk [("deposit_id", toyDepositId)]
  (JObj [("burn_tx_hash", JStr "0xburn"); ("source_chain", JStr "arbitrum-sepolia"); ("source_wallet_address", JStr "0xuser")]).
Definition toyAll := toyLinked ++ [("POST /v1/deposits/prepare", RoutesVault.post_deposits_prepare, toyPrepare);
   ("POST /v1/deposits/:deposit_id/burn-submitted", RoutesVault.post_burn_submitted, toyBurned)].
Definition toyClaim : M JobQueue.DB (option JobQueue.ServiceJob) := JobQueue.claimNext JobQueue.relayer [userBurn].
Definition toyEnd : Api := (onStore (onQueue toyClaim) (afterAll toyAll toyStart)).2.
Definition toyJob : JobQueue.ServiceJob := match JobQueue.jobs (queueDB (adb toyEnd)) with j :: _ => j | [] => JobQueue.newJob "" JobQueue.relayer "" JNull None 0 end.
Definition toyProcess : Host.EnvMap := [("SHIELDED_POOL_CONTRACT", "CPOOL"); ("STELLAR_RELAYER_SECRET", "SRELAYER")].
Definition toyWorker : Worker.Worker := Worker.mkWorker (queueDB (adb toyEnd)) (Evm.mkNet (Host.mkHost ∅ 0) []).

Lemma user_burns_answered_witness : exists dep hash wallet a v,
  dep ∈ table (adb toyEnd) "cctp_deposits" /\ termsOf dep hash wallet "CPOOL" = Ok a /\
  CctpInbound.burned toyProcess a (Worker.net toyWorker) v /\
  (Relayer.processRelayerJob toyProcess toyJob toyWorker).1 = Ok (validatedReply hash v).

Proof.
  assert (lives toyStart toyEnd) as Hl.
  { eapply (lives_request _ _ _ _ _ (list_elem_of_lookup_2 Api.routes 14 _ eq_refl)).
    eapply (lives_request _ _ _ _ _ (list_elem_of_lookup_2 Api.routes 37 _ eq_refl)).
    eapply (lives_request _ _ _ _ _ (list_elem_of_lookup_2 Api.routes 41 _ eq_refl)).
    eapply (lives_request _ _ _ _ _ (list_elem_of_lookup_2 Api.routes 25 _ eq_refl)).
    eapply (lives_request _ _ _ _ _ (list_elem_of_lookup_2 Api.routes 26 _ eq_refl)).
    eapply (lives_worker toyClaim); [apply op_claim|]. exact (lives_none toyEnd). }
  assert (toyJob ∈ JobQueue.jobs (queueDB (adb toyEnd))) as Hj by (apply (list_elem_of_lookup_2 _ 0); vm_compute; reflexivity).
  destruct (user_burns_answered (texts := Schemas.strictZod_texts) toyProcess 5000 (mkCache None []) toyEnd toyJob Hl Hj)
    as (dep & hash & wallet & Ha & _ & Hr); [split; vm_compute; reflexivity|].
  destruct (Relayer.processRelayerJob toyProcess toyJob toyWorker) as [[res|er] w'] eqn:E; [|exfalso; revert E; vm_compute; discriminate].
  destruct (Hr toyJob toyProcess "CPOOL" "SRELAYER" toyWorker eq_refl) as [_ Hiff]; [split; vm_compute; reflexivity|].
  rewrite E in Hiff. destruct (proj1 (Hiff res) eq_refl) as (a & v & Ht & Hb & ->). exists dep, hash, wallet, a, v.
  split; [exact (ab_row _ _ _ _ _ Ha)|]. split; [exact Ht|]. split; [exact Hb|]. reflexivity.
Defined.
End DepositFlow.
