(* ===== verification/DepositRun.v ===== *)
(** * A deposit made as the API asks is accepted (apps/api, apps/relayer)

    What becomes of one deposit among all the requests: its row stays, the
    first report of its burn queues a job that stays, and the relayer, given
    that job, accepts the burn that the API asked for. *)
From S2P Require Import Prelude JsText JsCollections Json Crypto Ids JobQueue Database WellTyped Records Runtime Host StellarUtils Proving Evm NoteVault Store Privy Schemas ApiAuth Cctp CctpInbound NoteCrypto StellarActions RoutesAccount RoutesVault ApiTypes Api Leaves Worker Relayer WebClient VaultRestore ApiVault DepositFlow.
From Stdlib Require Import Ascii.
Import JsText Json Crypto Database WellTyped Records Runtime Privy ApiAuth ApiTypes DepositFlow.

Module DepositRun.

(** ** Rows and jobs stay *)
Lemma ticket_stays t uuid q jt pl key : preserves (fun d => t ∈ tickets (queueDB d)) (onQueue (JobQueue.enqueue uuid q jt pl key)).
Proof.
  intros d Hd. unfold onQueue. pose proof (tickets_enqueue uuid q jt pl key (queueDB d)) as Hq.
  destruct (JobQueue.enqueue uuid q jt pl key (queueDB d)) as [r q']. cbn [snd queueDB] in *.
  destruct Hq as [->|[-> _]]; [done|]. apply elem_of_app. by left.
Qed.
#[export] Instance ticket_invariant `{Uuid} t : DbInvariant (fun d => t ∈ tickets (queueDB d)).
Proof. apply monotone_invariant; [by intros d d' _ ->|]. intros uuid q jt pl key _. apply ticket_stays. Qed.

(** ** The table of deposits *)
Lemma typed_column cs r c : NoDup (map col cs) -> rowOk cs r = true -> c ∈ cs -> cellOk c (get r (col c)) = true.
Proof.
  revert r. induction cs as [|c0 cs IH]; intros [|[k v] r]; cbn [rowOk map]; try (by intros; set_solver).
  rewrite !andb_true_iff, bool_decide_eq_true. intros [Hn Hnd]%NoDup_cons [[-> Hv] Hr] [->|Hc]%elem_of_cons; unfold get; cbn [JsMap.get].
  - by rewrite bool_decide_true.
  - rewrite bool_decide_false; [by apply IH|]. intros E. apply Hn. rewrite <- E. by apply list_elem_of_fmap_2.
Qed.
Lemma pairwise_unique s rows a b g : pairwise s rows -> a ∈ rows -> b ∈ rows -> g ∈ uniques s -> agree g a b = true -> a = b.
Proof.
  intros Hp Ha Hb Hg Hab. induction rows as [|r rows IH]; [by apply elem_of_nil in Ha|]. destruct Hp as [Hr Hp].
  apply elem_of_cons in Ha as [->|Ha]; apply elem_of_cons in Hb as [->|Hb]; [done| | |by apply IH].
  - specialize (Hr b Hb g Hg). congruence.
  - specialize (Hr a Ha g Hg). apply agree_sym in Hab. congruence.
Qed.
Lemma deposit_id_text d dep : wellTyped d -> dep ∈ table d "cctp_deposits" -> exists id, get dep "deposit_id" = JStr id.
Proof.
  intros Hd Hdep. destruct (Hd "cctp_deposits" _ eq_refl) as [Hrows _]. rewrite Forall_forall in Hrows.
  pose proof (typed_column (columns cctp_deposits) dep (text "deposit_id") ltac:(apply (bool_decide_unpack _); vm_compute; exact Logic.I)
    (Hrows dep Hdep) ltac:(left)) as Hc. unfold cellOk in Hc. cbn in Hc. destruct (get dep "deposit_id"); try done. by eexists.
Qed.
Lemma deposit_unique d a b id : wellTyped d -> a ∈ table d "cctp_deposits" -> b ∈ table d "cctp_deposits" ->
  get a "deposit_id" = JStr id -> get b "deposit_id" = JStr id -> a = b.
Proof.
  intros Hd Ha Hb Ia Ib. destruct (Hd "cctp_deposits" _ eq_refl) as [_ Hp]. eapply (pairwise_unique _ _ a b ["deposit_id"] Hp); [done|done|left|].
  unfold agree. cbn [forallb]. rewrite Ia, Ib. by rewrite bool_decide_true.
Qed.

Section History.
Context `{Env} `{Uuid} {zod : Schemas.Zod} {texts : @Schemas.ZodTexts zod} `{WebKeys} `{Fetch} `{Sha256} `{Random} `{Wallets} `{Ids.LocaleCompare}
  `{Cctp.StrKey} `{NoteCrypto.Poseidon} `{StellarActions.SorobanRpc} `{Keypair} `{Nacl} `{KeyGen}.
Lemma lives_trans w w1 w2 : lives w w1 -> lives w1 w2 -> lives w w2.
Proof.
  induction 1 as [w|w n h r w' Hin _ IH|A m w w' Hop _ IH]; intros Hl; [done|by eapply lives_request, IH|by apply (lives_worker m), IH].
Qed.
Lemma lives_follow dep w w' : lives w w' -> follows dep (adb w) -> follows dep (adb w').
Proof.
  apply (lives_keeps (follows dep)).
  - intros r. apply (Api.burn_submitted_keeps (follows dep)), Api.any_queue. intros d q Hd. exact Hd.
  - intros A m _ d Hd. unfold onQueue. by destruct (m (queueDB d)).
Qed.
Lemma lives_ticket t w w' : lives w w' -> t ∈ tickets (queueDB (adb w)) -> t ∈ tickets (queueDB (adb w')).
Proof.
  apply (lives_keeps (fun d => t ∈ tickets (queueDB d))).
  - intros r. apply (Api.burn_submitted_keeps (fun d => t ∈ tickets (queueDB d))), ticket_stays.
  - intros A m Hop d Hd. pose proof (tickets_op m (tickets (queueDB d)) Hop (queueDB d) eq_refl) as Hq. unfold onQueue.
    destruct (m (queueDB d)) as [r q]. cbn [snd queueDB] in *. by rewrite Hq.
Qed.

(** ** The deposit that is prepared *)
Definition unknown (w : Api) (id : string) : Prop := forall dep, dep ∈ table (adb w) "cctp_deposits" -> get dep "deposit_id" ≠ JStr id.
Record prepared (r : Request) (w : Api) (resp : Response) (w' : Api) (id : string) (amount6 : Z) (recipient hook : string) : Prop := {
  pp_recipient : Cctp.stellarContractToBytes32 (RoutesVault.orEnv "STELLAR_CCTP_FORWARDER_CONTRACT" Cctp.stellarCctpForwarder) = Ok recipient;
  pp_hook : Cctp.encodeStellarForwardHook (RoutesVault.orEnv "SHIELDED_POOL_CONTRACT" "") = Ok hook;
  pp_reply : content resp = RoutesVault.deposit_prepare_reply id (RoutesVault.orEnv "ARB_SEPOLIA_USDC_ADDRESS" Cctp.arbitrumSepoliaUsdc)
    (RoutesVault.orEnv "ARB_SEPOLIA_CCTP_TOKEN_MESSENGER" Cctp.arbitrumSepoliaTokenMessenger) (RoutesVault.orEnv "SHIELDED_POOL_CONTRACT" "")
    recipient recipient hook amount6;
  pp_body : exists b key, Schemas.parse Schemas.userDepositPrepareSchema (body r) = Ok b /\
    Schemas.parse Schemas.idempotencyHeader (headersJson r) = Ok key /\ BigInt (strField b "amount_usdc_6dp") = Ok amount6 /\
    id = Ids.deterministicId (Ids.mkIdInput "udep" [strField key "idempotency-key"; strField b "commitment"]);
  pp_row : unknown w id -> exists dep, dep ∈ table (adb w') "cctp_deposits" /\ get dep "deposit_id" = JStr id /\
    get dep "amount_usdc_6dp" = JStr (toString amount6) }.
Lemma prepare_prepared r w resp w' : RoutesVault.post_deposits_prepare r w = (Ok resp, w') ->
  exists id amount6 recipient hook, prepared r w resp w' id amount6 recipient hook.
Proof.
  intros Hr. unfold RoutesVault.post_deposits_prepare in Hr. bind_ok Hr as u w1 Eu.
  assert (table (adb w1) "cctp_deposits" = table (adb w) "cctp_deposits") as Ht.
  { pose proof (ApiVault.table_require "cctp_deposits" _ r ltac:(done) ltac:(done) w eq_refl) as Ht. by rewrite Eu in Ht. }
  unfold parseM in Hr. lift_ok Hr as b Eb. bind_ok Hr as key w2 Ek.
  unfold idem, parseM in Ek. lift_ok Ek as h Eh. apply ret_Ok in Ek as [-> ->].
  bind_ok Hr as amount6 w2 Eg. pose proof (RoutesVault.depositGuards_state _ _ _ _ _ Eg) as ->.
  apply RoutesVault.depositGuards_Ok in Eg as [_ [Eg _] _ _ _]. lift_ok Hr as recipient E1. lift_ok Hr as caller E2. rewrite E1 in E2. injection E2 as <-. lift_ok Hr as hook E3.
  bind_ok Hr as u1 w2 E4. apply onStore_Ok in E4 as (db1 & E4 & ->). bind_ok Hr as u2 w3 E5. apply ret_Ok in Hr as [-> ->].
  eexists _, amount6, recipient, hook. split; [done..| |]; [by exists b, h|]. intros Hnew.
  assert (table (adb w3) "cctp_deposits" = table db1 "cctp_deposits") as ->.
  { match type of E5 with logActivity _ _ _ ?i _ = _ => pose proof (preserves_onStore (fun db => table db "cctp_deposits" = table db1 "cctp_deposits")
      (Store.logActivity (Some (p_userId u)) (Store.mkActivity "deposit.prepare" (Some "deposit") (Some i) None None))
      ltac:(unfold Store.logActivity; keeps_table) (mkApi db1 (acache w1)) eq_refl) as Hp end.
    unfold logActivity in E5. by rewrite E5 in Hp. }
  apply RoutesVault.createUserDeposit_rows in E4 as [[_ (o & Ho & Hoid)]|(dep & -> & Hdep)].
  - rewrite Ht in Ho. by destruct (Hnew o Ho).
  - exists dep. split; [apply elem_of_app; right; left|]. split; apply Hdep.
Qed.

(** ** The first report of its burn *)
Lemma enqueue_new uuid q jt pl key d j d' : JobQueue.enqueue uuid q jt pl (Some key) d = (Ok j, d') -> truthy key = true ->
  (forall x, x ∈ JobQueue.jobs d -> JobQueue.idempotency_key x ≠ Some key) ->
  mkTicket uuid jt q (Some key) pl ∈ tickets d' /\ JobQueue.job_id j = uuid.
Proof.
  intros E Hk Hnew. unfold JobQueue.enqueue in E. cbn [truthyOpt] in E. rewrite Hk in E. bind_ok E as existing d1 E1.
  unfold JobQueue.selectByKey in E1. injection E1 as <- <-. destruct (head _) as [x|] eqn:Eh.
  { apply head_selectWhere in Eh as [Hx Hxk%JobQueue.hasKey_true]. by destruct (Hnew x Hx). }
  bind_ok E as row d2 E2. bind_ok E as u d3 E3. apply ret_Ok in E as [-> ->].
  unfold JobQueue.insertJob in E2. destruct (existsb (JobQueue.hasId uuid) _ || _); [done|]. injection E2 as <- <-. split; [|done].
  pose proof (tickets_event (tickets d ++ [mkTicket uuid jt q (Some key) pl]) uuid "queued" (Some ("enqueued " +:+ jt))) as Hp.
  cbn [JobQueue.job_id] in E3. match type of E3 with _ ?d1 = _ => specialize (Hp d1) end. rewrite E3 in Hp. cbn [snd] in Hp. rewrite Hp.
  - apply elem_of_app. right. left.
  - unfold tickets. cbn [JobQueue.jobs JobQueue.withJobs]. by rewrite fmap_app.
Qed.
(** The ticket of the report. *)
Definition reported (id : string) (hash wallet : string) (t : Ticket) : Prop :=
  burnTicket t /\ t_key t = Some ("user-burn:" +:+ id) /\ field (t_payload t) "burn_tx_hash" = JStr hash /\
  field (t_payload t) "source_wallet_address" = JStr wallet.
Definition unreported (w : Api) (id : string) : Prop :=
  forall j, j ∈ JobQueue.jobs (queueDB (adb w)) -> JobQueue.idempotency_key j ≠ Some ("user-burn:" +:+ id).
Lemma report_queued r w resp w' b hash wallet : RoutesVault.post_burn_submitted r w = (Ok resp, w') -> respOk (code resp) = true ->
  Schemas.parse Schemas.burnSubmittedSchema (body r) = Ok b -> field b "burn_tx_hash" = JStr hash ->
  field b "source_wallet_address" = JStr wallet -> unreported w (RoutesVault.depositId r) ->
  exists t, t ∈ tickets (queueDB (adb w')) /\ reported (RoutesVault.depositId r) hash wallet t /\
    field (content resp) "job_id" = JStr (t_id t).
Proof.
  intros E Hc Hb Hh Hw Hnew. unfold RoutesVault.post_burn_submitted in E. bind_ok E as u w1 Eu.
  assert (queueDB (adb w1) = queueDB (adb w)) as Hq1.
  { pose proof (held_requirePrivyUser (I := fun d => queueDB d = queueDB (adb w)) r w eq_refl) as Hq. by rewrite Eu in Hq. }
  unfold parseM in E. lift_ok E as b' Eb. rewrite Hb in Eb. injection Eb as <-. bind_ok E as dep w2 Ed.
  apply onStore_Ok in Ed as (db & Ed & ->). unfold Store.getDepositForUser in Ed. apply selectFirst_Ok in Ed as [-> Ed].
  destruct dep as [dep|]; [|apply ret_Ok in E as [-> _]; discriminate Hc].
  case_match; [apply ret_Ok in E as [-> _]; discriminate Hc|]. bind_ok E as u1 w3 E1. apply onStore_Ok in E1 as (db1 & E1 & ->).
  pose proof (types_setDepositBurnTx (I := fun d => queueDB d = queueDB (adb w)) (RoutesVault.depositId r) (strField b "burn_tx_hash") (adb w1) Hq1) as Hq2.
  cbn [adb] in E1. rewrite E1 in Hq2. cbn [snd] in Hq2. bind_ok E as job w4 Ej. unfold enqueueJob in Ej. bind_ok Ej as uuid w5 E2.
  apply onStore_Ok in E2 as (db2 & E2 & ->). cbn [adb acache] in *.
  assert (queueDB db2 = queueDB (adb w)) as Hq3.
  { pose proof (types_randomUUID (I := fun d => queueDB d = queueDB (adb w)) _ Hq2) as Hq. by rewrite E2 in Hq. }
  apply onStore_Ok in Ej as (db3 & Ej & ->). cbn [adb] in Ej. unfold onQueue in Ej.
  match type of Ej with context [JobQueue.enqueue ?a ?q ?t ?p ?k ?d] => destruct (JobQueue.enqueue a q t p k d) as [[j|e] q'] eqn:Eq end;
    [|done]. injection Ej as -> <-.
  rewrite Hq3 in Eq. apply enqueue_new in Eq as [Ht Hid]; [|done|exact Hnew].
  bind_ok E as u2 w6 El. apply ret_Ok in E as [-> ->]. eexists. split; [|split].
  - apply onStore_Ok in El as (db4 & El & ->).
    match type of Ht with ?t ∈ _ => pose proof (types_logActivity (I := fun d => t ∈ tickets (queueDB d))) as Hl end.
    match type of El with Store.logActivity ?a ?x ?d = _ => specialize (Hl a x d Ht) end. rewrite El in Hl. exact Hl.
  - split; [done|]. split; [done|]. unfold RoutesVault.burnJobPayload. cbn [t_payload]. split; [exact Hh|exact Hw].
  - cbn. by rewrite Hid.
Qed.
End History.

(** ** The run *)
Section Run.
Context {env : Env} {uuid : Uuid} {zod : Schemas.Zod} {texts : @Schemas.ZodTexts zod} {keys : WebKeys} {apiFetch : Fetch} {sha : Sha256}
  {apiRandom : Random} {wallets : Wallets} {locale : Ids.LocaleCompare} {strkey : Cctp.StrKey} {poseidon : NoteCrypto.Poseidon}
  {apiRpc : StellarActions.SorobanRpc} {keypair : Keypair} {nacl : Nacl} {keygen : KeyGen}.
#[local] Notation apiLives := (@lives env uuid zod keys apiFetch sha apiRandom wallets locale strkey poseidon apiRpc keypair nacl keygen).
#[local] Notation apiPrepare := (@RoutesVault.post_deposits_prepare env uuid zod keys apiFetch sha strkey).
#[local] Notation apiReport := (@RoutesVault.post_burn_submitted env uuid zod keys apiFetch).
Context {os : Host.Os} {relayerRandom : Random} {relayerFetch : Fetch} {evm : Evm.Evm} {relayerRpc : StellarActions.SorobanRpc}
  {leaves : Leaves.Tables} (processEnv : Host.EnvMap).

(** One deployment: the two services are configured alike. *)
Record deployed (e : Host.EnvMap) (pool : string) : Prop := {
  dy_pool : RoutesVault.orEnv "SHIELDED_POOL_CONTRACT" "" = pool;
  dy_forwarder : orElse (CctpInbound.lookup e "STELLAR_CCTP_FORWARDER_CONTRACT") Cctp.stellarCctpForwarder =
    RoutesVault.orEnv "STELLAR_CCTP_FORWARDER_CONTRACT" Cctp.stellarCctpForwarder;
  dy_messenger : orElse (CctpInbound.lookup e "ARB_SEPOLIA_CCTP_TOKEN_MESSENGER") Cctp.arbitrumSepoliaTokenMessenger =
    RoutesVault.orEnv "ARB_SEPOLIA_CCTP_TOKEN_MESSENGER" Cctp.arbitrumSepoliaTokenMessenger;
  dy_usdc : orElse (CctpInbound.lookup e "ARB_SEPOLIA_USDC_ADDRESS") Cctp.arbitrumSepoliaUsdc =
    RoutesVault.orEnv "ARB_SEPOLIA_USDC_ADDRESS" Cctp.arbitrumSepoliaUsdc }.
(** The same call, up to the case of addresses and bytes. *)
Record sameCall (a b : Evm.Burn) : Prop := {
  sc_amount : Evm.b_amount a = Evm.b_amount b;
  sc_domain : Evm.b_domain a = Evm.b_domain b;
  sc_mint : toLowerCase (Evm.b_mintRecipient a) = toLowerCase (Evm.b_mintRecipient b);
  sc_token : toLowerCase (Evm.b_burnToken a) = toLowerCase (Evm.b_burnToken b);
  sc_caller : toLowerCase (Evm.b_caller a) = toLowerCase (Evm.b_caller b);
  sc_fee : Evm.b_maxFee a = Evm.b_maxFee b;
  sc_finality : Evm.b_finality a = Evm.b_finality b;
  sc_hook : toLowerCase (Evm.b_hook a) = toLowerCase (Evm.b_hook b) }.
Lemma meets_same e a mint hook tx bd d : CctpInbound.burnMeets e a mint hook tx bd -> sameCall bd d -> CctpInbound.burnMeets e a mint hook tx d.
Proof.
  intros [Hs Ht Ha Hd Hm Hk Hc Hf Hn Hh] [Ea Ed Em Ek Ec Ef En Eh]. split; try congruence. intros m Hm'. rewrite <- Ef. by apply Hf.
Qed.
(** The chain shows the relayer the transaction of the report: sent by the
    wallet to the messenger, successful, with the call [bd]. *)
Record shows (e : Host.EnvMap) (n : Evm.Net) (hash wallet : string) (bd : Evm.Burn) (tx : Evm.EvmTx) : Prop := {
  sw_tx : Evm.getTransaction (Host.tick (Evm.host n)) (orElse (CctpInbound.lookup e "ARB_SEPOLIA_RPC_URL") "https://sepolia-rollup.arbitrum.io/rpc")
    hash = Ok (Some tx);
  sw_receipt : Evm.getReceipt (Host.tick (Evm.host n) + 1)
    (orElse (CctpInbound.lookup e "ARB_SEPOLIA_RPC_URL") "https://sepolia-rollup.arbitrum.io/rpc") hash = Ok (Some (Some 1));
  sw_call : exists d, Evm.parseBurn (Evm.tx_data tx) = Ok (Some d) /\ sameCall bd d;
  sw_from : toLowerCase (Evm.tx_from tx) = toLowerCase wallet;
  sw_to : Evm.tx_to tx = Some (RoutesVault.orEnv "ARB_SEPOLIA_CCTP_TOKEN_MESSENGER" Cctp.arbitrumSepoliaTokenMessenger) }.

Lemma asked_burned e pool n hash wallet bd tx id amount6 recipient hook r w0 resp w1 :
  prepared r w0 resp w1 id amount6 recipient hook -> askedBurn (content resp) = Some bd -> deployed e pool -> shows e n hash wallet bd tx ->
  let a := CctpInbound.mkBurnArgs hash wallet amount6 pool None (Some (Some Cctp.FINALITY_THRESHOLD_CONFIRMED)) in
  exists d, sameCall bd d /\ CctpInbound.burned e a n (CctpInbound.validationOf a tx d).
Proof.
  intros [Hr Hh Hc _ _] Hb [Hp Hf Hm Hu] [Ht Hrc (d & Hd & Hsame) Hfrom Hto] a. rewrite Hc in Hb. exists d. split; [done|].
  destruct (asked_burn_meets e id _ _ (RoutesVault.orEnv "SHIELDED_POOL_CONTRACT" "") recipient hook amount6 hash wallet pool tx Hm Hu Hfrom Hto)
    as (bd' & Hb' & Hmeets).
  rewrite Hb in Hb'. injection Hb' as <-. subst pool. exists tx, d, recipient, hook. rewrite Hf. split_and!; try done.
  by eapply meets_same.
Qed.

(** The job of a report, in a later state, for the deposit it is about. *)
Lemma reported_accepted r w0 resp w1 w4 t id amount6 recipient hook hash wallet bd :
  prepared r w0 resp w1 id amount6 recipient hook -> unknown w0 id -> askedBurn (content resp) = Some bd -> apiLives w1 w4 -> sound (adb w4) ->
  t ∈ tickets (queueDB (adb w4)) -> reported id hash wallet t ->
  forall job e pool secret W tx, ticketOf job = t -> holding processEnv job e pool secret W -> deployed e pool ->
    shows e (Worker.net W) hash wallet bd tx ->
    exists v, (Relayer.processRelayerJob processEnv job W).1 = Ok (validatedReply hash v) /\
      CctpInbound.v_sender v = Evm.tx_from tx /\ CctpInbound.v_amount6 v = Evm.b_amount bd.
Proof.
  intros Hp Hnew Hask L14 [Hty [_ Htold]] Ht ([Htq Htt] & Htk & Hth & Htw) job e pool secret W tx Hjt Hhold Hdep Hshow.
  destruct (Htold t Ht) as (dep & hash' & wallet' & Ha); [done|].
  assert (hash' = hash /\ wallet' = wallet) as [-> ->].
  { destruct Ha as [_ _ Hpl _ _]. rewrite Hpl in Hth, Htw. unfold RoutesVault.burnJobPayload in Hth, Htw. cbn in Hth, Htw.
    split; [by injection Hth|by injection Htw]. }
  assert (get dep "amount_usdc_6dp" = JStr (toString amount6)) as Hamt.
  { destruct (pp_row _ _ _ _ _ _ _ _ Hp Hnew) as (dep1 & Hd1 & Hi1 & Ha1).
    destruct (lives_follow dep1 _ _ L14) as (dep4 & Hd4 & Hs4); [exists dep1; by split|].
    assert (dep = dep4) as ->; [|by rewrite (same_column dep1 dep4) by done].
    destruct (deposit_id_text _ dep Hty (ab_row _ _ _ _ _ Ha)) as [id' Hi]. pose proof (ab_key _ _ _ _ _ Ha) as Hk.
    rewrite Htk in Hk. unfold burnKey in Hk. rewrite Hi in Hk. injection Hk as Hk. change (id = id') in Hk. subst id'.
    eapply (deposit_unique (adb w4) _ _ id); [done|apply Ha|done|done|]. by rewrite (same_column dep1 dep4), Hi1 by done. }
  assert (termsOf dep hash wallet pool = Ok (CctpInbound.mkBurnArgs hash wallet amount6 pool None (Some (Some Cctp.FINALITY_THRESHOLD_CONFIRMED)))) as Hterms.
  { unfold termsOf. rewrite Hamt. unfold Cctp.stringOf. by rewrite BigInt_toString. }
  destruct (relayer_answers processEnv _ job dep hash wallet e pool secret W ltac:(rewrite Hjt; exact Ha)
    ltac:(apply (f_equal t_type) in Hjt; rewrite <- Htt; exact Hjt) Hhold) as [_ Hiff].
  pose proof (asked_burned e pool _ hash wallet bd tx _ amount6 recipient hook r w0 resp w1 Hp Hask Hdep Hshow) as (d & Hsame & Hburn).
  eexists. split; [apply Hiff; eexists _, _; split; [exact Hterms|]; split; [exact Hburn|reflexivity]|]. split; [done|]. symmetry. apply Hsame.
Qed.
Lemma prepare_lives r w resp w' : apiPrepare r w = (Ok resp, w') -> apiLives w w'.
Proof.
  intros E. apply (lives_request w _ apiPrepare r w' (list_elem_of_lookup_2 Api.routes 25 _ eq_refl)). unfold handle. rewrite E. apply lives_none.
Qed.
Lemma report_lives r w resp w' : apiReport r w = (Ok resp, w') -> apiLives w w'.
Proof.
  intros E. apply (lives_request w _ apiReport r w' (list_elem_of_lookup_2 Api.routes 26 _ eq_refl)). unfold handle. rewrite E. apply lives_none.
Qed.

(** C7. A deposit made as the API asks is accepted.  A user prepares a deposit
    whose identifier is new, burns what the reply asks for and reports the
    transaction, the first to be reported for it; any requests, of anyone, and
    anything the workers do may come before, between and after.  Then the job
    the report names stays in the queue, and the relayer, if it is configured
    like the API and the chain shows it the transaction, validates that burn
    whenever it is given the job. *)
Theorem asked_burn_accepted now c w0 r resp w1 id bd w2 r' b hash wallet resp' w3 w4 :
  apiLives (mkApi (emptyDB now) c) w0 ->
  apiPrepare r w0 = (Ok resp, w1) -> field (content resp) "deposit_id" = JStr id -> unknown w0 id ->
  askedBurn (content resp) = Some bd ->
  apiLives w1 w2 -> unreported w2 id ->
  apiReport r' w2 = (Ok resp', w3) -> code resp' = 200 -> RoutesVault.depositId r' = id ->
  Schemas.parse Schemas.burnSubmittedSchema (body r') = Ok b -> field b "burn_tx_hash" = JStr hash ->
  field b "source_wallet_address" = JStr wallet ->
  apiLives w3 w4 ->
  exists j, j ∈ JobQueue.jobs (queueDB (adb w4)) /\ field (content resp') "job_id" = JStr (JobQueue.job_id j) /\
    forall job e pool secret W tx, ticketOf job = ticketOf j -> holding processEnv job e pool secret W -> deployed e pool ->
      shows e (Worker.net W) hash wallet bd tx ->
      exists v, (Relayer.processRelayerJob processEnv job W).1 = Ok (validatedReply hash v) /\
        CctpInbound.v_sender v = Evm.tx_from tx /\ CctpInbound.v_amount6 v = Evm.b_amount bd.
Proof.
  intros L0 Ep Hid Hnew Hask L1 Hun Er Hcode Hr' Hb Hh Hw L3. subst id.
  destruct (prepare_prepared r w0 resp w1 Ep) as (id & amount6 & recipient & hook & Hp).
  pose proof (pp_reply _ _ _ _ _ _ _ _ Hp) as Hreply. rewrite Hreply in Hid. injection Hid as ->.
  destruct (report_queued r' w2 resp' w3 b hash wallet Er ltac:(by rewrite Hcode) Hb Hh Hw Hun) as (t & Ht & Hrep & Hjob).
  apply (lives_ticket t _ _ L3) in Ht. pose proof Ht as Hin. apply list_elem_of_fmap in Hin as (j & -> & Hj).
  exists j. split; [done|]. split; [done|]. intros job e pool secret W tx Hjt.
  pose proof (lives_trans _ _ _ (lives_trans _ _ _ L1 (report_lives _ _ _ _ Er)) L3) as L14.
  apply (reported_accepted r w0 resp w1 w4 (ticketOf j) _ amount6 recipient hook hash wallet bd Hp Hnew Hask L14); [|done..].
  apply (lives_sound _ _ L14), (lives_sound _ _ (prepare_lives _ _ _ _ Ep)), (lives_sound _ _ L0), sound_empty.
Qed.
End Run.

(** ** Witness: the first deposit of an empty database *)
#[local] Existing Instances toyApiEnv toyUuid Schemas.strictZod toyKeys toyJwks Toy.toy_sha ToyRuntime.toy_random RoutesAccount.toyWallets
  CctpInbound.toyStrKey ToyRuntime.toy_keypair Toy.toy_nacl ToyRuntime.toy_keygen toyLocale toyPoseidon toySoroban CctpInbound.toyKeccak
  CctpInbound.toyChain toyLeaves.
Definition toyBefore : Api := afterAll toyLinked toyStart.
Definition toyAfter : Api := afterAll toyAll toyStart.
Definition toyAsked : option Evm.Burn := askedBurn (content toyPrepared.1).
Definition toyTx : Evm.EvmTx := Evm.mkEvmTx "0xuser" (Some Cctp.arbitrumSepoliaTokenMessenger) "0xdata".
Lemma asked_burn_accepted_witness : exists bd v, toyAsked = Some bd /\
  (Relayer.processRelayerJob toyProcess toyJob toyWorker).1 = Ok (validatedReply "0xburn" v) /\
  CctpInbound.v_sender v = "0xuser" /\ CctpInbound.v_amount6 v = Evm.b_amount bd.
Proof.
  destruct toyAsked as [bd|] eqn:Ebd; [|vm_compute in Ebd; discriminate Ebd]. exists bd.
  destruct (asked_burn_accepted (texts := Schemas.strictZod_texts) toyProcess 5000 (mkCache None []) toyBefore toyPrepare toyPrepared.1
    toyPrepared.2 toyDepositId bd toyPrepared.2 toyBurned (body toyBurned) "0xburn" "0xuser"
    (handle (RoutesVault.post_burn_submitted toyBurned) toyPrepared.2).1 toyAfter toyEnd) as (j & Hj & _ & Hrun).
  - apply (lives_request _ _ _ toyLink _ (list_elem_of_lookup_2 Api.routes 14 _ eq_refl)).
    apply (lives_request _ _ _ toyVault _ (list_elem_of_lookup_2 Api.routes 37 _ eq_refl)).
    apply (lives_request _ _ _ toyVerify _ (list_elem_of_lookup_2 Api.routes 41 _ eq_refl)). exact (lives_none toyBefore).
  - vm_compute. reflexivity.
  - vm_compute. reflexivity.
  - assert (table (adb toyBefore) "cctp_deposits" = []) as Et by (vm_compute; reflexivity).
    intros dep Hd. rewrite Et in Hd. exfalso. exact (proj1 (elem_of_nil dep) Hd).
  - exact Ebd.
  - apply lives_none.
  - assert (JobQueue.jobs (queueDB (adb toyPrepared.2)) = []) as Eq by (vm_compute; reflexivity).
    intros x Hx. rewrite Eq in Hx. exfalso. exact (proj1 (elem_of_nil x) Hx).
  - vm_compute. reflexivity.
  - vm_compute. reflexivity.
  - vm_compute. reflexivity.
  - vm_compute. reflexivity.
  - reflexivity.
  - reflexivity.
  - apply (lives_worker toyClaim); [apply op_claim|]. exact (lives_none toyEnd).
  - assert (JobQueue.jobs (queueDB (adb toyEnd)) = [toyJob]) as Eq by (vm_compute; reflexivity).
    rewrite Eq in Hj. apply list_elem_of_singleton in Hj as ->.
    destruct (Hrun toyJob toyProcess "CPOOL" "SRELAYER" toyWorker toyTx eq_refl) as (v & Hv & Hs & Ha).
    + split; vm_compute; reflexivity.
    + split; vm_compute; reflexivity.
    + split; [vm_compute; reflexivity|vm_compute; reflexivity| |vm_compute; reflexivity|vm_compute; reflexivity].
      exists bd. split; [rewrite <- Ebd; vm_compute; reflexivity|by split].
    + exists v. by split_and!.
Defined.
End DepositRun.
