(* ===== verification/DepositPage.v ===== *)
(** * The deposit page (frontend/app/(app)/deposit/page.tsx)

    A run of the page: the note is asked of the server, the deposit prepared,
    the wallet asked to approve and to burn, the burn reported and its job
    followed.  Lemmas: how a run ends and how far its steps are; the wallet is
    asked for the approval and then the burn of the server's reply, each once;
    a user-burn job that is only validated is shown as an active note; and in
    front of the API no run passes its first step. *)
From S2P Require Import Prelude JsText JsCollections Json Crypto Base64 Ids Database Runtime Privy Schemas ApiAuth Cctp CctpInbound NoteCrypto StellarActions RoutesVault Api WebClient ApiVault Moves DepositFlow.
From Stdlib Require Import Ascii.
Import JsText Json Crypto Base64 Database Runtime.

Module DepositPage.

(** ** The steps shown *)
Inductive StepStatus := Idle | Running | Done | Errored.
#[export] Instance status_dec : EqDecision StepStatus.
Proof. solve_decision. Defined.
Inductive Chain := Stellar | Arb.
Record Step := mkStep { label : string; status : StepStatus; detail : option string; tx : option string; chain : option Chain }.
Definition BURN_6DP : string := "505000".
Definition POLICY : string := "shade:default-testnet-policy:v1".
Definition init : list Step := map (fun l => mkStep l Idle None None None)
  ["Generate private note (server-assisted coinutils)"; "Prepare CCTP burn"; "Approve USDC (MetaMask)"; "Burn on Arbitrum (MetaMask)";
   "Shield on Stellar + ZK proof (backend)"].
(** The patches given to [setStep]. *)
Definition running (s : Step) : Step := mkStep (label s) Running (detail s) (tx s) (chain s).
Definition runningWith (d : string) (s : Step) : Step := mkStep (label s) Running (Some d) (tx s) (chain s).
Definition doneWith (d : string) (s : Step) : Step := mkStep (label s) Done (Some d) (tx s) (chain s).
Definition doneTx (h : string) (s : Step) : Step := mkStep (label s) Done (detail s) (Some h) (Some Arb).
Definition failedStep (s : Step) : Step :=
  match status s with Running => mkStep (label s) Errored (detail s) (tx s) (chain s) | _ => s end.

(** ** The wallet

    Its calls may be refused.  [parseAbi] is viem's, on one signature. *)
Inductive Arg := ABig (n : Z) | AVal (j : json).
(** [/^\d+$/]. *)
Definition coerce (j : json) : Arg :=
  match j with JStr s => if truthy s && allChars isDigit s then match BigInt s with Ok n => ABig n | Throw _ => AVal j end else AVal j | _ => AVal j end.
Record Call := mkCall { to : json; abi : json; functionName : string; args : list Arg }.
Record Gas := mkGas { maxFeePerGas : Z; maxPriorityFeePerGas : Z }.
Record EvmWallet := mkEvmWallet {
  address : string; switchChain : Z -> Z -> result unit; getEthereumProvider : Z -> result unit; estimateFees : Z -> result Gas;
  parseAbi : json -> result unit; writeContract : Z -> Call -> Gas -> result string; waitForReceipt : Z -> string -> result unit }.

Section Page.
Context `{WebClient.Server} `{Uuid} `{Sha256} (statusText : Z -> string).
(** [written] are the calls the wallet was asked to sign. *)
Record Page := mkPage {
  busy : bool; steps : list Step; jobId : option string; zk : Moves.ZkState; error : option string; invalidated : list string;
  backend : WebClient.serverState; tick : Z; written : list Call }.
Definition setBusy (b : bool) : M Page unit :=
  modifyM (fun p => mkPage b (steps p) (jobId p) (zk p) (error p) (invalidated p) (backend p) (tick p) (written p)).
Definition setSteps (f : list Step -> list Step) : M Page unit :=
  modifyM (fun p => mkPage (busy p) (f (steps p)) (jobId p) (zk p) (error p) (invalidated p) (backend p) (tick p) (written p)).
Definition setJobId (j : option string) : M Page unit :=
  modifyM (fun p => mkPage (busy p) (steps p) j (zk p) (error p) (invalidated p) (backend p) (tick p) (written p)).
Definition setZk (f : Moves.ZkState -> Moves.ZkState) : M Page unit :=
  modifyM (fun p => mkPage (busy p) (steps p) (jobId p) (f (zk p)) (error p) (invalidated p) (backend p) (tick p) (written p)).
Definition setError (e : option string) : M Page unit :=
  modifyM (fun p => mkPage (busy p) (steps p) (jobId p) (zk p) e (invalidated p) (backend p) (tick p) (written p)).
Definition invalidate (q : string) : M Page unit :=
  modifyM (fun p => mkPage (busy p) (steps p) (jobId p) (zk p) (error p) (invalidated p ++ [q]) (backend p) (tick p) (written p)).
Definition setStep (i : nat) (f : Step -> Step) : M Page unit := setSteps (alter f i).
Definition ask {A} (f : Z -> result A) : M Page A := fun p =>
  (f (tick p), mkPage (busy p) (steps p) (jobId p) (zk p) (error p) (invalidated p) (backend p) (tick p + 1) (written p)).
Definition req (verb path : string) (key : option string) (body : json) : M Page json := fun p =>
  let '(r, s) := Moves.request statusText (backend p) verb path key body in
  (r, mkPage (busy p) (steps p) (jobId p) (zk p) (error p) (invalidated p) s (tick p) (written p)).
Definition dot (j : json) (f : string) : M Page json := liftR (Moves.dotOf j f).
(** [x.slice(0, n)] in a template. *)
Definition sliced (n : nat) (j : json) : M Page string :=
  match j with
  | JStr s => mret (sliceTo n s)
  | JNull => failM "Cannot read properties of undefined (reading 'slice')"
  | _ => failM "slice is not a function"
  end.

(** ** run *)
Definition newIdempotencyKey (k : Z) : string := filterString (fun c => negb (c ==? "-"%char)) (uuidOf k).
Definition prepareBody (address : string) (vaultId commitment : json) : json := JObj
  [("amount_usdc_6dp", JStr BURN_6DP); ("source_chain", JStr "arbitrum-sepolia"); ("source_wallet_address", JStr address);
   ("vault_id", vaultId); ("commitment", commitment); ("encrypted_note_payload_hash", commitment);
   ("policy_id", JStr ("0x" +:+ sliceTo 64 (sha256 POLICY)))].
Definition reportBody (address hash : string) : json := JObj
  [("burn_tx_hash", JStr hash); ("source_chain", JStr "arbitrum-sepolia"); ("source_wallet_address", JStr address)].
Definition arbitrumSepoliaId : Z := 421614.
(** One transaction: asked of the wallet, and waited for. *)
Definition write (w : EvmWallet) (i : nat) (request : json) (fn : string) (gas : Gas) : M Page string :=
  setStep i (runningWith "confirm in MetaMask") ;;
  guardM (negb (bool_decide (request = JNull))) (Error None "Cannot read properties of undefined (reading 'to')") ;;
  liftR (parseAbi w (field request "abi")) ;;
  args ← match field request "args" with
    | JArr l => mret (map coerce l)
    | _ => failM "Cannot read properties of undefined (reading 'map')"
    end;
  let c := mkCall (field request "to") (field request "abi") fn args in
  modifyM (fun p => mkPage (busy p) (steps p) (jobId p) (zk p) (error p) (invalidated p) (backend p) (tick p) (written p ++ [c])) ;;
  h ← ask (fun k => writeContract w k c gas);
  ask (fun k => waitForReceipt w k h) ;;
  setStep i (doneTx h) ;;
  mret h.
Definition noteActive (job : json) : M Page unit :=
  let hash := match field (field job "result") "receiveDepositTxHash" with JNull => "" | j => Cctp.stringOf j end in
  setStep 4 (doneWith ("note active · leaf " +:+ Cctp.stringOf (field (field job "result") "leafIndex"))) ;;
  setZk (fun z => Moves.mkZk (Moves.circuit z) (Moves.verifier z) (Moves.proving z) true (Some hash) (Moves.nullifier z) (Moves.publicSignals z)) ;;
  invalidate "my-notes" ;;
  invalidate "activity".
(** The job is asked for at most [n] times. *)
Fixpoint followJob (n : nat) (id : string) : M Page unit :=
  match n with
  | O => mret tt
  | S n =>
      job ← req "GET" ("/v1/jobs/" +:+ id) None JNull;
      status ← dot job "status";
      if status ==? JStr "ready" then noteActive job
      else if status ==? JStr "failed"
      then failM (match field job "error" with JNull => "relayer job failed" | e => Cctp.stringOf e end)
      else followJob n id
  end.
Definition POLLS : nat := 240.
(** Both transactions, the report, and its job. *)
Definition pay (w : EvmWallet) (prep id : json) : M Page unit :=
  ask (fun k => switchChain w k arbitrumSepoliaId) ;;
  ask (getEthereumProvider w) ;;
  fee ← ask (estimateFees w);
  let gas := mkGas (maxFeePerGas fee * 2) (maxPriorityFeePerGas fee) in
  write w 2 (field prep "approval_tx_request") "approve" gas ;;
  burnHash ← write w 3 (field prep "burn_tx_request") "depositForBurnWithHook" gas;
  setStep 4 running ;;
  submit ← req "POST" ("/v1/deposits/" +:+ Cctp.stringOf id +:+ "/burn-submitted") None (reportBody (address w) burnHash);
  job_id ← dot submit "job_id";
  setJobId (Moves.idOf job_id) ;;
  followJob POLLS (Moves.inPath job_id).
Definition shield (vault : json) (w : EvmWallet) : M Page unit :=
  setStep 0 running ;;
  coin ← req "POST" "/v1/notes/coin" None JNull;
  commitment ← dot coin "commitment";
  short ← sliced 10 commitment;
  setStep 0 (doneWith (short +:+ "…")) ;;
  setZk (fun z => Moves.mkZk (Moves.circuit z) (Moves.verifier z) (Moves.proving z) (Moves.verifiedOnChain z) (Moves.zkTx z) (Moves.nullifier z)
    [("commitment", Cctp.stringOf commitment)]) ;;
  setStep 1 running ;;
  key ← ask (fun k => Ok (newIdempotencyKey k));
  prep ← req "POST" "/v1/deposits/prepare" (Some key) (prepareBody (address w) (field vault "vault_id") commitment);
  id ← dot prep "deposit_id";
  shortId ← sliced 12 id;
  setStep 1 (doneWith shortId) ;;
  pay w prep id.
Definition guarded (m : M Page unit) : M Page unit :=
  catchM m (fun e => setError (Some (message e)) ;; setSteps (map failedStep)) ;; setBusy false.
Definition run (readyVault : option json) (userId : option string) (evmWallet : option EvmWallet) (verifier : option string) : M Page unit :=
  match readyVault, truthyOpt userId, evmWallet with
  | Some vault, Some _, Some w =>
      setBusy true ;; setError None ;; setJobId None ;;
      setZk (fun _ => Moves.mkZk "deposit_note_mint" verifier false false None None []) ;;
      setSteps (fun _ => init) ;;
      guarded (shield vault w)
  | _, _, _ => mret tt
  end.

(** ** How far a run is

    [shows k r n]: the first [k] steps are done, the next one running if [r],
    and the wallet has been asked for [n] of the two calls of a reply [prep]
    to the request that prepares the deposit. *)
Definition callOf (request : json) (fn : string) : Call :=
  mkCall (field request "to") (field request "abi") fn (match field request "args" with JArr l => map coerce l | _ => [] end).
Definition callsOf (prep : json) : list Call :=
  [callOf (field prep "approval_tx_request") "approve"; callOf (field prep "burn_tx_request") "depositForBurnWithHook"].
Definition statuses (k : nat) (mid : list StepStatus) : list StepStatus := replicate k Done ++ mid ++ replicate (5 - k - length mid) Idle.
Record shows (calls : list Call) (k : nat) (mid : list StepStatus) (verified : bool) (p : Page) : Prop := {
  sh_steps : status <$> steps p = statuses k mid;
  sh_calls : written p = calls;
  sh_error : error p = None;
  sh_verified : Moves.verifiedOnChain (zk p) = verified }.
Definition ensures {A} (P : Page -> Prop) (m : M Page A) (Q : A -> Page -> Prop) (E : Page -> Prop) : Prop :=
  forall p, P p -> match m p with (Ok a, p') => Q a p' | (Throw _, p') => E p' end.
Lemma ensures_bind {A B} P (m : M Page A) Q (f : A -> M Page B) R E :
  ensures P m Q E -> (forall a, ensures (Q a) (f a) R E) -> ensures P (a ← m; f a) R E.
Proof. intros Hm Hf p Hp. specialize (Hm p Hp). rewrite bind_run. destruct (m p) as [[a|e] p']; [by apply (Hf a)|done]. Qed.
Lemma ensures_same {A} P (m : M Page A) (E : Page -> Prop) : preserves P m -> (forall p, P p -> E p) -> ensures P m (fun _ => P) E.
Proof. intros Hm He p Hp. specialize (Hm p Hp). destruct (m p) as [[a|e] p']; [done|by apply He]. Qed.
Lemma ensures_pre {A} (P P' : Page -> Prop) (m : M Page A) Q E : (forall p, P' p -> P p) -> ensures P m Q E -> ensures P' m Q E.
Proof. intros Hp Hm p Hp'. by apply Hm, Hp. Qed.
Lemma ensures_set c k mid k' mid' v i f st E : (forall s, status (f s) = st) -> alter (fun _ => st) i (statuses k mid) = statuses k' mid' ->
  ensures (shows c k mid v) (setStep i f) (fun _ => shows c k' mid' v) E.
Proof.
  intros Hf Ha p [Hs Hc He Hv]. cbn. split; [|done..]. cbn [steps]. rewrite <- Ha, <- Hs.
  apply (list_fmap_alter status f (fun _ => st)), Forall_true. exact Hf.
Qed.
Lemma same_req c k mid v verb path key body : preserves (shows c k mid v) (req verb path key body).
Proof. intros p [Hs Hc He Hv]. unfold req. destruct (Moves.request _ _ _ _ _ _) as [r s]. by split. Qed.
Lemma same_request {A} c k mid v (f : Z -> result A) : preserves (shows c k mid v) (ask f).
Proof. intros p [Hs Hc He Hv]. by split. Qed.
Lemma same_dot c k mid v j f : preserves (shows c k mid v) (dot j f).
Proof. apply preserves_lift. Qed.
Lemma same_sliced c k mid v n j : preserves (shows c k mid v) (sliced n j).
Proof. unfold sliced. destruct j; first [apply preserves_ret|apply preserves_throw]. Qed.
(** How a run stops before its end. *)
Definition fromReply (prep : json) : Prop :=
  exists s key body s', Moves.request statusText s "POST" "/v1/deposits/prepare" key body = (Ok prep, s').
Definition stuck (calls : list Call) (p : Page) : Prop := exists prep k mid n,
  shows (calls ++ take n (callsOf prep)) k mid false p /\ (k < 5)%nat /\ (mid = [Running] \/ mid = [] /\ k = 2%nat) /\ (n <= k - 1)%nat /\
  (n ≠ 0%nat -> fromReply prep).
Definition ended (calls : list Call) (p : Page) : Prop := exists prep, fromReply prep /\
  (shows (calls ++ callsOf prep) 5 [] true p \/ shows (calls ++ callsOf prep) 4 [Running] false p).
Lemma early_stuck calls k p : (k < 2)%nat -> shows calls k [Running] false p -> stuck calls p.
Proof.
  intros Hk Hs. exists JNull, k, [Running], 0%nat. cbn [take]. rewrite app_nil_r. split; [done|]. split; [lia|]. split; [by left|]. split; [lia|done].
Qed.
Lemma stuck_at calls prep k n p : fromReply prep -> (k < 5)%nat -> (n <= k - 1)%nat ->
  shows (calls ++ take n (callsOf prep)) k [Running] false p -> stuck calls p.
Proof. intros Hp Hk Hn Hs. exists prep, k, [Running], n. split; [done|]. split; [done|]. split; [by left|]. by split. Qed.
(** One transaction. *)
Lemma ensures_write calls prep w i request fn gas n : fromReply prep -> callsOf prep !! n = Some (callOf request fn) ->
  (i = n + 2)%nat -> (n < 2)%nat ->
  ensures (shows (calls ++ take n (callsOf prep)) i [] false) (write w i request fn gas)
    (fun _ => shows (calls ++ take (S n) (callsOf prep)) (S i) [] false) (stuck calls).
Proof.
  intros Hr Hn -> Hlt. assert (forall p, shows (calls ++ take n (callsOf prep)) (n + 2) [Running] false p -> stuck calls p) as He
    by (intros p; apply stuck_at; [done|lia|lia]).
  assert (forall p, shows (calls ++ take (S n) (callsOf prep)) (n + 2) [Running] false p -> stuck calls p) as He'
    by (intros p; apply stuck_at; [done|lia|lia]).
  unfold write. eapply ensures_bind; [apply (ensures_set _ _ _ (n + 2) [Running] _ _ _ Running); [done|]|intros ?; cbv beta].
  { destruct n as [|[|]]; [reflexivity|reflexivity|lia]. }
  eapply ensures_bind; [apply ensures_same; [apply preserves_guard|exact He]|intros ?; cbv beta].
  eapply ensures_bind; [apply ensures_same; [apply preserves_lift|exact He]|intros ?; cbv beta].
  eapply (ensures_bind _ _ (fun args p => shows (calls ++ take n (callsOf prep)) (n + 2) [Running] false p /\
    args = match field request "args" with JArr l => map coerce l | _ => [] end)).
  { intros p Hp. destruct (field request "args"); first [by apply He|by split]. }
  intros args. eapply (ensures_bind _ _ (fun _ => shows (calls ++ take (S n) (callsOf prep)) (n + 2) [Running] false)).
  { intros p [[Hs Hc Her Hv] ->]. rewrite (take_S_r _ _ _ Hn), (assoc_L (++)), <- Hc. by split. }
  intros ?. eapply ensures_bind; [apply ensures_same; [apply same_request|exact He']|intros h; cbv beta].
  eapply ensures_bind; [apply ensures_same; [apply same_request|exact He']|intros ?; cbv beta].
  eapply ensures_bind; [apply (ensures_set _ _ _ (S (n + 2)) [] _ _ _ Done); [done|]|].
  { destruct n as [|[|]]; [reflexivity|reflexivity|lia]. }
  intros u. intros p Hp. exact Hp.
Qed.
Lemma ensures_job calls prep n id : fromReply prep ->
  ensures (shows (calls ++ callsOf prep) 4 [Running] false) (followJob n id) (fun _ => ended calls) (stuck calls).
Proof.
  intros Hr. assert (forall p, shows (calls ++ callsOf prep) 4 [Running] false p -> stuck calls p) as He
    by (intros p; apply (stuck_at _ prep 4 2); [done|lia|lia]).
  induction n as [|n IH]; cbn [followJob].
  { intros p Hp. exists prep. split; [done|by right]. }
  eapply ensures_bind; [apply ensures_same; [apply same_req|exact He]|intros job; cbv beta].
  eapply ensures_bind; [apply ensures_same; [apply same_dot|exact He]|intros st; cbv beta].
  destruct (st ==? JStr "ready"); [|destruct (st ==? JStr "failed"); [intros p; apply He|exact IH]].
  unfold noteActive. eapply ensures_bind; [apply (ensures_set _ _ _ 5 [] _ _ _ Done); [done|reflexivity]|intros ?; cbv beta].
  intros p [Hs Hc Her Hv]. exists prep. split; [done|]. left. by split.
Qed.
Lemma ensures_pay calls prep w id : fromReply prep -> ensures (shows calls 2 [] false) (pay w prep id) (fun _ => ended calls) (stuck calls).
Proof.
  intros Hr. unfold pay.
  assert (forall p, shows calls 2 [] false p -> stuck calls p) as He2.
  { intros p Hp. exists prep, 2%nat, [], 0%nat. cbn [take]. rewrite app_nil_r. split; [done|]. split; [lia|]. split; [by right|]. by split; [lia|]. }
  do 3 (eapply ensures_bind; [apply ensures_same; [apply same_request|exact He2]|intros ?; cbv beta]).
  eapply ensures_bind.
  { eapply ensures_pre; [|apply (ensures_write calls prep w 2 _ _ _ 0 Hr eq_refl eq_refl); lia]. intros p Hp. cbn [take]. by rewrite app_nil_r. }
  intros ?; cbv beta. eapply ensures_bind; [apply (ensures_write calls prep w 3 _ _ _ 1 Hr eq_refl eq_refl); lia|intros h; cbv beta].
  change (take 2 (callsOf prep)) with (callsOf prep).
  assert (forall p, shows (calls ++ callsOf prep) 4 [Running] false p -> stuck calls p) as He4
    by (intros p; apply (stuck_at _ prep 4 2); [done|lia|lia]).
  eapply ensures_bind; [by apply (ensures_set _ _ _ 4 [Running] _ _ _ Running)|intros ?; cbv beta].
  eapply ensures_bind; [apply ensures_same; [apply same_req|exact He4]|intros submit; cbv beta].
  eapply ensures_bind; [apply ensures_same; [apply same_dot|exact He4]|intros job_id; cbv beta].
  eapply (ensures_bind _ _ (fun _ => shows (calls ++ callsOf prep) 4 [Running] false)); [intros p [Hs Hc Her Hv]; by split|intros ?].
  by apply ensures_job.
Qed.
(** A run starts with the steps of [init] and ends so. *)
Lemma ensures_shield calls vault w : ensures (shows calls 0 [] false) (shield vault w) (fun _ => ended calls) (stuck calls).
Proof.
  unfold shield. assert (forall k p, (k < 2)%nat -> shows calls k [Running] false p -> stuck calls p) as He by apply early_stuck.
  eapply ensures_bind; [by apply (ensures_set _ _ _ 0 [Running] _ _ _ Running)|intros ?; cbv beta].
  eapply ensures_bind; [apply ensures_same; [apply same_req|intros p; apply He; lia]|intros coin; cbv beta].
  eapply ensures_bind; [apply ensures_same; [apply same_dot|intros p; apply He; lia]|intros commitment; cbv beta].
  eapply ensures_bind; [apply ensures_same; [apply same_sliced|intros p; apply He; lia]|intros short; cbv beta].
  eapply ensures_bind; [by apply (ensures_set _ _ _ 1 [] _ _ _ Done)|intros ?; cbv beta].
  eapply (ensures_bind _ _ (fun _ => shows calls 1 [] false)); [intros p [Hs Hc Her Hv]; by split|intros ?].
  eapply ensures_bind; [by apply (ensures_set _ _ _ 1 [Running] _ _ _ Running)|intros ?; cbv beta].
  eapply ensures_bind; [apply ensures_same; [apply same_request|intros p; apply He; lia]|intros key; cbv beta].
  eapply (ensures_bind _ _ (fun prep p => shows calls 1 [Running] false p /\ fromReply prep)).
  { intros p Hp. pose proof (same_req calls 1 [Running] false "POST" "/v1/deposits/prepare" (Some key)
      (prepareBody (address w) (field vault "vault_id") commitment) p Hp) as Hq. revert Hq. unfold req.
    destruct (Moves.request _ _ _ _ _ _) as [[prep|e] s'] eqn:Er; cbn [snd]; intros Hq; [|by apply (He 1%nat); [lia|]].
    split; [done|]. by eexists _, _, _, _. }
  intros prep. intros p [Hp Hr]. revert p Hp.
  match goal with |- forall p, _ -> match ?m p with _ => _ end => change (ensures (shows calls 1 [Running] false) m (fun _ => ended calls) (stuck calls)) end.
  eapply ensures_bind; [apply ensures_same; [apply same_dot|intros p; apply He; lia]|intros id; cbv beta].
  eapply ensures_bind; [apply ensures_same; [apply same_sliced|intros p; apply He; lia]|intros shortId; cbv beta].
  eapply ensures_bind; [by apply (ensures_set _ _ _ 2 [] _ _ _ Done)|intros ?; cbv beta].
  by apply ensures_pay.
Qed.
Lemma failed_statuses k mid l : status <$> l = statuses k mid -> (k < 5)%nat -> mid = [Running] \/ mid = [] /\ k = 2%nat ->
  status <$> map failedStep l = statuses k (map (fun _ => Errored) mid).
Proof.
  intros Hl Hk Hm. assert (status <$> map failedStep l = (fun st => match st with Running => Errored | _ => st end) <$> (status <$> l)) as ->.
  { clear. induction l as [|[? [] ? ? ?] l IH]; [done|..]; cbn; by f_equal. }
  rewrite Hl. destruct Hm as [->|[-> ->]]; [|done]. do 5 (destruct k as [|k]; [done|]). lia.
Qed.
(** A run ends with the button free: with all steps done and the proof shown as
    verified; or, after the last question, with the last step running and
    nothing said; or with an error, after [k] steps, and the step that was
    running marked, if one was.  The wallet has been asked for the calls of
    one answer to the preparation, in their order: both, none, or only the
    approval. *)
Definition settled (calls : list Call) (p : Page) : Prop :=
  busy p = false /\ exists prep, (
    (fromReply prep /\ written p = calls ++ callsOf prep /\ error p = None /\
      ((status <$> steps p = replicate 5 Done /\ Moves.verifiedOnChain (zk p) = true) \/
       (status <$> steps p = replicate 4 Done ++ [Running] /\ Moves.verifiedOnChain (zk p) = false))) \/
    exists k mid n msg, (k < 5)%nat /\ (mid = [Errored] \/ mid = [] /\ k = 2%nat) /\ (n <= k - 1)%nat /\ (n ≠ 0%nat -> fromReply prep) /\
      written p = calls ++ take n (callsOf prep) /\ error p = Some msg /\ status <$> steps p = statuses k mid /\
      Moves.verifiedOnChain (zk p) = false).
Lemma run_settles vault user w verifier p : user ≠ "" -> settled (written p) (run (Some vault) (Some user) (Some w) verifier p).2.
Proof.
  intros Hu. unfold run. assert (truthyOpt (Some user) = Some user) as -> by (by destruct user).
  unfold setBusy, setError, setJobId, setZk, setSteps. do 5 (rewrite bind_run; unfold modifyM at 1; cbv beta iota).
  match goal with |- settled _ (_ ?q).2 => set (p0 := q); assert (shows (written p) 0 [] false p0) as Hp0 by done end.
  pose proof (ensures_shield (written p) vault w p0 Hp0) as Hs. unfold guarded. rewrite bind_run. unfold catchM.
  destruct (shield vault w p0) as [[u|e] q]; cbn.
  - destruct Hs as (prep & Hr & [[Hst Hw He Hv]|[Hst Hw He Hv]]); (split; [done|]); exists prep; left; split_and!; try done; [by left|by right].
  - destruct Hs as (prep & k & mid & n & [Hst Hw He Hv] & Hk & Hm & Hn & Hr). split; [done|]. exists prep. right.
    exists k, (map (fun _ => Errored) mid), n, (message e). split_and!; try done.
    + destruct Hm as [->|[-> ->]]; [by left|by right].
    + cbn [steps]. by apply failed_statuses.
Qed.

(** ** A validated burn is shown as an active note

    The ready job of a user's burn holds [validatedReply], with no hash and no
    leaf; the page says the note is active, on leaf undefined, and shows the
    proof as verified on chain. *)
Lemma validated_shown hash v job p : field job "result" = DepositFlow.validatedReply hash v -> status <$> steps p = statuses 4 [Running] ->
  let p' := (noteActive job p).2 in
  status <$> steps p' = replicate 5 Done /\ detail <$> steps p' !! 4%nat = Some (Some "note active · leaf undefined") /\
  Moves.verifiedOnChain (zk p') = true /\ Moves.zkTx (zk p') = Some "".
Proof.
  intros Hr Hs. destruct p as [bz l jid z er inv bk tk wr]. cbn [steps] in Hs. destruct l as [|s0 [|s1 [|s2 [|s3 [|s4 [|]]]]]]; try discriminate Hs.
  destruct s0, s1, s2, s3, s4. injection Hs as -> -> -> -> ->. unfold noteActive. rewrite Hr. repeat split.
Qed.
End Page.
(** What the page takes of its hooks. *)
Definition readyVault (vaults : list json) : option json := List.find WebClient.isDepositReady vaults.
Definition evmWallet (wallets : list EvmWallet) : option EvmWallet := List.find (fun w => startsWith (address w) "0x") wallets.

(** ** The calls of the API's reply *)
Definition hexText (s : string) : Prop := exists t, s = "0x" +:+ t.
Lemma coerce_hex s : hexText s -> coerce (JStr s) = AVal (JStr s).
Proof. by intros [t ->]. Qed.
Lemma coerce_amount n : 0 <= n -> coerce (JStr (toString n)) = ABig n.
Proof.
  intros Hn. unfold coerce. rewrite BigInt_toString.
  assert (truthy (toString n) && allChars isDigit (toString n) = true) as ->; [|done]. unfold toString. destruct n as [|q|]; [done| |lia].
  pose proof (isDigit_pretty_N (N.pos q)) as Hd. apply andb_true_iff. split; [|exact Hd].
  pose proof (BigInt_toString (Z.pos q)) as Hb. unfold toString in Hb. by destruct (pretty (Z.pos q)).
Qed.
(** What the wallet is asked to sign is what the API asks for: the amount and
    the fee as integers, everything else as it came. *)
Lemma reply_calls id usdc messenger pool recipient hook amount6 : 0 <= amount6 ->
  hexText usdc -> hexText messenger -> hexText recipient -> hexText hook ->
  map args (callsOf (RoutesVault.deposit_prepare_reply id usdc messenger pool recipient recipient hook amount6)) =
    [[AVal (JStr messenger); ABig amount6];
     [ABig amount6; AVal (JNum Cctp.stellarDomain); AVal (JStr recipient); AVal (JStr usdc); AVal (JStr recipient);
      ABig (RoutesVault.maxFeeOf amount6); AVal (JNum Cctp.FINALITY_THRESHOLD_CONFIRMED); AVal (JStr hook)]].
Proof.
  intros Ha Hu Hm Hr Hh. assert (0 <= RoutesVault.maxFeeOf amount6) as Hf.
  { unfold RoutesVault.maxFeeOf. destruct (Z.ltb_spec 0 (Z.quot amount6 1000)); lia. }
  unfold callsOf, callOf. cbn [map args].
  change (field (field (RoutesVault.deposit_prepare_reply id usdc messenger pool recipient recipient hook amount6) "approval_tx_request") "args")
    with (JArr [JStr messenger; JStr (toString amount6)]).
  change (field (field (RoutesVault.deposit_prepare_reply id usdc messenger pool recipient recipient hook amount6) "burn_tx_request") "args")
    with (JArr [JStr (toString amount6); JNum Cctp.stellarDomain; JStr recipient; JStr usdc; JStr recipient;
             JStr (toString (RoutesVault.maxFeeOf amount6)); JNum Cctp.FINALITY_THRESHOLD_CONFIRMED; JStr hook]).
  cbv iota. cbn [map]. by rewrite !coerce_amount, !coerce_hex by done.
Qed.

(** ** Against the API

    It has no route that makes a note: no run passes the first step, nothing is
    asked of the wallet and nothing is changed. *)
Section OnApi.
Context `{Env} `{Uuid} {zod : Schemas.Zod} `{Privy.WebKeys} `{Fetch} `{Sha256}.
Context `{Random} `{ApiAuth.Wallets} `{Ids.LocaleCompare} `{Cctp.StrKey} `{NoteCrypto.Poseidon} `{StellarActions.SorobanRpc} `{Keypair} `{Nacl} `{KeyGen}.
Context {fastify : ApiVault.Fastify} `{Moves.FastifyShape} (token : string) (statusText : Z -> string).
#[local] Instance onApi : WebClient.Server := ApiVault.apiServer token.
Lemma run_refused vault user w verifier (p : Page) : user ≠ "" ->
  let p' := (run statusText (Some vault) (Some user) (Some w) verifier p).2 in
  error p' = Some "Not Found" /\ status <$> steps p' = statuses 0 [Errored] /\ busy p' = false /\ written p' = written p /\
  Moves.verifiedOnChain (zk p') = false /\ backend p' = backend p.
Proof.
  intros Hu. unfold run. assert (truthyOpt (Some user) = Some user) as -> by (by destruct user).
  unfold setBusy, setError, setJobId, setZk, setSteps. do 5 (rewrite bind_run; unfold modifyM at 1; cbv beta iota).
  unfold guarded, shield, req, Moves.request, catchM, mbind, M_bind. cbn -[ApiVault.answer].
  rewrite (Moves.unrouted_answer _ "POST" "/v1/notes/coin" _ _ (backend p)) by (apply Moves.moves_unrouted; right; right; right; left). done.
Qed.
End OnApi.
End DepositPage.
