(* ===== verification/Checkout.v ===== *)
(** * The checkout of the web application, on the API (apps/web, apps/api)

    The deposit page of apps/web in front of the modelled API: what the API
    answers is what its handlers did, so the run of the page is one of the
    histories of DepositFlow.  Theorem: a checkout that goes through has asked
    the wallet for a burn that the relayer will validate. *)
From S2P Require Import Prelude JsText JsCollections Json Crypto Ids JobQueue Database WellTyped Records Runtime Host StellarUtils Proving Evm NoteVault Store Privy Schemas ApiAuth Cctp CctpInbound NoteCrypto StellarActions RoutesAccount RoutesVault ApiTypes Api Leaves Worker Relayer WebClient VaultRestore ApiVault DepositFlow DepositRun.
From Stdlib Require Import Ascii.
Import JsText Json Crypto Database WellTyped Records Runtime Privy ApiAuth ApiTypes DepositFlow DepositRun.
Import (hints) ApiVault Evm.

Module Checkout.

(** ** The two routes do not fail with success *)
Section Refusals.
Context `{Env} `{Uuid} {zod : Schemas.Zod} `{WebKeys} `{Fetch} `{Sha256} `{Cctp.StrKey}.
Lemma bearer_extracted token kh ps b : extractPrivyAccessToken (mkRequest (ApiVault.bearer token ++ kh) ps [] b) = Ok (Some (trim token)).
Proof.
  unfold extractPrivyAccessToken, tokenOf, header. cbn [headers ApiVault.bearer JsMap.get app]. rewrite bool_decide_true by done.
  change (startsWith ("Bearer " +:+ token) "Bearer ") with (startsWith token ""). replace (startsWith token "") with true by (by destruct token).
  reflexivity.
Qed.
Lemma refuses_bearer token kh ps b : ApiVault.refuses (requirePrivyUser (mkRequest (ApiVault.bearer token ++ kh) ps [] b)).
Proof.
  unfold requirePrivyUser. rewrite bearer_extracted. apply ApiVault.refuses_bind; [by apply ApiVault.refuses_lift|]. intros t.
  destruct (truthyOpt t) as [t'|]; [|auto with refuses]. apply ApiVault.refuses_bind; [auto with refuses|]. intros c. cbn.
  apply ApiVault.refuses_bind; [|auto with refuses]. apply ApiVault.refuses_onStore, ApiVault.refuses_upsert.
Qed.
#[local] Hint Resolve ApiVault.refuses_onStore ApiVault.refuses_update ApiVault.refuses_insert ApiVault.refuses_select ApiVault.refuses_now
  ApiVault.refuses_activity ApiVault.refuses_parse : refuses.
Lemma refuses_BigInt s : ApiVault.refuses (liftR (BigInt s) : M Api Z).
Proof. apply ApiVault.refuses_lift. unfold BigInt. destruct (parseBigInt s); [done|]. by intros e [= <-]. Qed.
Lemma refuses_bytes32 s : ApiVault.refuses (liftR (Cctp.stellarContractToBytes32 s) : M Api string).
Proof. apply ApiVault.refuses_lift. unfold Cctp.stellarContractToBytes32. destruct (Cctp.decodeContract s); [done|]. by intros e [= <-]. Qed.
Lemma refuses_hook s : ApiVault.refuses (liftR (Cctp.encodeStellarForwardHook s) : M Api string).
Proof. apply ApiVault.refuses_lift. unfold Cctp.encodeStellarForwardHook. case_match; [|done]. by intros e [= <-]. Qed.
#[local] Hint Resolve refuses_BigInt refuses_bytes32 refuses_hook : refuses.
Lemma refuses_guards u b : ApiVault.refuses (RoutesVault.depositGuards u b).
Proof.
  unfold RoutesVault.depositGuards, assertRootHealthy, Store.userOwnsWallet, Store.userOwnsVault, Store.vaultDepositReady,
    Store.criticalRootMismatchCount, selectFirst.
  repeat first [ apply ApiVault.refuses_bind; [|intros ?] | solve [auto with refuses] | apply ApiVault.refuses_onStore | progress case_match ].
Qed.
Lemma refuses_prepare token kh ps b : ApiVault.refuses (RoutesVault.post_deposits_prepare (mkRequest (ApiVault.bearer token ++ kh) ps [] b)).
Proof.
  unfold RoutesVault.post_deposits_prepare, idem, Store.createUserDeposit, logActivity. apply ApiVault.refuses_bind; [apply refuses_bearer|]. intros u.
  repeat first [ apply refuses_guards | apply ApiVault.refuses_bind; [|intros ?] | solve [auto with refuses] | apply ApiVault.refuses_onStore ].
Qed.
Lemma refuses_enqueue q t p k : ApiVault.refuses (enqueueJob q t p k).
Proof.
  unfold enqueueJob, randomUUID. apply ApiVault.refuses_bind; [|intros u].
  - apply ApiVault.refuses_onStore. by apply ApiVault.refuses_total; intros w; eexists.
  - apply ApiVault.refuses_onStore. intros w e w' E. unfold onQueue in E.
    assert (ApiVault.refuses (JobQueue.enqueue u q t p k)) as Hq; [|destruct (JobQueue.enqueue u q t p k (queueDB w)) as [r q'] eqn:Eq;
      injection E as -> _; by eapply Hq].
    unfold JobQueue.enqueue. apply ApiVault.refuses_bind; [|intros [row|]; [auto with refuses|]].
    { destruct (truthyOpt k); [by apply ApiVault.refuses_total; intros d; eexists|auto with refuses]. }
    apply ApiVault.refuses_bind; [|intros row; apply ApiVault.refuses_bind; [|auto with refuses]].
    + intros d er d'. unfold JobQueue.insertJob. destruct (_ || _); [by intros [= <- _]|done].
    + intros d er d'. unfold JobQueue.event. destruct (existsb _ _); [done|by intros [= <- _]].
Qed.
Lemma refuses_report token kh ps b : ApiVault.refuses (RoutesVault.post_burn_submitted (mkRequest (ApiVault.bearer token ++ kh) ps [] b)).
Proof.
  unfold RoutesVault.post_burn_submitted, Store.getDepositForUser, Store.setDepositBurnTx, selectFirst. apply ApiVault.refuses_bind; [apply refuses_bearer|]. intros u.
  repeat first [ apply refuses_enqueue | apply ApiVault.refuses_bind; [|intros ?] | solve [auto with refuses] | apply ApiVault.refuses_onStore
    | progress case_match ].
Qed.
End Refusals.

(** ** The requests of the page

    Identifiers of letters, digits, dashes and underscores arrive as sent. *)
Definition depositIdChar (c : ascii) : bool := ApiVault.plainChar c || (c ==? "_"%char).
Definition depositIdOk (id : string) : bool := truthy id && allChars depositIdChar id.
Definition reportPath (id : string) : string := "/v1/deposits/" +:+ id +:+ "/burn-submitted".
Class CheckoutRoutes {fastify : ApiVault.Fastify} : Prop := {
  route_sync : ApiVault.findRoute "POST" "/v1/me/wallets/sync-privy" = Some ("POST /v1/me/wallets/sync-privy", []);
  route_prepare : ApiVault.findRoute "POST" "/v1/deposits/prepare" = Some ("POST /v1/deposits/prepare", []);
  route_report id : depositIdOk id = true ->
    ApiVault.findRoute "POST" (reportPath id) = Some ("POST /v1/deposits/:deposit_id/burn-submitted", [("deposit_id", id)]);
  body_sent kvs : ApiVault.jsonBody "POST" (JObj kvs) = Ok (JObj kvs) }.

Section Served.
Context {env : Env} {uuid : Uuid} {zod : Schemas.Zod} {keys : WebKeys} {apiFetch : Fetch} {sha : Sha256}
  {apiRandom : Random} {wallets : Wallets} {locale : Ids.LocaleCompare} {strkey : Cctp.StrKey} {poseidon : NoteCrypto.Poseidon}
  {apiRpc : StellarActions.SorobanRpc} {keypair : Keypair} {nacl : Nacl} {keygen : KeyGen}.
Context {fastify : ApiVault.Fastify} {checkoutRoutes : @CheckoutRoutes fastify} (token : string).
#[local] Instance served : WebClient.Server := ApiVault.apiServer token.
Lemma answer_lives verb path key b w : lives w (ApiVault.answer token w verb path key b).2.
Proof.
  unfold ApiVault.answer. destruct (ApiVault.findRoute verb path) as [[name ps]|]; [|apply lives_none].
  destruct (JsMap.get Api.routes name) as [h|] eqn:Eh; [|apply lives_none]. destruct (ApiVault.jsonBody verb b) as [b'|]; [|apply lives_none].
  apply JsMap.get_elem in Eh. eapply lives_request; [exact Eh|apply lives_none].
Qed.
(** Whatever the page sends, the API goes through one of its histories. *)
Definition reaches (w0 : Api) (b : WebClient.Browser) : Prop := lives w0 (WebClient.server b).
Lemma reaches_api w0 path verb key body : preserves (reaches w0) (WebClient.apiWith path verb key body).
Proof.
  unfold WebClient.apiWith. apply preserves_bind; [|intros r; apply preserves_bind; [apply preserves_guard|intros ?; apply preserves_ret]].
  intros b Hb. unfold WebClient.call. set (v := orElse verb _).
  pose proof (answer_lives v path (truthyOpt key) (orElse body JNull) (WebClient.server b)) as Ha.
  cbn [WebClient.serve served ApiVault.apiServer]. destruct (ApiVault.answer token _ _ _ _ _) as [resp w']. cbn [snd] in *.
  unfold reaches. cbn [WebClient.server]. by eapply lives_trans.
Qed.
Lemma reaches_follow w0 n id shown : preserves (reaches w0) (WebClient.followJob n id shown).
Proof.
  revert shown. induction n as [|n IH]; intros shown; cbn [WebClient.followJob]; [apply preserves_ret|].
  apply preserves_bind; [apply reaches_api|]. intros j. cbv zeta. destruct (_ && _); [apply preserves_ret|].
  destruct (_ ==? _); [apply preserves_ret|]. apply preserves_bind; [by intros b|intros k; apply IH].
Qed.
(** A request that is answered with success has gone through its handler. *)
Lemma sent_state path key kvs b r b' name ps h : WebClient.apiWith path None key (Some (JObj kvs)) b = (Ok r, b') ->
  ApiVault.findRoute "POST" path = Some (name, ps) -> JsMap.get Api.routes name = Some h ->
  let req := mkRequest (ApiVault.bearer token ++ ApiVault.keyHeader (truthyOpt key)) ps [] (JObj kvs) in
  WebClient.server b' = (h req (WebClient.server b)).2 /\ WebClient.tick b' = WebClient.tick b + 1 /\
  WebClient.memory b' = WebClient.memory b /\
  exists resp, handle (h req) (WebClient.server b) = (resp, WebClient.server b') /\ content resp = r /\ respOk (code resp) = true.
Proof using checkoutRoutes.
  intros E Hr Hh req. unfold WebClient.apiWith, WebClient.call in E. bind_ok E as res b1 E1. bind_ok E as u b2 E2.
  apply guardM_Ok in E2 as [Hok ->]. apply ret_Ok in E as [-> ->]. cbn [orElse] in E1. cbn [WebClient.serve served ApiVault.apiServer] in E1.
  rewrite (ApiVault.answer_with token _ _ _ _ _ _ _ _ _ Hr Hh (body_sent kvs)) in E1. fold req in E1.
  pose proof (ApiVault.handle_state (h req) (WebClient.server b)) as Hs. destruct (handle (h req) (WebClient.server b)) as [resp w'] eqn:Eh.
  injection E1 as <- <-. cbn [snd fst WebClient.server WebClient.tick WebClient.memory] in *. split; [done|]. split; [done|]. split; [done|].
  by exists resp.
Qed.
Lemma sent_Ok path key kvs b r b' name ps h : WebClient.apiWith path None key (Some (JObj kvs)) b = (Ok r, b') ->
  ApiVault.findRoute "POST" path = Some (name, ps) -> JsMap.get Api.routes name = Some h ->
  (forall b, ApiVault.refuses (h (mkRequest (ApiVault.bearer token ++ ApiVault.keyHeader (truthyOpt key)) ps [] b))) ->
  exists resp, h (mkRequest (ApiVault.bearer token ++ ApiVault.keyHeader (truthyOpt key)) ps [] (JObj kvs)) (WebClient.server b) =
    (Ok resp, WebClient.server b') /\ content resp = r /\ respOk (code resp) = true.
Proof using checkoutRoutes.
  intros E Hr Hh Href. destruct (sent_state _ _ _ _ _ _ _ _ _ E Hr Hh) as (Hs & _ & _ & resp & Hresp & Hc & Hok).
  unfold handle in Hresp. destruct (h _ (WebClient.server b)) as [[resp'|e] w'] eqn:Eh; injection Hresp as <- <-.
  - by exists resp'.
  - exfalso. apply Href in Eh. cbn in Hok. by rewrite Hok in Eh.
Qed.
(** [sync-privy] touches no deposit and no job. *)
Lemma sync_table rows r : preserves (fun w => table (adb w) "cctp_deposits" = rows) (RoutesAccount.post_me_wallets_sync_privy r).
Proof.
  unfold RoutesAccount.post_me_wallets_sync_privy. apply preserves_bind; [by apply ApiVault.table_require|intros u].
  apply preserves_bind; [apply preserves_lift|intros b].
  assert (forall A (m : M DB A), preserves (fun d => table d "cctp_deposits" = rows) m ->
    preserves (fun w => table (adb w) "cctp_deposits" = rows) (onStore m)) as Hst by (intros A m; apply preserves_onStore).
  apply preserves_bind; [apply Hst; unfold Store.syncPrivyWallets, Store.syncPrivyWallet; keeps_table|intros n].
  apply preserves_bind; [apply Hst; unfold Store.logActivity; keeps_table|intros ?].
  apply preserves_bind; [apply Hst; unfold Store.listWallets; keeps_table|intros ws; apply preserves_ret].
Qed.
Lemma sync_queue q r : preserves (held (fun d => queueDB d = q)) (RoutesAccount.post_me_wallets_sync_privy r).
Proof. unfold RoutesAccount.post_me_wallets_sync_privy. route. Qed.

(** Nor does preparing a deposit queue one. *)
Lemma prepare_queue q r : preserves (held (fun d => queueDB d = q)) (RoutesVault.post_deposits_prepare r).
Proof. unfold RoutesVault.post_deposits_prepare, RoutesVault.depositGuards, idem. route. Qed.

(** ** The run of the page *)
#[local] Notation apiLives := (@lives env uuid zod keys apiFetch sha apiRandom wallets locale strkey poseidon apiRpc keypair nacl keygen).
Context {browserRandom : Random} (clockAt : Z -> Z).
(** The commitment drawn with the [k]-th call of the page, and the identifier
    the deposit gets. *)
Definition receipt (k : Z) : string :=
  NoteVault.buildNoteCommitment (NoteVault.generateNotePreimage (fun i => randomBytes (k + Z.of_nat i) 31)).
Definition depositIdOf (commitment : string) : string :=
  Ids.deterministicId (Ids.mkIdInput "udep" [WebClient.depositKey commitment; commitment]).
Lemma receipt_Ok amount7 b c b' : WebClient.privateReceipt clockAt amount7 b = (Ok c, b') ->
  c = receipt (WebClient.tick b) /\ WebClient.server b' = WebClient.server b.
Proof.
  unfold WebClient.privateReceipt, WebClient.nextTicks, WebClient.getMemoryVault, WebClient.nextTick. rewrite !bind_run. cbn.
  destruct (WebClient.memory b); cbn; by intros [= <- <-].
Qed.
Lemma same_server {A} (m : M WebClient.Browser A) b r b' : preserves (fun x => WebClient.server x = WebClient.server b) m ->
  m b = (r, b') -> WebClient.server b' = WebClient.server b.
Proof. intros Hm E. specialize (Hm b eq_refl). by rewrite E in Hm. Qed.
Lemma ask_Ok {A} (f : Z -> result A) b a b' : WebClient.ask f b = (Ok a, b') ->
  f (WebClient.tick b) = Ok a /\ WebClient.server b' = WebClient.server b.
Proof. unfold WebClient.ask. rewrite bind_run. unfold liftR. by intros [= -> <-]. Qed.
Lemma ask_server {A} w (f : Z -> result A) : preserves (fun x => WebClient.server x = w) (WebClient.ask f).
Proof. intros b Hb. unfold WebClient.ask. rewrite bind_run. exact Hb. Qed.
(** What the page did with the answer [prep] of the preparation. *)
Record burnt (evm : WebClient.EvmWallet) (prep : json) (args : list json) (A F k : Z) (h : string) : Prop := {
  bt_args : field (field prep "burn_tx_request") "args" = JArr args;
  bt_amount : BigInt (Cctp.stringOf (nth 0 args JNull)) = Ok A;
  bt_fee : BigInt (Cctp.stringOf (nth 5 args JNull)) = Ok F;
  bt_sent : WebClient.sendTransaction evm k (strField prep "token_messenger_address") (WebClient.encodeBurn evm A F args) = Ok h }.
Definition reportBody (evm : WebClient.EvmWallet) (h : string) : list (string * json) :=
  [("burn_tx_hash", JStr h); ("source_chain", JStr "arbitrum-sepolia"); ("source_wallet_address", JStr (WebClient.evmAddress evm))].
Lemma burn_Ok evm prep args b h b' : field (field prep "burn_tx_request") "args" = JArr args ->
  WebClient.burn evm (strField prep "token_messenger_address") args b = (Ok h, b') ->
  WebClient.server b' = WebClient.server b /\ exists A F k, burnt evm prep args A F k h.
Proof.
  intros Ha E. unfold WebClient.burn in E. lift_ok E as A EA. lift_ok E as F EF. bind_ok E as h' b1 Es. bind_ok E as u b2 Ew.
  apply ret_Ok in E as [-> ->]. apply ask_Ok in Es as [Es Hs1]. apply ask_Ok in Ew as [_ Hs2]. split; [congruence|].
  by exists A, F, (WebClient.tick b).
Qed.
Lemma checkout_Ok t evm vaultId amount6 amount7 b stage b' :
  WebClient.checkout clockAt (Some t) (Some evm) vaultId amount6 amount7 b = (Ok stage, b') ->
  exists r0 b1 b2 prep b3 args A F k h b4 sub b5,
    WebClient.apiWith "/v1/me/wallets/sync-privy" None None (Some (WebClient.syncBody evm)) b = (Ok r0, b1) /\
    let c := receipt (WebClient.tick b1) in
    WebClient.apiWith "/v1/deposits/prepare" None (Some (WebClient.depositKey c)) (Some (WebClient.prepareBody evm vaultId c amount6)) b2
      = (Ok prep, b3) /\ WebClient.server b2 = WebClient.server b1 /\
    burnt evm prep args A F k h /\
    WebClient.apiWith (reportPath (strField prep "deposit_id")) None None (Some (JObj (reportBody evm h))) b4 = (Ok sub, b5) /\
    WebClient.server b4 = WebClient.server b3 /\ apiLives (WebClient.server b5) (WebClient.server b').
Proof.
  intros E. unfold WebClient.checkout in E. bind_ok E as u0 b0 E0. apply guardM_Ok in E0 as [_ ->]. bind_ok E as r0 b1 E1.
  bind_ok E as c b2 E2. apply receipt_Ok in E2 as [-> Hs2]. bind_ok E as prep b3 E3. bind_ok E as u1 b4 E4. cbv zeta in E.
  bind_ok E as u2 b5 E5. bind_ok E as args b6 E6.
  assert (field (field prep "burn_tx_request") "args" = JArr args /\ b6 = b5) as [Ha ->]
    by (destruct (field (field prep "burn_tx_request") "args"); try done; by apply ret_Ok in E6 as [-> ->]).
  bind_ok E as h b7 E7. apply (burn_Ok _ _ _ _ _ _ Ha) in E7 as [Hs7 (A & F & k & Hb)]. bind_ok E as sub b8 E8.
  apply same_server in E4.
  2:{ unfold WebClient.ensureChain. apply preserves_bind; [apply preserves_catch; [apply ask_server|intros ?; apply preserves_throw]|intros ?].
      apply preserves_bind; [apply ask_server|intros ?; apply preserves_guard]. }
  apply same_server in E5.
  2:{ unfold WebClient.ensureAllowance. apply preserves_bind; [apply ask_server|intros a]. destruct (a <? amount6); [|apply preserves_ret].
      apply preserves_bind; [apply ask_server|intros ?; apply ask_server]. }
  exists r0, b1, b2, prep, b3, args, A, F, k, h, b7, sub, b8. split; [exact E1|]. cbv zeta. split; [exact E3|]. split; [done|]. split; [done|].
  split; [exact E8|]. split; [congruence|].
  pose proof (reaches_follow (WebClient.server b8) 40 (strField sub "job_id") WebClient.Relayer_validating b8 (lives_none _)) as Hl.
  rewrite E in Hl. exact Hl.
Qed.
(** The call that viem encodes from the page's arguments. *)
Definition encoded (A F : Z) (args : list json) : option Evm.Burn :=
  match args with
  | [_; JNum domain; JStr recipient; JStr usdc; JStr caller; _; JNum finality; JStr hook] =>
      Some (Evm.mkBurn A domain recipient usdc caller F finality hook)
  | _ => None
  end.
Lemma burnt_asked evm prep args A F k h id usdc messenger pool recipient hook amount6 :
  burnt evm prep args A F k h -> prep = RoutesVault.deposit_prepare_reply id usdc messenger pool recipient recipient hook amount6 ->
  exists bd, askedBurn prep = Some bd /\ encoded A F args = Some bd /\ Evm.b_amount bd = amount6 /\
    WebClient.sendTransaction evm k messenger (WebClient.encodeBurn evm A F args) = Ok h.
Proof.
  intros [Ha HA HF Hs] ->.
  change (field (field _ "burn_tx_request") "args") with
    (JArr [JStr (toString amount6); JNum Cctp.stellarDomain; JStr recipient; JStr usdc; JStr recipient;
           JStr (toString (RoutesVault.maxFeeOf amount6)); JNum Cctp.FINALITY_THRESHOLD_CONFIRMED; JStr hook]) in Ha.
  injection Ha as <-. cbn [nth Cctp.stringOf] in HA, HF. rewrite BigInt_toString in HA, HF. injection HA as <-. injection HF as <-.
  eexists. split; [|split; [reflexivity|split; [reflexivity|exact Hs]]]. unfold askedBurn.
  change (field (field _ "burn_tx_request") "args") with
    (JArr [JStr (toString amount6); JNum Cctp.stellarDomain; JStr recipient; JStr usdc; JStr recipient;
           JStr (toString (RoutesVault.maxFeeOf amount6)); JNum Cctp.FINALITY_THRESHOLD_CONFIRMED; JStr hook]).
  cbv iota beta. by rewrite !BigInt_toString.
Qed.
Context {texts : @Schemas.ZodTexts zod}.
(** The identifier and the amount of the answer are the page's. *)
Lemma prepared_page evm vaultId c amount6 ps w resp w' id amount recipient hook :
  prepared (mkRequest (ApiVault.bearer token ++ ApiVault.keyHeader (Some (WebClient.depositKey c))) ps []
    (WebClient.prepareBody evm vaultId c amount6)) w resp w' id amount recipient hook ->
  id = depositIdOf c /\ amount = amount6.
Proof using texts.
  intros [_ _ _ (b & key & Hb & Hk & Ha & ->) _]. unfold Schemas.parse in Hb, Hk.
  destruct (Schemas.zodParse Schemas.userDepositPrepareSchema _) as [b'|] eqn:Eb; [|done]. injection Hb as ->.
  destruct (Schemas.zodParse Schemas.idempotencyHeader _) as [k'|] eqn:Ek; [|done]. injection Hk as ->.
  edestruct (Schemas.zod_texts _ _ _ "amount_usdc_6dp" _ Eb ltac:(left)) as (a & Ha1 & Ha2).
  edestruct (Schemas.zod_texts _ _ _ "commitment" _ Eb ltac:(do 4 right; left)) as (c' & Hc1 & Hc2).
  edestruct (Schemas.zod_texts _ _ _ "idempotency-key" _ Ek ltac:(left)) as (x & Hx1 & Hx2).
  change (JStr (toString amount6) = JStr a) in Ha2. cbn in Hc2, Hx2. injection Ha2 as <-. injection Hc2 as <-. injection Hx2 as <-.
  unfold strField in *. rewrite Ha1 in Ha. rewrite Hc1, Hx1. cbn [textOf] in Ha. rewrite BigInt_toString in Ha. injection Ha as ->. done.
Qed.
Lemma reported_page evm h ps w resp w' : RoutesVault.post_burn_submitted (mkRequest (ApiVault.bearer token ++ ApiVault.keyHeader None) ps []
    (JObj (reportBody evm h))) w = (Ok resp, w') ->
  exists b, Schemas.parse Schemas.burnSubmittedSchema (JObj (reportBody evm h)) = Ok b /\ field b "burn_tx_hash" = JStr h /\
    field b "source_wallet_address" = JStr (WebClient.evmAddress evm).
Proof using texts.
  intros E. unfold RoutesVault.post_burn_submitted in E. bind_ok E as u w1 Eu. unfold parseM in E. lift_ok E as b Eb. exists b. split; [exact Eb|].
  unfold Schemas.parse in Eb. destruct (Schemas.zodParse _ _) as [b'|] eqn:Ez; [|done]. injection Eb as ->.
  edestruct (Schemas.zod_texts _ _ _ "burn_tx_hash" _ Ez ltac:(left)) as (x & Hx1 & Hx2).
  edestruct (Schemas.zod_texts _ _ _ "source_wallet_address" _ Ez ltac:(right; right; left)) as (y & Hy1 & Hy2).
  cbn in Hx2, Hy2. injection Hx2 as <-. injection Hy2 as <-. done.
Qed.
(** What a checkout that goes through leaves behind. *)
Record left_behind (evm : WebClient.EvmWallet) (amount6 : Z) (w0 w' : Api) (id : string) (bd : Evm.Burn) (h : string) (t : Ticket)
    (r : Request) (wp : Api) (resp : Response) (w1 : Api) (recipient hook : string) : Prop := {
  lb_prepared : prepared r wp resp w1 id amount6 recipient hook;
  lb_new : unknown wp id;
  lb_asked : askedBurn (content resp) = Some bd;
  lb_before : apiLives w0 wp;
  lb_step : apiLives wp w1;
  lb_after : apiLives w1 w';
  lb_ticket : t ∈ tickets (queueDB (adb w'));
  lb_reported : reported id h (WebClient.evmAddress evm) t }.
Lemma checkout_run t evm vaultId amount6 amount7 b stage b' :
  WebClient.checkout clockAt (Some t) (Some evm) vaultId amount6 amount7 b = (Ok stage, b') ->
  let id := depositIdOf (receipt (WebClient.tick b + 1)) in
  depositIdOk id = true -> unknown (WebClient.server b) id -> unreported (WebClient.server b) id ->
  exists args A F k messenger bd h tk r wp resp w1 recipient hook,
    encoded A F args = Some bd /\ Evm.b_amount bd = amount6 /\
    WebClient.sendTransaction evm k messenger (WebClient.encodeBurn evm A F args) = Ok h /\
    left_behind evm amount6 (WebClient.server b) (WebClient.server b') id bd h tk r wp resp w1 recipient hook.
Proof using checkoutRoutes texts.
  intros E id Hid Hnew Hun.
  destruct (checkout_Ok _ _ _ _ _ _ _ _ E) as (r0 & b1 & b2 & prep & b3 & args & A & F & k & h & b4 & sub & b5 & E1 & E3 & Hs2 & Hbt & E8 & Hs4 & Hl).
  destruct (sent_state _ _ _ _ _ _ _ _ _ E1 route_sync eq_refl) as (Hs1 & Ht1 & _ & _).
  rewrite Ht1 in E3. fold id in E3.
  assert (unknown (WebClient.server b2) id /\ unreported (WebClient.server b2) id) as [Hnew2 Hun2].
  { match type of Hs1 with _ = (_ ?rq ?w).2 => pose proof (sync_table _ rq w eq_refl) as Ht; pose proof (sync_queue _ rq w eq_refl) as Hq end.
    cbv beta in Ht. unfold held in Hq. unfold unknown, unreported. rewrite Hs2, Hs1. split; [by rewrite Ht|by rewrite Hq]. }
  destruct (sent_Ok _ _ _ _ _ _ _ _ _ E3 route_prepare eq_refl) as (resp & Ep & Hc & _); [intros ?; apply refuses_prepare|].
  destruct (prepare_prepared _ _ _ _ Ep) as (id' & amount & recipient & hook & Hp).
  pose proof (prepared_page _ _ _ _ _ _ _ _ _ _ _ _ Hp) as [-> ->]. fold id in Hp. pose proof (pp_reply _ _ _ _ _ _ _ _ Hp) as Hreply.
  rewrite Hc in Hreply. destruct (burnt_asked _ _ _ _ _ _ _ _ _ _ _ _ _ _ Hbt Hreply) as (bd & Hask & Henc & Ham & Hsent).
  assert (strField prep "deposit_id" = id) as Hpid by (by rewrite Hreply). rewrite Hpid in E8.
  destruct (sent_Ok _ _ _ _ _ _ _ _ _ E8 (route_report id Hid) eq_refl) as (resp' & Er & _ & Hok); [intros ?; apply refuses_report|].
  destruct (reported_page _ _ _ _ _ _ Er) as (bb & Hbb & Hbh & Hbw).
  destruct (report_queued _ _ _ _ _ _ _ Er Hok Hbb Hbh Hbw) as (tk & Htk & Hrep & _).
  { match type of Ep with _ ?rq ?w = _ => pose proof (prepare_queue (queueDB (adb w)) rq w eq_refl) as Hq end.
    rewrite Ep in Hq. unfold held in Hq. cbn [snd] in Hq. unfold unreported. rewrite Hs4, Hq. exact Hun2. }
  eexists args, A, F, k, _, bd, h, tk, _, (WebClient.server b2), resp, (WebClient.server b3), recipient, hook.
  split; [exact Henc|]. split; [exact Ham|]. split; [exact Hsent|]. split.
  - exact Hp.
  - exact Hnew2.
  - by rewrite Hc.
  - rewrite Hs2. pose proof (reaches_api (WebClient.server b) "/v1/me/wallets/sync-privy" None None (Some (WebClient.syncBody evm)) b (lives_none _)) as Hb.
    rewrite E1 in Hb. exact Hb.
  - apply (prepare_lives _ _ _ _ Ep).
  - rewrite <- Hs4. eapply lives_trans; [apply (report_lives _ _ _ _ Er)|exact Hl].
  - by apply (lives_ticket tk _ _ Hl).
  - exact Hrep.
Qed.
End Served.

(** ** From the click to the relayer *)
Section Click.
Context {env : Env} {uuid : Uuid} {zod : Schemas.Zod} {texts : @Schemas.ZodTexts zod} {keys : WebKeys} {apiFetch : Fetch} {sha : Sha256}
  {apiRandom : Random} {wallets : Wallets} {locale : Ids.LocaleCompare} {strkey : Cctp.StrKey} {poseidon : NoteCrypto.Poseidon}
  {apiRpc : StellarActions.SorobanRpc} {keypair : Keypair} {nacl : Nacl} {keygen : KeyGen}.
Context {fastify : ApiVault.Fastify} {checkoutRoutes : @CheckoutRoutes fastify} {browserRandom : Random}.
#[local] Notation apiLives := (@lives env uuid zod keys apiFetch sha apiRandom wallets locale strkey poseidon apiRpc keypair nacl keygen).
#[local] Notation api token := (@ApiVault.apiServer env uuid zod keys apiFetch sha apiRandom wallets locale strkey poseidon apiRpc keypair nacl
  keygen fastify token).
#[local] Notation checkout token := (@WebClient.checkout (api token) browserRandom sha).
#[local] Notation serverOf token b := (@WebClient.server (api token) b : Api).
Context {os : Host.Os} {relayerRandom : Random} {relayerFetch : Fetch} {evm : Evm.Evm} {relayerRpc : StellarActions.SorobanRpc}
  {leaves : Leaves.Tables} (processEnv : Host.EnvMap).

(** C9. The deposit page of apps/web, on the API.  If a checkout goes through,
    the identifier of its deposit being new, then the wallet was asked to burn
    the amount the user chose, in a call whose hash was reported; a job for it
    stays in the queue whatever requests and workers come later; and the
    relayer, configured like the API and shown that call by the chain, validates
    the burn, for that amount. *)
Theorem checkout_validated now c token clockAt wallet vaultId amount6 amount7 b stage b' w4 :
  apiLives (mkApi (emptyDB now) c) (serverOf token b) ->
  checkout token clockAt (Some token) (Some wallet) vaultId amount6 amount7 b = (Ok stage, b') ->
  let id := depositIdOf (@receipt sha browserRandom (WebClient.tick b + 1)) in
  depositIdOk id = true -> unknown (serverOf token b) id -> unreported (serverOf token b) id ->
  apiLives (serverOf token b') w4 ->
  exists k messenger A F args bd h j,
    WebClient.sendTransaction wallet k messenger (WebClient.encodeBurn wallet A F args) = Ok h /\ encoded A F args = Some bd /\
    Evm.b_amount bd = amount6 /\ j ∈ JobQueue.jobs (queueDB (adb w4)) /\
    forall job e pool secret W tx, ticketOf job = ticketOf j -> holding processEnv job e pool secret W -> deployed e pool ->
      shows e (Worker.net W) h (WebClient.evmAddress wallet) bd tx ->
      exists v, (Relayer.processRelayerJob processEnv job W).1 = Ok (validatedReply h v) /\
        CctpInbound.v_sender v = Evm.tx_from tx /\ CctpInbound.v_amount6 v = amount6.
Proof.
  intros L0 E id Hid Hnew Hun L4.
  destruct (checkout_run token clockAt _ _ _ _ _ _ _ _ E Hid Hnew Hun)
    as (args & A & F & k & messenger & bd & h & t & r & wp & resp & w1 & recipient & hook & Henc & Ham & Hsent & Hlb).
  destruct Hlb as [Hp Hn Hask Lb Ls La Ht Hrep]. apply (lives_ticket t _ _ L4) in Ht. pose proof Ht as Hin.
  apply list_elem_of_fmap in Hin as (j & -> & Hj). exists k, messenger, A, F, args, bd, h, j. split_and!; [done..|].
  intros job e pool secret W tx Hjt. rewrite <- Ham. pose proof (lives_trans _ _ _ La L4) as L14.
  apply (reported_accepted processEnv r wp resp w1 w4 (ticketOf j) id amount6 recipient hook h _ bd Hp Hn Hask L14); [|done..].
  apply (lives_sound _ _ L14), (lives_sound _ _ Ls), (lives_sound _ _ Lb), (lives_sound _ _ L0), sound_empty.
Qed.
End Click.

(** ** Witness: a checkout of 5 units into a verified vault *)
#[local] Existing Instances toyApiEnv toyUuid Schemas.strictZod toyKeys toyJwks CctpInbound.toySha ToyRuntime.toy_random RoutesAccount.toyWallets
  CctpInbound.toyStrKey ToyRuntime.toy_keypair Toy.toy_nacl ToyRuntime.toy_keygen toyLocale toyPoseidon toySoroban CctpInbound.toyKeccak
  CctpInbound.toyChain toyLeaves.
Definition depositRoute (verb path : string) : option (string * list (string * string)) :=
  let '(id, rest) := takeWhile depositIdChar (sliceFrom 13 path) in
  if (verb ==? "POST") && (rest ==? "/burn-submitted") then Some ("POST /v1/deposits/:deposit_id/burn-submitted", [("deposit_id", id)]) else None.
#[local] Instance toyRouter : ApiVault.Fastify := {|
  ApiVault.findRoute verb path :=
    if (verb ==? "POST") && (path ==? "/v1/me/wallets/sync-privy") then Some ("POST /v1/me/wallets/sync-privy", [])
    else if (verb ==? "POST") && (path ==? "/v1/deposits/prepare") then Some ("POST /v1/deposits/prepare", [])
    else if startsWith path "/v1/jobs/" then Some ("GET /v1/jobs/:job_id", [("job_id", sliceFrom 9 path)])
    else depositRoute verb path;
  ApiVault.jsonBody _ b := Ok b |}.
Lemma toyRouter_routes : @CheckoutRoutes toyRouter.
Proof.
  split; [reflexivity|reflexivity| |reflexivity]. intros id [_ Hid]%andb_true_iff. unfold reportPath. cbn [ApiVault.findRoute toyRouter].
  rewrite (bool_decide_false (_ = "/v1/me/wallets/sync-privy")) by (intros Hx; cbn in Hx; discriminate Hx).
  rewrite (bool_decide_false (_ = "/v1/deposits/prepare")) by
    (intros Hx; apply (f_equal String.length) in Hx; rewrite !length_append in Hx; cbn in Hx; lia).
  rewrite !andb_false_r.
  change (startsWith ("/v1/deposits/" +:+ id +:+ "/burn-submitted") "/v1/jobs/") with false. cbv iota. unfold depositRoute.
  change (sliceFrom 13 _) with (id +:+ "/burn-submitted"). by rewrite (Json.takeWhile_all depositIdChar id "/burn-submitted" Hid).
Qed.
(** The burn the toy chain decodes, and a wallet that encodes and signs no
    other. *)
Definition toyDeal : Evm.Burn := Evm.mkBurn 5 27 ("0x" +:+ Crypto.hexEncode Cctp.stellarCctpForwarder) Cctp.arbitrumSepoliaUsdc
  ("0x" +:+ Crypto.hexEncode Cctp.stellarCctpForwarder) (RoutesVault.maxFeeOf 5) 1000
  (match Cctp.encodeStellarForwardHook "CPOOL" with Ok h => h | Throw _ => "" end).
Definition toyEvm : WebClient.EvmWallet :=
  WebClient.mkEvmWallet "0xuser" false (fun _ => Ok tt) (fun _ => Ok WebClient.arbitrumSepoliaId) (fun _ _ _ _ => Ok 0)
    (fun _ _ data => if data ==? "0xother" then Throw (Error None "rejected") else Ok "0xburn") (fun _ _ => Ok tt) (fun _ _ => "0xapprove")
    (fun A F args => if bool_decide (encoded A F args = Some toyDeal) then "0xdata" else "0xother").
Definition toyVaultReady : Api := afterAll
  [("POST /v1/note-vaults", RoutesVault.post_note_vaults, toyVault);
   ("POST /v1/note-vaults/:vault_id/verify-backup", RoutesVault.post_verify_backup, toyVerify)] toyStart.
#[local] Instance toyServed : WebClient.Server := ApiVault.apiServer toyToken.
Definition toyBrowser : WebClient.Browser := WebClient.mkBrowser None ∅ [] None toyVaultReady 0.
Definition toyCheckout := WebClient.checkout (fun _ => 0) (Some toyToken) (Some toyEvm) "v1" 5 50 toyBrowser.
Definition toyClicked : Api := WebClient.server toyCheckout.2.
Definition toyClickJob : JobQueue.ServiceJob := nth 0 (JobQueue.jobs (queueDB (adb toyClicked))) toyJob.
Definition toyClickWorker : Worker.Worker := Worker.mkWorker (queueDB (adb toyClicked)) (Evm.mkNet (Host.mkHost ∅ 0) []).
Lemma toy_ready : @lives toyApiEnv toyUuid Schemas.strictZod toyKeys toyJwks CctpInbound.toySha ToyRuntime.toy_random RoutesAccount.toyWallets
  toyLocale CctpInbound.toyStrKey toyPoseidon toySoroban ToyRuntime.toy_keypair Toy.toy_nacl ToyRuntime.toy_keygen toyStart toyVaultReady.
Proof.
  apply (lives_request _ _ _ toyVault _ (list_elem_of_lookup_2 Api.routes 37 _ eq_refl)).
  apply (lives_request _ _ _ toyVerify _ (list_elem_of_lookup_2 Api.routes 41 _ eq_refl)). exact (lives_none toyVaultReady).
Qed.
Lemma toy_clicked : toyCheckout = (Ok WebClient.Relayer_validating, toyCheckout.2).
Proof. rewrite (surjective_pairing toyCheckout) at 1. by f_equal. Qed.
Lemma checkout_validated_witness : exists v,
  (Relayer.processRelayerJob toyProcess toyClickJob toyClickWorker).1 = Ok (validatedReply "0xburn" v) /\ CctpInbound.v_amount6 v = 5.
Proof.
  destruct (checkout_validated (texts := Schemas.strictZod_texts) (checkoutRoutes := toyRouter_routes) toyProcess 5000 (mkCache None [])
    toyToken (fun _ => 0) toyEvm "v1" 5 50 toyBrowser WebClient.Relayer_validating toyCheckout.2 toyClicked)
    as (k & messenger & A & F & args & bd & h & j & Hsent & Henc & _ & Hj & Hrun).
  - exact toy_ready.
  - exact toy_clicked.
  - vm_compute. reflexivity.
  - assert (table (adb toyVaultReady) "cctp_deposits" = []) as Et by (vm_compute; reflexivity).
    intros dep Hd. change (dep ∈ table (adb toyVaultReady) "cctp_deposits") in Hd. rewrite Et in Hd. exfalso.
    exact (proj1 (elem_of_nil dep) Hd).
  - assert (JobQueue.jobs (queueDB (adb toyVaultReady)) = []) as Eq by (vm_compute; reflexivity).
    intros x Hx. change (x ∈ JobQueue.jobs (queueDB (adb toyVaultReady))) in Hx. rewrite Eq in Hx. exfalso.
    exact (proj1 (elem_of_nil x) Hx).
  - exact (lives_none toyClicked).
  - cbn [WebClient.sendTransaction WebClient.encodeBurn toyEvm] in Hsent. rewrite Henc in Hsent.
    destruct (decide (bd = toyDeal)) as [->|Hne].
    2:{ rewrite (bool_decide_false (Some bd = Some toyDeal)) in Hsent by congruence. discriminate Hsent. }
    rewrite (bool_decide_true (Some toyDeal = Some toyDeal)) in Hsent by done. injection Hsent as <-.
    assert (JobQueue.jobs (queueDB (adb toyClicked)) = [toyClickJob]) as Eq by (vm_compute; reflexivity).
    rewrite Eq in Hj. apply list_elem_of_singleton in Hj as ->.
    destruct (Hrun toyClickJob toyProcess "CPOOL" "SRELAYER" toyClickWorker DepositRun.toyTx eq_refl) as (v & Hv & _ & Ha).
    + split; vm_compute; reflexivity.
    + split; vm_compute; reflexivity.
    + split; [vm_compute; reflexivity|vm_compute; reflexivity| |vm_compute; reflexivity|vm_compute; reflexivity].
      exists toyDeal. split; [vm_compute; reflexivity|by split].
    + exists v. by split.
Defined.
End Checkout.
